(* ===== verification/_CoqProject ===== *)
-Q . S2P
Prelude.v
GoStrings.v
GoTime.v
GoFloat.v
GoCrypto.v
GoRunes.v
GoJson.v
GoHttp.v
GoParse.v
GoOs.v
GoJsonRead.v
GoFloatRead.v
Types.v
World.v
GoTimeRead.v
Instances.v
Storage.v
AuditLog.v
Bus.v
Auth.v
Mfa.v
WebauthnTest.v
Orchestrator.v
Discovery.v
Risk.v
Policy.v
Inventory.v
Api.v
Okta.v
OktaState.v
OktaDecode.v
OktaPoller.v
OktaRestart.v
OktaRedact.v
OktaClient.v
Sdk.v
Pam.v
DcAgent.v
DcWindows.v
AdResponse.v
Config.v
OktaConfig.v
OktaMain.v
Server.v
Daemon.v
EndToEnd.v
Cli.v
Simulator.v
