(* ===== verification/Prelude.v ===== *)
(** * A verification library for OIAF, the Open Identity Access Firewall

    ** The program

    OIAF (Go, under src/) is a control plane, the daemon [oiafd], that decides
    access requests, and a set of adapters that feed it and act on its answers.
    The control plane is under src/core/internal:

    - [api] decodes HTTP requests, authenticates them ([auth]) and calls the
      services below; an access evaluation combines a risk score ([risk]), a
      policy decision ([policy]) and, where one of them asks for it, a
      multi-factor challenge ([challenge], which uses the factors of [mfa]);
    - [discovery] profiles accounts from Active Directory logon events and
      denies service accounts that leave their baseline; [inventory] reconciles
      the identity store with a directory;
    - every decision is recorded in a hash-chained log ([audit]) and, if there
      are subscribers, published as a hash-chained event ([bus]);
    - all state is in one in-memory store ([storage]) of the types of [types].

    [config] reads the daemon's settings, [server] and [middleware] put the HTTP
    stack together, and cmd/oiafd starts it all.

    The adapters (src/adapters) are processes of their own. [okta] polls Okta's
    System Log from a persisted cursor, derives risk signals from each event with
    a memory per identity, and hands them to the control plane. [pam] asks it
    about a login and ends with a PAM exit code. [dc-agent] batches a domain
    controller's logon events; [ad-response] acts on decisions in the directory.
    tools/adapter-sdk is their HTTP client; cli/oiafctl and tools/simulator are
    command-line clients.

    ** How it is modelled

    One file per package, one [Definition] or [Fixpoint] per Go function,
    statement by statement and with the names of the source (a Go method
    [List] is [List_]). Code that touches the process is state-passing code in
    the monad [M] over [World] (file World): the memory store, the event
    emitter, the WebAuthn sessions and a counter of the questions asked to the
    environment. [(T, error)] is [result T]; where a function returns a value
    and an error together it is a pair. A pointer that the store hands out is
    the stored object ([assign] of file Storage), because the code relies on
    that aliasing. Integers wrap at 64 bits where the code counts; floats are
    IEEE binary64; strings are bytes; SHA-256, HMAC, JSON printing, RFC 3339
    printing and the [strings] and [strconv] functions are computed, so the
    model runs and its hashes are the program's.

    What the Go runtime is free to choose (clock, randomness, the order of a
    map walk, the placement of ties by [sort.Slice]) and tables of the standard
    library (Unicode case, RE2, [math.Log2], parsing of RFC 3339 times and of
    URLs) are the parameters [Env] with the laws [EnvOk]; the third-party
    packages (bcrypt, otp, uuid, go-webauthn, go-ldap) are [Lib] with the laws
    [LibOk]. The theorems hold for all of them. File Instances has concrete ones
    that satisfy the laws; the witnesses of the theorems run on these.

    A client process is state-passing code over [Proc] (file GoHttp): its own
    state, a counter of the questions it asked, and the requests it has sent, in
    order; the outside world of such a process (answers to requests, URL parsing,
    files, terminals) is the class [Net]. A handler of the HTTP server runs over a
    response writer and the world, and returns or panics (file Server). The disk
    the Okta adapter writes to is a map of files that every system call may fail
    on or that may stop for good before any of them (class [OS], file GoOs).
    Goroutines are labelled steps of a shared state, in any order (file DcWindows,
    [emit_step] of AuditLog).

    ** Files

    - Prelude: results, state passing, 64-bit integers, tactics, hints.
    - GoStrings, GoTime, GoFloat, GoCrypto, GoRunes, GoJson, GoHttp, GoParse, GoOs:
      the parts of Go's standard library the sources use, each with test vectors.
    - GoJsonRead, GoFloatRead, GoTimeRead: reading JSON, numbers and times from
      their text, with the facts that relate reading to printing.
    - Types: src/core/internal/types. World: the process state and its
      parameters. Instances: concrete parameters.
    - Storage: src/core/internal/storage; a sub-store is an instance of the
      class [Table], with laws [TableOk], and its clients are proved against
      that interface.
    - AuditLog: src/core/internal/audit and the audit sub-store.
    - Bus, Auth, Mfa, Discovery, Risk, Policy, Inventory: the packages of that
      name. Orchestrator: src/core/internal/challenge. Api: src/core/internal/api.
      WebauthnTest: src/core/internal/webauthntest, and a relying party.
    - Okta: events, memory and signals of src/adapters/okta (client.go's types,
      state.go, signals.go), in the monad [OM] over [Adapter]. OktaState: the state
      file (state.go). OktaDecode: decoding of events (client.go, fixture.go).
      OktaPoller: sources, sinks and poll loop (fixture.go, sink.go, poller.go),
      where a source and a sink are instances of the classes [EventSource] and
      [Sink]. OktaRestart: lives of the adapter across crashes and restarts.
      OktaRedact: redaction of the API token in texts and log records
      (credential.go, logredact.go, parts of client.go). OktaClient: pagination,
      retries and link checks of client.go. OktaConfig: config.go, and from the
      configuration to the client. OktaMain: main.go.
    - Sdk: src/tools/adapter-sdk. Pam: src/adapters/pam. DcAgent:
      src/adapters/dc-agent, and DcWindows: its event source, the agent's
      goroutines and the Windows service. AdResponse: src/adapters/ad-response.
    - Config: src/core/internal/config. Server: src/core/internal/server and
      middleware. Daemon: src/core/cmd/oiafd and logging, and runs of the daemon.
      EndToEnd: the evaluation endpoint on the wire, from a login at a host or a
      signal of the Okta adapter to the decision and back.
    - Cli: src/cli/oiafctl. Simulator: src/tools/simulator.

    ** What is proved

    - Api: an evaluation answers with the decision that risk and policy
      determine, stores a challenge exactly when it says so and logs what it
      answered; a denial is final; no route acts without an accepted token; no
      route removes or alters a log record or touches an API token.
    - Orchestrator: the service refines a state machine of challenges (step
      relation [ch_step]); resolved challenges are final, guesses are bounded,
      an approval needs a live challenge and the evidence its method demands,
      and a correct code is approved.
    - Policy: evaluation of condition documents terminates (the nesting depth
      is enough fuel) and implements the Boolean meaning of the condition
      language; the decision is that of an applicable policy whose effect comes
      first in the order deny, challenge, alert, allow; deny overrides, the outcome does not depend on map order or ties, and
      without a policy everything but low sensitivity is denied.
    - AuditLog: emitting extends a valid chain, also when emitters interleave
      (step relation [emit_step]); [Verify] finds the first broken record; the
      last hash determines the log up to a SHA-256 collision.
    - Auth: a validated token is stored, unrevoked, unexpired and matches;
      registered tokens validate; revoked ones never do.
    - Risk: the engine equals a table of rules, is bounded and monotone.
    - Discovery: counters add up, decisions are exactly the deviations from a
      baseline, a baseline is what the profile saw often enough, and
      classification is final.
    - Mfa: activation needs a valid code, push approvals are exactly the signed
      ones in the window and round-trip with the device's signature, identity
      ceremonies are single use.
    - Inventory: FILETIME conversion is exact and does not overflow, privilege
      detection is characterised, the summary counts right, and a scan
      reconciles the store without losing or mixing up identities.
    - Bus: the canonical writer agrees with encoding/json, digests do not
      depend on member order, emissions form one chain.

    - Okta: the fatigue signal is raised exactly when the failures in the
      window reach the threshold, although few are remembered.
    - OktaPoller: a cycle delivers, in order, the signals of a prefix of what
      it fetched (relation [delivers]); a delivered event is not delivered again
      while it is among the 4096 remembered ones ([survives]); the memory stays
      bounded and its index exact.
    - OktaMain: polling a tenant that pages its log, what a cycle did not deliver
      is within what the next query asks for.
    - OktaState, OktaRestart, OktaMain: a saved state loads as it was; a save that
      fails or is cut off anywhere leaves the old state file or the new one, whole
      and private; over any sequence of starts, cycles, exits and crashes no event
      of the log is lost; the program's [run] is such a life.
    - OktaDecode, GoJsonRead, GoFloatRead, GoTimeRead: no debug data fails a page;
      what the sources marshal is read back unchanged, floats and times included;
      a decoded document is well formed.

    - OktaRedact, OktaClient, OktaConfig: redaction hides, for tokens of
      Okta's shape, exactly the runs of the token's characters that leave fewer
      than 12 of them unknown; log records, and errors but for one that quotes the
      URL it could not use, show no such run; pagination stays with the
      tenant over TLS, returns every page a well-behaved server links, retries at
      most five times and only what may be transient; every accepted
      configuration is within bounds.
    - Sdk, Pam: the two truncations at a rune boundary agree; a call returns the
      body of a 2xx answer and an error otherwise; the helper lets a user in only
      on an answer that warrants it, or when configured to fail open.
    - DcAgent, DcWindows: batches are bounded, each is posted once, and with what is
      dropped, pending and on the way they are the events read from the log, in any
      interleaving; nothing is dropped before the cancellation; a stop ends the
      service and closes the log's handle if one is open. AdResponse: an action
      makes the one modification it stands for, and only for a denial or a
      challenge outside a dry run.
    - Config, Server, Daemon: the environment settles the configuration; the mux
      finds the endpoint of every pattern; every request is answered, with the
      request id and two security headers, also when a handler panics; without a
      token nothing changes; and for the whole life of a daemon its administrator's
      and its adapter's token stay valid, its log stays a valid chain, and its
      administrator is served.
    - EndToEnd: the server decodes the requests of the PAM helper and of the Okta
      adapter to what they say, and a login ends as risk and policy decide.
    - WebauthnTest: a relying party accepts the authenticator's assertions exactly
      when user verification and the counter allow.
    - Cli, Simulator: the requests of the client are those its usage names, routed to
      their endpoints by the server, and success is reported only for a 2xx.

    A few theorems record behaviour that looks unintended: an unknown policy
    effect can shadow a deny, a foreign device can approve a push challenge, an
    adapter's token is not accepted, a policy test ignores the policy, and
    others, each marked in its file.

    ** Bounds

    [runes] takes the number of bytes as fuel and is proved to cover the input;
    [ParseDuration] takes the length of its text, of which every round consumes a
    unit; [evaluateConditions] takes the nesting depth; [Run] of OktaPoller takes
    the number of poll cycles; [fetch_pages] takes the page cap and
    [fetch_attempts] the five attempts, as the code does. Reading JSON is bounded by
    the nesting depth of 10000 that encoding/json allows, and within a level by the
    length of the text; [CreateTemp] tries 10000 names, as package os does.
    Counting theorems assume fewer than 2^63 events or records. There are no other
    bounds.

    ** Not modelled

    Decoding of XML, of YAML and of the bodies of the API's other endpoints into
    structs (inputs of the models), HTTP transport, texts written to logs and to
    standard error, operating-system signals, the user interface, the OPA stub and
    the adapter stubs that only print a line. The disk has no symbolic links and
    keeps what was written (a loss of power is not modelled). Outside audit
    emission and the domain-controller agent calls run one after the other, and
    data races are not modelled. *)

From stdpp Require Export base tactics list gmap fin_maps strings pretty sorting.
From Stdlib Require Export ZArith Lia.

#[export] Set Warnings "-register-all".

Declare Scope oiaf_scope.
Delimit Scope oiaf_scope with oiaf.
#[global] Open Scope oiaf_scope.
#[global] Open Scope string_scope.
#[global] Open Scope list_scope.
#[global] Open Scope Z_scope.

(** ** Go's [(T, error)] returns

    An error is its message, the text [err.Error()] gives. *)
Inductive result (A : Type) : Type :=
| Ok (a : A)
| Err (e : string).
Arguments Ok {A} a.
Arguments Err {A} e.

Definition is_ok {A} (r : result A) : bool :=
  match r with Ok _ => true | Err _ => false end.

#[global] Instance result_eq_dec {A} `{EqDecision A} : EqDecision (result A).
Proof. solve_decision. Defined.

#[global] Instance result_ret : MRet result := fun A a => Ok a.
#[global] Instance result_bind : MBind result := fun A B f r =>
  match r with Ok a => f a | Err e => Err e end.

(** ** State passing

    [ST S A]: code that reads and writes the process state [S] and returns an
    [A]; Go's sequential statements are its binds. *)
Definition ST (S A : Type) : Type := S -> A * S.

#[global] Instance st_ret {S} : MRet (ST S) := fun A a s => (a, s).
#[global] Instance st_bind {S} : MBind (ST S) := fun A B f m s =>
  let '(a, s') := m s in f a s'.

(** [x ←? m; k] is [x, err := m; if err != nil { return err }; k]. *)
Definition st_try {S A B} (m : ST S (result A)) (k : A -> ST S (result B)) : ST S (result B) :=
  fun s => let '(r, s') := m s in
           match r with Ok a => k a s' | Err e => (Err e, s') end.

Notation "x '←?' m ; k" := (st_try m (fun x => k))
  (at level 20, m at level 100, k at level 200, right associativity) : oiaf_scope.

(** ** 64-bit integers *)
Definition two63 : Z := 9223372036854775808.
Definition two64 : Z := 18446744073709551616.

(** Go's [int] (and [time.Duration]) wraps around at 64 bits. *)
Definition int64 (z : Z) : Z := (z + two63) mod two64 - two63.

Definition in_int64 (z : Z) : Prop := - two63 <= z < two63.

(** ** The development's tactics *)

(** Case analysis on the scrutinee of a [match] or [if] of the goal. *)
Ltac split_match :=
  match goal with
  | |- context [match ?x with _ => _ end] => destruct x eqn:?
  end.

(** The same, in a hypothesis. *)
Ltac split_match_in H :=
  match type of H with
  | context [match ?x with _ => _ end] => destruct x eqn:?
  end.

(** Run a hypothesis that evaluates a piece of state-passing code. *)
Ltac st_unfold :=
  unfold mbind, mret, st_bind, st_ret, st_try in *; cbn beta iota zeta in *.


(** ** Hint databases *)
Create HintDb oiaf discriminated.

(** ** Generic lemmas *)
Lemma int64_id (z : Z) : in_int64 z -> int64 z = z.
Proof.
  unfold in_int64, int64, two63, two64. intros H.
  rewrite Z.mod_small; lia.
Qed.

Lemma int64_range (z : Z) : in_int64 (int64 z).
Proof.
  unfold in_int64, int64, two63, two64.
  pose proof (Z.mod_pos_bound (z + 9223372036854775808) 18446744073709551616). lia.
Qed.

#[export] Hint Resolve int64_range : oiaf.

Lemma st_try_ok {S A B} (m : ST S (result A)) (k : A -> ST S (result B)) s a s' :
  m s = (Ok a, s') -> st_try m k s = k a s'.
Proof. intros H. unfold st_try. by rewrite H. Qed.

Lemma st_try_err {S A B} (m : ST S (result A)) (k : A -> ST S (result B)) s e s' :
  m s = (Err e, s') -> st_try m k s = (Err e, s').
Proof. intros H. unfold st_try. by rewrite H. Qed.
