(* ===== verification/GoStrings.v ===== *)
(** * Go strings

    A Go [string] is a byte sequence; here it is a [string] of [ascii] bytes.
    The functions of package [strings] the sources use, and the byte/rune
    conversions of [unicode/utf8] that they and [encoding/json] rely on. *)

From S2P Require Import Prelude.
From Stdlib Require Import Ascii.
From Stdlib Require String.

(** ** Bytes *)
Definition byte_of (c : ascii) : Z := Z.of_N (N_of_ascii c).
Definition ascii_of (z : Z) : ascii := ascii_of_N (Z.to_N z).
Definition bytes (s : string) : list Z := byte_of <$> String.list_ascii_of_string s.
Definition of_bytes (l : list Z) : string := String.string_of_list_ascii (ascii_of <$> l).

(** The one-character string holding a double quote. *)
Definition dquote : string := String (ascii_of 34) "".
Definition backslash : string := String (ascii_of 92) "".

(** ** Package [strings] *)

Definition HasPrefix (s prefix : string) : bool := String.prefix prefix s.

Fixpoint drop_bytes (n : nat) (s : string) : string :=
  match n, s with
  | O, _ => s
  | S n', String _ s' => drop_bytes n' s'
  | S _, EmptyString => EmptyString
  end.

(** [strings.TrimPrefix]. *)
Definition TrimPrefix (s prefix : string) : string :=
  if HasPrefix s prefix then drop_bytes (String.length prefix) s else s.

(** [strings.Contains]: the empty substring occurs in every string. *)
Fixpoint Contains (s sub : string) : bool :=
  HasPrefix s sub ||
  match s with
  | EmptyString => false
  | String _ s' => Contains s' sub
  end.

(** [strings.Split] on a one-byte separator: always at least one part. *)
Fixpoint Split (sep : ascii) (s : string) : list string :=
  match s with
  | EmptyString => [EmptyString]
  | String c s' =>
      if Ascii.eqb c sep then EmptyString :: Split sep s'
      else match Split sep s' with
           | [] => [String c EmptyString]
           | p :: ps => String c p :: ps
           end
  end.

(** [strconv.Atoi]: an optional sign and decimal digits, within 64 bits;
    [None] when it reports an error. *)
Fixpoint digits (acc : Z) (s : string) : option Z :=
  match s with
  | EmptyString => Some acc
  | String c s' => if (48 <=? byte_of c) && (byte_of c <=? 57)
                   then digits (acc * 10 + (byte_of c - 48)) s' else None
  end.

Definition Atoi (s : string) : option Z :=
  let '(neg, ds) := match s with
                    | String c s' => if byte_of c =? 45 then (true, s')
                                     else if byte_of c =? 43 then (false, s') else (false, s)
                    | EmptyString => (false, s)
                    end in
  match ds with
  | EmptyString => None
  | _ => match digits 0 ds with
         | Some n => let z := if neg then - n else n in
                     if (- two63 <=? z) && (z <? two63) then Some z else None
         | None => None
         end
  end.

(** [strconv.ParseInt(s, 10, 64)], as [strconv.Atoi] calls it too: the value
    and whether the error is nil. The value counts even when the caller drops
    the error: 0 on a syntax error, the nearest 64-bit integer on overflow. *)
Inductive parsed := PSyntax | PRange | PValue (n : Z).

Definition is_digit (b : Z) : bool := (48 <=? b) && (b <=? 57).

(** The loop of [ParseUint]: a digit that no longer fits ends it. *)
Fixpoint parseUint (n : Z) (s : string) : parsed :=
  match s with
  | EmptyString => PValue n
  | String c s' =>
      if negb (is_digit (byte_of c)) then PSyntax
      else if 1844674407370955162 <=? n then PRange
      else let n1 := n * 10 + (byte_of c - 48) in
           if two64 - 1 <? n1 then PRange else parseUint n1 s'
  end.

Definition ParseInt (s : string) : Z * bool :=
  let '(neg, ds) := match s with
                    | String c s' => if byte_of c =? 43 then (false, s')
                                     else if byte_of c =? 45 then (true, s') else (false, s)
                    | EmptyString => (false, s)
                    end in
  match ds with
  | EmptyString => (0, false)
  | _ =>
      let un := match parseUint 0 ds with PValue n => Some n | PRange => Some (two64 - 1) | PSyntax => None end in
      match un with
      | None => (0, false)
      | Some un =>
          if negb neg && (two63 <=? un) then (two63 - 1, false)
          else if neg && (two63 <? un) then (- two63, false)
          else (if neg then - un else un, true)
      end
  end.

(** [s[:n]] and [s[n:]] are [take_bytes n s] and [drop_bytes n s]. *)
Fixpoint take_bytes (n : nat) (s : string) : string :=
  match n, s with
  | S n', String c s' => String c (take_bytes n' s')
  | _, _ => EmptyString
  end.

(** [strings.LastIndex] of a one-byte separator; -1 when it does not occur. *)
Fixpoint LastIndex (s : string) (sep : ascii) : Z :=
  match s with
  | EmptyString => -1
  | String c s' => let i := LastIndex s' sep in
                   if 0 <=? i then i + 1 else if Ascii.eqb c sep then 0 else -1
  end.

(** [strings.TrimLeft] with a cutset of ASCII characters. *)
Fixpoint TrimLeft (s : string) (cut : Z -> bool) : string :=
  match s with
  | EmptyString => EmptyString
  | String c s' => if cut (byte_of c) then TrimLeft s' cut else s
  end.

Definition FormatBool (b : bool) : string := if b then "true" else "false".

(** Join, the reference against which [Split] is checked. *)
Fixpoint Join (sep : string) (l : list string) : string :=
  match l with
  | [] => ""
  | [s] => s
  | s :: l' => s +:+ sep +:+ Join sep l'
  end.

(** ** Package [unicode/utf8] *)

Definition RuneError : Z := 65533.

(** The continuation bytes [b1 ..] of a sequence, after the lead byte [b0];
    [lo], [hi] bound the first continuation byte. *)
Definition cont (b : Z) : bool := (128 <=? b) && (b <=? 191).

(** [utf8.DecodeRune]: the first rune and its width; [(RuneError, 1)] on an
    invalid sequence, [(RuneError, 0)] on the empty string. *)
Definition DecodeRune (l : list Z) : Z * nat :=
  match l with
  | [] => (RuneError, 0%nat)
  | b0 :: l1 =>
      if b0 <? 128 then (b0, 1%nat)
      else if (194 <=? b0) && (b0 <=? 223) then
        match l1 with
        | b1 :: _ => if cont b1 then ((b0 - 192) * 64 + (b1 - 128), 2%nat)
                     else (RuneError, 1%nat)
        | [] => (RuneError, 1%nat)
        end
      else if (224 <=? b0) && (b0 <=? 239) then
        match l1 with
        | b1 :: b2 :: _ =>
            let lo := if b0 =? 224 then 160 else 128 in
            let hi := if b0 =? 237 then 159 else 191 in
            if (lo <=? b1) && (b1 <=? hi) && cont b2
            then ((b0 - 224) * 4096 + (b1 - 128) * 64 + (b2 - 128), 3%nat)
            else (RuneError, 1%nat)
        | _ => (RuneError, 1%nat)
        end
      else if (240 <=? b0) && (b0 <=? 244) then
        match l1 with
        | b1 :: b2 :: b3 :: _ =>
            let lo := if b0 =? 240 then 144 else 128 in
            let hi := if b0 =? 244 then 143 else 191 in
            if (lo <=? b1) && (b1 <=? hi) && cont b2 && cont b3
            then ((b0 - 240) * 262144 + (b1 - 128) * 4096 + (b2 - 128) * 64 + (b3 - 128), 4%nat)
            else (RuneError, 1%nat)
        | _ => (RuneError, 1%nat)
        end
      else (RuneError, 1%nat)
  end.

(** [utf8.AppendRune]: surrogates and out-of-range values encode [RuneError]. *)
Definition EncodeRune (r : Z) : list Z :=
  let r := if (r <? 0) || (1114111 <? r) || ((55296 <=? r) && (r <=? 57343))
           then RuneError else r in
  if r <? 128 then [r]
  else if r <? 2048 then [192 + r / 64; 128 + r mod 64]
  else if r <? 65536 then [224 + r / 4096; 128 + (r / 64) mod 64; 128 + r mod 64]
  else [240 + r / 262144; 128 + (r / 4096) mod 64; 128 + (r / 64) mod 64; 128 + r mod 64].

(** [for _, r := range s]: the runes of a byte sequence, with their widths.
    [fuel] bounds the number of runes; the number of bytes is enough. *)
Fixpoint runes_fuel (fuel : nat) (l : list Z) : list (Z * nat) :=
  match fuel with
  | O => []
  | S fuel' =>
      match l with
      | [] => []
      | _ => let '(r, w) := DecodeRune l in (r, w) :: runes_fuel fuel' (drop w l)
      end
  end.

Definition runes (l : list Z) : list (Z * nat) := runes_fuel (length l) l.

(** The runes with the bytes they were read from. *)
Fixpoint chunks (rs : list (Z * nat)) (l : list Z) : list (Z * list Z) :=
  match rs with
  | [] => []
  | (r, w) :: rs' => (r, take w l) :: chunks rs' (drop w l)
  end.

Fixpoint drop_while {A} (p : A -> bool) (l : list A) : list A :=
  match l with
  | [] => []
  | x :: l' => if p x then drop_while p l' else l
  end.

(** [unicode.IsSpace]. *)
Definition IsSpace (r : Z) : bool :=
  ((9 <=? r) && (r <=? 13)) || (r =? 32) || (r =? 133) || (r =? 160) || (r =? 5760)
  || ((8192 <=? r) && (r <=? 8202)) || (r =? 8232) || (r =? 8233) || (r =? 8239) || (r =? 8287)
  || (r =? 12288).

(** [strings.TrimSpace]: white space is dropped, rune by rune, at both ends. *)
Definition TrimSpace (s : string) : string :=
  let space c := IsSpace c.1 in
  let cs := drop_while space (chunks (runes (bytes s)) (bytes s)) in
  of_bytes (concat (reverse (drop_while space (reverse cs))).*2).

(** [strings.EqualFold(s, t)] for an ASCII [t]: the Kelvin sign and the long s
    are the non-ASCII runes that fold to a letter of [t]. *)
Definition fold_rune (r : Z) : Z :=
  if (65 <=? r) && (r <=? 90) then r + 32
  else if r =? 8490 then 107 else if r =? 383 then 115 else r.
Definition EqualFold (s t : string) : bool :=
  bool_decide (fold_rune <$> (runes (bytes s)).*1 = fold_rune <$> (runes (bytes t)).*1).

(** What a string becomes on a trip through [encoding/json]: every invalid
    byte is replaced by U+FFFD. *)
Definition ToValidUTF8 (s : string) : string :=
  of_bytes (concat ((fun '(r, _) => EncodeRune r) <$> runes (bytes s))).

(** ** Facts *)

Lemma DecodeRune_width (l : list Z) : (1 <= length l)%nat ->
  (1 <= (DecodeRune l).2 <= length l)%nat.
Proof.
  destruct l as [|b0 [|b1 [|b2 [|b3 l]]]]; simpl; intros;
    repeat case_match; simpl; lia.
Qed.

(** The fuel of [runes] is enough: the widths add up to the whole input. *)
Lemma runes_fuel_covers (fuel : nat) : forall l, (length l <= fuel)%nat ->
  sum_list (runes_fuel fuel l).*2 = length l.
Proof.
  induction fuel as [|fuel IH]; intros [|b l] Hlen; simpl in Hlen; try done; [lia|].
  cbn [runes_fuel]. destruct (DecodeRune (b :: l)) as [r w] eqn:Hd.
  pose proof (DecodeRune_width (b :: l)) as Hw. rewrite Hd in Hw. cbn [snd length] in Hw.
  specialize (Hw ltac:(lia)).
  rewrite fmap_cons. cbn [snd sum_list_with].
  rewrite IH by (rewrite length_drop; cbn [length]; lia).
  rewrite length_drop. cbn [length id]. unfold id. lia.
Qed.

Lemma runes_cover (l : list Z) : sum_list (runes l).*2 = length l.
Proof. by apply runes_fuel_covers. Qed.

Lemma Split_cons (sep : ascii) (s : string) : exists p ps, Split sep s = p :: ps.
Proof. destruct s; simpl; [eauto|]. repeat case_match; eauto. Qed.

Lemma Split_Join (sep : ascii) (s : string) : Join (String sep "") (Split sep s) = s.
Proof.
  induction s as [|c s IH]; [done|]. cbn [Split].
  destruct (Split_cons sep s) as (p & ps & E). rewrite E in *.
  destruct (Ascii.eqb_spec c sep) as [->|Hne].
  - cbn. by rewrite <- IH.
  - rewrite <- IH. by destruct ps.
Qed.

(** Appending strings. *)
Lemma str_app_assoc (a b c : string) : (a +:+ b) +:+ c = a +:+ b +:+ c.
Proof. induction a as [|x a IH]; [done|]. change (String x ((a +:+ b) +:+ c) = String x (a +:+ b +:+ c)). by rewrite IH. Qed.

Lemma str_app_nil s : "" +:+ s = s.
Proof. reflexivity. Qed.

Lemma str_app_cons c s t : String c s +:+ t = String c (s +:+ t).
Proof. reflexivity. Qed.

Lemma str_app_empty s : s +:+ "" = s.
Proof. induction s as [|c s IH]; [done|]. change (String c s +:+ "") with (String c (s +:+ "")). by rewrite IH. Qed.

Lemma bytes_app s t : bytes (s +:+ t) = bytes s ++ bytes t.
Proof. unfold bytes. induction s as [|c s IH]; [done|]. change (String c s +:+ t) with (String c (s +:+ t)). cbn. by rewrite IH. Qed.

Lemma HasPrefix_app a b : HasPrefix (a +:+ b) a = true.
Proof.
  unfold HasPrefix. induction a as [|x a IH]; [by destruct b|].
  change (String.prefix (String x a) (String x (a +:+ b)) = true). cbn [String.prefix]. by destruct (Ascii.ascii_dec x x).
Qed.

Lemma drop_bytes_app p s : drop_bytes (String.length p) (p +:+ s) = s.
Proof. by induction p. Qed.

Lemma str_length_app p s : String.length (p +:+ s) = (String.length p + String.length s)%nat.
Proof. induction p as [|c p IH]; [done|]. rewrite str_app_cons. cbn. by rewrite IH. Qed.

Lemma str_length_pos s : s <> "" -> (0 < String.length s)%nat.
Proof. destruct s as [|c s]; [done|]. intros _. change (0 < S (String.length s))%nat. lia. Qed.

(** ** Facts: printed numbers *)

(** A string of digits. *)
Definition digits_only (s : string) : Prop := Forall (fun b => is_digit b = true) (bytes s).

Lemma digits_only_cons c s : digits_only (String c s) <-> is_digit (byte_of c) = true /\ digits_only s.
Proof. unfold digits_only, bytes. cbn. by rewrite Forall_cons. Qed.

Lemma pretty_char_byte d : (d < 10)%N -> byte_of (pretty_N_char d) = 48 + Z.of_N d.
Proof.
  intros Hd. assert (Hin : (d = 0 \/ d = 1 \/ d = 2 \/ d = 3 \/ d = 4 \/ d = 5 \/ d = 6 \/ d = 7 \/ d = 8 \/ d = 9)%N)
    by lia. by repeat destruct Hin as [->|Hin]; [..|rewrite Hin].
Qed.

(** Reading back a printed number, with anything after it. *)
Lemma parseUint_go x : forall s, (Z.of_N x < two64) ->
  parseUint 0 (pretty_N_go x s) = parseUint (Z.of_N x) s.
Proof.
  induction (N.lt_wf_0 x) as [x _ IH]. intros s Hx. destruct (decide (x = 0%N)) as [->|Hx0].
  { by rewrite pretty_N_go_0. }
  assert (Hq : (x / 10 < x)%N) by (apply N.div_lt; lia).
  assert (Hm : (x mod 10 < 10)%N) by (apply N.mod_lt; lia).
  pose proof (N.div_mod x 10 ltac:(done)) as Hdm.
  rewrite pretty_N_go_step by lia. rewrite IH by lia. cbn [parseUint].
  rewrite pretty_char_byte by done. unfold is_digit, two64 in *.
  set (q := (x / 10)%N) in *. set (m := (x mod 10)%N) in *. clearbody q m.
  replace ((48 <=? 48 + Z.of_N m) && (48 + Z.of_N m <=? 57)) with true by lia.
  replace (1844674407370955162 <=? Z.of_N q) with false by lia. cbn [negb].
  replace (Z.of_N q * 10 + (48 + Z.of_N m - 48)) with (Z.of_N x) by lia.
  by replace (18446744073709551616 - 1 <? Z.of_N x) with false by lia.
Qed.

Lemma pretty_go_digits x : forall s, digits_only s -> digits_only (pretty_N_go x s).
Proof.
  induction (N.lt_wf_0 x) as [x _ IH]. intros s Hs. destruct (decide (x = 0%N)) as [->|Hx0].
  { by rewrite pretty_N_go_0. }
  assert (Hm : (x mod 10 < 10)%N) by (apply N.mod_lt; lia).
  rewrite pretty_N_go_step by lia. apply IH; [apply N.div_lt; lia|].
  apply digits_only_cons. rewrite pretty_char_byte by done. split; [|done]. unfold is_digit.
  generalize dependent (x mod 10)%N. lia.
Qed.

Lemma pretty_pos n : 0 < n -> pretty n = pretty_N_go (Z.to_N n) "".
Proof. intros Hn. destruct n as [|p|p]; [lia|done|lia]. Qed.

Lemma pretty_digits n : 0 < n -> digits_only (pretty n).
Proof. intros Hn. rewrite pretty_pos by done. by apply pretty_go_digits, Forall_nil. Qed.

(** The number a list of digits spells, after [acc]. *)
Definition dec_val (acc : Z) (l : list Z) : Z := foldl (fun a b => a * 10 + (b - 48)) acc l.

(** A printed positive number: its value, and its first digit is not zero. *)
Lemma pretty_go_shape x : (0 < x)%N -> forall s, exists c ds, pretty_N_go x s = String c (ds +:+ s) /\
  49 <= byte_of c <= 57 /\ digits_only ds /\ dec_val 0 (bytes (String c ds)) = Z.of_N x.
Proof.
  induction (N.lt_wf_0 x) as [x _ IH]. intros Hx s. assert (Hm : (x mod 10 < 10)%N) by (apply N.mod_lt; lia).
  pose proof (N.div_mod x 10 ltac:(done)) as Hdm. rewrite pretty_N_go_step by lia.
  destruct (decide (x / 10 = 0)%N) as [Hq|Hq].
  - rewrite Hq, pretty_N_go_0. exists (pretty_N_char (x mod 10)), "". unfold bytes. cbn [String.list_ascii_of_string fmap list_fmap dec_val foldl].
    rewrite pretty_char_byte by done. rewrite Hq in Hdm. split_and!; [done|lia..|by constructor|unfold dec_val; cbn; lia].
  - destruct (IH (x / 10)%N ltac:(apply N.div_lt; lia) ltac:(lia) (String (pretty_N_char (x mod 10)) s)) as (c & ds & -> & Hc & Hds & Hv).
    exists c, (ds +:+ String (pretty_N_char (x mod 10)) ""). split_and!; [|lia|lia| |].
    + rewrite str_app_assoc. done.
    + unfold digits_only in *. rewrite bytes_app. apply Forall_app. split; [done|]. unfold bytes. cbn. rewrite pretty_char_byte by done.
      constructor; [unfold is_digit; generalize dependent (x mod 10)%N; lia|constructor].
    + change (String c (ds +:+ ?t)) with (String c ds +:+ t). rewrite bytes_app. unfold dec_val in *. rewrite foldl_app, Hv.
      unfold bytes. cbn [String.list_ascii_of_string fmap list_fmap foldl]. rewrite pretty_char_byte by done. lia.
Qed.

Lemma pretty_shape n : 0 < n -> exists c ds, pretty n = String c ds /\
  49 <= byte_of c <= 57 /\ digits_only ds /\ dec_val 0 (bytes (pretty n)) = n.
Proof.
  intros Hn. rewrite pretty_pos by done. destruct (pretty_go_shape (Z.to_N n) ltac:(lia) "") as (c & ds & -> & ? & ? & Hv).
  rewrite str_app_empty. exists c, ds. rewrite Z2N.id in Hv by lia. done.
Qed.

(** [strconv.ParseInt] reads back every positive 64-bit number. *)
Lemma ParseInt_pretty n : 0 < n < two63 -> ParseInt (pretty n) = (n, true).
Proof.
  intros Hn. pose proof (pretty_digits n (proj1 Hn)) as Hd.
  pose proof (parseUint_go (Z.to_N n) "" ltac:(unfold two63, two64 in *; lia)) as Hp.
  rewrite <- pretty_pos in Hp by lia. rewrite Z2N.id in Hp by lia. cbn [parseUint] in Hp.
  unfold ParseInt. destruct (pretty n) as [|c s]; [cbn in Hp; injection Hp as Hp; lia|].
  apply digits_only_cons in Hd as [Hc _]. unfold is_digit in Hc.
  replace (byte_of c =? 43) with false by lia. replace (byte_of c =? 45) with false by lia.
  rewrite Hp. cbn [negb andb]. by replace (two63 <=? n) with false by lia.
Qed.

Example ToValidUTF8_bad : ToValidUTF8 (of_bytes [97; 255; 98]) = of_bytes [97; 239; 191; 189; 98].
Proof. vm_compute. reflexivity. Qed.
Example Split_ex : Split (ascii_of 46) "identity.groups" = ["identity"; "groups"].
Proof. vm_compute. reflexivity. Qed.

Example atoi_ex : (Atoi "42", Atoi "-7", Atoi "+7", Atoi "", Atoi "-", Atoi "1x", Atoi "9223372036854775808")
  = (Some 42, Some (-7), Some 7, None, None, None, None).
Proof. vm_compute. reflexivity. Qed.

Lemma TrimPrefix_app p s : TrimPrefix (p +:+ s) p = s.
Proof.
  unfold TrimPrefix. rewrite HasPrefix_app. induction p as [|c p IH]; [done|]. exact IH.
Qed.

Lemma Split_app sep o rest : sep ∉ String.list_ascii_of_string o -> Split sep (o +:+ String sep rest) = o :: Split sep rest.
Proof.
  induction o as [|c o IH]; intros Hin.
  - change ("" +:+ String sep rest) with (String sep rest). cbn [Split]. by rewrite Ascii.eqb_refl.
  - cbn in Hin. apply not_elem_of_cons in Hin as [Hc Hin].
    change (String c o +:+ String sep rest) with (String c (o +:+ String sep rest)). cbn [Split].
    destruct (Ascii.eqb_spec c sep) as [->|_]; [done|]. by rewrite IH.
Qed.

Lemma Split_whole sep o : sep ∉ String.list_ascii_of_string o -> Split sep o = [o].
Proof.
  induction o as [|c o IH]; intros Hin; [done|]. cbn in Hin. apply not_elem_of_cons in Hin as [Hc Hin]. cbn [Split].
  destruct (Ascii.eqb_spec c sep) as [->|_]; [done|]. by rewrite IH.
Qed.
