(* ===== verification/GoTime.v ===== *)
(** * Package [time]

    A [Time] is an instant, in nanoseconds since the Unix epoch, with the
    offset of its location; a [Duration] is a 64-bit count of nanoseconds.
    [time.Now] is a reading of the environment's clock (file World): Go's
    monotonic reading is the same instant here. *)

From S2P Require Import Prelude GoStrings.

Record Time := mkTime { nanos : Z; zone : Z }.

#[global] Instance Time_eq_dec : EqDecision Time.
Proof. solve_decision. Defined.

Abbreviation Duration := Z (only parsing).
Definition Second : Duration := 1000000000.
Definition Minute : Duration := 60 * Second.
Definition Hour : Duration := 60 * Minute.

(** The zero [Time]: January 1 of year 1, 00:00:00 UTC. *)
Definition zeroTime : Time := mkTime (-62135596800 * Second) 0.

Definition IsZero (t : Time) : bool := nanos t =? nanos zeroTime.
Definition After (t u : Time) : bool := nanos u <? nanos t.
Definition Before (t u : Time) : bool := nanos t <? nanos u.
Definition UTC (t : Time) : Time := mkTime (nanos t) 0.
Definition Add (t : Time) (d : Duration) : Time := mkTime (nanos t + d) (zone t).

(** [t.Sub(u)] saturates at the extreme durations. *)
Definition Sub (t u : Time) : Duration :=
  Z.max (- two63) (Z.min (two63 - 1) (nanos t - nanos u)).

(** [time.Duration(n) * unit], in 64-bit arithmetic. *)
Definition DurationOf (n unit : Z) : Duration := int64 (n * unit).

(** ** Calendar *)

(** Seconds since the epoch on the clock of the time's location. *)
Definition local_secs (t : Time) : Z := (nanos t + zone t * Second) / Second.

Definition HourOf (t : Time) : Z := (local_secs t mod 86400) / 3600.
Definition MinuteOf (t : Time) : Z := (local_secs t mod 3600) / 60.
Definition SecondOf (t : Time) : Z := local_secs t mod 60.
Definition NanosecondOf (t : Time) : Z := (nanos t) mod Second.

(** Sunday is 0; the epoch was a Thursday. *)
Definition WeekdayOf (t : Time) : Z := (local_secs t / 86400 + 4) mod 7.

(** Year, month and day of a day count since the epoch (proleptic Gregorian). *)
Definition civil (days : Z) : Z * Z * Z :=
  let z := days + 719468 in
  let era := z / 146097 in
  let doe := z - era * 146097 in
  let yoe := (doe - doe / 1460 + doe / 36524 - doe / 146096) / 365 in
  let doy := doe - (365 * yoe + yoe / 4 - yoe / 100) in
  let mp := (5 * doy + 2) / 153 in
  let d := doy - (153 * mp + 2) / 5 + 1 in
  let m := if mp <? 10 then mp + 3 else mp - 9 in
  (yoe + era * 400 + (if m <=? 2 then 1 else 0), m, d).

(** The inverse: the day count of a civil date. *)
Definition days_of_civil (y m d : Z) : Z :=
  let y' := if m <=? 2 then y - 1 else y in
  let era := y' / 400 in
  let yoe := y' - era * 400 in
  let doy := (153 * (if 2 <? m then m - 3 else m + 9) + 2) / 5 + d - 1 in
  let doe := yoe * 365 + yoe / 4 - yoe / 100 + doy in
  era * 146097 + doe - 719468.

Definition YearOf (t : Time) : Z := (civil (local_secs t / 86400)).1.1.

(** [time.Date(y, mo, d, h, mi, s, ns, UTC)] on in-range fields. *)
Definition Date (y mo d h mi s ns : Z) : Time :=
  mkTime ((days_of_civil y mo d * 86400 + h * 3600 + mi * 60 + s) * Second + ns) 0.

(** ** Formatting *)

Definition zeros (n : nat) : string := of_bytes (replicate n 48).

(** [appendInt]: the decimal digits of [x], zero-padded to [width]. *)
Definition appendInt (x : Z) (width : nat) : string :=
  let ds := pretty (Z.abs x) in
  (if x <? 0 then "-" else "") +:+ zeros (width - String.length ds) +:+ ds.

Definition appendZone (off : Z) : string :=
  if off =? 0 then "Z"
  else let m := Z.quot off 60 in
       (if m <? 0 then "-" else "+") +:+
       appendInt (Z.abs m / 60) 2 +:+ ":" +:+ appendInt (Z.abs m mod 60) 2.

(** Drop trailing zero digits; [fuel] is the number of digits. *)
Fixpoint strip_zeros (fuel : nat) (x : Z) : Z * nat :=
  match fuel with
  | O => (x, 0%nat)
  | S f => if (x =? 0) || negb (x mod 10 =? 0) then (x, fuel) else strip_zeros f (x / 10)
  end.

(** The fraction of [RFC3339Nano]: no trailing zeros, absent when zero. *)
Definition appendNano (ns : Z) : string :=
  if ns =? 0 then ""
  else let '(x, w) := strip_zeros 9 ns in "." +:+ appendInt x w.

Definition FormatRFC3339_gen (frac : string) (t : Time) : string :=
  let '(y, mo, d) := civil (local_secs t / 86400) in
  appendInt y 4 +:+ "-" +:+ appendInt mo 2 +:+ "-" +:+ appendInt d 2 +:+ "T" +:+
  appendInt (HourOf t) 2 +:+ ":" +:+ appendInt (MinuteOf t) 2 +:+ ":" +:+
  appendInt (SecondOf t) 2 +:+ frac +:+ appendZone (zone t).

(** [t.Format(time.RFC3339)] and [t.Format(time.RFC3339Nano)]. *)
Definition FormatRFC3339 (t : Time) : string := FormatRFC3339_gen "" t.
Definition FormatRFC3339Nano (t : Time) : string :=
  FormatRFC3339_gen (appendNano (NanosecondOf t)) t.

(** The fraction [u mod 10^prec / 10^prec], without trailing zeros. *)
Definition fmtFrac (u : Z) (prec : nat) : string :=
  let f := u mod 10 ^ Z.of_nat prec in
  if f =? 0 then ""
  else let '(x, w) := strip_zeros prec f in "." +:+ appendInt x w.

(** [d.String()]. *)
Definition DurationString (d : Duration) : string :=
  let u := Z.abs d in
  let micro := of_bytes [194; 181; 115] in
  (if d <? 0 then "-" else "") +:+
  (if u =? 0 then "0s"
   else if u <? 1000 then pretty u +:+ "ns"
   else if u <? 1000000 then pretty (u / 1000) +:+ fmtFrac u 3 +:+ micro
   else if u <? Second then pretty (u / 1000000) +:+ fmtFrac u 6 +:+ "ms"
   else
     let secs := u / Second in
     let mins := secs / 60 in
     (if 0 <? mins / 60 then pretty (mins / 60) +:+ "h" else "") +:+
     (if 0 <? mins then pretty (mins mod 60) +:+ "m" else "") +:+
     pretty (secs mod 60) +:+ fmtFrac u 9 +:+ "s").

(** [t.MarshalJSON]: an error on a year outside [0, 9999] or a zone hour
    outside [0, 23]. *)
Definition Time_MarshalJSON (t : Time) : result string :=
  if (YearOf t <? 0) || (9999 <? YearOf t)
  then Err "Time.MarshalJSON: year outside of range [0,9999]"
  else if 86400 <=? Z.abs (zone t)
  then Err "Time.MarshalJSON: timezone hour outside of range [0,23]"
  else Ok (dquote +:+ FormatRFC3339Nano t +:+ dquote).

(** ** Facts *)

Lemma HourOf_range (t : Time) : 0 <= HourOf t < 24.
Proof.
  unfold HourOf. pose proof (Z.mod_pos_bound (local_secs t) 86400 ltac:(lia)).
  split; [apply Z.div_pos; lia|]. apply Z.div_lt_upper_bound; lia.
Qed.

Lemma MinuteOf_range (t : Time) : 0 <= MinuteOf t < 60.
Proof.
  unfold MinuteOf. pose proof (Z.mod_pos_bound (local_secs t) 3600 ltac:(lia)).
  split; [apply Z.div_pos; lia|]. apply Z.div_lt_upper_bound; lia.
Qed.

Lemma WeekdayOf_range (t : Time) : 0 <= WeekdayOf t < 7.
Proof. unfold WeekdayOf. apply Z.mod_pos_bound; lia. Qed.

Lemma After_not_Before (t u : Time) : After t u = true -> Before t u = false.
Proof. unfold After, Before. lia. Qed.

Lemma After_irrefl (t : Time) : After t t = false.
Proof. unfold After. lia. Qed.

Lemma Sub_in_int64 (t u : Time) : in_int64 (Sub t u).
Proof. unfold in_int64, Sub, two63. lia. Qed.

#[export] Hint Resolve HourOf_range MinuteOf_range WeekdayOf_range : oiaf.

Example format_ex : FormatRFC3339Nano (Date 2024 2 29 13 5 9 120000000) = "2024-02-29T13:05:09.12Z".
Proof. vm_compute. reflexivity. Qed.
Example format_zone_ex : FormatRFC3339 (mkTime 0 (-19800)) = "1969-12-31T18:30:00-05:30".
Proof. vm_compute. reflexivity. Qed.
Example zero_ex : FormatRFC3339Nano zeroTime = "0001-01-01T00:00:00Z".
Proof. vm_compute. reflexivity. Qed.
Example duration_ex : (DurationString 0, DurationString 1500000, DurationString (10 * Minute),
    DurationString (- 3 * Hour - 250000000), DurationString (90 * Second + 1))
  = ("0s", "1.5ms", "10m0s", "-3h0m0.25s", "1m30.000000001s").
Proof. vm_compute. reflexivity. Qed.
