(* ===== verification/GoFloat.v ===== *)
(** * float64

    IEEE 754 binary64 numbers, on the executable specification of the Standard
    Library ([SpecFloat]), with the conversions [fmt] and [encoding/json] use. *)

From S2P Require Import Prelude GoStrings GoTime.
From Stdlib Require Import SpecFloat.

Abbreviation float64 := spec_float (only parsing).

Definition prec64 : Z := 53.
Definition emax64 : Z := 1024.

#[global] Instance float64_eq_dec : EqDecision spec_float.
Proof. solve_decision. Defined.

(** [float64(n)]: round to nearest, ties to even. *)
Definition of_int (z : Z) : float64 := binary_normalize prec64 emax64 z 0 false.

(** The float64 nearest to [(-1)^s * m * 10^e], as [strconv.ParseFloat]. *)
Definition of_dec (s : bool) (m : positive) (e : Z) : float64 :=
  if 0 <=? e
  then SpecFloat.binary_round prec64 emax64 s (m * Z.to_pos (10 ^ e)) 0
  else let '(q, e', l) := SFdiv_core_binary prec64 emax64 (Zpos m) 0 (10 ^ (- e)) 0 in
       binary_round_aux prec64 emax64 s q e' l.

Definition fadd : float64 -> float64 -> float64 := SFadd prec64 emax64.
Definition fsub : float64 -> float64 -> float64 := SFsub prec64 emax64.
Definition fmul : float64 -> float64 -> float64 := SFmul prec64 emax64.
Definition fdiv : float64 -> float64 -> float64 := SFdiv prec64 emax64.
Definition fsqrt : float64 -> float64 := SFsqrt prec64 emax64.
Definition flt (a b : float64) : bool := SFltb a b.
Definition fle (a b : float64) : bool := SFleb a b.
Definition feq (a b : float64) : bool := SFeqb a b.

(** [int(math.Ceil(x))] on a finite number in range. *)
Definition ceil_to_int (x : float64) : Z :=
  match x with
  | S754_finite s m e =>
      let v := if s then Zneg m else Zpos m in
      if 0 <=? e then v * 2 ^ e else - ((- v) / 2 ^ (- e))
  | _ => 0
  end.

(** [d.Hours()]. *)
Definition Hours (d : Duration) : float64 :=
  fadd (of_int (Z.quot d Hour)) (fdiv (of_int (Z.rem d Hour)) (of_int Hour)).

(** [strconv.FormatFloat(x, 'f', 1, 64)]: the exact value rounded to tenths,
    halves to even. *)
Definition FormatFloat1 (x : float64) : string :=
  let sign (s : bool) := if s then "-" else "" in
  match x with
  | S754_nan => "NaN"
  | S754_infinity s => (if s then "-" else "+") +:+ "Inf"
  | S754_zero s => sign s +:+ "0.0"
  | S754_finite s m e =>
      let num := if 0 <=? e then Zpos m * 2 ^ e * 10 else Zpos m * 10 in
      let den := if 0 <=? e then 1 else 2 ^ (- e) in
      let q := num / den in
      let r := num mod den in
      let t := if (den <? 2 * r) || ((den =? 2 * r) && Z.odd q) then q + 1 else q in
      sign s +:+ pretty (t / 10) +:+ "." +:+ pretty (t mod 10)
  end.

(** ** Shortest decimal

    [strconv.AppendFloat(x, _, -1, 64)]: the shortest digit string that reads
    back as [x], the closest one to [x] among those of that length. *)

(** The decimal exponent [E] with [10^E <= num/den < 10^(E+1)], by a walk of at
    most [fuel] steps up from a lower estimate. *)
Fixpoint dec_exp (fuel : nat) (num den E : Z) : Z :=
  match fuel with
  | O => E
  | S f =>
      let ge := if 0 <=? E + 1 then den * 10 ^ (E + 1) <=? num
                else den <=? num * 10 ^ (- (E + 1)) in
      if ge then dec_exp f num den (E + 1) else E
  end.

(** Search the digit counts [k], [k+1], ...; 17 digits always suffice. *)
Fixpoint shortest_from (fuel : nat) (k : Z) (x : float64) (num den E : Z) : Z * Z :=
  let sc := k - 1 - E in
  let n := if 0 <=? sc then num * 10 ^ sc else num in
  let d := if 0 <=? sc then den else den * 10 ^ (- sc) in
  let q := n / d in
  match fuel with
  | O => (q, - sc)
  | S f =>
      let back c := match c with
                    | Zpos p => bool_decide (of_dec false p (- sc) = x)
                    | _ => false
                    end in
      let near_up := n * 2 - d * (2 * q + 1) in
      match back q, back (q + 1) with
      | true, true => if (0 <? near_up) || ((near_up =? 0) && Z.odd q) then (q + 1, - sc) else (q, - sc)
      | true, false => (q, - sc)
      | false, true => (q + 1, - sc)
      | false, false => shortest_from f (k + 1) x num den E
      end
  end.

(** Digits (without trailing zeros) and the position [dp] of the decimal point:
    the value is [0.d1 d2 ... * 10^dp]. *)
Definition shortest (m : positive) (e : Z) : string * Z :=
  let x := S754_finite false m e in
  let num := if 0 <=? e then Zpos m * 2 ^ e else Zpos m in
  let den := if 0 <=? e then 1 else 2 ^ (- e) in
  let E0 := (Z.log2 num - Z.log2 den) * 30103 / 100000 - 2 in
  let E := dec_exp 6 num den E0 in
  let '(q, ex) := shortest_from 17 1 x num den E in
  let '(q', kept) := strip_zeros 20 q in
  let ds := pretty q' in
  (ds, Z.of_nat (String.length ds) + ex + Z.of_nat (20 - kept)).

Definition sub_digits (ds : string) (from n : nat) : string :=
  let got := String.substring from n ds in
  got +:+ zeros (n - String.length got).

(** The [%e] form with the shortest digits: [d.ddde+XX]. *)
Definition fmtE (ds : string) (dp : Z) : string :=
  let ex := dp - 1 in
  String.substring 0 1 ds +:+
  (if (1 <? String.length ds)%nat then "." +:+ drop_bytes 1 ds else "") +:+ "e" +:+
  (if ex <? 0 then "-" else "+") +:+ appendInt (Z.abs ex) 2.

(** The [%f] form with the shortest digits. *)
Definition fmtF (ds : string) (dp : Z) : string :=
  let nd := Z.of_nat (String.length ds) in
  let frac := Z.max 0 (nd - dp) in
  (if 0 <? dp then sub_digits ds 0 (Z.to_nat dp) else "0") +:+
  (if 0 <? frac
   then "." +:+ (if 0 <? dp then drop_bytes (Z.to_nat dp) ds
                 else zeros (Z.to_nat (- dp)) +:+ ds)
   else "").

(** The [%v] verb of [fmt]: [%g] at the shortest precision, which takes the
    exponent form below 1e-4 and from 1e6 on. *)
Definition fmt_float (x : float64) : string :=
  match x with
  | S754_nan => "NaN"
  | S754_infinity false => "+Inf"
  | S754_infinity true => "-Inf"
  | S754_zero s => if s then "-0" else "0"
  | S754_finite s m e =>
      let '(ds, dp) := shortest m e in
      let ex := dp - 1 in
      (if s then "-" else "") +:+
      (if (ex <? -4) || (6 <=? ex) then fmtE ds dp else fmtF ds dp)
  end.

(** [json.Marshal] of a float64: [%f], or [%e] below 1e-6 and from 1e21 on with
    the exponent's leading zero dropped; not-a-number and infinities are errors. *)
Definition json_float (x : float64) : result string :=
  match x with
  | S754_nan | S754_infinity _ => Err "json: unsupported value"
  | S754_zero s => Ok (if s then "-0" else "0")
  | S754_finite s m e =>
      let '(ds, dp) := shortest m e in
      let ex := dp - 1 in
      let sign := if s then "-" else "" in
      if (ex <? -6) || (21 <=? ex)
      then let txt := fmtE ds dp in
           Ok (sign +:+ (if (-10 <? ex) && (ex <? 0)
                         then String.substring 0 (String.length txt - 2) txt +:+ pretty (Z.abs ex)
                         else txt))
      else Ok (sign +:+ fmtF ds dp)
  end.

(** ** Checks on concrete numbers *)
Example fmt_90 : fmt_float (of_int 90) = "90".
Proof. vm_compute. reflexivity. Qed.
Example fmt_1e6 : fmt_float (of_int 1000000) = "1e+06".
Proof. vm_compute. reflexivity. Qed.
Example fmt_1234567 : fmt_float (of_int (-1234567)) = "-1.234567e+06".
Proof. vm_compute. reflexivity. Qed.
Example fmt_tenth : fmt_float (of_dec false 1 (-1)) = "0.1".
Proof. vm_compute. reflexivity. Qed.
Example fmt_third : fmt_float (fdiv (of_int 1) (of_int 3)) = "0.3333333333333333".
Proof. vm_compute. reflexivity. Qed.
Example fmt_sum : fmt_float (fadd (of_dec false 1 (-1)) (of_dec false 2 (-1))) = "0.30000000000000004".
Proof. vm_compute. reflexivity. Qed.
Example fmt_small : fmt_float (of_dec false 125 (-7)) = "1.25e-05".
Proof. vm_compute. reflexivity. Qed.
Example json_1e6 : json_float (of_int 1000000) = Ok "1000000".
Proof. vm_compute. reflexivity. Qed.
Example json_1em7 : json_float (of_dec false 1 (-7)) = Ok "1e-7".
Proof. vm_compute. reflexivity. Qed.
Example of_int_rounds : of_int 9007199254740993 = of_int 9007199254740992.
Proof. vm_compute. reflexivity. Qed.
Example fmt1_ex : (FormatFloat1 (of_dec false 12345 (-2)), FormatFloat1 (of_dec true 25 (-2)), FormatFloat1 (of_int 900))
  = ("123.5", "-0.2", "900.0").
Proof. vm_compute. reflexivity. Qed.
Example hours_ex : Hours (90 * Minute) = of_dec false 15 (-1).
Proof. vm_compute. reflexivity. Qed.
