(* ===== verification/GoCrypto.v ===== *)
(** * Packages [crypto/sha256], [crypto/hmac] and [encoding/hex]

    SHA-256 (FIPS 180-4) on byte lists with 32-bit words as [Z], HMAC
    (RFC 2104) over it and the lower-case hexadecimal encoding. Executable, and
    checked on the published test vectors. *)

From S2P Require Import Prelude GoStrings.

Definition w32 (z : Z) : Z := Z.land z 4294967295.
Definition rotr (n x : Z) : Z := Z.lor (Z.shiftr x n) (w32 (Z.shiftl x (32 - n))).
Definition not32 (x : Z) : Z := Z.lxor x 4294967295.

Definition Ch (x y z : Z) : Z := Z.lxor (Z.land x y) (Z.land (not32 x) z).
Definition Maj (x y z : Z) : Z := Z.lxor (Z.lxor (Z.land x y) (Z.land x z)) (Z.land y z).
Definition bsig0 (x : Z) : Z := Z.lxor (Z.lxor (rotr 2 x) (rotr 13 x)) (rotr 22 x).
Definition bsig1 (x : Z) : Z := Z.lxor (Z.lxor (rotr 6 x) (rotr 11 x)) (rotr 25 x).
Definition ssig0 (x : Z) : Z := Z.lxor (Z.lxor (rotr 7 x) (rotr 18 x)) (Z.shiftr x 3).
Definition ssig1 (x : Z) : Z := Z.lxor (Z.lxor (rotr 17 x) (rotr 19 x)) (Z.shiftr x 10).

Definition K256 : list Z :=
  [1116352408; 1899447441; 3049323471; 3921009573; 961987163; 1508970993; 2453635748; 2870763221;
   3624381080; 310598401; 607225278; 1426881987; 1925078388; 2162078206; 2614888103; 3248222580;
   3835390401; 4022224774; 264347078; 604807628; 770255983; 1249150122; 1555081692; 1996064986;
   2554220882; 2821834349; 2952996808; 3210313671; 3336571891; 3584528711; 113926993; 338241895;
   666307205; 773529912; 1294757372; 1396182291; 1695183700; 1986661051; 2177026350; 2456956037;
   2730485921; 2820302411; 3259730800; 3345764771; 3516065817; 3600352804; 4094571909; 275423344;
   430227734; 506948616; 659060556; 883997877; 958139571; 1322822218; 1537002063; 1747873779;
   1955562222; 2024104815; 2227730452; 2361852424; 2428436474; 2756734187; 3204031479; 3329325298].

Definition H256 : list Z :=
  [1779033703; 3144134277; 1013904242; 2773480762; 1359893119; 2600822924; 528734635; 1541459225].

(** Big-endian words. *)
Fixpoint words (l : list Z) : list Z :=
  match l with
  | a :: b :: c :: d :: l' => a * 16777216 + b * 65536 + c * 256 + d :: words l'
  | _ => []
  end.

Definition be_bytes (n : nat) (x : Z) : list Z :=
  (fun i => Z.land (Z.shiftr x (8 * Z.of_nat i)) 255) <$> rev (seq 0 n).

(** The message schedule, kept newest first; [n] words remain to be computed. *)
Fixpoint schedule (n : nat) (w : list Z) : list Z :=
  match n with
  | O => w
  | S n' =>
      let x := w32 (ssig1 (nth 1 w 0) + nth 6 w 0 + ssig0 (nth 14 w 0) + nth 15 w 0) in
      schedule n' (x :: w)
  end.

Definition round (st : list Z) (kw : Z * Z) : list Z :=
  match st with
  | [a; b; c; d; e; f; g; h] =>
      let t1 := h + bsig1 e + Ch e f g + kw.1 + kw.2 in
      let t2 := bsig0 a + Maj a b c in
      [w32 (t1 + t2); a; b; c; w32 (d + t1); e; f; g]
  | _ => st
  end.

Definition compress (st : list Z) (block : list Z) : list Z :=
  let w := rev (schedule 48 (rev (words block))) in
  zip_with (fun x y => w32 (x + y)) st (foldl round st (zip K256 w)).

(** Padding: a one bit, zeros, and the 64-bit length in bits. *)
Definition pad (msg : list Z) : list Z :=
  let n := length msg in
  let k := Z.to_nat ((119 - Z.of_nat n) mod 64) in
  msg ++ [128] ++ replicate k 0 ++ be_bytes 8 (8 * Z.of_nat n).

(** Process the padded message block by block; a block count is enough fuel. *)
Fixpoint blocks (fuel : nat) (st : list Z) (l : list Z) : list Z :=
  match fuel with
  | O => st
  | S f => match l with
           | [] => st
           | _ => blocks f (compress st (take 64 l)) (drop 64 l)
           end
  end.

Definition Sum256 (msg : list Z) : list Z :=
  let p := pad msg in
  concat (be_bytes 4 <$> blocks (length p / 64) H256 p).

Definition hex_digit (d : Z) : Z := if d <? 10 then 48 + d else 87 + d.

(** [hex.EncodeToString]. *)
Definition EncodeToString (l : list Z) : string :=
  of_bytes (concat ((fun b => [hex_digit (Z.shiftr b 4); hex_digit (Z.land b 15)]) <$> l)).

(** [hmac.New(sha256.New, key)], [Write(payload)], [Sum(nil)]. *)
Definition hmac_sha256 (key payload : list Z) : list Z :=
  let k := if (64 <? length key)%nat then Sum256 key else key in
  let k := k ++ replicate (64 - length k) 0 in
  let ipad := (fun b => Z.lxor b 54) <$> k in
  let opad := (fun b => Z.lxor b 92) <$> k in
  Sum256 (opad ++ Sum256 (ipad ++ payload)).

(** The range of a byte, and its two hexadecimal digits. *)
Definition is_byte (b : Z) : Prop := 0 <= b < 256.

Definition hex_byte (b : Z) : list Z := [hex_digit (Z.shiftr b 4); hex_digit (Z.land b 15)].

(** ** Facts *)

Lemma length_be_bytes n x : length (be_bytes n x) = n.
Proof. unfold be_bytes. by rewrite length_fmap, length_rev, length_seq. Qed.

Lemma length_round st kw : length (round st kw) = length st.
Proof. unfold round. by repeat case_match. Qed.

Lemma length_compress st block : length st = 8%nat -> length (compress st block) = 8%nat.
Proof.
  intros H. unfold compress. rewrite length_zip_with.
  enough (forall l s, length (foldl round s l) = length s) as ->; [lia|].
  induction l as [|x l IH]; intros s; simpl; [done|]. by rewrite IH, length_round.
Qed.

Lemma length_blocks fuel : forall st l, length st = 8%nat -> length (blocks fuel st l) = 8%nat.
Proof.
  induction fuel as [|f IH]; intros st l H; simpl; [done|].
  case_match; [done|]. apply IH. by apply length_compress.
Qed.

(** A SHA-256 digest has 32 bytes, whatever the message. *)
Lemma length_Sum256 msg : length (Sum256 msg) = 32%nat.
Proof.
  unfold Sum256. set (b := blocks _ _ _).
  assert (Hb : length b = 8%nat) by (by apply length_blocks).
  destruct b as [|b0 [|b1 [|b2 [|b3 [|b4 [|b5 [|b6 [|b7 [|]]]]]]]]]; simpl in Hb; try lia.
  cbn [fmap list_fmap concat]. rewrite !length_app, !length_be_bytes. done.
Qed.

(** The padded length is a whole number of blocks, so no byte is left out. *)
Lemma length_pad msg : (length (pad msg) mod 64 = 0)%nat.
Proof.
  unfold pad. rewrite !length_app, length_replicate, length_be_bytes. cbn [length].
  apply Nat2Z.inj. rewrite Nat2Z.inj_mod, !Nat2Z.inj_add, Z2Nat.id by (apply Z.mod_pos_bound; lia).
  rewrite (Z.mod_eq (119 - _) 64) by lia.
  replace (_ + _) with ((2 - (119 - Z.of_nat (length msg)) / 64) * 64) by lia.
  by rewrite Z.mod_mul.
Qed.

Lemma bytes_of_hex_length l : String.length (EncodeToString l) = (2 * length l)%nat.
Proof.
  unfold EncodeToString, of_bytes. induction l as [|b l IH]; [done|].
  cbn. rewrite IH. lia.
Qed.

Lemma be_bytes_range n x : Forall is_byte (be_bytes n x).
Proof.
  unfold be_bytes. apply Forall_fmap, Forall_forall. intros i _. unfold is_byte. simpl.
  change 255 with (Z.ones 8). rewrite Z.land_ones by lia. by apply Z.mod_pos_bound.
Qed.

Lemma Sum256_range msg : Forall is_byte (Sum256 msg).
Proof.
  unfold Sum256. apply Forall_concat, Forall_fmap, Forall_forall. intros x _. apply be_bytes_range.
Qed.

Lemma byte_of_ascii_of z : is_byte z -> byte_of (ascii_of z) = z.
Proof.
  intros H. unfold byte_of, ascii_of, is_byte in *. rewrite Ascii.N_ascii_embedding by lia. lia.
Qed.

Lemma ascii_of_byte_of c : ascii_of (byte_of c) = c.
Proof. unfold byte_of, ascii_of. by rewrite N2Z.id, Ascii.ascii_N_embedding. Qed.

Lemma byte_of_range c : is_byte (byte_of c).
Proof. unfold byte_of, is_byte. pose proof (Ascii.N_ascii_bounded c). lia. Qed.

Lemma bytes_of_bytes l : Forall is_byte l -> bytes (of_bytes l) = l.
Proof.
  intros H. unfold bytes, of_bytes. rewrite String.list_ascii_of_string_of_list_ascii.
  induction H as [|b l Hb _ IH]; [done|]. cbn. rewrite byte_of_ascii_of by done.
  f_equal. apply IH.
Qed.

Lemma of_bytes_bytes s : of_bytes (bytes s) = s.
Proof.
  unfold bytes, of_bytes. induction s as [|c s IH]; [done|]. cbn.
  rewrite ascii_of_byte_of. f_equal. apply IH.
Qed.

#[global] Instance bytes_inj : Inj (=) (=) bytes.
Proof. intros s1 s2 H. by rewrite <- (of_bytes_bytes s1), H, of_bytes_bytes. Qed.

Lemma nibbles b : is_byte b ->
  0 <= Z.shiftr b 4 < 16 /\ 0 <= Z.land b 15 < 16 /\ b = 16 * Z.shiftr b 4 + Z.land b 15.
Proof.
  intros Hb. unfold is_byte in Hb. change 15 with (Z.ones 4).
  rewrite Z.land_ones, Z.shiftr_div_pow2 by lia. change (2 ^ 4) with 16.
  pose proof (Z.div_mod b 16 ltac:(lia)). pose proof (Z.mod_pos_bound b 16 ltac:(lia)).
  lia.
Qed.

Lemma hex_digit_range d : 0 <= d < 16 -> 48 <= hex_digit d < 103 /\ hex_digit d <> 123.
Proof. unfold hex_digit. destruct (Z.ltb_spec d 10); lia. Qed.

Lemma hex_digit_inj d d' : 0 <= d < 16 -> 0 <= d' < 16 -> hex_digit d = hex_digit d' -> d = d'.
Proof. unfold hex_digit. destruct (Z.ltb_spec d 10), (Z.ltb_spec d' 10); lia. Qed.

Lemma hex_bytes_range l : Forall is_byte l -> Forall is_byte (concat (hex_byte <$> l)).
Proof.
  intros H. apply Forall_concat, Forall_fmap. eapply Forall_impl; [exact H|].
  intros b Hb. destruct (nibbles b Hb) as (H1 & H2 & _). simpl.
  pose proof (hex_digit_range _ H1). pose proof (hex_digit_range _ H2).
  unfold is_byte. repeat constructor; lia.
Qed.

Lemma bytes_hex l : Forall is_byte l -> bytes (EncodeToString l) = concat (hex_byte <$> l).
Proof. intros H. apply bytes_of_bytes. by apply hex_bytes_range. Qed.

Lemma EncodeToString_inj l l' : Forall is_byte l -> Forall is_byte l' ->
  EncodeToString l = EncodeToString l' -> l = l'.
Proof.
  intros H H' He. apply (f_equal bytes) in He. rewrite !bytes_hex in He by done.
  revert l' H' He. induction H as [|b l Hb _ IH]; intros [|b' l'] H' He; try done.
  apply Forall_cons in H' as [Hb' H']. cbn in He. injection He as E1 E2 E3.
  destruct (nibbles b Hb) as (? & ? & Eb), (nibbles b' Hb') as (? & ? & Eb').
  apply hex_digit_inj in E1, E2; [|done..]. f_equal; [lia|]. by apply IH.
Qed.

Example sha256_abc : EncodeToString (Sum256 (bytes "abc"))
  = "ba7816bf8f01cfea414140de5dae2223b00361a396177a9cb410ff61f20015ad".
Proof. vm_compute. reflexivity. Qed.
Example sha256_empty : EncodeToString (Sum256 [])
  = "e3b0c44298fc1c149afbf4c8996fb92427ae41e4649b934ca495991b7852b855".
Proof. vm_compute. reflexivity. Qed.
Example sha256_two_blocks :
  EncodeToString (Sum256 (bytes "abcdbcdecdefdefgefghfghighijhijkijkljklmklmnlmnomnopnopq"))
  = "248d6a61d20638b8e5c026930c3e6039a33ce45964ff2167f6ecedd419db06c1".
Proof. vm_compute. reflexivity. Qed.
Example hmac_rfc4231_2 :
  EncodeToString (hmac_sha256 (bytes "Jefe") (bytes "what do ya want for nothing?"))
  = "5bdcc146bf60754e6a042426089575c75a003f089d2739839dec58b964ec3843".
Proof. vm_compute. reflexivity. Qed.

(** Digests are never unfolded by accident; [vm_compute] still runs them. *)
#[global] Opaque Sum256 hmac_sha256.
