(* ===== verification/GoRunes.v ===== *)
(** * Runes of a string and URL escaping

    [[]rune(s)] and [string(rs)] with the round trip between them, and the
    escaping functions of package [net/url]. *)

From S2P Require Import Prelude GoStrings GoCrypto.
From Stdlib Require Import Ascii.

(** ** Conversions *)

Definition to_runes (s : string) : list Z := (runes (bytes s)).*1.
Definition of_runes (l : list Z) : string := of_bytes (concat (EncodeRune <$> l)).

(** What a conversion from a string produces: Unicode scalar values. *)
Definition valid_rune (r : Z) : Prop := 0 <= r <= 1114111 /\ ~ (55296 <= r <= 57343).

(** ** Package [net/url]: [QueryEscape] and [PathEscape] *)

Definition unreserved (c : Z) : bool :=
  ((97 <=? c) && (c <=? 122)) || ((65 <=? c) && (c <=? 90)) || ((48 <=? c) && (c <=? 57))
  || (c =? 45) || (c =? 95) || (c =? 46) || (c =? 126).

(** [shouldEscape] in the mode of a path segment: the reserved characters but
    [/ ; , ?] stay. *)
Definition path_keeps (c : Z) : bool := bool_decide (c ∈ [36; 38; 43; 58; 61; 64]).

Definition upperhex (d : Z) : Z := if d <? 10 then 48 + d else 55 + d.
Definition percent (c : Z) : list Z := [37; upperhex (c / 16); upperhex (c mod 16)].

Definition QueryEscape (s : string) : string :=
  of_bytes (concat ((fun c => if unreserved c then [c] else if c =? 32 then [43] else percent c) <$> bytes s)).
Definition PathEscape (s : string) : string :=
  of_bytes (concat ((fun c => if unreserved c || path_keeps c then [c] else percent c) <$> bytes s)).

Example escape_ex : (QueryEscape "a/b c+d=é", PathEscape "a/b c+d=é")
  = ("a%2Fb+c%2Bd%3D%C3%A9", "a%2Fb%20c+d=%C3%A9").
Proof. vm_compute. reflexivity. Qed.

(** ** Facts *)

Lemma concat_singletons {A} (l : list A) : concat ((fun x => [x]) <$> l) = l.
Proof. induction l as [|x l IH]; [done|]. cbn. by rewrite IH. Qed.

Lemma of_bytes_app l1 l2 : of_bytes (l1 ++ l2) = of_bytes l1 +:+ of_bytes l2.
Proof.
  unfold of_bytes. rewrite fmap_app. induction l1 as [|b l1 IH]; [done|].
  cbn [fmap list_fmap app String.string_of_list_ascii]. rewrite IH. reflexivity.
Qed.

Lemma of_runes_app l1 l2 : of_runes (l1 ++ l2) = of_runes l1 +:+ of_runes l2.
Proof. unfold of_runes. by rewrite fmap_app, concat_app, of_bytes_app. Qed.

Lemma escape_unreserved s : Forall (fun c => unreserved c = true) (bytes s) ->
  QueryEscape s = s /\ PathEscape s = s.
Proof.
  intros Hs. unfold QueryEscape, PathEscape.
  assert (Heq : forall f : Z -> list Z, (forall c, unreserved c = true -> f c = [c]) -> f <$> bytes s = (fun x => [x]) <$> bytes s).
  { intros f Hf. apply list_fmap_ext. intros i c Hc. apply Hf. by eapply Forall_lookup_1 in Hs. }
  split; (rewrite Heq by (by intros c ->)); rewrite concat_singletons; apply of_bytes_bytes.
Qed.

Lemma EncodeRune_small r : valid_rune r ->
  EncodeRune r =
    if r <? 128 then [r]
    else if r <? 2048 then [192 + r / 64; 128 + r mod 64]
    else if r <? 65536 then [224 + r / 4096; 128 + (r / 64) mod 64; 128 + r mod 64]
    else [240 + r / 262144; 128 + (r / 4096) mod 64; 128 + (r / 64) mod 64; 128 + r mod 64].
Proof.
  intros [Hr Hs]. unfold EncodeRune.
  assert (((r <? 0) || (1114111 <? r) || ((55296 <=? r) && (r <=? 57343))) = false) as -> by lia. done.
Qed.

Lemma EncodeRune_bytes r : Forall is_byte (EncodeRune r).
Proof.
  unfold EncodeRune. set (r' := if _ || _ then _ else _).
  assert (0 <= r' <= 1114111) as Hr by (unfold r', RuneError; destruct (_ || _) eqn:?; lia).
  clearbody r'. unfold is_byte.
  destruct (r' <? 128) eqn:H1; [|destruct (r' <? 2048) eqn:H2; [|destruct (r' <? 65536) eqn:H3]];
    repeat constructor; Z.div_mod_to_equations; lia.
Qed.

Lemma DecodeRune_EncodeRune r l : valid_rune r -> DecodeRune (EncodeRune r ++ l) = (r, length (EncodeRune r)).
Proof.
  intros Hv. rewrite EncodeRune_small by done. destruct Hv as [Hr Hs].
  destruct (Z.ltb_spec r 128); [|destruct (Z.ltb_spec r 2048); [|destruct (Z.ltb_spec r 65536)]];
    cbn [app length DecodeRune]; unfold cont.
  - by destruct (Z.ltb_spec r 128); [|lia].
  - assert (r / 64 < 32 /\ 2 <= r / 64 /\ 0 <= r mod 64 < 64) as (? & ? & ?) by (Z.div_mod_to_equations; lia).
    repeat match goal with |- context [if ?b then _ else _] =>
      first [replace b with true by lia | replace b with false by lia] end.
    f_equal. Z.div_mod_to_equations; lia.
  - assert (r / 4096 < 16 /\ 0 <= r / 4096 /\ 0 <= r mod 64 < 64 /\ 0 <= (r / 64) mod 64 < 64 /\
            (r / 4096 = 0 -> 32 <= (r / 64) mod 64) /\ (r / 4096 = 13 -> (r / 64) mod 64 < 32) /\
            r = r / 4096 * 4096 + (r / 64) mod 64 * 64 + r mod 64)
      as (? & ? & ? & ? & ? & ? & ?) by (Z.div_mod_to_equations; lia).
    set (x := r / 4096) in *. set (y := (r / 64) mod 64) in *. set (z := r mod 64) in *. clearbody x y z.
    replace (224 + x <? 128) with false by lia. replace ((194 <=? 224 + x) && (224 + x <=? 223)) with false by lia.
    replace ((224 <=? 224 + x) && (224 + x <=? 239)) with true by lia.
    destruct (Z.eqb_spec (224 + x) 224); destruct (Z.eqb_spec (224 + x) 237);
      match goal with |- context [if ?b then _ else _] => replace b with true by lia end; f_equal; lia.
  - assert (r / 262144 < 5 /\ 0 <= r / 262144 /\ 0 <= r mod 64 < 64 /\ 0 <= (r / 64) mod 64 < 64 /\
            0 <= (r / 4096) mod 64 < 64 /\
            (r / 262144 = 0 -> 16 <= (r / 4096) mod 64) /\ (r / 262144 = 4 -> (r / 4096) mod 64 < 16) /\
            r = r / 262144 * 262144 + (r / 4096) mod 64 * 4096 + (r / 64) mod 64 * 64 + r mod 64)
      as (? & ? & ? & ? & ? & ? & ? & ?) by (Z.div_mod_to_equations; lia).
    set (x := r / 262144) in *. set (y := (r / 4096) mod 64) in *. set (z := (r / 64) mod 64) in *.
    set (w := r mod 64) in *. clearbody x y z w.
    replace (240 + x <? 128) with false by lia. replace ((194 <=? 240 + x) && (240 + x <=? 223)) with false by lia.
    replace ((224 <=? 240 + x) && (240 + x <=? 239)) with false by lia.
    replace ((240 <=? 240 + x) && (240 + x <=? 244)) with true by lia.
    destruct (Z.eqb_spec (240 + x) 240); destruct (Z.eqb_spec (240 + x) 244);
      match goal with |- context [if ?b then _ else _] => replace b with true by lia end; f_equal; lia.
Qed.

Lemma DecodeRune_valid l : Forall is_byte l -> valid_rune (DecodeRune l).1.
Proof.
  assert (valid_rune RuneError) as He by (unfold valid_rune, RuneError; lia).
  intros Hl. unfold DecodeRune, cont.
  destruct Hl as [|b0 l1 H0 Hl]; [done|]. unfold is_byte in H0.
  destruct (b0 <? 128) eqn:?; [cbn [fst]; unfold valid_rune; lia|].
  destruct ((194 <=? b0) && _) eqn:?.
  { destruct Hl as [|b1 l2 H1 Hl]; [done|]. destruct ((128 <=? b1) && _) eqn:?; [|done]. cbn [fst]. unfold valid_rune. lia. }
  destruct ((224 <=? b0) && _) eqn:?.
  { destruct Hl as [|b1 l2 H1 Hl]; [done|]. destruct Hl as [|b2 l3 H2 Hl]; [done|]. cbv zeta.
    destruct ((_ <=? b1) && _ && _) eqn:Hc; [|done]. cbn [fst]. unfold valid_rune.
    destruct (Z.eqb_spec b0 224), (Z.eqb_spec b0 237); lia. }
  destruct ((240 <=? b0) && _) eqn:?; [|done].
  destruct Hl as [|b1 l2 H1 Hl]; [done|]. destruct Hl as [|b2 l3 H2 Hl]; [done|]. destruct Hl as [|b3 l4 H3 Hl]; [done|].
  cbv zeta. destruct ((_ <=? b1) && _ && _ && _) eqn:Hc; [|done]. cbn [fst]. unfold valid_rune.
  destruct (Z.eqb_spec b0 240), (Z.eqb_spec b0 244); lia.
Qed.

Lemma runes_fuel_valid fuel : forall l, Forall is_byte l -> Forall valid_rune (runes_fuel fuel l).*1.
Proof.
  induction fuel as [|fuel IH]; intros l Hl; [constructor|]. cbn [runes_fuel].
  destruct l as [|b l]; [constructor|]. pose proof (DecodeRune_valid _ Hl) as Hv.
  destruct (DecodeRune (b :: l)) as [r w]. cbn [fst] in Hv. constructor; [done|]. by apply IH, Forall_drop.
Qed.

Lemma bytes_range s : Forall is_byte (bytes s).
Proof. apply Forall_fmap, Forall_forall. intros c _. apply byte_of_range. Qed.

Lemma to_runes_valid s : Forall valid_rune (to_runes s).
Proof. apply runes_fuel_valid, bytes_range. Qed.

Lemma EncodeRune_length r : (1 <= length (EncodeRune r))%nat.
Proof. unfold EncodeRune. repeat case_match; cbn; lia. Qed.

Lemma runes_fuel_encode l : Forall valid_rune l -> forall fuel,
  (length (concat (EncodeRune <$> l)) <= fuel)%nat -> (runes_fuel fuel (concat (EncodeRune <$> l))).*1 = l.
Proof.
  induction 1 as [|r l Hr _ IH]; intros fuel Hf; [by destruct fuel|].
  cbn [fmap list_fmap concat] in *. rewrite length_app in Hf. pose proof (EncodeRune_length r).
  destruct fuel as [|fuel]; [lia|]. cbn [runes_fuel].
  destruct (EncodeRune r ++ concat (EncodeRune <$> l)) as [|b bs] eqn:E.
  { apply app_eq_nil in E as [E _]. rewrite E in *. cbn in *. lia. }
  rewrite <- E, DecodeRune_EncodeRune, drop_app_length by done. cbn [fmap list_fmap fst]. f_equal. apply IH. lia.
Qed.

(** [[]rune(string(rs))] is [rs]. *)
Lemma to_of_runes l : Forall valid_rune l -> to_runes (of_runes l) = l.
Proof.
  intros Hl. unfold to_runes, of_runes, runes. rewrite bytes_of_bytes.
  - by apply runes_fuel_encode.
  - apply Forall_concat, Forall_fmap, Forall_forall. intros r _. apply EncodeRune_bytes.
Qed.

(** A string of ASCII characters is its runes. *)
Lemma to_runes_ascii s : Forall (fun b => b < 128) (bytes s) -> to_runes s = bytes s.
Proof.
  intros Hs. unfold to_runes, runes. generalize (Nat.le_refl (length (bytes s))). generalize (length (bytes s)) at 2 3.
  induction Hs as [|b l Hb _ IH]; intros fuel Hf; [by destruct fuel|].
  destruct fuel as [|fuel]; [cbn in Hf; lia|]. cbn [runes_fuel DecodeRune]. destruct (Z.ltb_spec b 128); [|lia].
  cbn [drop skipn fmap list_fmap fst]. f_equal. apply IH. cbn in Hf. lia.
Qed.
