(* ===== verification/GoJson.v ===== *)
(** * Packages [encoding/json] and [fmt] on dynamic values

    [any] holds the dynamic values the sources put in an [interface{}]; [json]
    is a parsed JSON document (members in source order, duplicates kept), what
    a [json.RawMessage] holds. *)

From S2P Require Import Prelude GoStrings GoTime GoFloat.
From Stdlib Require Import SpecFloat OrdersEx.

Inductive any : Type :=
| ANil
| ABool (b : bool)
| AFloat (f : spec_float)
| AInt (z : Z)
| AStr (s : string)
| AStrs (l : option (list string))
| AArr (l : list any)
| AObj (m : list (string * any)).

Inductive json : Type :=
| JNull
| JBool (b : bool)
| JNum (f : spec_float)
| JStr (s : string)
| JArr (l : list json)
| JObj (m : list (string * json)).

(** ** String literals *)

Definition hex4 (z : Z) : string :=
  let d k := if (Z.shiftr z k) mod 16 <? 10 then 48 + (Z.shiftr z k) mod 16
             else 87 + (Z.shiftr z k) mod 16 in
  of_bytes [92; 117; d 12; d 8; d 4; d 0].

(** One rune of [appendString], with HTML escaping on (the default of
    [json.Marshal]); [w] is the rune's width in the input. *)
Definition escape_rune (r : Z) (w : nat) : string :=
  if r =? 34 then of_bytes [92; 34]
  else if r =? 92 then of_bytes [92; 92]
  else if r =? 8 then of_bytes [92; 98]
  else if r =? 12 then of_bytes [92; 102]
  else if r =? 10 then of_bytes [92; 110]
  else if r =? 13 then of_bytes [92; 114]
  else if r =? 9 then of_bytes [92; 116]
  else if (r <? 32) || (r =? 60) || (r =? 62) || (r =? 38) then hex4 r
  else if (r =? RuneError) && (w =? 1)%nat then hex4 RuneError
  else if (r =? 8232) || (r =? 8233) then hex4 r
  else of_bytes (EncodeRune r).

(** Concatenation of a list of strings. *)
Definition sconcat (l : list string) : string := foldr String.append "" l.

(** [json.Marshal] of a string. *)
Definition json_string (s : string) : string :=
  dquote +:+ sconcat ((fun '(r, w) => escape_rune r w) <$> runes (bytes s)) +:+ dquote.

(** ** Sorted keys *)

Definition str_le (a b : string) : bool := String.leb a b.

Fixpoint insert_key {A} (x : string * A) (l : list (string * A)) : list (string * A) :=
  match l with
  | [] => [x]
  | y :: l' => if str_le x.1 y.1 then x :: l else y :: insert_key x l'
  end.

(** The members in the order of their keys, as [sort.Strings] puts them. *)
Definition sort_keys {A} (l : list (string * A)) : list (string * A) := foldr insert_key [] l.

Fixpoint sequence {A} (l : list (result A)) : result (list A) :=
  match l with
  | [] => Ok []
  | Ok a :: l' => match sequence l' with Ok as_ => Ok (a :: as_) | Err e => Err e end
  | Err e :: _ => Err e
  end.

Definition comma (l : list string) : string := Join "," l.

(** [json.Marshal] of a []string: a nil slice is [null]. *)
Definition json_strings (l : option (list string)) : string :=
  match l with
  | None => "null"
  | Some l => "[" +:+ comma (json_string <$> l) +:+ "]"
  end.

(** [json.Marshal] of a dynamic value: map keys sorted. *)
Fixpoint Marshal (v : any) : result string :=
  match v with
  | ANil => Ok "null"
  | ABool b => Ok (if b then "true" else "false")
  | AFloat f => json_float f
  | AInt z => Ok (pretty z)
  | AStr s => Ok (json_string s)
  | AStrs l => Ok (json_strings l)
  | AArr l => parts ← sequence (Marshal <$> l); Ok ("[" +:+ comma parts +:+ "]")
  | AObj m =>
      let members := (fun kv => (kv.1, Marshal kv.2)) <$> m in
      parts ← sequence ((fun kv => v ← kv.2; Ok (json_string kv.1 +:+ ":" +:+ v))
                          <$> sort_keys members);
      Ok ("{" +:+ comma parts +:+ "}")
  end.

(** ** [fmt]'s [%v] *)
Fixpoint fmt_v (v : any) : string :=
  match v with
  | ANil => "<nil>"
  | ABool b => if b then "true" else "false"
  | AFloat f => fmt_float f
  | AInt z => pretty z
  | AStr s => s
  | AStrs l => "[" +:+ Join " " (default [] l) +:+ "]"
  | AArr l => "[" +:+ Join " " (fmt_v <$> l) +:+ "]"
  | AObj m => "map[" +:+ Join " " ((fun kv => kv.1 +:+ ":" +:+ kv.2)
                 <$> sort_keys ((fun kv => (kv.1, fmt_v kv.2)) <$> m)) +:+ "]"
  end.

(** ** Decoding into [interface{}] *)

(** Insert a member, replacing an earlier one of the same name. *)
Fixpoint put {A} (k : string) (v : A) (m : list (string * A)) : list (string * A) :=
  match m with
  | [] => [(k, v)]
  | (k', v') :: m' => if String.eqb k k' then (k, v) :: m' else (k', v') :: put k v m'
  end.

Fixpoint get {A} (k : string) (m : list (string * A)) : option A :=
  match m with
  | [] => None
  | (k', v) :: m' => if String.eqb k k' then Some v else get k m'
  end.

(** [json.Unmarshal] into [interface{}]: numbers are float64, the last of
    duplicate members wins. *)
Fixpoint to_any (j : json) : any :=
  match j with
  | JNull => ANil
  | JBool b => ABool b
  | JNum f => AFloat f
  | JStr s => AStr s
  | JArr l => AArr (to_any <$> l)
  | JObj m => AObj (foldl (fun acc kv => put kv.1 kv.2 acc) []
                      ((fun kv => (kv.1, to_any kv.2)) <$> m))
  end.

(** ** Facts *)

Lemma insert_key_perm {A} (x : string * A) l : insert_key x l ≡ₚ x :: l.
Proof.
  induction l as [|y l IH]; simpl; [done|]. case_match; [done|].
  rewrite IH. apply Permutation_swap.
Qed.

Lemma sort_keys_perm {A} (l : list (string * A)) : sort_keys l ≡ₚ l.
Proof. induction l as [|x l IH]; simpl; [done|]. by rewrite insert_key_perm, IH. Qed.

Lemma str_le_total a b : str_le a b = false -> str_le b a = true.
Proof.
  unfold str_le. intros H. destruct (String.leb_total a b) as [E|E]; congruence.
Qed.

Lemma str_compare_refl a : String.compare a a = Eq.
Proof.
  pose proof (String.compare_antisym a a) as H. by destruct (String.compare a a).
Qed.

Lemma str_le_iff a b : str_le a b = true <-> a = b \/ String_as_OT.lt a b.
Proof.
  unfold str_le, String.leb, String_as_OT.lt.
  change (String_as_OT.compare a b) with (String.compare a b).
  destruct (String.compare a b) eqn:E; split; intros H; try done; auto.
  - left. by apply String.compare_eq_iff.
  - destruct H as [->|H]; [|done]. by rewrite str_compare_refl in E.
Qed.

Lemma str_le_trans a b c : str_le a b = true -> str_le b c = true -> str_le a c = true.
Proof.
  rewrite !str_le_iff. intros [->|H1] [->|H2]; auto. right. by transitivity b.
Qed.

Lemma str_le_antisym a b : str_le a b = true -> str_le b a = true -> a = b.
Proof. apply String.leb_antisym. Qed.

Definition key_le {A} (x y : string * A) : Prop := str_le x.1 y.1 = true.

Lemma insert_key_sorted {A} (x : string * A) l :
  StronglySorted key_le l -> StronglySorted key_le (insert_key x l).
Proof.
  induction l as [|y l IH]; intros Hs; simpl; [by repeat constructor|].
  apply StronglySorted_inv in Hs as [Hs Hy]. destruct (str_le x.1 y.1) eqn:E.
  - constructor; [by constructor|]. constructor; [done|].
    eapply Forall_impl; [exact Hy|]. intros z Hz. by eapply str_le_trans.
  - constructor; [auto|]. rewrite insert_key_perm. constructor; [|done].
    by apply str_le_total.
Qed.

Lemma sort_keys_sorted {A} (l : list (string * A)) : StronglySorted key_le (sort_keys l).
Proof. induction l; simpl; [constructor|]. by apply insert_key_sorted. Qed.

(** Two sorted arrangements of the same members with distinct keys coincide:
    the order a map was walked in does not matter. *)
Lemma sorted_unique {A} (l1 l2 : list (string * A)) :
  StronglySorted key_le l1 -> StronglySorted key_le l2 ->
  NoDup l1.*1 -> l1 ≡ₚ l2 -> l1 = l2.
Proof.
  revert l2. induction l1 as [|x l1 IH]; intros l2 H1 H2 Hnd Hp.
  { by apply Permutation_nil_l in Hp as ->. }
  destruct l2 as [|y l2]; [by apply Permutation_nil_r in Hp|].
  apply StronglySorted_inv in H1 as [H1 Hx]. apply StronglySorted_inv in H2 as [H2 Hy].
  rewrite fmap_cons in Hnd. apply NoDup_cons in Hnd as [Hnin Hnd].
  assert (Hxy : x = y).
  { assert (y ∈ x :: l1) as [->|Hyin]%elem_of_cons by (rewrite Hp; left); [done|].
    assert (x ∈ y :: l2) as [->|Hxin]%elem_of_cons by (rewrite <- Hp; left); [done|].
    rewrite Forall_forall in Hx, Hy.
    destruct Hnin. rewrite (str_le_antisym x.1 y.1); [by apply list_elem_of_fmap_2| |].
    - by apply Hx.
    - by apply Hy. }
  subst y. f_equal. apply IH; [done..|]. by apply Permutation_cons_inv in Hp.
Qed.

Lemma sort_keys_unique {A} (l1 l2 : list (string * A)) :
  NoDup l1.*1 -> l1 ≡ₚ l2 -> sort_keys l1 = sort_keys l2.
Proof.
  intros Hnd Hp. apply sorted_unique; try apply sort_keys_sorted.
  - by rewrite sort_keys_perm.
  - by rewrite !sort_keys_perm.
Qed.

Lemma get_put_eq {A} k (v : A) m : get k (put k v m) = Some v.
Proof.
  induction m as [|[k' v'] m IH]; simpl; [by rewrite String.eqb_refl|].
  destruct (String.eqb k k') eqn:E; simpl; [by rewrite String.eqb_refl|by rewrite E].
Qed.

Lemma get_put_ne {A} k k' (v : A) m : k <> k' -> get k' (put k v m) = get k' m.
Proof.
  intros Hne. assert (Hf : String.eqb k' k = false) by (apply String.eqb_neq; congruence).
  induction m as [|[k1 v1] m IH]; simpl; [by rewrite Hf|].
  destruct (String.eqb_spec k k1) as [<-|H1]; simpl; [by rewrite Hf|by rewrite IH].
Qed.

Example json_string_ex : json_string "a<b" = dquote +:+ "a" +:+ backslash +:+ "u003cb" +:+ dquote.
Proof. vm_compute. reflexivity. Qed.
Example fmt_v_ex : fmt_v (AObj [("b", AArr [AStr "x"; AInt 2]); ("a", ANil)]) = "map[a:<nil> b:[x 2]]".
Proof. vm_compute. reflexivity. Qed.

(** Induction on values, through arrays and objects. *)
Lemma any_nested_ind (P : any -> Prop) :
  P ANil -> (forall b, P (ABool b)) -> (forall f, P (AFloat f)) -> (forall z, P (AInt z)) ->
  (forall s, P (AStr s)) -> (forall l, P (AStrs l)) ->
  (forall l, Forall P l -> P (AArr l)) ->
  (forall m, Forall (fun kv => P kv.2) m -> P (AObj m)) -> forall v, P v.
Proof.
  intros Hn Hb Hf Hi Hs Hss Ha Ho. fix IH 1. intros [|b|f|z|s|l|l|m].
  - done.
  - apply Hb.
  - apply Hf.
  - apply Hi.
  - apply Hs.
  - apply Hss.
  - apply Ha. induction l; constructor; [apply IH|done].
  - apply Ho. induction m as [|[k v] m IHm]; constructor; [apply IH|done].
Qed.

(** Sorting by key commutes with a change of the values. *)
Lemma sort_keys_fmap {A B} (g : A -> B) (m : list (string * A)) :
  sort_keys ((fun kv => (kv.1, g kv.2)) <$> m) = (fun kv => (kv.1, g kv.2)) <$> sort_keys m.
Proof.
  induction m as [|[k v] m IH]; [done|]. cbn [fmap list_fmap sort_keys foldr].
  fold (sort_keys m). unfold sort_keys in IH at 1. cbn [fmap list_fmap] in IH. rewrite IH. clear IH.
  generalize (sort_keys m). induction l as [|[k' v'] l IHl]; [done|]. cbn.
  destruct (str_le k k'); [done|]. cbn. by rewrite <- IHl.
Qed.

(** Members with different names can be inserted in either order. *)
Lemma insert_key_comm {A} (x y : string * A) l :
  x.1 <> y.1 -> insert_key x (insert_key y l) = insert_key y (insert_key x l).
Proof.
  intros Hne.
  assert (Hxy : str_le x.1 y.1 = negb (str_le y.1 x.1)).
  { destruct (str_le x.1 y.1) eqn:H1, (str_le y.1 x.1) eqn:H2; try done.
    - by destruct Hne; apply str_le_antisym.
    - apply str_le_total in H1. congruence. }
  induction l as [|z l IH]; cbn.
  { rewrite Hxy. by destruct (str_le y.1 x.1). }
  destruct (str_le y.1 z.1) eqn:Hyz, (str_le x.1 z.1) eqn:Hxz; cbn; rewrite ?Hyz, ?Hxz; [| | |by rewrite IH].
  - rewrite Hxy. destruct (str_le y.1 x.1); cbn; by rewrite ?Hyz, ?Hxz.
  - destruct (str_le x.1 y.1) eqn:H; [|done].
    by rewrite (str_le_trans x.1 y.1 z.1) in Hxz.
  - destruct (str_le y.1 x.1) eqn:H; [|done].
    by rewrite (str_le_trans y.1 x.1 z.1) in Hyz.
Qed.

Lemma put_put {A} k (v v' : A) m : put k v (put k v' m) = put k v m.
Proof.
  induction m as [|[k' x] m IH]; simpl; [by rewrite String.eqb_refl|].
  destruct (String.eqb_spec k k') as [<-|Hne]; simpl; [by rewrite String.eqb_refl|].
  rewrite (proj2 (String.eqb_neq _ _)) by done. by rewrite IH.
Qed.
