(* ===== verification/GoHttp.v ===== *)
(** * HTTP clients and process environments

    What the adapters use of [net/http], [net/url], [net] and [os]. [Net] is the
    outside: the answer to a request, the parsers of URLs, addresses and HTTP
    dates, cancellation of a context, standard input and files. A client program
    is state-passing code over [Proc]: its own state, a counter of the questions
    asked so far and the requests it has sent, in order. Redirects are refused by
    every client of the repository, so a response is the first one. *)

From S2P Require Import Prelude GoStrings GoTime GoFloat GoCrypto GoJson.
From Stdlib Require Import SpecFloat.

Module HttpRequest.
Record t := mk { Method : string; URL : string; Header : list (string * string); Body : string }.
End HttpRequest.

Module HttpResponse.
(** [Header k] is [resp.Header.Get(k)]: empty when absent. *)
Record t := mk { StatusCode : Z; Header : string -> string; Body : string }.
End HttpResponse.

(** A parsed URL: two fields and two methods. *)
Module Url.
Record t := mk { Scheme : string; Host : string; Hostname : string; String_ : string }.
End Url.

Class Net := {
  http_Do : nat -> HttpRequest.t -> result HttpResponse.t;
  url_Parse : string -> result Url.t;
  (* [Some b]: an IP address, loopback or not *)
  net_ParseIP : string -> option bool;
  http_ParseTime : string -> option Time;
  (* the context's error, once it is done *)
  ctx_Err : nat -> option string;
  rand_Float64 : nat -> spec_float;
  os_ReadFile : nat -> string -> result string;
  (* [bufio.ReadString('\n')] on a terminal that could be opened *)
  tty_ReadLine : nat -> string -> option (result string);
  (* [bufio.Scanner] on standard input: [None] at its end *)
  stdin_Scan : nat -> result (option string)
}.

(** The environment of a process: [None] when a variable is not set. *)
Definition environ : Type := string -> option string.
Definition Getenv (env : environ) (k : string) : string := default "" (env k).

(** ** Client programs *)

Record Proc (S : Type) := mkProc { ps : S; ptick : nat; reqs : list HttpRequest.t }.
Arguments mkProc {S} _ _ _.
Arguments ps {S} _.
Arguments ptick {S} _.
Arguments reqs {S} _.

Definition PM (S A : Type) : Type := ST (Proc S) A.

Section Programs.
Context {S : Type}.
Definition pask {A} (f : nat -> A) : PM S A := fun p => (f (ptick p), mkProc (ps p) (Datatypes.S (ptick p)) (reqs p)).
Definition pget : PM S S := fun p => (ps p, p).
Definition pput (s : S) : PM S unit := fun p => (tt, mkProc s (ptick p) (reqs p)).
Definition send {N : Net} (r : HttpRequest.t) : PM S (result HttpResponse.t) :=
  fun p => (http_Do (ptick p) r, mkProc (ps p) (Datatypes.S (ptick p)) (reqs p ++ [r])).
End Programs.

(** ** Small functions of the standard library *)

(** [strings.TrimSuffix] and [strings.TrimRight] for one trailing character. *)
Fixpoint TrimSuffix1 (s : string) (c : Ascii.ascii) : string :=
  match s with
  | EmptyString => EmptyString
  | String x EmptyString => if Ascii.eqb x c then EmptyString else s
  | String x s' => String x (TrimSuffix1 s' c)
  end.

Fixpoint TrimRight1 (s : string) (c : Ascii.ascii) : string :=
  match s with
  | EmptyString => EmptyString
  | String x s' => match TrimRight1 s' c with
                   | EmptyString => if Ascii.eqb x c then EmptyString else String x EmptyString
                   | t => String x t
                   end
  end.

Definition char_slash : Ascii.ascii := ascii_of 47.
Definition TrimSuffix_slash (s : string) : string := TrimSuffix1 s char_slash.
Definition TrimRight_slash (s : string) : string := TrimRight1 s char_slash.

(** [io.LimitReader(r, n)]: the first [n] bytes. *)
Fixpoint limit_bytes (n : Z) (s : string) : string :=
  match s with
  | EmptyString => EmptyString
  | String c s' => if n <=? 0 then EmptyString else String c (limit_bytes (n - 1) s')
  end.

(** [strings.Index] of one byte. *)
Fixpoint Index1 (s : string) (c : Ascii.ascii) : option nat :=
  match s with
  | EmptyString => None
  | String x s' => if Ascii.eqb x c then Some 0%nat else S <$> Index1 s' c
  end.

(** [strconv.ParseBool]. *)
Definition ParseBool (s : string) : option bool :=
  if bool_decide (s ∈ ["1"; "t"; "T"; "TRUE"; "true"; "True"]) then Some true
  else if bool_decide (s ∈ ["0"; "f"; "F"; "FALSE"; "false"; "False"]) then Some false
  else None.

(** [int64(x)] of a finite float in range: towards zero. *)
Definition trunc_to_int (x : float64) : Z :=
  match x with
  | S754_finite s m e =>
      let v := if 0 <=? e then Zpos m * 2 ^ e else Zpos m / 2 ^ (- e) in if s then - v else v
  | _ => 0
  end.

(** Any status but 2xx. Three packages have this function. *)
Definition isNotSuccess (status : Z) : bool := (status <? 200) || (300 <=? status).

Example trim_ex : (TrimSuffix_slash "a//", TrimRight_slash "a//", TrimRight_slash "///", Index1 "a<b" (ascii_of 60))
  = ("a/", "a", "", Some 1%nat).
Proof. reflexivity. Qed.

(** ** Facts *)

Lemma TrimRight1_spec s c : exists t, s = TrimRight1 s c +:+ t /\ Forall (eq c) (String.list_ascii_of_string t).
Proof.
  induction s as [|x s IH]; [by exists ""|]. destruct IH as (t & Hs & Ht). cbn [TrimRight1].
  destruct (TrimRight1 s c) as [|y r] eqn:E.
  - change ("" +:+ t) with t in Hs. subst t. destruct (Ascii.eqb_spec x c) as [->|Hne]; [exists (String c s)|exists s];
      (split; [done|]); [by constructor|done].
  - exists t. split; [|done]. rewrite Hs at 1. done.
Qed.

Lemma limit_bytes_fits n s : Z.of_nat (String.length s) <= n -> limit_bytes n s = s.
Proof.
  revert n. induction s as [|c s IH]; intros n Hn; [done|]. cbn [limit_bytes String.length] in *.
  destruct (Z.leb_spec n 0); [lia|]. rewrite IH by lia. done.
Qed.
