(* ===== verification/GoParse.v ===== *)
(** * Parsers of the standard library used by the configuration loaders

    [time.ParseDuration] and [strconv.ParseFloat], following their loops; both
    return [None] where Go returns an error. *)

From S2P Require Import Prelude GoStrings GoTime GoFloat GoHttp.
From Stdlib Require Import SpecFloat.

(** ** [time.ParseDuration] *)

(** [leadingInt]: the value and the rest; [None] on overflow. *)
Fixpoint leadingInt (x : Z) (l : list Z) : option (Z * list Z) :=
  match l with
  | b :: l' =>
      if is_digit b then
        if two63 / 10 <? x then None
        else let x' := x * 10 + (b - 48) in if two63 <? x' then None else leadingInt x' l'
      else Some (x, l)
  | [] => Some (x, [])
  end.

(** [leadingFraction]: the digits kept, their scale and the rest; digits that no
    longer fit are skipped. *)
Fixpoint leadingFraction (overflow : bool) (x : Z) (scale : float64) (l : list Z) : Z * float64 * list Z :=
  match l with
  | b :: l' =>
      if is_digit b then
        if overflow || ((two63 - 1) / 10 <? x) then leadingFraction true x scale l'
        else let y := x * 10 + (b - 48) in
             if two63 <? y then leadingFraction true x scale l'
             else leadingFraction false y (fmul scale (of_int 10)) l'
      else (x, scale, l)
  | [] => (x, scale, [])
  end.

Definition number_byte (b : Z) : bool := (b =? 46) || is_digit b.

Fixpoint span_unit (l : list Z) : list Z * list Z :=
  match l with
  | b :: l' => if number_byte b then ([], l) else let '(u, r) := span_unit l' in (b :: u, r)
  | [] => ([], [])
  end.

Definition unitMap : list (list Z * Z) :=
  [(bytes "ns", 1); (bytes "us", 1000); ([194; 181; 115], 1000); ([206; 188; 115], 1000);
   (bytes "ms", 1000000); (bytes "s", Second); (bytes "m", Minute); (bytes "h", Hour)].

(** One turn of the loop: what the number with its unit adds, and the rest. *)
Definition duration_term (l : list Z) : option (Z * list Z) :=
  match leadingInt 0 l with
  | None => None
  | Some (v, l1) =>
      let pre := negb (length l1 =? length l)%nat in
      let '(f, scale, l2, post) :=
        match l1 with
        | b :: l1' => if b =? 46 then let '(f, scale, l2) := leadingFraction false 0 (of_int 1) l1' in
                                      (f, scale, l2, negb (length l2 =? length l1')%nat)
                      else (0, of_int 1, l1, false)
        | [] => (0, of_int 1, l1, false)
        end in
      if negb pre && negb post then None
      else
        let '(u, l3) := span_unit l2 in
        match find (fun kv => bool_decide (kv.1 = u)) unitMap with
        | None => None
        | Some (_, unit) =>
            if two63 / unit <? v then None
            else
              let v1 := v * unit + (if 0 <? f then trunc_to_int (fmul (of_int f) (fdiv (of_int unit) scale)) else 0) in
              if two63 <? v1 then None else Some (v1, l3)
        end
  end.

Fixpoint duration_loop (fuel : nat) (d : Z) (l : list Z) : option Z :=
  match l, fuel with
  | [], _ => Some d
  | b :: _, S fuel' =>
      if negb (number_byte b) then None
      else match duration_term l with
           | None => None
           | Some (v, rest) => if two63 <? d + v then None else duration_loop fuel' (d + v) rest
           end
  | _, O => None
  end.

(** Every turn consumes a unit, so the length of the text is fuel enough. *)
Definition ParseDuration (s : string) : option Duration :=
  let l := bytes s in
  let '(neg, l) := match l with
                   | b :: l' => if (b =? 45) || (b =? 43) then (b =? 45, l') else (false, l)
                   | [] => (false, l)
                   end in
  if bool_decide (l = [48]) then Some 0
  else if bool_decide (l = []) then None
  else match duration_loop (length l) 0 l with
       | None => None
       | Some d => if neg then Some (- d) else if two63 - 1 <? d then None else Some d
       end.

Example ParseDuration_ex : ParseDuration <$> ["30s"; "1h2m3.5s"; "-1.5h"; "5"; ".s"; "10m x"; "0"; "1us"; "9223372036854775808ns"]
  = [Some (30 * Second); Some (3723 * Second + 500000000); Some (- (90 * Minute)); None; None; None; Some 0; Some 1000; None].
Proof. vm_compute. reflexivity. Qed.

(** ** [strconv.ParseFloat(s, 64)] *)

Definition lower (b : Z) : Z := Z.lor b 32.

Definition hex_digit (hex : bool) (b : Z) : option Z :=
  if is_digit b then Some (b - 48)
  else if hex && (97 <=? lower b) && (lower b <=? 102) then Some (lower b - 87) else None.

(** The mantissa: value of the digits, digits after the point, whether any digit
    and any underscore was seen, and the rest. *)
Fixpoint mantissa (hex : bool) (m frac : Z) (dot saw us : bool) (l : list Z) : Z * Z * bool * bool * list Z :=
  match l with
  | b :: l' =>
      if b =? 95 then mantissa hex m frac dot saw true l'
      else if (b =? 46) && negb dot then mantissa hex m frac true saw us l'
      else match hex_digit hex b with
           | Some d => mantissa hex (m * (if hex then 16 else 10) + d) (if dot then frac + 1 else frac) dot true us l'
           | None => (m, frac, saw, us, l)
           end
  | [] => (m, frac, saw, us, [])
  end.

Fixpoint exponent (e : Z) (us : bool) (l : list Z) : Z * bool * list Z :=
  match l with
  | b :: l' =>
      if b =? 95 then exponent e true l'
      else if is_digit b then exponent (if e <? 10000 then e * 10 + (b - 48) else e) us l'
      else (e, us, l)
  | [] => (e, us, [])
  end.

(** [underscoreOK]: underscores only between digits; a base prefix counts as one.
    The last thing seen is the start or another character, a digit, or an underscore. *)
Inductive last_seen := SeenOther | SeenDigit | SeenUnderscore.

Fixpoint underscore_loop (hex : bool) (i : last_seen) (l : list Z) : bool :=
  match l with
  | [] => match i with SeenUnderscore => false | _ => true end
  | b :: l' =>
      match hex_digit hex b with
      | Some _ => underscore_loop hex SeenDigit l'
      | None =>
          if b =? 95 then match i with SeenDigit => underscore_loop hex SeenUnderscore l' | _ => false end
          else match i with SeenUnderscore => false | _ => underscore_loop hex SeenOther l' end
      end
  end.

Definition split_sign (l : list Z) : option bool * list Z :=
  match l with
  | b :: l' => if b =? 45 then (Some true, l') else if b =? 43 then (Some false, l') else (None, l)
  | [] => (None, l)
  end.

Definition underscoreOK (l : list Z) : bool :=
  let l := (split_sign l).2 in
  match l with
  | z :: p :: l' =>
      if (z =? 48) && ((lower p =? 98) || (lower p =? 111) || (lower p =? 120))
      then underscore_loop (lower p =? 120) SeenDigit l'
      else underscore_loop false SeenOther l
  | _ => underscore_loop false SeenOther l
  end.

(** [special]: infinities and the not-a-number, in any case. *)
Definition special (l : list Z) : option float64 :=
  let '(sign, r) := split_sign l in
  let t := lower <$> r in
  let neg := default false sign in
  if bool_decide (t = bytes "inf") || bool_decide (t = bytes "infinity") then Some (S754_infinity neg)
  else if bool_decide (sign = None) && bool_decide (t = bytes "nan") then Some S754_nan
  else None.

Definition read_float (l : list Z) : option float64 :=
  let '(sign, r) := split_sign l in
  let neg := default false sign in
  let '(hex, r) := match r with
                   | z :: x :: d :: r' => if (z =? 48) && (lower x =? 120) then (true, d :: r') else (false, r)
                   | _ => (false, r)
                   end in
  let '(m, frac, saw, us, r1) := mantissa hex 0 0 false false false r in
  if negb saw then None
  else
    let with_exponent e us rest :=
      if negb (bool_decide (rest = [])) || (us && negb (underscoreOK l)) then None
      else match m with
           | Zpos p => Some (if hex then SpecFloat.binary_round prec64 emax64 neg p (e - 4 * frac) else of_dec neg p (e - frac))
           | _ => Some (S754_zero neg)
           end in
    match r1 with
    | c :: r2 =>
        if lower c =? (if hex then 112 else 101) then
          let '(esign, r3) := split_sign r2 in
          match r3 with
          | d :: _ => if is_digit d then
                        let '(e, us, rest) := exponent 0 us r3 in
                        with_exponent (if default false esign then - e else e) us rest
                      else None
          | [] => None
          end
        else None
    | [] => if hex then None else with_exponent 0 us []
    end.

(** A finite text beyond the largest float is an error; an infinity is not. *)
Definition ParseFloat (s : string) : option float64 :=
  match special (bytes s) with
  | Some x => Some x
  | None => match read_float (bytes s) with
            | Some (S754_infinity _) => None
            | r => r
            end
  end.

Example ParseFloat_ex :
  ParseFloat <$> ["900"; "9e2"; "1_0.0e1"; "+Inf"; "1e400"; "0x1.8p1"; "1_"; "."; ""; "-0"; "3x"]
  = [Some (of_int 900); Some (of_int 900); Some (of_int 100); Some (S754_infinity false); None; Some (of_int 3);
     None; None; None; Some (S754_zero true); None].
Proof. vm_compute. reflexivity. Qed.


(** ** [strconv.ParseInt(s, 0, 64)], as [flag.Int] uses it *)

Definition digit_val (b : Z) : option Z :=
  if is_digit b then Some (b - 48)
  else if (97 <=? lower b) && (lower b <=? 122) then Some (lower b - 87) else None.

(** The digits in [base]; underscores are skipped, [None] on a foreign byte. *)
Fixpoint base_digits (base n : Z) (l : list Z) : option Z :=
  match l with
  | [] => Some n
  | b :: l' =>
      if b =? 95 then base_digits base n l'
      else match digit_val b with
           | Some d => if d <? base then base_digits base (n * base + d) l' else None
           | None => None
           end
  end.

(** The base and the digits behind its prefix. *)
Definition split_base (l : list Z) : Z * list Z :=
  match l with
  | z :: p :: d :: l' =>
      if negb (z =? 48) then (10, l)
      else if lower p =? 98 then (2, d :: l') else if lower p =? 111 then (8, d :: l')
      else if lower p =? 120 then (16, d :: l') else (8, p :: d :: l')
  | z :: p :: l' => if z =? 48 then (8, p :: l') else (10, l)
  | _ => (10, l)
  end.

Definition ParseInt0 (s : string) : option Z :=
  let l := bytes s in
  let '(sign, r) := split_sign l in
  if bool_decide (r = []) then None
  else
    let '(base, ds) := split_base r in
    if bool_decide (95 ∈ l) && negb (underscoreOK l) then None
    else match base_digits base 0 ds with
         | None => None
         | Some n =>
             if default false sign then if two63 <? n then None else Some (- n)
             else if two63 - 1 <? n then None else Some n
         end.

Example ParseInt0_ex : ParseInt0 <$> ["42"; "-0x1F"; "0b101"; "017"; "1_000"; "_1"; "9x"; ""; "0"; "9223372036854775808"]
  = [Some 42; Some (-31); Some 5; Some 15; Some 1000; None; None; None; Some 0; None].
Proof. vm_compute. reflexivity. Qed.

(** ** [flag.FlagSet] *)

Inductive flag_kind := FString | FBool | FInt.

Definition flag_valid (k : flag_kind) (v : string) : bool :=
  match k with
  | FString => true
  | FBool => if ParseBool v then true else false
  | FInt => if ParseInt0 v then true else false
  end.

(** The first ["="] of a flag, not at its first byte. *)
Definition split_eq (name : string) : string * option string :=
  match name with
  | String c rest =>
      match Index1 rest (ascii_of 61) with
      | Some i => (String c (take_bytes i rest), Some (drop_bytes (S i) rest))
      | None => (name, None)
      end
  | EmptyString => (name, None)
  end.

(** [parseOne] on an argument: not a flag, the terminator, malformed, or a name
    with its value. *)
Inductive flag_arg := NotFlag | Terminator | BadFlag | Flag (name : string) (value : option string).

Definition flag_of (s : string) : flag_arg :=
  match s with
  | String c0 (String c1 rest) =>
      if negb (byte_of c0 =? 45) then NotFlag
      else
        let '(name, dashes) := if byte_of c1 =? 45 then (rest, true) else (String c1 rest, false) in
        if dashes && String.eqb rest "" then Terminator
        else match name with
             | EmptyString => BadFlag
             | String c _ => if (byte_of c =? 45) || (byte_of c =? 61) then BadFlag
                             else let '(n, v) := split_eq name in Flag n v
             end
  | _ => NotFlag
  end.

(** [FlagSet.Parse]: the values set, the last one of a name first; [None] for an
    error (an unknown flag, ["-h"] too). *)
Fixpoint parse_flags (fs : list (string * flag_kind)) (set : list (string * string)) (args : list string)
    : option (list (string * string)) :=
  match args with
  | [] => Some set
  | a :: args' =>
      match flag_of a with
      | NotFlag | Terminator => Some set
      | BadFlag => None
      | Flag name value =>
          match find (fun f => String.eqb f.1 name) fs with
          | None => None
          | Some (_, kind) =>
              match kind, value, args' with
              | FBool, None, _ => parse_flags fs ((name, "true") :: set) args'
              | _, Some v, _ => if flag_valid kind v then parse_flags fs ((name, v) :: set) args' else None
              | _, None, v :: args'' => if flag_valid kind v then parse_flags fs ((name, v) :: set) args'' else None
              | _, None, [] => None
              end
          end
      end
  end.

Definition flag_value (set : list (string * string)) (name def : string) : string :=
  match find (fun kv => String.eqb kv.1 name) set with Some kv => kv.2 | None => def end.

Example parse_flags_ex :
  let fs := [("dev", FBool); ("name", FString); ("number", FInt)] in
  (parse_flags fs [] ["--name"; "a"; "-dev"; "--name=b=c"; "rest"; "--x"], parse_flags fs [] ["--nope"], parse_flags fs [] ["-number"; "x"],
   parse_flags fs [] ["--name"], parse_flags fs [] ["--"; "--nope"])
  = (Some [("name", "b=c"); ("dev", "true"); ("name", "a")], None, None, None, Some []).
Proof. vm_compute. reflexivity. Qed.
