(* ===== verification/GoOs.v ===== *)
(** * Packages [os] and [path/filepath]: files on a Unix system

    A disk maps the file a path names to its contents and permissions. Paths are
    resolved lexically (there are no symbolic links); directories are not
    represented. The operating system answers each call, numbered by a clock: it
    may fail the call, stop a write half-way, or end the process before the call
    takes effect, after which the disk does not change any more. *)

From S2P Require Import Prelude GoStrings.
From Stdlib Require Import Ascii.

(** ** Package [path/filepath] *)

Definition slash : ascii := ascii_of 47.

Definition rooted (p : string) : bool := match p with String c _ => bool_decide (c = slash) | "" => false end.

(** One element of a path on the reversed list of those before it. *)
Definition clean_push (root : bool) (stack : list string) (elem : string) : list string :=
  if String.eqb elem "" || String.eqb elem "." then stack
  else if String.eqb elem ".." then
    match stack with
    | [] => if root then [] else [".."]
    | top :: rest => if String.eqb top ".." then ".." :: stack else rest
    end
  else elem :: stack.

Definition parts (p : string) : list string := reverse (foldl (clean_push (rooted p)) [] (Split slash p)).

Definition Clean (p : string) : string :=
  let body := Join "/" (parts p) in
  if rooted p then "/" +:+ body else if String.eqb body "" then "." else body.

Definition Dir (p : string) : string := Clean (take_bytes (Z.to_nat (LastIndex p slash + 1)) p).

(** What a path names. *)
Definition Path : Type := bool * list string.
Definition resolve (p : string) : Path := (rooted p, parts p).

Example clean_ex : Clean <$> [""; "a//b/./c/.."; "/../a"; "../../x"; "a/.."; "/"] = ["."; "a/b"; "/a"; "../../x"; "."; "/"]
  /\ Dir <$> [".oiaf/okta-state.json"; "state.json"; "/s.json"; "/var/lib/oiaf/"] = [".oiaf"; "."; "/"; "/var/lib/oiaf"].
Proof. vm_compute. done. Qed.

(** ** Files *)

Record File := mkFile { contents : string; mode : Z }.
Record Disk := mkDisk { files : gmap Path File; halted : bool }.

Definition set_files (f : gmap Path File -> gmap Path File) (d : Disk) : Disk := mkDisk (f (files d)) (halted d).
Definition halt (d : Disk) : Disk := mkDisk (files d) true.

(** The answers of the operating system to the [n]-th call. *)
Class OS := {
  os_error : nat -> option string;   (* an error other than that the file exists, or does not *)
  os_killed : nat -> bool;           (* the process ends before the call takes effect *)
  os_written : nat -> nat;           (* how much of the data a write cut short leaves *)
  os_random : nat -> nat -> Z;       (* the random number of the [k]-th attempt of [CreateTemp] *)
  os_umask : Z
}.

Section Calls.
Context {Sys : OS}.

(** A call that changes the disk, or fails and does not. *)
Definition syscall (effect : gmap Path File -> gmap Path File) (n : nat) (d : Disk) : option string * Disk :=
  if halted d || os_killed n then (Some "killed", halt d)
  else match os_error n with Some e => (Some e, d) | None => (None, set_files effect d) end.

Definition MkdirAll : nat -> Disk -> option string * Disk := syscall (fun m => m).

(** [file.Write] of an open file that is empty: all of the data, or an error. *)
Definition Write (name data : string) (n : nat) (d : Disk) : option string * Disk :=
  let put s := set_files (alter (fun f => mkFile s (mode f)) (resolve name)) in
  if halted d then (Some "killed", d)
  else if os_killed n then (Some "killed", halt (put (take_bytes (os_written n) data) d))
  else match os_error n with
       | Some e => (Some e, put (take_bytes (os_written n) data) d)
       | None => (None, put data d)
       end.

Definition Chmod (name : string) (perm : Z) : nat -> Disk -> option string * Disk :=
  syscall (alter (fun f => mkFile (contents f) perm) (resolve name)).

Definition Close : nat -> Disk -> option string * Disk := syscall (fun m => m).

Definition Rename (old new : string) : nat -> Disk -> option string * Disk :=
  syscall (fun m => match m !! resolve old with
                    | Some f => <[resolve new := f]> (delete (resolve old) m)
                    | None => m
                    end).

Definition Remove (name : string) : nat -> Disk -> option string * Disk := syscall (delete (resolve name)).

Definition joinPath (dir name : string) : string :=
  if bool_decide (last (String.list_ascii_of_string dir) = Some slash) then dir +:+ name else dir +:+ "/" +:+ name.

(** [os.CreateTemp(dir, prefix + "*" + suffix)] for a given directory: the first
    name of 10000 that is free. *)
Definition temp_name (dir prefix suffix : string) (r : Z) : string := joinPath dir prefix +:+ pretty r +:+ suffix.

Fixpoint free_name (dir prefix suffix : string) (n tries k : nat) (m : gmap Path File) : option string :=
  match tries with
  | O => None
  | S tries' =>
      let name := temp_name dir prefix suffix (os_random n k) in
      if bool_decide (is_Some (m !! resolve name)) then free_name dir prefix suffix n tries' (S k) m else Some name
  end.

Definition CreateTemp (dir prefix suffix : string) (n : nat) (d : Disk) : result string * Disk :=
  match free_name dir prefix suffix n (Z.to_nat 10000) 0 (files d) with
  | None => (Err ("createtemp " +:+ joinPath dir prefix +:+ "*" +:+ suffix +:+ ": file already exists"), d)
  | Some name =>
      match syscall <[resolve name := mkFile "" (Z.ldiff 384 os_umask)]> n d with
      | (Some e, d') => (Err e, d')
      | (None, d') => (Ok name, d')
      end
  end.

(** [os.ReadFile]. *)
Inductive read_result := RData (data : string) | RNotExist | RError (e : string).

Definition ReadFile (name : string) (n : nat) (d : Disk) : read_result :=
  match os_error n with
  | Some e => RError e
  | None => match files d !! resolve name with Some f => RData (contents f) | None => RNotExist end
  end.
End Calls.

(** ** Facts: the name of a file in a directory *)

(** The element a path ends in. *)
Definition Base_of (p : string) : string := default "" (last (Split slash p)).

Lemma parts_last p : let b := Base_of p in b <> "" -> b <> "." -> b <> ".." -> last (parts p) = Some b.
Proof.
  cbv zeta. unfold parts, Base_of. destruct (Split_cons slash p) as (x & xs & ->).
  destruct (exists_last (l := x :: xs) ltac:(done)) as (l & b & E). rewrite E, last_snoc. cbn [default].
  intros H1 H2 H3. rewrite foldl_app. cbn [foldl]. unfold clean_push at 1.
  destruct (String.eqb_spec b ""); [done|]. destruct (String.eqb_spec b "."); [done|]. destruct (String.eqb_spec b ".."); [done|].
  cbn [orb]. by rewrite reverse_cons, last_snoc.
Qed.

(** A text without separators. *)
Definition no_slash (s : string) : Prop := Split slash s = [s].

Lemma no_slash_cons c s : no_slash (String c s) <-> c <> slash /\ no_slash s.
Proof.
  unfold no_slash. cbn [Split]. destruct (Split_cons slash s) as (p & ps & E).
  destruct (Ascii.eqb_spec c slash) as [->|Hc]; [split; [by intros [=]|by intros [? _]]|]. rewrite E.
  split; [intros [= -> ->]; done|]. by intros [_ [= -> ->]].
Qed.

Lemma no_slash_app s t : no_slash s -> no_slash t -> no_slash (s +:+ t).
Proof.
  intros Hs Ht. induction s as [|c s IH]; [done|]. rewrite str_app_cons. apply no_slash_cons in Hs as [? ?].
  apply no_slash_cons. split; [done|by apply IH].
Qed.

Lemma no_slash_pretty (z : Z) : no_slash (pretty z).
Proof.
  assert (Hd : forall s, digits_only s -> no_slash s).
  { induction s as [|c s IH]; [done|]. intros [Hc Hs]%digits_only_cons. apply no_slash_cons. split; [|by apply IH].
    intros ->. done. }
  destruct z as [|p|p]; [done|apply Hd, pretty_digits; lia|].
  change (pretty (Zneg p)) with (String (ascii_of 45) (pretty (Zpos p))). apply no_slash_cons. split; [done|].
  apply Hd, pretty_digits. lia.
Qed.

Lemma Split_slash s t : Split slash (s +:+ "/" +:+ t) = Split slash s ++ Split slash t.
Proof.
  induction s as [|c s IH]; [done|]. rewrite str_app_cons. cbn [Split]. rewrite IH.
  destruct (Split_cons slash s) as (p & ps & ->). by destruct (Ascii.eqb c slash).
Qed.

Lemma ends_in_slash s : last (String.list_ascii_of_string s) = Some slash -> exists s', s = s' +:+ "/".
Proof.
  induction s as [|c s IH]; [done|]. cbn [String.list_ascii_of_string]. destruct s as [|c' s]; [|intros H].
  { intros [= ->]. by exists "". }
  destruct IH as [s' ->]; [exact H|]. exists (String c s'). by rewrite str_app_cons.
Qed.

Lemma joinPath_base dir name : no_slash name -> Base_of (joinPath dir name) = name.
Proof.
  intros Hn. unfold joinPath, Base_of.
  assert (forall d, default "" (last (Split slash (d +:+ "/" +:+ name))) = name) as Hd.
  { intros d. by rewrite Split_slash, Hn, last_snoc. }
  case_bool_decide as H; [|apply Hd]. apply ends_in_slash in H as [d ->]. rewrite str_app_assoc. apply Hd.
Qed.

(** The files [CreateTemp] makes are told from others by their last element. *)
Lemma temp_name_base dir prefix suffix r : no_slash prefix -> no_slash suffix ->
  Base_of (temp_name dir prefix suffix r) = prefix +:+ pretty r +:+ suffix.
Proof.
  intros Hp Hs. unfold temp_name. replace (joinPath dir prefix +:+ pretty r +:+ suffix)
    with (joinPath dir (prefix +:+ pretty r +:+ suffix)).
  - apply joinPath_base. auto using no_slash_app, no_slash_pretty.
  - unfold joinPath. case_bool_decide; by rewrite !str_app_assoc.
Qed.

(** ** Facts: calls *)

Section CallFacts.
Context {Sys : OS}.

Lemma syscall_cases effect n d : (exists e, (syscall effect n d).1 = Some e /\ files (syscall effect n d).2 = files d) \/
  (syscall effect n d).1 = None /\ halted d = false /\ (syscall effect n d).2 = set_files effect d.
Proof.
  unfold syscall. destruct (halted d || os_killed n) eqn:H; [left; by eexists|].
  destruct (os_error n); [left; by eexists|]. right. split_and!; [done| |done]. by destruct (halted d).
Qed.

Lemma free_name_spec dir prefix suffix n m : forall tries k name, free_name dir prefix suffix n tries k m = Some name ->
  m !! resolve name = None /\ exists r, name = temp_name dir prefix suffix r.
Proof.
  induction tries as [|tries IH]; intros k name; cbn [free_name]; [done|]. case_bool_decide as H; [apply IH|].
  intros [= <-]. split; [|by eexists]. by apply eq_None_not_Some.
Qed.
End CallFacts.
