(* ===== verification/GoJsonRead.v ===== *)
(** * Package [encoding/json], reading

    The scanner's grammar as a function from bytes to a tree of lexemes ([jval]:
    numbers and strings keep their text, members their order), the decoder's
    primitives on such trees, and the two printers, compact and indented. A
    document is printed and read back unchanged ([scan_print]); the values the
    sources marshal are such documents ([Marshal_doc] of file GoFloatRead). *)

From S2P Require Import Prelude GoStrings GoTime GoFloat GoCrypto GoRunes GoJson GoHttp GoParse.
From Stdlib Require Import SpecFloat.

Inductive jval :=
| VNull
| VBool (b : bool)
| VNum (lit : list Z)
| VStr (raw : list Z)
| VArr (l : list jval)
| VObj (m : list (list Z * jval)).

(** ** The scanner *)

Definition is_ws (b : Z) : bool := (b =? 32) || (b =? 9) || (b =? 13) || (b =? 10).
Definition skip_ws : list Z -> list Z := drop_while is_ws.

Definition is_hex (b : Z) : bool :=
  is_digit b || ((97 <=? b) && (b <=? 102)) || ((65 <=? b) && (b <=? 70)).

(** A character that may follow a backslash on its own. *)
Definition is_escape (c : Z) : bool :=
  (c =? 98) || (c =? 102) || (c =? 110) || (c =? 114) || (c =? 116) || (c =? 92) || (c =? 47) || (c =? 34).

Definition push (p : list Z) (r : option (list Z * list Z)) : option (list Z * list Z) :=
  match r with Some (s, rest) => Some (p ++ s, rest) | None => None end.

(** The text of a string literal, from behind its opening quote. *)
Fixpoint scan_str (l : list Z) : option (list Z * list Z) :=
  match l with
  | [] => None
  | b :: r =>
      if b =? 34 then Some ([], r)
      else if b =? 92 then
        match r with
        | c :: r1 =>
            if is_escape c then push [b; c] (scan_str r1)
            else if c =? 117 then
              match r1 with
              | h1 :: h2 :: h3 :: h4 :: r2 =>
                  if is_hex h1 && is_hex h2 && is_hex h3 && is_hex h4
                  then push [b; c; h1; h2; h3; h4] (scan_str r2) else None
              | _ => None
              end
            else None
        | [] => None
        end
      else if b <? 32 then None
      else push [b] (scan_str r)
  end.

Fixpoint span_digits (l : list Z) : list Z * list Z :=
  match l with
  | b :: r => if is_digit b then let '(ds, r') := span_digits r in (b :: ds, r') else ([], l)
  | [] => ([], [])
  end.

(** The parts of a number: an optional sign, an integer without leading zero, an
    optional fraction, an optional exponent. *)
Definition num_sign (l : list Z) : list Z * list Z :=
  match l with b :: r => if b =? 45 then ([b], r) else ([], l) | [] => ([], l) end.

Definition num_int (l : list Z) : option (list Z * list Z) :=
  match l with
  | b :: r => if b =? 48 then Some ([b], r)
              else if is_digit b then let '(ds, r') := span_digits r in Some (b :: ds, r') else None
  | [] => None
  end.

Definition num_frac (l : list Z) : option (list Z * list Z) :=
  match l with
  | b :: r => if b =? 46 then match span_digits r with ([], _) => None | (ds, r') => Some (b :: ds, r') end
              else Some ([], l)
  | [] => Some ([], l)
  end.

Definition num_exp (l : list Z) : option (list Z * list Z) :=
  match l with
  | b :: r =>
      if (b =? 101) || (b =? 69) then
        let '(sg, r1) := match r with
                         | c :: r1 => if (c =? 43) || (c =? 45) then ([c], r1) else ([], r)
                         | [] => ([], r)
                         end in
        match span_digits r1 with ([], _) => None | (ds, r') => Some (b :: sg ++ ds, r') end
      else Some ([], l)
  | [] => Some ([], l)
  end.

Definition scan_num (l : list Z) : option (list Z * list Z) :=
  let '(sg, l1) := num_sign l in
  match num_int l1 with
  | None => None
  | Some (ip, l2) =>
      match num_frac l2 with
      | None => None
      | Some (fp, l3) =>
          match num_exp l3 with
          | None => None
          | Some (ep, l4) => Some (sg ++ ip ++ fp ++ ep, l4)
          end
      end
  end.

(** A comma-separated sequence up to [close]; there is a byte for every element,
    so the length of the text bounds their number. *)
Section Sequences.
Context {A : Type} (elem : list Z -> option (A * list Z)).

Fixpoint elements (close : Z) (n : nat) (l : list Z) : option (list A * list Z) :=
  match n with
  | O => None
  | S n' =>
      match elem l with
      | None => None
      | Some (x, r) =>
          match skip_ws r with
          | c :: r1 =>
              if c =? 44 then match elements close n' r1 with Some (xs, r2) => Some (x :: xs, r2) | None => None end
              else if c =? close then Some ([x], r1) else None
          | [] => None
          end
      end
  end.

Definition member (l : list Z) : option (list Z * A * list Z) :=
  match skip_ws l with
  | q :: r =>
      if q =? 34 then
        match scan_str r with
        | None => None
        | Some (k, r1) =>
            match skip_ws r1 with
            | c :: r2 => if c =? 58 then match elem r2 with Some (v, r3) => Some (k, v, r3) | None => None end else None
            | [] => None
            end
        end
      else None
  | [] => None
  end.
End Sequences.

(** From behind the opening bracket. *)
Definition sequence_of {A} (elem : list Z -> option (A * list Z)) (close : Z) (r : list Z) : option (list A * list Z) :=
  match skip_ws r with
  | c :: r1 => if c =? close then Some ([], r1) else elements elem close (length r) r
  | [] => None
  end.

Fixpoint strip_prefix (p l : list Z) : option (list Z) :=
  match p, l with
  | [], _ => Some l
  | x :: p', y :: l' => if x =? y then strip_prefix p' l' else None
  | _, _ => None
  end.

Definition literal (p : list Z) (v : jval) (l : list Z) : option (jval * list Z) :=
  match strip_prefix p l with Some r => Some (v, r) | None => None end.

Definition lit_null : list Z := bytes "null".
Definition lit_true : list Z := bytes "true".
Definition lit_false : list Z := bytes "false".

(** A value within [depth] further levels of nesting. *)
Fixpoint value (depth : nat) (l : list Z) : option (jval * list Z) :=
  match skip_ws l with
  | [] => None
  | b :: r =>
      if b =? 34 then match scan_str r with Some (s, r') => Some (VStr s, r') | None => None end
      else if b =? 123 then
        match depth with
        | O => None
        | S d => match sequence_of (member (value d)) 125 r with Some (m, r') => Some (VObj m, r') | None => None end
        end
      else if b =? 91 then
        match depth with
        | O => None
        | S d => match sequence_of (value d) 93 r with Some (xs, r') => Some (VArr xs, r') | None => None end
        end
      else if b =? 110 then literal lit_null VNull (b :: r)
      else if b =? 116 then literal lit_true (VBool true) (b :: r)
      else if b =? 102 then literal lit_false (VBool false) (b :: r)
      else match scan_num (b :: r) with Some (n, r') => Some (VNum n, r') | None => None end
  end.

(** [maxNestingDepth] of the scanner. *)
Definition maxNestingDepth : nat := Z.to_nat 10000.

(** [json.Unmarshal]'s check: one value and white space around it. *)
Definition scan (data : list Z) : option jval :=
  match value maxNestingDepth data with
  | Some (v, r) => if bool_decide (skip_ws r = []) then Some v else None
  | None => None
  end.

Example json_scan_ex :
  scan (bytes "  { } ") = Some (VObj []) /\ scan (bytes "[1, -0.5e+3,true ,null]")
    = Some (VArr [VNum (bytes "1"); VNum (bytes "-0.5e+3"); VBool true; VNull]) /\
  scan (bytes "[01]") = None /\ scan (bytes "[1,]") = None /\ scan (bytes "1 2") = None /\ scan (bytes "nul") = None /\
  scan (bytes "1.") = None /\ scan (bytes "") = None.
Proof. vm_compute. done. Qed.

(** ** The decoder *)

Definition hex_val (b : Z) : Z := if is_digit b then b - 48 else lower b - 87.
Definition u4 (h1 h2 h3 h4 : Z) : Z := ((hex_val h1 * 16 + hex_val h2) * 16 + hex_val h3) * 16 + hex_val h4.

Definition is_surrogate (r : Z) : bool := (55296 <=? r) && (r <? 57344).

(** [utf16.DecodeRune]; [None] for its replacement character. *)
Definition utf16_pair (r1 r2 : Z) : option Z :=
  if (55296 <=? r1) && (r1 <? 56320) && (56320 <=? r2) && (r2 <? 57344)
  then Some ((r1 - 55296) * 1024 + (r2 - 56320) + 65536) else None.

(** [getu4]: the escape at the start of the text. *)
Definition getu4 (l : list Z) : option Z :=
  match l with
  | b :: c :: h1 :: h2 :: h3 :: h4 :: _ =>
      if (b =? 92) && (c =? 117) && is_hex h1 && is_hex h2 && is_hex h3 && is_hex h4
      then Some (u4 h1 h2 h3 h4) else None
  | _ => None
  end.

Definition unescape (c : Z) : Z :=
  if c =? 98 then 8 else if c =? 102 then 12 else if c =? 110 then 10 else if c =? 114 then 13
  else if c =? 116 then 9 else c.

(** [unquote] of a scanned literal; every round consumes a byte. *)
Fixpoint unquote_loop (fuel : nat) (l : list Z) : list Z :=
  match fuel, l with
  | S fuel', b :: r =>
      if b =? 92 then
        match r with
        | c :: r1 =>
            if c =? 117 then
              match getu4 l with
              | Some rr =>
                  let r2 := drop 6 l in
                  if is_surrogate rr then
                    match (match getu4 r2 with Some rr1 => utf16_pair rr rr1 | None => None end) with
                    | Some dec => EncodeRune dec ++ unquote_loop fuel' (drop 6 r2)
                    | None => EncodeRune RuneError ++ unquote_loop fuel' r2
                    end
                  else EncodeRune rr ++ unquote_loop fuel' r2
              | None => []
              end
            else if is_escape c then unescape c :: unquote_loop fuel' r1 else []
        | [] => []
        end
      else if b <? 128 then b :: unquote_loop fuel' r
      else let '(rr, w) := DecodeRune l in EncodeRune rr ++ unquote_loop fuel' (drop w l)
  | _, _ => []
  end.

Definition unquote (raw : list Z) : string := of_bytes (unquote_loop (length raw) raw).

Example unquote_ex :
  unquote (bytes "a\n\u00e9\ud83d\ude00\ud83dz\/") = of_bytes ([97; 10; 195; 169; 240; 159; 152; 128; 239; 191; 189; 122; 47]).
Proof. vm_compute. reflexivity. Qed.

(** Decoding into a Go variable: from the value it has to the one it gets; [None]
    for an error. [null] leaves a variable of these kinds alone. *)
Definition decoder (A : Type) : Type := jval -> A -> option A.

Definition d_string : decoder string := fun v old =>
  match v with VNull => Some old | VStr raw => Some (unquote raw) | _ => None end.
Definition d_bool : decoder bool := fun v old =>
  match v with VNull => Some old | VBool b => Some b | _ => None end.
Definition d_float : decoder float64 := fun v old =>
  match v with VNull => Some old | VNum lit => ParseFloat (of_bytes lit) | _ => None end.
Definition d_int : decoder Z := fun v old =>
  match v with
  | VNull => Some old
  | VNum lit => match ParseInt (of_bytes lit) with (n, true) => Some n | _ => None end
  | _ => None
  end.

(** [null] makes a pointer, a slice or a map nil. *)
Definition d_ptr {A} (zero : A) (d : decoder A) : decoder (option A) := fun v old =>
  match v with VNull => Some None | _ => Some <$> d v (default zero old) end.

(** An element of a slice is decoded into its slot: of the slice the variable has,
    as far as that goes (a member that is repeated), and else a zero value. *)
Fixpoint d_elements {A} (zero : A) (d : decoder A) (l : list jval) (old : list A) : option (list A) :=
  match l with
  | [] => Some []
  | v :: l' =>
      x ← d v (default zero (head old));
      xs ← d_elements zero d l' (tail old);
      Some (x :: xs)
  end.

Definition d_slice {A} (zero : A) (d : decoder A) : decoder (list A) := fun v old =>
  match v with VNull => Some [] | VArr l => d_elements zero d l old | _ => None end.

(** The elements of a map are decoded into zero values. *)
Fixpoint d_members {A} (step : list Z * jval -> A -> option A) (m : list (list Z * jval)) (a : A) : option A :=
  match m with
  | [] => Some a
  | kv :: m' => match step kv a with Some a' => d_members step m' a' | None => None end
  end.

Definition d_map {A} (zero : A) (d : decoder A) : decoder (gmap string A) := fun v old =>
  match v with
  | VNull => Some ∅
  | VObj m => d_members (fun kv acc => (fun x => <[unquote kv.1 := x]> acc) <$> d kv.2 zero) m old
  | _ => None
  end.

(** A struct: a member goes to the field of its name, or else to one whose name
    differs in case only, or nowhere. *)
Definition field (A : Type) : Type := string * decoder A.

Definition find_field {A} (fs : list (field A)) (key : string) : option (decoder A) :=
  match find (fun f => String.eqb f.1 key) fs with
  | Some f => Some f.2
  | None => match find (fun f => EqualFold key f.1) fs with Some f => Some f.2 | None => None end
  end.

Definition d_field {A} (fs : list (field A)) (kv : list Z * jval) (a : A) : option A :=
  match find_field fs (unquote kv.1) with Some d => d kv.2 a | None => Some a end.

Definition d_struct {A} (fs : list (field A)) : decoder A := fun v old =>
  match v with
  | VNull => Some old
  | VObj m => d_members (d_field fs) m old
  | _ => None
  end.

(** A field, from how it is read and written. *)
Definition at_field {A B} (name : string) (get : A -> B) (set : B -> A -> A) (d : decoder B) : field A :=
  (name, fun v a => (fun b => set b a) <$> d v (get a)).

(** [json.Unmarshal] into a variable. *)
Definition Unmarshal {A} (d : decoder A) (data : string) (old : A) : option A :=
  match scan (bytes data) with Some v => d v old | None => None end.

(** ** Decoding from the text

    A type with an [UnmarshalJSON] of its own is given the text of its value. On
    the way to such a value objects and arrays are walked by their text. *)

Definition text_decoder (A : Type) : Type := list Z -> A -> option A.

(** The text of the next value and what follows it. *)
Definition raw_value (l : list Z) : option (list Z * list Z) :=
  match value maxNestingDepth l with
  | Some (_, r) => let l' := skip_ws l in Some (take (length l' - length r) l', r)
  | None => None
  end.

Definition t_of {A} (d : decoder A) : text_decoder A := fun raw old =>
  match scan raw with Some v => d v old | None => None end.

Definition t_field (A : Type) : Type := string * text_decoder A.

Definition t_find {A} (fs : list (t_field A)) (key : string) : option (text_decoder A) :=
  match find (fun f => String.eqb f.1 key) fs with
  | Some f => Some f.2
  | None => match find (fun f => EqualFold key f.1) fs with Some f => Some f.2 | None => None end
  end.

Fixpoint t_members {A} (fs : list (t_field A)) (m : list (list Z * list Z)) (a : A) : option A :=
  match m with
  | [] => Some a
  | (k, raw) :: m' =>
      a' ← (match t_find fs (unquote k) with Some d => d raw a | None => Some a end);
      t_members fs m' a'
  end.

(** The members of an object. *)
Definition raw_members (raw : list Z) : option (list (list Z * list Z)) :=
  match raw with
  | b :: r => if b =? 123 then fst <$> sequence_of (member raw_value) 125 r else None
  | [] => None
  end.

Definition t_struct {A} (fs : list (t_field A)) : text_decoder A := fun raw old =>
  if bool_decide (raw = lit_null) then Some old
  else m ← raw_members raw; t_members fs m old.

Fixpoint t_elements {A} (zero : A) (d : text_decoder A) (l : list (list Z)) (old : list A) : option (list A) :=
  match l with
  | [] => Some []
  | raw :: l' =>
      x ← d raw (default zero (head old));
      xs ← t_elements zero d l' (tail old);
      Some (x :: xs)
  end.

Definition t_slice {A} (zero : A) (d : text_decoder A) : text_decoder (list A) := fun raw old =>
  if bool_decide (raw = lit_null) then Some []
  else match raw with
       | b :: r => if b =? 91 then l ← fst <$> sequence_of raw_value 93 r; t_elements zero d l old else None
       | [] => None
       end.

Definition t_at {A B} (name : string) (get : A -> B) (set : B -> A -> A) (d : text_decoder B) : t_field A :=
  (name, fun raw a => (fun b => set b a) <$> d raw (get a)).

(** [json.Unmarshal] and [Decoder.Decode] (which ignores what follows the first
    value) by the text. *)
Definition t_Unmarshal {A} (d : text_decoder A) (data : string) (old : A) : option A :=
  match scan (bytes data), raw_value (bytes data) with Some _, Some (raw, _) => d raw old | _, _ => None end.
Definition t_Decode {A} (d : text_decoder A) (data : string) (old : A) : option A :=
  match raw_value (bytes data) with Some (raw, _) => d raw old | None => None end.

(** ** The printers *)

Definition quoted (raw : list Z) : list Z := 34 :: raw ++ [34].

(** Items between brackets: [sep] separates, [ends] precedes the closing one. *)
Fixpoint joined (sep : list Z) (items : list (list Z)) : list Z :=
  match items with
  | [] => []
  | [x] => x
  | x :: items' => x ++ 44 :: sep ++ joined sep items'
  end.

Definition bracket (open close : Z) (sep ends : list Z) (items : list (list Z)) : list Z :=
  match items with
  | [] => [open; close]
  | _ => open :: sep ++ joined sep items ++ ends ++ [close]
  end.

Section Print.
(** [nl d] starts a line at depth [d]; [sp] follows a colon. *)
Context (nl : nat -> list Z) (sp : list Z).

Fixpoint print (d : nat) (v : jval) : list Z :=
  match v with
  | VNull => lit_null
  | VBool b => if b then lit_true else lit_false
  | VNum lit => lit
  | VStr raw => quoted raw
  | VArr l => bracket 91 93 (nl (S d)) (nl d) (print (S d) <$> l)
  | VObj m => bracket 123 125 (nl (S d)) (nl d) ((fun kv => quoted kv.1 ++ 58 :: sp ++ print (S d) kv.2) <$> m)
  end.
End Print.

(** [json.Marshal] and [json.MarshalIndent(_, "", "  ")] of a document. *)
Definition compact (v : jval) : string := of_bytes (print (fun _ => []) [] 0 v).
Definition indented (v : jval) : string := of_bytes (print (fun d => 10 :: replicate (2 * d) 32) [32] 0 v).

(** The text between the quotes of [json.Marshal] of a string. *)
Definition escaped (s : string) : list Z := concat ((fun '(r, w) => bytes (escape_rune r w)) <$> runes (bytes s)).

Definition e_string (s : string) : jval := VStr (escaped s).
Definition e_int (z : Z) : jval := VNum (bytes (pretty z)).
Definition e_strings (l : list string) : jval := VArr (e_string <$> l).
Definition member_texts (m : list (string * jval)) : list (list Z * jval) := (fun kv => (escaped kv.1, kv.2)) <$> m.
Definition e_members (m : list (string * jval)) : jval := VObj (member_texts m).

(** A member left out when [empty] ([omitempty]). *)
Definition omit (empty : bool) (k : string) (v : jval) : list (string * jval) := if empty then [] else [(k, v)].

(** ** Facts: scanning with more text behind *)

Lemma push_Some p r s rest : push p r = Some (s, rest) -> exists s', r = Some (s', rest) /\ s = p ++ s'.
Proof. destruct r as [[s' r']|]; [|done]. intros [= <- <-]. eauto. Qed.

Lemma scan_str_app_len n : forall l s r x, (length l <= n)%nat ->
  scan_str l = Some (s, r) -> scan_str (l ++ x) = Some (s, r ++ x).
Proof.
  induction n as [|n IH]; intros [|b l] s r x Hn; cbn in Hn; try done; [lia|]. cbn [scan_str app].
  destruct (b =? 34); [by intros [= <- <-]|]. destruct (b =? 92).
  - destruct l as [|c l]; [done|]. cbn [app length] in *. destruct (is_escape c).
    { intros (s' & Hs & ->)%push_Some. by rewrite (IH l s' r x ltac:(lia) Hs). }
    destruct (c =? 117); [|done]. destruct l as [|h1 [|h2 [|h3 [|h4 l]]]]; try done. cbn [app length] in *.
    destruct (_ && _); [|done]. intros (s' & Hs & ->)%push_Some. by rewrite (IH l s' r x ltac:(lia) Hs).
  - destruct (b <? 32); [done|]. intros (s' & Hs & ->)%push_Some. by rewrite (IH l s' r x ltac:(lia) Hs).
Qed.

Lemma scan_str_app l s r x : scan_str l = Some (s, r) -> scan_str (l ++ x) = Some (s, r ++ x).
Proof. by apply scan_str_app_len with (length l). Qed.

(** The text of a string literal, and of a number, that scans as itself. *)
Definition str_ok (raw : list Z) : Prop := Forall is_byte raw /\ scan_str (raw ++ [34]) = Some (raw, []).
Definition num_ok (lit : list Z) : Prop := Forall is_byte lit /\ scan_num lit = Some (lit, []).

Lemma scan_str_ok raw x : str_ok raw -> scan_str (raw ++ 34 :: x) = Some (raw, x).
Proof.
  intros [_ H]. replace (raw ++ 34 :: x) with ((raw ++ [34]) ++ x) by (by rewrite <- app_assoc).
  by rewrite (scan_str_app _ _ _ x H).
Qed.

(** A byte that cannot continue a number. *)
Definition stops (x : list Z) : Prop :=
  match x with b :: _ => is_digit b = false /\ b <> 46 /\ b <> 101 /\ b <> 69 | [] => True end.

Lemma span_digits_app l ds r x : span_digits l = (ds, r) -> (r = [] -> stops x) -> span_digits (l ++ x) = (ds, r ++ x).
Proof.
  revert ds. induction l as [|b l IH]; intros ds; cbn [span_digits app].
  - intros [= <- <-] Hs. destruct x as [|b x]; [done|]. destruct (Hs eq_refl) as (Hd & _). cbn. by rewrite Hd.
  - destruct (is_digit b) eqn:Hb; [|by intros [= <- <-]]. destruct (span_digits l) as [ds' r'] eqn:E.
    intros [= <- <-] Hs. by rewrite (IH ds' eq_refl Hs).
Qed.

Lemma scan_num_app l lit r x : scan_num l = Some (lit, r) -> (r = [] -> stops x) -> scan_num (l ++ x) = Some (lit, r ++ x).
Proof.
  unfold scan_num. intros H Hx.
  assert (Hs : l <> [] -> num_sign (l ++ x) = ((num_sign l).1, (num_sign l).2 ++ x)).
  { destruct l as [|b l]; [done|]. intros _. cbn. by destruct (b =? 45). }
  destruct l as [|b l]; [done|]. rewrite Hs by done. clear Hs. destruct (num_sign (b :: l)) as [sg l1]. cbn [fst snd].
  destruct (num_int l1) as [[ip l2]|] eqn:Hi; [|done]. destruct (num_frac l2) as [[fp l3]|] eqn:Hf; [|done].
  destruct (num_exp l3) as [[ep l4]|] eqn:He; [|done]. injection H as <- <-.
  assert (Hl3 : l3 = [] -> stops x).
  { intros ->. apply Hx. cbn in He. by injection He as _ <-. }
  assert (Hl2 : l2 = [] -> stops x).
  { intros ->. apply Hl3. cbn in Hf. by injection Hf as _ <-. }
  assert (num_int (l1 ++ x) = Some (ip, l2 ++ x)) as ->.
  { unfold num_int in *. destruct l1 as [|c l1]; [done|]. cbn [app]. destruct (c =? 48); [by injection Hi as <- <-|].
    destruct (is_digit c); [|done]. destruct (span_digits l1) as [ds r'] eqn:E. injection Hi as <- <-. by rewrite (span_digits_app _ _ _ _ E). }
  assert (num_frac (l2 ++ x) = Some (fp, l3 ++ x)) as ->.
  { unfold num_frac in *. destruct l2 as [|c l2].
    - injection Hf as <- <-. cbn [app]. destruct x as [|y x]; [done|]. destruct (Hl2 eq_refl) as (_ & Hy & _).
      by destruct (Z.eqb_spec y 46).
    - cbn [app]. destruct (c =? 46); [|by injection Hf as <- <-]. destruct (span_digits l2) as [[|d ds] r'] eqn:E; [done|].
      injection Hf as <- <-. by rewrite (span_digits_app _ _ _ _ E). }
  assert (num_exp (l3 ++ x) = Some (ep, l4 ++ x)) as ->; [|done].
  unfold num_exp in *. destruct l3 as [|c l3].
  - injection He as <- <-. cbn [app]. destruct x as [|y x]; [done|]. destruct (Hl3 eq_refl) as (_ & _ & Hy & Hy').
    by destruct (Z.eqb_spec y 101), (Z.eqb_spec y 69).
  - cbn [app]. destruct ((c =? 101) || (c =? 69)); [|by injection He as <- <-].
    destruct l3 as [|e l3]; [done|]. cbn [app].
    destruct ((e =? 43) || (e =? 45)).
    + destruct (span_digits l3) as [[|d ds] r'] eqn:E; [done|]. injection He as <- <-. by rewrite (span_digits_app _ _ _ _ E).
    + destruct (span_digits (e :: l3)) as [[|d ds] r'] eqn:E; [done|]. injection He as <- <-.
      change (e :: l3 ++ x) with ((e :: l3) ++ x). by rewrite (span_digits_app _ _ _ x E).
Qed.

Lemma scan_num_ok lit x : num_ok lit -> stops x -> scan_num (lit ++ x) = Some (lit, x).
Proof. intros [_ H] Hx. by apply (scan_num_app _ _ _ x) in H; [|done]. Qed.

(** ** Facts: what is scanned *)

(** Concrete bytes. *)
Ltac bytes_ok := repeat (apply Forall_cons_2; [first [done|unfold is_byte; lia]|]); try apply Forall_nil_2.

Lemma scan_str_text n : forall l s r, (length l <= n)%nat -> Forall is_byte l -> scan_str l = Some (s, r) ->
  l = s ++ 34 :: r /\ str_ok s.
Proof.
  assert (Hpush : forall p l s' r, scan_str (p ++ s' ++ [34]) = push p (scan_str (s' ++ [34])) -> Forall is_byte p ->
    l = s' ++ 34 :: r /\ str_ok s' -> p ++ l = (p ++ s') ++ 34 :: r /\ str_ok (p ++ s')).
  { intros p l s' r Hp Hb [-> [Hs Ho]]. split; [by rewrite <- app_assoc|]. split; [by apply Forall_app|].
    rewrite <- app_assoc, Hp, Ho. cbn. done. }
  induction n as [|n IH]; intros [|b l] s r Hn Hb; cbn in Hn; try done; [lia|]. cbn [scan_str].
  apply Forall_cons in Hb as [Hb0 Hb]. destruct (Z.eqb_spec b 34) as [->|H34]; [by intros [= <- <-]|].
  destruct (Z.eqb_spec b 92) as [->|H92].
  - destruct l as [|c l]; [done|]. cbn [length] in *. apply Forall_cons in Hb as [Hc Hb]. destruct (is_escape c) eqn:Hesc.
    { intros (s' & Hs & ->)%push_Some. apply (Hpush [92; c] l s' r); [cbn; by rewrite Hesc|bytes_ok|by apply IH; [lia|..]]. }
    destruct (Z.eqb_spec c 117) as [->|]; [|done]. destruct l as [|h1 [|h2 [|h3 [|h4 l]]]]; try done. cbn [length] in *.
    destruct (_ && _) eqn:Hh; [|done]. intros (s' & Hs & ->)%push_Some.
    repeat (apply Forall_cons in Hb as [? Hb]).
    apply (Hpush [92; 117; h1; h2; h3; h4] l s' r); [cbn; by rewrite Hh|bytes_ok|by apply IH; [lia|..]].
  - destruct (Z.ltb_spec b 32); [done|]. intros (s' & Hs & ->)%push_Some.
    apply (Hpush [b] l s' r); [|bytes_ok|by apply IH; [lia|..]].
    cbn [app scan_str]. destruct (Z.eqb_spec b 34); [done|]. destruct (Z.eqb_spec b 92); [done|]. by destruct (Z.ltb_spec b 32); [lia|].
Qed.

Lemma scan_str_sound l s r : Forall is_byte l -> scan_str l = Some (s, r) -> l = s ++ 34 :: r /\ str_ok s.
Proof. by apply scan_str_text with (length l). Qed.

Definition no_digit (x : list Z) : Prop := match x with b :: _ => is_digit b = false | [] => True end.

Lemma span_all ds x : Forall (fun b => is_digit b = true) ds -> no_digit x -> span_digits (ds ++ x) = (ds, x).
Proof.
  induction 1 as [|b ds Hb _ IH]; intros Hx; cbn [span_digits app]; [|by rewrite Hb, IH].
  destruct x as [|b x]; [done|]. cbn in Hx |- *. by rewrite Hx.
Qed.

Lemma span_only ds : Forall (fun b => is_digit b = true) ds -> span_digits ds = (ds, []).
Proof. intros Hds. rewrite <- (app_nil_r ds) at 1. by apply span_all. Qed.

Lemma span_digits_sound l ds r : span_digits l = (ds, r) -> l = ds ++ r /\ Forall (fun b => is_digit b = true) ds /\ no_digit r.
Proof.
  revert ds. induction l as [|b l IH]; intros ds; cbn [span_digits]; [by intros [= <- <-]|].
  destruct (is_digit b) eqn:Hb; [|by intros [= <- <-]]. destruct (span_digits l) as [ds' r'].
  intros [= <- <-]. destruct (IH ds' eq_refl) as (-> & ? & ?). split_and!; [done|by constructor|done].
Qed.

(** Each part of a number scans as itself before what may follow it. *)
Lemma num_int_sound l ip r : num_int l = Some (ip, r) -> l = ip ++ r /\
  (exists b t, ip = b :: t /\ is_digit b = true) /\ forall x, no_digit x -> num_int (ip ++ x) = Some (ip, x).
Proof.
  destruct l as [|b l]; [done|]. cbn [num_int]. destruct (Z.eqb_spec b 48) as [->|Hb].
  { intros [= <- <-]. split_and!; [done|by eexists _, _|done]. }
  destruct (is_digit b) eqn:Hd; [|done]. destruct (span_digits l) as [ds r'] eqn:E. intros [= <- <-].
  apply span_digits_sound in E as (-> & Hds & _). split_and!; [done|by eexists _, _|]. intros x Hx. cbn [app num_int].
  destruct (Z.eqb_spec b 48); [done|]. by rewrite Hd, span_all.
Qed.

Definition no_point (x : list Z) : Prop := match x with b :: _ => b <> 46 | [] => True end.

Lemma num_frac_sound l fp r : num_frac l = Some (fp, r) -> l = fp ++ r /\ (no_digit r \/ fp = []) /\ (fp = [] \/ exists t, fp = 46 :: t) /\
  (fp = [] -> no_point r) /\ forall x, no_digit x -> no_point x -> num_frac (fp ++ x) = Some (fp, x).
Proof.
  assert (Hnil : forall x, no_point x -> num_frac x = Some ([], x)).
  { intros [|b x] Hx; [done|]. cbn in Hx |- *. by destruct (Z.eqb_spec b 46). }
  destruct l as [|b l]; [intros [= <- <-]; split_and!; [done|by right|by left|done|auto]|]. cbn [num_frac]. destruct (Z.eqb_spec b 46) as [->|Hb].
  - destruct (span_digits l) as [[|d ds] r'] eqn:E; [done|]. intros [= <- <-]. apply span_digits_sound in E as (-> & Hds & Hr).
    split_and!; [done|by left|right; by eexists|done|]. intros x Hx _. change ((46 :: d :: ds) ++ x) with (46 :: (d :: ds) ++ x).
    cbn [num_frac Z.eqb Pos.eqb]. by rewrite span_all.
  - intros [= <- <-]. split_and!; [done|by right|by left|done|auto].
Qed.

Lemma num_exp_sound l ep r : num_exp l = Some (ep, r) -> l = ep ++ r /\ (ep = [] \/ exists b t, ep = b :: t /\ b <> 46 /\ is_digit b = false) /\
  num_exp ep = Some (ep, []).
Proof.
  destruct l as [|b l]; [intros [= <- <-]; auto|]. cbn [num_exp]. destruct ((b =? 101) || (b =? 69)) eqn:Hb; [|intros [= <- <-]; auto].
  assert (Hhead : b <> 46 /\ is_digit b = false) by (unfold is_digit; lia).
  destruct l as [|c l]; [done|]. destruct ((c =? 43) || (c =? 45)) eqn:Hc.
  - destruct (span_digits l) as [[|d ds] r'] eqn:E; [done|]. intros [= <- <-]. apply span_digits_sound in E as (-> & Hds & _).
    split_and!; [done|right; by eexists _, _|]. cbn [num_exp app]. rewrite Hb, Hc.
    by rewrite (span_only _ Hds).
  - destruct (span_digits (c :: l)) as [[|d ds] r'] eqn:E; [done|]. intros [= <- <-]. apply span_digits_sound in E as (E & Hds & _).
    injection E as -> ->. split_and!; [done|right; by eexists _, _|]. cbn [num_exp app]. rewrite Hb, Hc.
    by rewrite (span_only _ Hds).
Qed.

Lemma scan_num_sound l lit r : Forall is_byte l -> scan_num l = Some (lit, r) -> l = lit ++ r /\ num_ok lit.
Proof.
  intros Hl. unfold scan_num at 1. destruct (num_sign l) as [sg l1] eqn:Hs. destruct (num_int l1) as [[ip l2]|] eqn:Hi; [|done].
  destruct (num_frac l2) as [[fp l3]|] eqn:Hf; [|done]. destruct (num_exp l3) as [[ep l4]|] eqn:He; [|done]. intros [= <- <-].
  apply num_int_sound in Hi as (-> & (b & t & -> & Hb) & Hi). apply num_frac_sound in Hf as (-> & Hf1 & Hf2 & Hf3 & Hf).
  apply num_exp_sound in He as (-> & He1 & He).
  assert (l = sg ++ ((b :: t) ++ fp ++ ep ++ l4) /\ forall x, num_sign (sg ++ b :: x) = (sg, b :: x)) as [-> Hsg].
  { assert (Hnb : (b =? 45) = false) by (unfold is_digit in Hb; lia).
    destruct l as [|c l]; cbn [num_sign] in Hs; [done|].
    destruct (Z.eqb_spec c 45) as [->|];
      [injection Hs as <- ->|injection Hs as <- -> ->]; (split; [done|]); intros x; cbn; [done|by rewrite Hnb]. }
  split; [by rewrite <- !app_assoc|]. split; [rewrite !Forall_app in *; tauto|].
  unfold scan_num. cbn [app]. rewrite Hsg. change (b :: t ++ fp ++ ep) with ((b :: t) ++ fp ++ ep).
  assert (Hep : no_digit ep /\ no_point ep) by (destruct He1 as [->|(c & u & -> & ? & ?)]; done).
  rewrite Hi, Hf, He; [done|tauto..|]. destruct Hf2 as [->|(u & ->)]; [apply Hep|done].
Qed.

(** ** Facts: reading back what is printed *)

(** A number does not start like any other value. *)
Lemma num_ok_head lit : num_ok lit -> exists b l, lit = b :: l /\ (b = 45 \/ is_digit b = true).
Proof.
  unfold num_ok, scan_num. destruct lit as [|b l]; [by intros [_ ?]|]. intros [_ H]. exists b, l. split; [done|].
  cbn [num_sign] in H. destruct (Z.eqb_spec b 45); [by left|]. cbn [num_int] in H. right.
  destruct (Z.eqb_spec b 48) as [->|]; [done|]. by destruct (is_digit b).
Qed.

Inductive doc_ok : nat -> jval -> Prop :=
| ok_null n : doc_ok n VNull
| ok_bool n b : doc_ok n (VBool b)
| ok_num n lit : num_ok lit -> doc_ok n (VNum lit)
| ok_str n raw : str_ok raw -> doc_ok n (VStr raw)
| ok_arr n l : Forall (doc_ok n) l -> doc_ok (S n) (VArr l)
| ok_obj n m : Forall (fun kv => str_ok kv.1 /\ doc_ok n kv.2) m -> doc_ok (S n) (VObj m).

Definition ws_only (w : list Z) : Prop := Forall (fun b => is_ws b = true) w.

Lemma skip_ws_app w l : ws_only w -> skip_ws (w ++ l) = skip_ws l.
Proof. unfold skip_ws. induction 1 as [|b w Hb _ IH]; [done|]. cbn. by rewrite Hb. Qed.

Lemma value_ws n w l : ws_only w -> value n (w ++ l) = value n l.
Proof. intros Hw. destruct n; cbn [value]; by rewrite skip_ws_app. Qed.

Lemma member_ws {A} (elem : list Z -> option (A * list Z)) w l : ws_only w -> member elem (w ++ l) = member elem l.
Proof. intros Hw. unfold member. by rewrite skip_ws_app. Qed.

(** How the text of a value starts. *)
Definition starts (p : list Z) : Prop :=
  match p with b :: _ => is_ws b = false /\ b <> 93 /\ b <> 125 | [] => False end.

Lemma skip_ws_starts w p l : ws_only w -> starts p -> skip_ws (w ++ p ++ l) = p ++ l.
Proof. intros Hw Hp. rewrite skip_ws_app by done. destruct p as [|b p]; [done|]. cbn. by destruct Hp as [-> _]. Qed.

Lemma print_starts nl sp d n v : doc_ok n v -> starts (print nl sp d v).
Proof.
  destruct 1 as [n|n b|n lit Hn|n raw Hs|n l Hl|n m Hm]; cbn [print].
  - by vm_compute.
  - by destruct b; vm_compute.
  - destruct (num_ok_head _ Hn) as (b & l & -> & Hb). cbn. unfold is_ws, is_digit in *. lia.
  - done.
  - by destruct l.
  - by destruct m.
Qed.

Lemma stops_ws w b x : ws_only w -> stops (b :: x) -> stops (w ++ b :: x).
Proof.
  destruct 1 as [|c w Hc _]; [done|]. intros _. cbn. unfold is_ws, is_digit in *. lia.
Qed.

Lemma length_joined sep items : (length items <= S (length (joined sep items)))%nat.
Proof.
  induction items as [|p items IH]; [cbn; lia|]. destruct items as [|q items]; [cbn; lia|].
  cbn [joined] in *. rewrite length_app. cbn [length] in *. rewrite length_app. lia.
Qed.

Section Elements.
Context {A : Type} (elem : list Z -> option (A * list Z)) (close : Z) (sep ends : list Z).
Context (Hclose : close = 93 \/ close = 125) (Hsep : ws_only sep) (Hends : ws_only ends).

(** The text [p] reads as [v], whatever stops it. *)
Definition reads (p : list Z) (v : A) : Prop := starts p /\ forall y, stops y -> elem (sep ++ p ++ y) = Some (v, y).

Lemma elements_joined items xs : Forall2 reads items xs -> forall n x, (length items <= n)%nat -> items <> [] ->
  elements elem close n (sep ++ joined sep items ++ ends ++ close :: x) = Some (xs, x).
Proof.
  assert (Hst : forall x, stops (ends ++ close :: x)).
  { intros x. apply stops_ws; [done|]. cbn. unfold is_digit. lia. }
  induction 1 as [|p v items xs [Hp Hr] Hall IH]; intros n x Hn Hne; [done|].
  destruct n as [|n]; [cbn in Hn; lia|]. cbn [elements]. destruct Hall as [|q w items xs Hq Hall].
  - cbn [joined]. rewrite Hr by done. rewrite skip_ws_app by done. unfold skip_ws. cbn [drop_while].
    destruct (is_ws close) eqn:Hw; [unfold is_ws in Hw; lia|]. destruct (Z.eqb_spec close 44); [lia|]. by rewrite Z.eqb_refl.
  - change (joined sep (p :: q :: items)) with (p ++ 44 :: sep ++ joined sep (q :: items)).
    rewrite <- !app_assoc. cbn [app]. rewrite Hr by (cbn; unfold is_digit; lia).
    change (skip_ws (44 :: ?l)) with (44 :: l). cbn [Z.eqb Pos.eqb]. rewrite <- (app_assoc sep), IH by (cbn in *; done || lia). done.
Qed.

Lemma sequence_of_bracket items xs x : Forall2 reads items xs ->
  sequence_of elem close (drop 1 (bracket 0 close sep ends items) ++ x) = Some (xs, x).
Proof.
  intros Hall. assert (Hc : is_ws close = false) by (unfold is_ws; lia).
  destruct items as [|p items].
  - apply Forall2_nil_inv_l in Hall as ->. cbn [bracket drop app]. unfold sequence_of, skip_ws. cbn [skipn drop_while].
    by rewrite Hc, Z.eqb_refl.
  - change (drop 1 (bracket 0 close sep ends (p :: items))) with (sep ++ joined sep (p :: items) ++ ends ++ [close]).
    rewrite <- !app_assoc. cbn [app]. pose proof (elements_joined _ _ Hall) as He.
    unfold sequence_of. inversion Hall as [|? v ? xs' [Hp Hr] Hall']; subst.
    assert (exists l', sep ++ joined sep (p :: items) ++ ends ++ close :: x = sep ++ p ++ l') as [l' Hl'].
    { destruct items as [|q items]; [by eexists|]. eexists. cbn [joined]. by rewrite <- !app_assoc. }
    rewrite He by (done || (rewrite !length_app; cbn [length]; pose proof (length_joined sep (p :: items)); cbn [length] in *; lia)).
    rewrite Hl', skip_ws_starts by done. destruct p as [|b p]; [done|]. destruct Hp as (_ & Hb1 & Hb2). cbn [app].
    destruct (Z.eqb_spec b close); [lia|done].
Qed.
End Elements.

Section PrintFacts.
Context (nl : nat -> list Z) (sp : list Z) (Hnl : forall d, ws_only (nl d)) (Hsp : ws_only sp).

Lemma Forall2_reads {B} (elem : list Z -> option (B * list Z)) sep (f : B -> list Z) (l : list B) :
  (forall b, b ∈ l -> reads elem sep (f b) b) -> Forall2 (reads elem sep) (f <$> l) l.
Proof.
  intros H. apply Forall2_fmap_l. apply Forall_Forall2_diag, Forall_forall. done.
Qed.

Lemma value_open n b r : is_ws b = false ->
  value n (b :: r) =
    (if b =? 34 then match scan_str r with Some (s, r') => Some (VStr s, r') | None => None end
     else if b =? 123 then match n with
       | O => None
       | S d => match sequence_of (member (value d)) 125 r with Some (m, r') => Some (VObj m, r') | None => None end end
     else if b =? 91 then match n with
       | O => None
       | S d => match sequence_of (value d) 93 r with Some (xs, r') => Some (VArr xs, r') | None => None end end
     else if b =? 110 then literal lit_null VNull (b :: r)
     else if b =? 116 then literal lit_true (VBool true) (b :: r)
     else if b =? 102 then literal lit_false (VBool false) (b :: r)
     else match scan_num (b :: r) with Some (n, r') => Some (VNum n, r') | None => None end).
Proof. intros Hb. destruct n; cbn [value]; unfold skip_ws; cbn [drop_while]; by rewrite Hb. Qed.

Lemma value_print n : forall v d x, doc_ok n v -> stops x -> value n (print nl sp d v ++ x) = Some (v, x).
Proof.
  induction n as [n IH] using lt_wf_ind. intros v d x Hv Hx. destruct Hv as [n|n b|n lit Hn|n raw Hs|n l Hl|n m Hm]; cbn [print].
  - change (lit_null ++ x) with (110 :: 117 :: 108 :: 108 :: x). by rewrite value_open.
  - destruct b; [change (lit_true ++ x) with (116 :: 114 :: 117 :: 101 :: x)
               |change (lit_false ++ x) with (102 :: 97 :: 108 :: 115 :: 101 :: x)]; by rewrite value_open.
  - destruct (num_ok_head _ Hn) as (b & l & -> & Hb). rewrite <- app_comm_cons, value_open by (unfold is_ws, is_digit in *; lia).
    rewrite app_comm_cons, (scan_num_ok _ x Hn Hx). unfold is_digit in Hb.
    repeat match goal with |- context [?a =? ?c] => destruct (Z.eqb_spec a c); [lia|] end. done.
  - unfold quoted. rewrite <- app_comm_cons, <- app_assoc, value_open by done. cbn [app].
    by rewrite (scan_str_ok raw x Hs).
  - assert (Hb : forall y, bracket 91 93 (nl (S d)) (nl d) y = 91 :: drop 1 (bracket 0 93 (nl (S d)) (nl d) y)) by (by intros []).
    rewrite Hb, <- app_comm_cons, value_open by done. cbn [Z.eqb Pos.eqb].
    rewrite (sequence_of_bracket _ 93 _ _ ltac:(by left) (Hnl _) (Hnl _) _ l); [done|].
    apply Forall2_reads. intros v Hv. rewrite Forall_forall in Hl. specialize (Hl v Hv). split; [by eapply print_starts|].
    intros y Hy. rewrite value_ws by done. apply IH; [lia|done|done].
  - assert (Hb : forall y, bracket 123 125 (nl (S d)) (nl d) y = 123 :: drop 1 (bracket 0 125 (nl (S d)) (nl d) y)) by (by intros []).
    rewrite Hb, <- app_comm_cons, value_open by done. cbn [Z.eqb Pos.eqb].
    rewrite (sequence_of_bracket _ 125 _ _ ltac:(by right) (Hnl _) (Hnl _) _ m); [done|].
    apply Forall2_reads. intros [k v] Hv. rewrite Forall_forall in Hm. destruct (Hm _ Hv) as [Hk Hd]. cbn [fst snd] in *.
    split; [done|]. intros y Hy. rewrite member_ws by done. unfold quoted, member. cbn [app]. unfold skip_ws at 1. cbn [drop_while is_ws].
    cbn. rewrite <- !app_assoc. cbn [app]. rewrite (scan_str_ok k _ Hk). cbn.
    rewrite <- app_assoc, value_ws by done. rewrite (IH n ltac:(lia) v (S d) y Hd Hy). done.
Qed.
End PrintFacts.

Lemma joined_bytes sep items : Forall is_byte sep -> Forall (Forall is_byte) items -> Forall is_byte (joined sep items).
Proof.
  intros Hs. induction 1 as [|p items Hp Hi IH]; [constructor|]. destruct items as [|q items]; [done|].
  change (joined sep (p :: q :: items)) with (p ++ 44 :: sep ++ joined sep (q :: items)).
  apply Forall_app. split; [done|]. constructor; [unfold is_byte; lia|]. by apply Forall_app.
Qed.

Lemma bracket_bytes o c sep ends items : is_byte o -> is_byte c -> Forall is_byte sep -> Forall is_byte ends ->
  Forall (Forall is_byte) items -> Forall is_byte (bracket o c sep ends items).
Proof.
  intros Ho Hc Hs He Hi. unfold bracket. destruct items; [bytes_ok|]. constructor; [done|].
  rewrite !Forall_app. split_and!; [done|by apply joined_bytes|done|bytes_ok].
Qed.

Section PrintBytes.
Context (nl : nat -> list Z) (sp : list Z) (Hnl : forall d, ws_only (nl d)) (Hsp : ws_only sp).

Lemma ws_bytes w : ws_only w -> Forall is_byte w.
Proof. intros H. eapply Forall_impl; [exact H|]. unfold is_ws, is_byte. cbn. lia. Qed.

Lemma quoted_bytes raw : Forall is_byte raw -> Forall is_byte (quoted raw).
Proof. intros H. unfold quoted. constructor; [done|]. apply Forall_app. split; [done|bytes_ok]. Qed.

Lemma print_bytes n : forall v d, doc_ok n v -> Forall is_byte (print nl sp d v).
Proof.
  induction n as [n IH] using lt_wf_ind. intros v d Hv.
  destruct Hv as [n|n b|n lit [Hn _]|n raw [Hs _]|n l Hl|n m Hm]; cbn [print].
  - bytes_ok.
  - destruct b; bytes_ok.
  - done.
  - by apply quoted_bytes.
  - apply bracket_bytes; [done|done|by apply ws_bytes..|]. apply Forall_fmap. eapply Forall_impl; [exact Hl|].
    intros v Hv. cbn. apply (IH n); [lia|done].
  - apply bracket_bytes; [done|done|by apply ws_bytes..|]. apply Forall_fmap. eapply Forall_impl; [exact Hm|].
    intros [k v] [[Hk _] Hv]. unfold compose. cbn [fst snd] in *. rewrite Forall_app. split; [by apply quoted_bytes|]. constructor; [done|].
    apply Forall_app. split; [by apply ws_bytes|]. apply (IH n); [lia|done].
Qed.
End PrintBytes.

Lemma scan_text nl sp v : (forall d, ws_only (nl d)) -> ws_only sp -> doc_ok maxNestingDepth v ->
  scan (bytes (of_bytes (print nl sp 0 v))) = Some v.
Proof.
  intros Hnl Hsp Hv. rewrite bytes_of_bytes by (by eapply print_bytes). unfold scan.
  rewrite <- (app_nil_r (print nl sp 0 v)), (value_print nl sp Hnl Hsp _ v 0%nat []) by done. done.
Qed.

(** What is printed is read back as the same document. *)
Lemma scan_compact v : doc_ok maxNestingDepth v -> scan (bytes (compact v)) = Some v.
Proof. apply scan_text; intros; constructor. Qed.
Lemma scan_indented v : doc_ok maxNestingDepth v -> scan (bytes (indented v)) = Some v.
Proof.
  apply scan_text; [|by repeat constructor]. intros d. constructor; [done|]. by apply Forall_replicate.
Qed.

Lemma doc_ok_le n : forall k v, doc_ok n v -> (n <= k)%nat -> doc_ok k v.
Proof.
  induction n as [n IH] using lt_wf_ind. intros k v Hv Hk.
  destruct Hv as [n|n b|n lit Hn|n raw Hs|n l Hl|n m Hm]; try (by constructor); destruct k as [|k]; [lia| |lia|]; constructor.
  - eapply Forall_impl; [exact Hl|]. intros v Hv. apply (IH n); [lia|done|lia].
  - eapply Forall_impl; [exact Hm|]. intros [q v] [? Hv]. split; [done|]. apply (IH n); [lia|done|lia].
Qed.

Lemma depth_ok n v : doc_ok n v -> Z.of_nat n <= 10000 -> doc_ok maxNestingDepth v.
Proof. intros Hv Hn. apply (doc_ok_le n); [done|]. unfold maxNestingDepth. lia. Qed.

(** ** Facts: strings *)

Lemma hex4_digits z : 0 <= z < 65536 -> exists a b c d, bytes (hex4 z) = [92; 117; a; b; c; d] /\
  is_hex a = true /\ is_hex b = true /\ is_hex c = true /\ is_hex d = true /\ u4 a b c d = z /\
  Forall is_byte [92; 117; a; b; c; d].
Proof.
  intros Hz. unfold hex4. rewrite !Z.shiftr_div_pow2 by lia. change (2 ^ 12) with 4096. change (2 ^ 8) with 256.
  change (2 ^ 4) with 16. change (2 ^ 0) with 1. rewrite Z.div_1_r.
  assert (Hd : forall q, let x := if q mod 16 <? 10 then 48 + q mod 16 else 87 + q mod 16 in
    is_byte x /\ is_hex x = true /\ hex_val x = q mod 16).
  { intros q. pose proof (Z.mod_pos_bound q 16 ltac:(lia)) as Hq. cbv zeta. generalize dependent (q mod 16). intros m Hm.
    assert (Hc : m = 0 \/ m = 1 \/ m = 2 \/ m = 3 \/ m = 4 \/ m = 5 \/ m = 6 \/ m = 7 \/ m = 8 \/ m = 9 \/ m = 10 \/ m = 11 \/
      m = 12 \/ m = 13 \/ m = 14 \/ m = 15) by lia.
    repeat destruct Hc as [->|Hc]; [..|subst m]; vm_compute; split_and!; done. }
  rewrite bytes_of_bytes.
  - do 4 eexists. split; [reflexivity|]. pose proof (Hd (z / 4096)) as (? & ? & E1). pose proof (Hd (z / 256)) as (? & ? & E2).
    pose proof (Hd (z / 16)) as (? & ? & E3). pose proof (Hd z) as (? & ? & E4). cbv zeta in *.
    split_and!; [done..| |bytes_ok]. unfold u4. rewrite E1, E2, E3, E4. Z.div_mod_to_equations; lia.
  - do 2 (apply Forall_cons_2; [done|]). do 4 (apply Forall_cons_2; [apply Hd|]). apply Forall_nil_2.
Qed.

(** The text [p] of the rune [r]: it scans, and it unquotes to the rune. *)
Definition piece_ok (r : Z) (p : list Z) : Prop :=
  Forall is_byte p /\ p <> [] /\ (forall l, scan_str (p ++ l) = push p (scan_str l)) /\
  (forall fuel l, unquote_loop (S fuel) (p ++ l) = EncodeRune r ++ unquote_loop fuel l).

Lemma push_push p q r : push p (push q r) = push (p ++ q) r.
Proof. destruct r as [[s x]|]; [|done]. cbn. by rewrite app_assoc. Qed.

Lemma hex4_piece r : 0 <= r < 65536 -> is_surrogate r = false -> piece_ok r (bytes (hex4 r)).
Proof.
  intros Hr Hs. destruct (hex4_digits r Hr) as (a & b & c & d & -> & Ha & Hb & Hc & Hd & Hu & Hbytes).
  split_and!; [done|done| |].
  - intros l. cbn [app scan_str]. cbn [Z.eqb Pos.eqb]. change (is_escape 117) with false. cbn iota. by rewrite Ha, Hb, Hc, Hd.
  - intros fuel l. cbn [app unquote_loop]. cbn [Z.eqb Pos.eqb]. unfold getu4. cbn [Z.eqb Pos.eqb andb].
    rewrite Ha, Hb, Hc, Hd. cbn [andb]. rewrite Hu, Hs. done.
Qed.

Lemma short_piece r c : is_escape c = true -> c <> 117 -> EncodeRune r = [unescape c] -> is_byte c -> piece_ok r [92; c].
Proof.
  intros Hc Hu He Hb. split_and!; [bytes_ok|done| |].
  - intros l. cbn [app scan_str]. cbn [Z.eqb Pos.eqb]. by rewrite Hc.
  - intros fuel l. cbn [app unquote_loop]. cbn [Z.eqb Pos.eqb]. destruct (Z.eqb_spec c 117); [done|]. by rewrite Hc, He.
Qed.

(** Bytes above ASCII pass the scanner one by one. *)
Lemma scan_high p l : Forall (fun b => 128 <= b) p -> scan_str (p ++ l) = push p (scan_str l).
Proof.
  induction 1 as [|b p Hb _ IH]; [cbn [app concat]; by destruct (scan_str l) as [[]|]|]. cbn [app scan_str].
  destruct (Z.eqb_spec b 34); [lia|]. destruct (Z.eqb_spec b 92); [lia|]. destruct (Z.ltb_spec b 32); [lia|].
  by rewrite IH, push_push.
Qed.

Lemma EncodeRune_high r : valid_rune r -> 128 <= r -> Forall (fun b => 128 <= b) (EncodeRune r).
Proof.
  intros Hv Hr. rewrite EncodeRune_small by done. destruct (Z.ltb_spec r 128); [lia|].
  destruct Hv as [Hv _]. repeat case_match; repeat (apply Forall_cons_2; [Z.div_mod_to_equations; lia|]); apply Forall_nil_2.
Qed.

Lemma plain_piece r : valid_rune r -> 32 <= r -> r <> 34 -> r <> 92 -> piece_ok r (EncodeRune r).
Proof.
  intros Hv Hr H1 H2. split_and!; [apply EncodeRune_bytes| | |].
  - intros H. pose proof (EncodeRune_length r) as Hl. rewrite H in Hl. cbn in Hl. lia.
  - intros l. destruct (Z.ltb_spec r 128).
    + rewrite EncodeRune_small by done. destruct (Z.ltb_spec r 128); [|lia]. cbn [app scan_str].
      destruct (Z.eqb_spec r 34); [lia|]. destruct (Z.eqb_spec r 92); [lia|]. by destruct (Z.ltb_spec r 32); [lia|].
    + apply scan_high. by apply EncodeRune_high.
  - intros fuel l. destruct (Z.ltb_spec r 128).
    + rewrite EncodeRune_small by done. destruct (Z.ltb_spec r 128); [|lia]. cbn [app unquote_loop].
      destruct (Z.eqb_spec r 92); [lia|]. by destruct (Z.ltb_spec r 128); [|lia].
    + pose proof (EncodeRune_high r Hv ltac:(lia)) as Hh. pose proof (DecodeRune_EncodeRune r l Hv) as Hd.
      destruct (EncodeRune r) as [|b p] eqn:E; [pose proof (EncodeRune_length r) as Hl; rewrite E in Hl; cbn in Hl; lia|].
      apply Forall_cons in Hh as [Hb _]. cbn [app unquote_loop] in *. destruct (Z.eqb_spec b 92); [lia|].
      destruct (Z.ltb_spec b 128); [lia|]. rewrite Hd. change (b :: p ++ l) with ((b :: p) ++ l).
      by rewrite drop_app_length, E.
Qed.

Lemma escape_piece r w : valid_rune r -> piece_ok r (bytes (escape_rune r w)).
Proof.
  intros Hv. unfold escape_rune. pose proof Hv as [Hr Hs].
  assert (Hsh : forall c, is_escape c = true -> c <> 117 -> is_byte c -> EncodeRune r = [unescape c] ->
    piece_ok r (bytes (of_bytes [92; c]))).
  { intros c Hc Hu Hb He. rewrite bytes_of_bytes by bytes_ok. by apply short_piece. }
  destruct (Z.eqb_spec r 34) as [->|]; [by apply Hsh|]. destruct (Z.eqb_spec r 92) as [->|]; [by apply Hsh|].
  destruct (Z.eqb_spec r 8) as [->|]; [by apply Hsh|]. destruct (Z.eqb_spec r 12) as [->|]; [by apply Hsh|].
  destruct (Z.eqb_spec r 10) as [->|]; [by apply Hsh|]. destruct (Z.eqb_spec r 13) as [->|]; [by apply Hsh|].
  destruct (Z.eqb_spec r 9) as [->|]; [by apply Hsh|].
  destruct ((r <? 32) || _ || _ || _) eqn:Hlow; [apply hex4_piece; [lia|unfold is_surrogate; lia]|].
  destruct ((r =? RuneError) && _) eqn:He.
  { replace r with RuneError by lia. by apply hex4_piece. }
  destruct ((r =? 8232) || _) eqn:Hl; [apply hex4_piece; [lia|unfold is_surrogate; lia]|].
  rewrite bytes_of_bytes by apply EncodeRune_bytes. apply plain_piece; [done|lia..].
Qed.

(** A sequence of such texts. *)
Lemma pieces_scan (rs : list Z) (ps : list (list Z)) l : Forall2 piece_ok rs ps ->
  scan_str (concat ps ++ l) = push (concat ps) (scan_str l).
Proof.
  induction 1 as [|r p rs ps (_ & _ & Hsc & _) _ IH]; [cbn [app concat]; by destruct (scan_str l) as [[]|]|].
  cbn [concat]. by rewrite <- app_assoc, Hsc, IH, push_push.
Qed.

Lemma pieces_unquote (rs : list Z) (ps : list (list Z)) : Forall2 piece_ok rs ps -> forall fuel, (length (concat ps) <= fuel)%nat ->
  unquote_loop fuel (concat ps) = concat (EncodeRune <$> rs).
Proof.
  induction 1 as [|r p rs ps (_ & Hne & _ & Hu) _ IH]; intros fuel Hf; [by destruct fuel|].
  cbn [concat fmap list_fmap] in *. rewrite length_app in Hf. destruct fuel as [|fuel]; [by destruct p; cbn in *; [|lia]|].
  rewrite Hu, IH; [done|]. destruct p; [done|]. cbn in Hf. lia.
Qed.

Lemma escaped_pieces s : exists ps, escaped s = concat ps /\ Forall2 piece_ok (to_runes s) ps.
Proof.
  unfold escaped, to_runes. eexists. split; [reflexivity|].
  apply Forall2_fmap, Forall_Forall2_diag. pose proof (to_runes_valid s) as Hv. unfold to_runes in Hv. rewrite Forall_fmap in Hv.
  eapply Forall_impl; [exact Hv|]. intros [r w] Hr. by apply escape_piece.
Qed.

Lemma escaped_ok s : str_ok (escaped s).
Proof.
  destruct (escaped_pieces s) as (ps & -> & Hp). split.
  - apply Forall_concat. induction Hp as [|r p rs ps (Hb & _) _ IH]; by constructor.
  - rewrite (pieces_scan _ _ [34] Hp). cbn. by rewrite app_nil_r.
Qed.

Lemma ToValidUTF8_runes s : ToValidUTF8 s = of_runes (to_runes s).
Proof.
  unfold ToValidUTF8, of_runes, to_runes. do 2 f_equal. rewrite <- list_fmap_compose. apply list_fmap_ext. by intros i [r w].
Qed.

(** A string survives the trip, up to bytes that are not UTF-8. *)
Lemma unquote_escaped s : unquote (escaped s) = ToValidUTF8 s.
Proof.
  rewrite ToValidUTF8_runes. unfold unquote, of_runes. destruct (escaped_pieces s) as (ps & -> & Hp).
  by rewrite (pieces_unquote _ _ Hp).
Qed.

Definition valid_utf8 (s : string) : Prop := ToValidUTF8 s = s.

(** What was decoded is valid. *)
Lemma ToValidUTF8_idem s : valid_utf8 (ToValidUTF8 s).
Proof. unfold valid_utf8. rewrite !ToValidUTF8_runes, to_of_runes; [done|apply to_runes_valid]. Qed.

(** ** Facts: integers *)

Lemma num_ok_digits c ds : 49 <= byte_of c <= 57 -> digits_only ds -> num_ok (bytes (String c ds)).
Proof.
  intros Hc Hds. split; [apply bytes_range|]. change (bytes (String c ds)) with (byte_of c :: bytes ds).
  unfold scan_num. cbn [num_sign]. destruct (Z.eqb_spec (byte_of c) 45); [lia|]. cbn [num_int].
  destruct (Z.eqb_spec (byte_of c) 48); [lia|]. replace (is_digit (byte_of c)) with true by (unfold is_digit; lia).
  assert (span_digits (bytes ds) = (bytes ds, [])) as ->.
  { unfold digits_only in Hds. induction Hds as [|b l Hb _ IH]; [done|]. cbn. by rewrite Hb, IH. }
  cbn. by rewrite !app_nil_r.
Qed.

Lemma num_ok_neg lit : num_ok lit -> (forall l, lit <> 45 :: l) -> num_ok (45 :: lit).
Proof.
  intros [Hb H] Hn. split; [by constructor|]. revert H. unfold scan_num. destruct lit as [|b l]; [done|]. cbn [num_sign].
  destruct (Z.eqb_spec b 45) as [->|_]; [by destruct (Hn l)|]. cbn [Z.eqb Pos.eqb].
  destruct (num_int (b :: l)) as [[ip l2]|]; [|done]. destruct (num_frac l2) as [[fp l3]|]; [|done].
  destruct (num_exp l3) as [[ep l4]|]; [|done]. cbn [app]. congruence.
Qed.

Lemma num_ok_int (z : Z) : num_ok (bytes (pretty z)).
Proof.
  destruct z as [|p|p].
  - split; [apply bytes_range|done].
  - destruct (pretty_shape (Zpos p) ltac:(lia)) as (c & ds & -> & Hc & Hds & _). by apply num_ok_digits.
  - change (pretty (Zneg p)) with ("-" +:+ pretty (Zpos p)).
    destruct (pretty_shape (Zpos p) ltac:(lia)) as (c & ds & -> & Hc & Hds & _).
    change (bytes ("-" +:+ String c ds)) with (45 :: bytes (String c ds)). apply num_ok_neg; [by apply num_ok_digits|].
    intros l [= H]. lia.
Qed.

Lemma ParseInt_pretty_all (z : Z) : in_int64 z -> ParseInt (pretty z) = (z, true).
Proof.
  unfold in_int64. intros Hz. destruct z as [|p|p]; [done|apply ParseInt_pretty; lia|].
  change (pretty (Zneg p)) with (String (ascii_of 45) (pretty (Zpos p))). unfold ParseInt.
  change (byte_of (ascii_of 45)) with 45. cbn [Z.eqb Pos.eqb].
  pose proof (parseUint_go (N.pos p) "" ltac:(unfold two63, two64 in *; lia)) as Hp.
  change (pretty_N_go (N.pos p) "") with (pretty (Zpos p)) in Hp. cbn [parseUint] in Hp.
  destruct (pretty_shape (Zpos p) ltac:(lia)) as (c & ds & E & _). rewrite E in *. rewrite Hp.
  cbn [negb andb]. change (Z.of_N (N.pos p)) with (Zpos p). by replace (two63 <? Zpos p) with false by lia.
Qed.

Lemma d_int_e_int z old : in_int64 z -> d_int (e_int z) old = Some z.
Proof. intros Hz. unfold d_int, e_int. by rewrite of_bytes_bytes, ParseInt_pretty_all. Qed.

Lemma d_string_e_string s old : d_string (e_string s) old = Some (ToValidUTF8 s).
Proof. unfold d_string, e_string. by rewrite unquote_escaped. Qed.

(** ** Facts: digits *)

Lemma dec_val_acc l : forall a, dec_val a l = a * 10 ^ Z.of_nat (length l) + dec_val 0 l.
Proof.
  unfold dec_val. induction l as [|b l IH]; intros a; cbn [foldl length]; [change (10 ^ Z.of_nat 0) with 1; lia|].
  rewrite IH, (IH (0 * 10 + (b - 48))), Nat2Z.inj_succ, Z.pow_succ_r by lia. ring.
Qed.

Lemma dec_val_bound l : Forall (fun b => is_digit b = true) l -> 0 <= dec_val 0 l < 10 ^ Z.of_nat (length l).
Proof.
  induction 1 as [|b l Hb _ IH]; [done|]. change (dec_val 0 (b :: l)) with (dec_val (0 * 10 + (b - 48)) l).
  rewrite dec_val_acc. cbn [length]. rewrite Nat2Z.inj_succ, Z.pow_succ_r by lia. unfold is_digit in Hb. nia.
Qed.

Lemma dec_val_zeros n l : dec_val 0 (replicate n 48 ++ l) = dec_val 0 l.
Proof. induction n as [|n IH]; [done|]. exact IH. Qed.

Definition digits_of (l : list Z) (x : Z) : Prop := Forall (fun b => is_digit b = true) l /\ dec_val 0 l = x.

Lemma digits_pretty x : 0 <= x -> digits_of (bytes (pretty x)) x /\ (0 < x -> 10 ^ Z.of_nat (String.length (pretty x)) <= 10 * x).
Proof.
  intros Hx. destruct (decide (x = 0)) as [->|Hne]; [split; [split; [by constructor|done]|lia]|].
  destruct (pretty_shape x ltac:(lia)) as (c & ds & E & Hc & Hds & Hv). split.
  - split; [|done]. rewrite E. apply digits_only_cons. split; [unfold is_digit; lia|done].
  - intros _. rewrite E in *. change (bytes (String c ds)) with (byte_of c :: bytes ds) in Hv.
    change (dec_val 0 (byte_of c :: bytes ds)) with (dec_val (0 * 10 + (byte_of c - 48)) (bytes ds)) in Hv. rewrite dec_val_acc in Hv.
    pose proof (dec_val_bound _ Hds) as Hb. replace (length (bytes ds)) with (String.length ds) in * by
      (unfold bytes; rewrite length_fmap; clear; induction ds; cbn; lia).
    cbn [String.length]. rewrite Nat2Z.inj_succ, Z.pow_succ_r by lia. nia.
Qed.

Lemma length_bytes s : length (bytes s) = String.length s.
Proof. unfold bytes. rewrite length_fmap. induction s; cbn; lia. Qed.

Lemma appendInt_digits x w : 0 <= x < 10 ^ Z.of_nat w -> (1 <= w)%nat ->
  digits_of (bytes (appendInt x w)) x /\ length (bytes (appendInt x w)) = w.
Proof.
  intros Hx Hw. unfold appendInt. destruct (Z.ltb_spec x 0); [lia|]. rewrite Z.abs_eq by lia.
  change ("" +:+ ?s) with s. unfold zeros. destruct (digits_pretty x ltac:(lia)) as [[Hd Hv] Hl].
  rewrite bytes_app, bytes_of_bytes by (apply Forall_replicate; done).
  assert (Hlen : (String.length (pretty x) <= w)%nat).
  { destruct (decide (x = 0)) as [->|]; [cbn; lia|]. apply Nat.nlt_ge. intros Hlt. specialize (Hl ltac:(lia)).
    pose proof (Z.pow_le_mono_r 10 (Z.of_nat (S w)) (Z.of_nat (String.length (pretty x))) ltac:(lia) ltac:(lia)) as Hp.
    rewrite Nat2Z.inj_succ, Z.pow_succ_r in Hp by lia. lia. }
  split.
  - split; [apply Forall_app; split; [by apply Forall_replicate|done]|]. by rewrite dec_val_zeros.
  - rewrite length_app, length_replicate, length_bytes. lia.
Qed.

(** ** Facts: composite values *)

Lemma d_elements_map {A B} zero (d : decoder A) (e : B -> jval) (f : B -> A) l : forall old,
  (forall x o, x ∈ l -> d (e x) o = Some (f x)) -> d_elements zero d (e <$> l) old = Some (f <$> l).
Proof.
  induction l as [|x l IH]; intros old H; [done|]. cbn [fmap list_fmap d_elements].
  rewrite H by by left. cbn [mbind option_bind]. rewrite IH; [done|]. intros y o Hy. apply H. by right.
Qed.

Lemma d_slice_map {A B} zero (d : decoder A) (e : B -> jval) (f : B -> A) l old :
  (forall x o, x ∈ l -> d (e x) o = Some (f x)) -> d_slice zero d (VArr (e <$> l)) old = Some (f <$> l).
Proof. apply d_elements_map. Qed.

Lemma d_strings_e_strings l old : Forall valid_utf8 l -> d_slice "" d_string (e_strings l) old = Some l.
Proof.
  intros Hl. unfold e_strings. rewrite (d_slice_map _ _ _ (fun s => s)), list_fmap_id; [done|].
  intros s o Hs. rewrite d_string_e_string. f_equal. by eapply Forall_forall in Hl.
Qed.

Lemma d_members_app {A} (step : list Z * jval -> A -> option A) m1 m2 a :
  d_members step (m1 ++ m2) a = (a' ← d_members step m1 a; d_members step m2 a').
Proof. revert a. induction m1 as [|kv m1 IH]; intros a; [done|]. cbn. destruct (step kv a); [apply IH|done]. Qed.

(** One member of a struct, written or left out. *)
Lemma d_omit {A} (fs : list (field A)) empty k v d rest (a a' : A) :
  find_field fs (ToValidUTF8 k) = Some d -> (empty = true -> a' = a) -> (empty = false -> d v a = Some a') ->
  d_members (d_field fs) (member_texts (omit empty k v ++ rest)) a = d_members (d_field fs) (member_texts rest) a'.
Proof.
  intros Hf H1 H2. destruct empty; cbn [omit app]; [by rewrite H1|].
  change (member_texts ((k, v) :: rest)) with ((escaped k, v) :: member_texts rest). cbn [d_members].
  unfold d_field at 1. cbn [fst snd].
  by rewrite unquote_escaped, Hf, H2.
Qed.

(** A map written with its keys in some order. *)
Lemma d_map_members {A B} zero (d : decoder A) (e : B -> jval) (f : B -> A) (l : list (string * B)) : forall m,
  NoDup l.*1 -> Forall valid_utf8 l.*1 -> (forall k x, (k, x) ∈ l -> d (e x) zero = Some (f x)) ->
  d_map zero d (e_members ((fun kv => (kv.1, e kv.2)) <$> l)) m = Some (list_to_map ((fun kv => (kv.1, f kv.2)) <$> l) ∪ m).
Proof.
  unfold e_members, d_map, member_texts. induction l as [|[k x] l IH]; intros m Hnd Hv Hd.
  { cbn. by rewrite (left_id_L ∅ (∪)). }
  cbn [fmap list_fmap d_members fst snd] in *. apply NoDup_cons in Hnd as [Hk Hnd]. apply Forall_cons in Hv as [Hvk Hv].
  rewrite unquote_escaped, Hvk, (Hd k x) by by left. cbn [fmap option_fmap option_map].
  rewrite IH; [|done|done|intros k' x' Hx; eapply Hd; by right]. f_equal. cbn [list_to_map foldr fst snd].
  rewrite <- insert_union_r, insert_union_l; [done|]. apply not_elem_of_list_to_map_1.
  by rewrite <- list_fmap_compose.
Qed.

Lemma e_string_ok n s : doc_ok n (e_string s).
Proof. constructor. apply escaped_ok. Qed.

Lemma e_strings_ok n l : doc_ok (S n) (e_strings l).
Proof. constructor. apply Forall_fmap, Forall_forall. intros s _. constructor. apply escaped_ok. Qed.

Lemma e_members_ok n m : Forall (fun kv => doc_ok n kv.2) m -> doc_ok (S n) (e_members m).
Proof. intros H. constructor. apply Forall_fmap. eapply Forall_impl; [exact H|]. intros [k v] Hv. split; [apply escaped_ok|done]. Qed.

Lemma omit_ok n empty k v : (empty = false -> doc_ok n v) -> Forall (fun kv => doc_ok n kv.2) (omit empty k v).
Proof. destruct empty; intros H; constructor; [by apply H|constructor]. Qed.

(** ** Facts: scanned documents *)

Definition suffix (r l : list Z) : Prop := exists p, l = p ++ r.

Lemma suffix_trans a b c : suffix a b -> suffix b c -> suffix a c.
Proof. intros [p ->] [q ->]. exists (q ++ p). by rewrite <- app_assoc. Qed.
Lemma suffix_cons b r l : suffix (b :: r) l -> suffix r l.
Proof. intros [p ->]. exists (p ++ [b]). by rewrite <- app_assoc. Qed.
Lemma suffix_bytes r l : suffix r l -> Forall is_byte l -> Forall is_byte r.
Proof. intros [p ->]. by intros [_ ?]%Forall_app. Qed.
Lemma skip_ws_suffix l : suffix (skip_ws l) l.
Proof.
  unfold skip_ws. induction l as [|b l IH]; cbn; [by exists []|]. destruct (is_ws b); [|by exists []].
  destruct IH as [p Hp]. exists (b :: p). cbn. by f_equal.
Qed.

(** A scanner of elements that satisfy [P], which leaves a rest of the text. *)
Definition sound {A} (P : A -> Prop) (elem : list Z -> option (A * list Z)) : Prop :=
  forall l x r, Forall is_byte l -> elem l = Some (x, r) -> P x /\ suffix r l.

Section Sound.
Context {A : Type} (P : A -> Prop) (elem : list Z -> option (A * list Z)) (Hel : sound P elem).

Lemma elements_sound close n : forall l xs r, Forall is_byte l -> elements elem close n l = Some (xs, r) ->
  Forall P xs /\ suffix r l.
Proof.
  induction n as [|n IH]; intros l xs r Hl; cbn [elements]; [done|]. destruct (elem l) as [[x r0]|] eqn:He; [|done].
  destruct (Hel _ _ _ Hl He) as [Hx Hr0]. pose proof (suffix_bytes _ _ Hr0 Hl) as Hb0.
  pose proof (skip_ws_suffix r0) as Hsk. destruct (skip_ws r0) as [|c r1]; [done|]. apply suffix_cons in Hsk.
  destruct (c =? 44).
  - destruct (elements elem close n r1) as [[ys r2]|] eqn:Hn; [|done]. intros [= <- <-].
    destruct (IH r1 ys r2 (suffix_bytes _ _ Hsk Hb0) Hn) as [Hys Hr2]. split; [by constructor|].
    eauto using suffix_trans.
  - destruct (c =? close); [|done]. intros [= <- <-]. split; [by constructor|]. eauto using suffix_trans.
Qed.

Lemma member_sound : sound (fun kv => str_ok kv.1 /\ P kv.2) (member elem).
Proof.
  intros l [k v] r Hl. unfold member. pose proof (skip_ws_suffix l) as Hsk. destruct (skip_ws l) as [|q r0]; [done|].
  apply suffix_cons in Hsk. destruct (q =? 34); [|done]. pose proof (suffix_bytes _ _ Hsk Hl) as Hb0.
  destruct (scan_str r0) as [[k' r1]|] eqn:Hk; [|done]. destruct (scan_str_sound _ _ _ Hb0 Hk) as [Hr0 Hok].
  assert (Hs1 : suffix r1 r0) by (exists (k' ++ [34]); by rewrite <- app_assoc).
  pose proof (skip_ws_suffix r1) as Hsk1. destruct (skip_ws r1) as [|c r2]; [done|]. apply suffix_cons in Hsk1.
  destruct (c =? 58); [|done]. destruct (elem r2) as [[v' r3]|] eqn:Hv; [|done]. intros [= <- <- <-].
  assert (Hs2 : suffix r2 l) by eauto using suffix_trans.
  destruct (Hel _ _ _ (suffix_bytes _ _ Hs2 Hl) Hv) as [Hx Hr3]. split; [done|]. eauto using suffix_trans.
Qed.

Lemma sequence_sound close l xs r : Forall is_byte l -> sequence_of elem close l = Some (xs, r) -> Forall P xs /\ suffix r l.
Proof.
  intros Hl. unfold sequence_of. pose proof (skip_ws_suffix l) as Hsk. destruct (skip_ws l) as [|c r1]; [done|].
  destruct (c =? close); [|by apply elements_sound]. intros [= <- <-]. split; [constructor|by apply suffix_cons in Hsk].
Qed.
End Sound.

Lemma literal_sound n p v l x r : doc_ok n v -> literal p v l = Some (x, r) -> doc_ok n x /\ suffix r l.
Proof.
  intros Hv. unfold literal. destruct (strip_prefix p l) as [r'|] eqn:Hs; [|done]. intros [= <- <-]. split; [done|].
  revert l Hs. induction p as [|a p IH]; intros l Hs; cbn in Hs; [injection Hs as ->; by exists []|].
  destruct l as [|b l]; [done|]. destruct (a =? b); [|done]. destruct (IH l Hs) as [q ->]. by exists (b :: q).
Qed.

(** What is scanned is a document. *)
Lemma value_sound n : sound (doc_ok n) (value n).
Proof.
  induction n as [|n IH]; intros l v r Hl; cbn [value]; pose proof (skip_ws_suffix l) as Hsk;
    destruct (skip_ws l) as [|b r0]; try done; pose proof (suffix_bytes _ _ Hsk Hl) as Hb; pose proof (suffix_cons _ _ _ Hsk) as Hsk0;
    pose proof (suffix_bytes _ _ Hsk0 Hl) as Hb0.
  all: assert (Hstr : forall k, match scan_str r0 with Some (s, r') => Some (VStr s, r') | None => None end = Some (v, r) ->
      doc_ok k v /\ suffix r l) by
    (intros k; destruct (scan_str r0) as [[s r']|] eqn:Hs; [|done]; intros [= <- <-];
     destruct (scan_str_sound _ _ _ Hb0 Hs) as [-> Hok]; split; [by constructor|];
     apply (suffix_trans _ (s ++ 34 :: r')); [exists (s ++ [34]); by rewrite <- app_assoc|done]).
  all: assert (Hnum : forall k, match scan_num (b :: r0) with Some (s, r') => Some (VNum s, r') | None => None end = Some (v, r) ->
      doc_ok k v /\ suffix r l) by
    (intros k; destruct (scan_num (b :: r0)) as [[s r']|] eqn:Hs; [|done]; intros [= <- <-];
     destruct (scan_num_sound _ _ _ Hb Hs) as [Heq Hok]; split; [by constructor|];
     apply (suffix_trans _ (b :: r0)); [by exists s|done]).
  all: assert (Hlit : forall k p w, doc_ok k w -> literal p w (b :: r0) = Some (v, r) -> doc_ok k v /\ suffix r l) by
    (intros k p w Hw Hx; destruct (literal_sound k p w _ v r Hw Hx) as [? ?]; eauto using suffix_trans).
  - destruct (b =? 34); [apply Hstr|]. destruct (b =? 123); [done|]. destruct (b =? 91); [done|].
    destruct (b =? 110); [apply Hlit; constructor|]. destruct (b =? 116); [apply Hlit; constructor|].
    destruct (b =? 102); [apply Hlit; constructor|apply Hnum].
  - destruct (b =? 34); [apply Hstr|]. destruct (b =? 123).
    { destruct (sequence_of _ 125 r0) as [[m r']|] eqn:Hs; [|done]. intros [= <- <-].
      destruct (sequence_sound _ _ (member_sound _ _ IH) _ _ _ _ Hb0 Hs) as [Hm ?]. split; [by constructor|]. eauto using suffix_trans. }
    destruct (b =? 91).
    { destruct (sequence_of _ 93 r0) as [[m r']|] eqn:Hs; [|done]. intros [= <- <-].
      destruct (sequence_sound _ _ IH _ _ _ _ Hb0 Hs) as [Hm ?]. split; [by constructor|]. eauto using suffix_trans. }
    destruct (b =? 110); [apply Hlit; constructor|]. destruct (b =? 116); [apply Hlit; constructor|].
    destruct (b =? 102); [apply Hlit; constructor|apply Hnum].
Qed.

Lemma scan_sound l v : Forall is_byte l -> scan l = Some v -> doc_ok maxNestingDepth v.
Proof.
  intros Hl. unfold scan. destruct (value maxNestingDepth l) as [[w r]|] eqn:Hv; [|done].
  destruct (bool_decide _); [|done]. intros [= <-]. by eapply value_sound.
Qed.

Lemma hex_val_range b : is_hex b = true -> 0 <= hex_val b < 16.
Proof.
  unfold is_hex, hex_val. destruct (is_digit b) eqn:Hd; [unfold is_digit in Hd; lia|]. cbn [orb]. intros H.
  assert (Hc : b = 97 \/ b = 98 \/ b = 99 \/ b = 100 \/ b = 101 \/ b = 102 \/ b = 65 \/ b = 66 \/ b = 67 \/ b = 68 \/ b = 69 \/ b = 70)
    by lia.
  repeat destruct Hc as [->|Hc]; [done..|by subst].
Qed.

Lemma getu4_range l r : getu4 l = Some r -> 0 <= r < 65536.
Proof.
  unfold getu4, u4. destruct l as [|b [|c [|h1 [|h2 [|h3 [|h4 l]]]]]]; try done.
  destruct (_ && _) eqn:H; [|done]. intros [= <-]. rewrite !andb_true_iff in H. destruct H as [[[[_ H1] H2] H3] H4].
  pose proof (hex_val_range _ H1). pose proof (hex_val_range _ H2). pose proof (hex_val_range _ H3). pose proof (hex_val_range _ H4). lia.
Qed.

(** Unquoting yields the encoding of runes. *)
Lemma unquote_runes fuel : forall l, Forall is_byte l -> exists rs, Forall valid_rune rs /\ unquote_loop fuel l = concat (EncodeRune <$> rs).
Proof.
  assert (Hcons : forall r rest, valid_rune r -> (exists rs, Forall valid_rune rs /\ rest = concat (EncodeRune <$> rs)) ->
    exists rs, Forall valid_rune rs /\ EncodeRune r ++ rest = concat (EncodeRune <$> rs)).
  { intros r rest Hr (rs & Hrs & ->). exists (r :: rs). split; [by constructor|done]. }
  assert (Hascii : forall b rest, 0 <= b < 128 -> (exists rs, Forall valid_rune rs /\ rest = concat (EncodeRune <$> rs)) ->
    exists rs, Forall valid_rune rs /\ b :: rest = concat (EncodeRune <$> rs)).
  { intros b rest Hb H. change (b :: rest) with ([b] ++ rest). replace [b] with (EncodeRune b).
    - apply Hcons; [unfold valid_rune; lia|done].
    - rewrite EncodeRune_small by (unfold valid_rune; lia). by destruct (Z.ltb_spec b 128); [|lia]. }
  induction fuel as [|fuel IH]; intros [|b l] Hl; [by exists []..|]. cbn [unquote_loop].
  assert (Hdrop : forall k m, Forall is_byte m -> exists rs, Forall valid_rune rs /\ unquote_loop fuel (drop k m) = concat (EncodeRune <$> rs)).
  { intros k m Hm. apply IH. by apply Forall_drop. }
  apply Forall_cons in Hl as Hbl. destruct Hbl as [Hb Hl0]. destruct (b =? 92).
  - destruct l as [|c l]; [by exists []|]. apply Forall_cons in Hl0 as [Hc Hl1]. destruct (c =? 117).
    + destruct (getu4 (b :: c :: l)) as [rr|] eqn:Hu; [|by exists []]. apply getu4_range in Hu. destruct (is_surrogate rr) eqn:Hs.
      * destruct (match getu4 _ with Some _ => _ | None => _ end) as [dec|] eqn:Hp.
        { apply Hcons; [|by apply Hdrop, Forall_drop]. destruct (getu4 (drop 6 _)) as [r1|]; [|done]. unfold utf16_pair in Hp.
          destruct (_ && _) eqn:Hr; [|done]. injection Hp as <-. unfold valid_rune. lia. }
        apply Hcons; [by unfold valid_rune, RuneError; lia|by apply Hdrop].
      * apply Hcons; [unfold valid_rune, is_surrogate in *; lia|by apply Hdrop].
    + destruct (is_escape c) eqn:He; [|by exists []]. apply Hascii; [|by apply IH].
      unfold is_escape, unescape in *. repeat case_match; lia.
  - destruct (Z.ltb_spec b 128); [apply Hascii; [unfold is_byte in Hb; lia|by apply IH]|].
    pose proof (DecodeRune_valid (b :: l) Hl) as Hv. destruct (DecodeRune (b :: l)) as [rr w]. by apply Hcons, Hdrop.
Qed.

Lemma unquote_valid raw : Forall is_byte raw -> valid_utf8 (unquote raw).
Proof.
  intros Hraw. unfold unquote, valid_utf8. destruct (unquote_runes (length raw) raw Hraw) as (rs & Hrs & ->).
  change (of_bytes (concat (EncodeRune <$> rs))) with (of_runes rs). by rewrite ToValidUTF8_runes, to_of_runes.
Qed.

Lemma valid_utf8_runes s : valid_utf8 s <-> exists rs, Forall valid_rune rs /\ s = of_runes rs.
Proof.
  unfold valid_utf8. rewrite ToValidUTF8_runes. split.
  - intros <-. exists (to_runes s). split; [apply to_runes_valid|done].
  - intros (rs & Hrs & ->). by rewrite to_of_runes.
Qed.

Lemma valid_utf8_app s t : valid_utf8 s -> valid_utf8 t -> valid_utf8 (s +:+ t).
Proof.
  rewrite !valid_utf8_runes. intros (r1 & H1 & ->) (r2 & H2 & ->). exists (r1 ++ r2). split; [by apply Forall_app|].
  by rewrite of_runes_app.
Qed.

(** ** Facts: what decoders preserve *)

(** A decoder keeps a property of the variable, on every document. *)
Definition preserves {A} (P : A -> Prop) (d : decoder A) : Prop :=
  forall n v old x, doc_ok n v -> P old -> d v old = Some x -> P x.
Definition t_preserves {A} (P : A -> Prop) (d : text_decoder A) : Prop :=
  forall raw old x, Forall is_byte raw -> P old -> d raw old = Some x -> P x.

Create HintDb preserves.

Section Preserve.
Context {A : Type} (P : A -> Prop).

Lemma preserves_struct fs : Forall (fun f => preserves P f.2) fs -> preserves P (d_struct fs).
Proof.
  intros Hfs n v old x Hv Hold. destruct v; cbn [d_struct]; try done; [by intros [= <-]|].
  inversion Hv as [| | | | |n' m' Hm]; subst. clear Hv. revert old Hold. induction Hm as [|[k v] m [_ Hv] _ IH]; intros old Hold;
    cbn [d_members]; [by intros [= <-]|]. destruct (d_field fs (k, v) old) as [a|] eqn:Ha; [|done]. apply IH.
  unfold d_field, find_field in Ha. destruct (find _ fs) as [f|] eqn:Hf.
  - apply find_some in Hf as [Hin _]. rewrite Forall_forall in Hfs. eapply (Hfs f); [by apply list_elem_of_In|exact Hv|done|exact Ha].
  - destruct (find (fun f => EqualFold _ f.1) fs) as [f|] eqn:Hf2; [|by injection Ha as <-].
    apply find_some in Hf2 as [Hin _]. rewrite Forall_forall in Hfs. eapply (Hfs f); [by apply list_elem_of_In|exact Hv|done|exact Ha].
Qed.

Lemma preserves_field {B} (Q : B -> Prop) name get set (d : decoder B) : preserves Q d ->
  (forall a, P a -> Q (get a)) -> (forall b a, Q b -> P a -> P (set b a)) -> preserves P (at_field name get set d).2.
Proof.
  intros Hd Hget Hset n v old x Hv Hold. cbn. destruct (d v (get old)) as [b|] eqn:Hb; [|done]. intros [= <-].
  apply Hset; [|done]. eapply Hd; [exact Hv|by apply Hget|exact Hb].
Qed.

Lemma preserves_ptr zero (d : decoder A) : P zero -> preserves P d ->
  preserves (fun o => match o with Some a => P a | None => True end) (d_ptr zero d).
Proof.
  intros Hz Hd n v old x Hv Hold. unfold d_ptr. destruct v; try (by intros [= <-]);
    match goal with |- context [d ?w ?o] => destruct (d w o) as [a|] eqn:Ha; [|done] end; intros [= <-];
    (eapply Hd; [exact Hv| |exact Ha]); by destruct old.
Qed.

Lemma preserves_text d : preserves P d -> t_preserves P (t_of d).
Proof.
  intros Hd raw old x Hraw Hold. unfold t_of. destruct (scan raw) as [v|] eqn:Hs; [|done].
  eapply Hd; [by eapply scan_sound|done].
Qed.

Lemma raw_value_sound : sound (Forall is_byte) raw_value.
Proof.
  intros l x r Hl. unfold raw_value. destruct (value maxNestingDepth l) as [[v r']|] eqn:Hv; [|done].
  destruct (value_sound _ _ _ _ Hl Hv) as [_ Hr]. intros [= <- <-]. split; [|done]. apply Forall_take.
  eapply suffix_bytes; [apply skip_ws_suffix|done].
Qed.

Lemma raw_members_sound raw m : Forall is_byte raw -> raw_members raw = Some m ->
  Forall (fun kv => str_ok kv.1 /\ Forall is_byte kv.2) m.
Proof.
  intros Hraw. destruct raw as [|b r]; [done|]. cbn [raw_members]. destruct (b =? 123); [|done].
  apply Forall_cons in Hraw as [_ Hr]. destruct (sequence_of _ 125 r) as [[m' r']|] eqn:Hs; [|done]. intros [= <-].
  by eapply (sequence_sound _ _ (member_sound _ _ raw_value_sound)).
Qed.

Lemma t_preserves_struct fs : Forall (fun f => t_preserves P f.2) fs -> t_preserves P (t_struct fs).
Proof.
  intros Hfs raw old x Hraw Hold. unfold t_struct. destruct (bool_decide _); [by intros [= <-]|].
  destruct (raw_members raw) as [m|] eqn:Hm; [|done]. cbn [mbind option_bind]. apply raw_members_sound in Hm; [|done].
  revert old Hold. induction Hm as [|[k v] m [_ Hv] _ IH]; intros old Hold; cbn [t_members]; [by intros [= <-]|]. cbn [snd] in Hv.
  assert (Hstep : forall a, match t_find fs (unquote k) with Some d => d v old | None => Some old end = Some a -> P a).
  { intros a. unfold t_find. rewrite Forall_forall in Hfs. destruct (find _ fs) as [f|] eqn:Hf.
    - apply find_some in Hf as [Hin _]. apply (Hfs f); [by apply list_elem_of_In|done|done].
    - destruct (find (fun f => EqualFold _ f.1) fs) as [f|] eqn:Hf2; [|by intros [= <-]].
      apply find_some in Hf2 as [Hin _]. apply (Hfs f); [by apply list_elem_of_In|done|done]. }
  destruct (match t_find fs (unquote k) with Some d => d v old | None => Some old end) as [a|] eqn:Ha; [|done].
  cbn [mbind option_bind]. apply IH. by apply Hstep.
Qed.

Lemma t_preserves_field {B} (Q : B -> Prop) name get set (d : text_decoder B) : t_preserves Q d ->
  (forall a, P a -> Q (get a)) -> (forall b a, Q b -> P a -> P (set b a)) -> t_preserves P (t_at name get set d).2.
Proof.
  intros Hd Hget Hset raw old x Hv Hold. cbn. destruct (d raw (get old)) as [b|] eqn:Hb; [|done]. intros [= <-].
  apply Hset; [|done]. eapply Hd; [exact Hv|by apply Hget|exact Hb].
Qed.

Lemma t_preserves_slice zero d : P zero -> t_preserves P d -> t_preserves (Forall P) (t_slice zero d).
Proof.
  intros Hz Hd raw old x Hraw Hold. unfold t_slice. destruct (bool_decide _); [intros [= <-]; constructor|].
  destruct raw as [|b r]; [done|]. destruct (b =? 91); [|done]. apply Forall_cons in Hraw as [_ Hr].
  destruct (sequence_of raw_value 93 r) as [[l r']|] eqn:Hs; [|done].
  destruct (sequence_sound _ _ raw_value_sound _ _ _ _ Hr Hs) as [Hl _]. cbn. clear Hs. revert old x Hold.
  induction Hl as [|e l He _ IH]; intros old x Hold; cbn [t_elements]; [by intros [= <-]|].
  destruct (d e _) as [y|] eqn:Hy; [|done]. cbn [mbind option_bind]. destruct (t_elements zero d l (tail old)) as [ys|] eqn:Hys; [|done].
  intros [= <-]. constructor; [|apply (IH (tail old)); [by destruct Hold|done]]. eapply Hd; [exact He| |exact Hy]. by destruct Hold.
Qed.
End Preserve.

Lemma preserves_any {A} (d : decoder A) : preserves (fun _ => True) d.
Proof. by intros n v old x _ _ _. Qed.
Lemma t_preserves_any {A} (d : text_decoder A) : t_preserves (fun _ => True) d.
Proof. by intros raw old x _ _ _. Qed.
Lemma preserves_string : preserves valid_utf8 d_string.
Proof.
  intros n v old x Hv Hold. destruct v as [| | |raw| |]; cbn; try done; intros [= <-]; [done|].
  inversion Hv as [| | |n' raw' [Hb _]| |]; subst. by apply unquote_valid.
Qed.
#[export] Hint Resolve preserves_string preserves_any t_preserves_any preserves_text : preserves.

(** ** Facts: the text of printed values *)

Section RawPrint.
Context (nl : nat -> list Z) (sp : list Z) (Hnl : forall d, ws_only (nl d)) (Hsp : ws_only sp).

Lemma scan_print d v : doc_ok maxNestingDepth v -> scan (print nl sp d v) = Some v.
Proof.
  intros Hv. unfold scan. rewrite <- (app_nil_r (print nl sp d v)), (value_print nl sp Hnl Hsp _ v d []) by done. done.
Qed.

Lemma raw_value_print w d v x : ws_only w -> doc_ok maxNestingDepth v -> stops x ->
  raw_value (w ++ print nl sp d v ++ x) = Some (print nl sp d v, x).
Proof.
  intros Hw Hv Hx. unfold raw_value. rewrite value_ws, (value_print nl sp Hnl Hsp) by done.
  rewrite skip_ws_starts by (done || by eapply print_starts). f_equal. f_equal.
  rewrite length_app, Nat.add_sub. by rewrite take_app_length.
Qed.

Lemma raw_members_print d m : doc_ok maxNestingDepth (VObj m) ->
  raw_members (print nl sp d (VObj m)) = Some ((fun kv => (kv.1, print nl sp (S d) kv.2)) <$> m).
Proof.
  intros Hv. assert (Hm : Forall (fun kv => str_ok kv.1 /\ doc_ok maxNestingDepth kv.2) m).
  { remember maxNestingDepth as N eqn:HN. clear HN. inversion Hv as [| | | | |n m' Hm]; subst. eapply Forall_impl; [exact Hm|].
    intros kv [? ?]. split; [done|]. eapply doc_ok_le; [done|lia]. }
  cbn [print]. assert (Hb : forall y, bracket 123 125 (nl (S d)) (nl d) y = 123 :: drop 1 (bracket 0 125 (nl (S d)) (nl d) y)) by (by intros []).
  rewrite Hb. cbn [raw_members Z.eqb Pos.eqb]. rewrite <- (app_nil_r (drop 1 _)).
  rewrite (sequence_of_bracket _ 125 _ _ ltac:(by right) (Hnl _) (Hnl _) _ ((fun kv => (kv.1, print nl sp (S d) kv.2)) <$> m)); [done|].
  apply Forall2_fmap, Forall_Forall2_diag. eapply Forall_impl; [exact Hm|]. intros [k v] [Hk Hd]. cbn [fst snd] in *.
  split; [done|]. intros y Hy. rewrite member_ws by done. unfold quoted, member. cbn [app]. unfold skip_ws at 1. cbn [drop_while is_ws].
  cbn. rewrite <- !app_assoc. cbn [app]. rewrite (scan_str_ok k _ Hk). cbn.
  rewrite <- app_assoc, raw_value_print by done. done.
Qed.
End RawPrint.
