(* ===== verification/GoFloatRead.v ===== *)
(** * float64: reading back what is printed

    [of_dec] rounds a decimal to the nearest float, and depends on its value only;
    the digits [shortest] finds read back as the number they were printed for, for
    every float: seventeen digits are enough. So [json_float] and [ParseFloat] are
    inverse to each other. *)

From S2P Require Import Prelude GoStrings GoTime GoFloat GoCrypto GoRunes GoJson GoHttp GoParse GoJsonRead.
From Stdlib Require Import SpecFloat.

(** ** Positions on a grid

    [X] lies between [m * U] and [(m + 1) * U], where [l] says. *)
Definition at_loc (X U m : Z) (l : location) : Prop :=
  match l with
  | loc_Exact => X = m * U
  | loc_Inexact Lt => m * U < X /\ 2 * X < (2 * m + 1) * U
  | loc_Inexact Eq => 2 * X = (2 * m + 1) * U
  | loc_Inexact Gt => (2 * m + 1) * U < 2 * X /\ X < (m + 1) * U
  end.

(** [X / U], rounded to nearest, ties to even. *)
Definition rne (X U : Z) : Z :=
  let q := X / U in
  let r := X mod U in
  if 2 * r <? U then q else if 2 * r =? U then if Z.even q then q else q + 1 else q + 1.

Lemma at_loc_bounds X U m l : 0 < U -> at_loc X U m l -> m * U <= X < (m + 1) * U.
Proof. intros HU. destruct l as [|[]]; cbn; nia. Qed.

Lemma at_loc_div X U m l : 0 < U -> at_loc X U m l -> X / U = m.
Proof. intros HU H. apply at_loc_bounds in H; [|done]. symmetry. apply (Z.div_unique_pos X U m (X - m * U)); lia. Qed.

Lemma at_loc_rne X U m l : 0 < U -> at_loc X U m l -> round_nearest_even m l = rne X U.
Proof.
  intros HU H. unfold rne. rewrite (at_loc_div _ _ _ _ HU H). pose proof (Z.div_mod X U ltac:(lia)) as Hd.
  rewrite (at_loc_div _ _ _ _ HU H) in Hd. cbv zeta. set (r := X mod U) in *. clearbody r.
  destruct l as [|[]]; cbn in *.
  - destruct (Z.ltb_spec (2 * r) U); [done|]. destruct (Z.eqb_spec (2 * r) U); [nia|nia].
  - destruct (Z.ltb_spec (2 * r) U); [nia|]. destruct (Z.eqb_spec (2 * r) U); [done|nia].
  - destruct (Z.ltb_spec (2 * r) U); [done|nia].
  - destruct (Z.ltb_spec (2 * r) U); [nia|]. destruct (Z.eqb_spec (2 * r) U); [nia|done].
Qed.

Lemma at_loc_record X U m l : at_loc X U m l <->
  let r := shr_record_of_loc m l in at_loc X U (shr_m r) (loc_of_shr_record r).
Proof. by destruct l as [|[]]. Qed.

(** One step of the shift doubles the grid's unit. *)
Lemma shr_1_loc X U r : 0 < U -> 0 <= shr_m r -> at_loc X U (shr_m r) (loc_of_shr_record r) ->
  at_loc X (2 * U) (shr_m (shr_1 r)) (loc_of_shr_record (shr_1 r)) /\ shr_m (shr_1 r) = shr_m r / 2.
Proof.
  intros HU Hm. destruct r as [m rb sb]. cbn [shr_m] in Hm. destruct m as [|[p|p|]|p]; [| | | |lia].
  - destruct rb, sb; cbn; intros; (split; [nia|done]).
  - cbn [shr_1 shr_m]. replace (Z.pos p~1) with (2 * Zpos p + 1) by lia.
    destruct rb, sb; cbn [orb loc_of_shr_record at_loc]; intros; (split; [nia|Z.div_mod_to_equations; lia]).
  - cbn [shr_1 shr_m]. replace (Z.pos p~0) with (2 * Zpos p) by lia.
    destruct rb, sb; cbn [orb loc_of_shr_record at_loc]; intros; (split; [nia|Z.div_mod_to_equations; lia]).
  - destruct rb, sb; cbn; intros; (split; [nia|done]).
Qed.

Lemma iter_pos_nat {A} (f : A -> A) p : forall x, iter_pos f p x = Nat.iter (Pos.to_nat p) f x.
Proof.
  induction p as [p IH|p IH|]; intros x; cbn [iter_pos]; [..|done].
  - rewrite Pos2Nat.inj_xI, !IH, <- Nat.iter_add. replace (Pos.to_nat p + Pos.to_nat p)%nat with (2 * Pos.to_nat p)%nat by lia.
    by rewrite Nat.iter_succ_r.
  - rewrite Pos2Nat.inj_xO, !IH, <- Nat.iter_add. f_equal. lia.
Qed.

Lemma shr_iter_loc n : forall X U r, 0 < U -> 0 <= shr_m r -> at_loc X U (shr_m r) (loc_of_shr_record r) ->
  at_loc X (2 ^ Z.of_nat n * U) (shr_m (Nat.iter n shr_1 r)) (loc_of_shr_record (Nat.iter n shr_1 r)) /\
  0 <= shr_m (Nat.iter n shr_1 r).
Proof.
  induction n as [|n IH]; intros X U r HU Hm H; [by rewrite Z.mul_1_l|].
  rewrite Nat.iter_succ. destruct (IH X U r HU Hm H) as [Hl H0]. rewrite Nat2Z.inj_succ, Z.pow_succ_r by lia.
  destruct (shr_1_loc X (2 ^ Z.of_nat n * U) _ ltac:(nia) H0 Hl) as [Hl' Hm']. rewrite <- Z.mul_assoc. split; [done|].
  rewrite Hm'. apply Z.div_pos; lia.
Qed.

Lemma Zdigits2_log2 m : 0 < m -> Zdigits2 m = Z.log2 m + 1.
Proof.
  destruct m as [|p|p]; [lia| |lia]. intros _. cbn [Zdigits2].
  assert (H : forall p, Zpos (digits2_pos p) = Zpos (Pos.size p)) by (induction p0; cbn [digits2_pos Pos.size]; lia).
  rewrite H. destruct p; cbn [Z.log2 Pos.size]; lia.
Qed.

(** ** Rounding depends on the value only

    A number is [X / D], in units of [2 ^ K] for some [K] below every exponent. *)

Definition emin64 : Z := -1074.

Lemma fexp64 e : fexp prec64 emax64 e = Z.max (e - 53) emin64.
Proof. reflexivity. Qed.

Section Value.
Context (K : Z) (HK : K <= emin64 - 2).

Definition unit_at (D e : Z) : Z := D * 2 ^ (e - K).

(** The exponent of the float nearest to [X / D]. *)
Definition expo_ok (X D ec : Z) : Prop :=
  emin64 <= ec /\ X < unit_at D (ec + 53) /\ (ec = emin64 \/ unit_at D (ec + 52) <= X).

Lemma unit_at_pos D e : 0 < D -> K <= e -> 0 < unit_at D e.
Proof. intros HD He. unfold unit_at. pose proof (Z.pow_pos_nonneg 2 (e - K)). nia. Qed.

Lemma unit_at_add D e n : 0 <= n -> K <= e -> unit_at D (e + n) = 2 ^ n * unit_at D e.
Proof. intros Hn He. unfold unit_at. replace (e + n - K) with (n + (e - K)) by lia. rewrite Z.pow_add_r by lia. ring. Qed.

Lemma unit_at_mono D e e' : 0 < D -> K <= e -> e <= e' -> unit_at D e <= unit_at D e'.
Proof.
  intros HD He Hle. replace e' with (e + (e' - e)) by lia. rewrite unit_at_add by lia.
  pose proof (unit_at_pos D e HD He). pose proof (Z.pow_pos_nonneg 2 (e' - e)). nia.
Qed.

Lemma expo_unique X D e1 e2 : 0 < D -> expo_ok X D e1 -> expo_ok X D e2 -> e1 = e2.
Proof.
  assert (Hlt : forall e1 e2, 0 < D -> expo_ok X D e1 -> expo_ok X D e2 -> ~ e1 < e2).
  { intros a b HD (Ha & Hua & _) (Hb & _ & [->|Hlb]) Hab; [lia|].
    pose proof (unit_at_mono D (a + 53) (b + 52) HD ltac:(lia) ltac:(lia)). lia. }
  intros HD H1 H2. pose proof (Hlt e1 e2 HD H1 H2). pose proof (Hlt e2 e1 HD H2 H1). lia.
Qed.

(** The text of a number before it is rounded: a mantissa that is precise enough. *)
Definition precise (X D m e : Z) (l : location) : Prop :=
  K <= e /\ 0 <= m /\ at_loc X (unit_at D e) m l /\ e <= fexp prec64 emax64 (Zdigits2 m + e).

Lemma precise_expo X D m e l : 0 < D -> precise X D m e l -> expo_ok X D (fexp prec64 emax64 (Zdigits2 m + e)).
Proof.
  intros HD (HKe & Hm & Hl & He). rewrite fexp64 in *. apply at_loc_bounds in Hl; [|by apply unit_at_pos].
  pose proof (unit_at_pos D e HD HKe) as HU.
  destruct (decide (m = 0)) as [->|Hne].
  - cbn [Zdigits2] in *. replace (Z.max (0 + e - 53) emin64) with emin64 in * by lia. split; [lia|]. split; [|by left].
    pose proof (unit_at_mono D e (emin64 + 53) HD HKe ltac:(lia)). lia.
  - rewrite Zdigits2_log2 in * by lia. pose proof (Z.log2_spec m ltac:(lia)) as [Hlo Hhi]. set (d := Z.log2 m) in *.
    assert (0 <= d) by apply Z.log2_nonneg. set (ec := Z.max (d + 1 + e - 53) emin64) in *.
    assert (X < unit_at D (e + (d + 1))) by (rewrite unit_at_add by lia; rewrite Z.pow_succ_r in Hhi by lia; rewrite Z.pow_add_r by lia; nia).
    assert (unit_at D (e + d) <= X) by (rewrite unit_at_add by lia; nia).
    split; [lia|]. split.
    + pose proof (unit_at_mono D (e + (d + 1)) (ec + 53) HD ltac:(lia) ltac:(lia)). lia.
    + destruct (decide (ec = emin64)); [by left|right]. replace (ec + 52) with (e + d) by lia. done.
Qed.

Lemma shr_to X D m e l n : 0 < D -> precise X D m e l -> 0 <= n ->
  let r := (shr (shr_record_of_loc m l) e n).1 in
  at_loc X (unit_at D (e + n)) (shr_m r) (loc_of_shr_record r) /\ (shr (shr_record_of_loc m l) e n).2 = e + n.
Proof.
  intros HD (HKe & Hm & Hl & _) Hn. rewrite at_loc_record in Hl. cbv zeta in Hl.
  assert (H0 : 0 <= shr_m (shr_record_of_loc m l)) by (by destruct l as [|[]]).
  destruct n as [|p|p]; [|cbn [shr fst snd]|lia].
  - cbn [shr fst snd]. by rewrite Z.add_0_r.
  - split; [|done]. rewrite iter_pos_nat.
    destruct (shr_iter_loc (Pos.to_nat p) X _ _ (unit_at_pos D e HD HKe) H0 Hl) as [Hr _].
    rewrite positive_nat_Z in Hr. by rewrite unit_at_add by lia.
Qed.

(** The second half of [binary_round_aux]. *)
Definition finish (s : bool) (m e : Z) : float64 :=
  let '(mrs, e') := shr_fexp prec64 emax64 m e loc_Exact in
  match shr_m mrs with
  | Z0 => S754_zero s
  | Zpos m' => if e' <=? emax64 - prec64 then S754_finite s m' e' else S754_infinity s
  | _ => S754_nan
  end.

Lemma round_value s X D m e l : 0 < D -> precise X D m e l -> exists ec,
  expo_ok X D ec /\ binary_round_aux prec64 emax64 s m e l = finish s (rne X (unit_at D ec)) ec.
Proof.
  intros HD Hp. pose proof (precise_expo X D m e l HD Hp) as Hec. pose proof Hp as (HKe & Hm & Hl & He).
  set (ec := fexp prec64 emax64 (Zdigits2 m + e)) in *. exists ec. split; [done|].
  unfold binary_round_aux, finish, shr_fexp at 1. fold ec.
  destruct (shr_to X D m e l (ec - e) HD Hp ltac:(lia)) as [Hr He2]. cbv zeta in Hr.
  replace (e + (ec - e)) with ec in * by lia. destruct (shr (shr_record_of_loc m l) e (ec - e)) as [r e2]. cbn [fst snd] in *. subst e2.
  destruct Hec as [Hemin _]. by rewrite (at_loc_rne _ _ _ _ (unit_at_pos D ec HD ltac:(unfold emin64 in *; lia)) Hr).
Qed.

Lemma rne_scale X U c : 0 < U -> 0 < c -> rne (c * X) (c * U) = rne X U.
Proof.
  intros HU Hc. unfold rne. rewrite Z.div_mul_cancel_l, Z.mul_mod_distr_l by lia. cbv zeta. set (r := X mod U). set (q := X / U).
  replace (2 * (c * r) <? c * U) with (2 * r <? U) by (destruct (Z.ltb_spec (2 * r) U), (Z.ltb_spec (2 * (c * r)) (c * U)); nia).
  by replace (2 * (c * r) =? c * U) with (2 * r =? U) by (destruct (Z.eqb_spec (2 * r) U), (Z.eqb_spec (2 * (c * r)) (c * U)); nia).
Qed.

Lemma unit_at_scale D e c : unit_at (c * D) e = c * unit_at D e.
Proof. unfold unit_at. ring. Qed.

Lemma expo_scale X D ec c : 0 < c -> expo_ok (c * X) (c * D) ec <-> expo_ok X D ec.
Proof. intros Hc. unfold expo_ok. rewrite !unit_at_scale. rewrite <- Z.mul_lt_mono_pos_l, <- Z.mul_le_mono_pos_l by done. done. Qed.

(** Two texts of the same value round to the same float. *)
Lemma round_same s X D m e l X' D' m' e' l' : 0 < D -> 0 < D' -> X * D' = X' * D -> precise X D m e l -> precise X' D' m' e' l' ->
  binary_round_aux prec64 emax64 s m e l = binary_round_aux prec64 emax64 s m' e' l'.
Proof.
  intros HD HD' Hv H1 H2. destruct (round_value s X D m e l HD H1) as (e1 & He1 & ->).
  destruct (round_value s X' D' m' e' l' HD' H2) as (e2 & He2 & ->).
  apply (expo_scale _ _ _ D' HD') in He1. apply (expo_scale _ _ _ D HD) in He2.
  replace (D' * X) with (D * X') in He1 by lia. rewrite (Z.mul_comm D' D) in He1.
  pose proof (expo_unique _ (D * D') e1 e2 ltac:(nia) He1 He2) as <-. destruct He2 as [Hm _].
  assert (0 < unit_at D e1 /\ 0 < unit_at D' e1) as [? ?] by (split; apply unit_at_pos; unfold emin64 in *; lia).
  rewrite <- (rne_scale X (unit_at D e1) D'), <- (rne_scale X' (unit_at D' e1) D) by done.
  rewrite <- !unit_at_scale. replace (D' * X) with (D * X') by lia. by rewrite (Z.mul_comm D' D).
Qed.
End Value.

(** ** A decimal near a float rounds to it *)

Lemma finish_keep s m e : 0 < m < 2 ^ 53 -> emin64 <= e <= 971 -> finish s m e = S754_finite s (Z.to_pos m) e.
Proof.
  intros Hm He. unfold finish, shr_fexp. rewrite fexp64, Zdigits2_log2 by lia.
  assert (Z.log2 m < 53) by (apply Z.log2_lt_pow2; lia).
  assert (Hn : Z.max (Z.log2 m + 1 + e - 53) emin64 - e <= 0) by lia. set (n := _ - e) in *.
  assert (shr (shr_record_of_loc m loc_Exact) e n = (shr_record_of_loc m loc_Exact, e)) as -> by (by destruct n as [|p|p]; [..|]; try lia).
  cbn [shr_record_of_loc shr_m]. destruct m as [|p|p]; [lia| |lia]. change (emax64 - prec64) with 971. by destruct (Z.leb_spec e 971); [|lia].
Qed.

Lemma finish_carry s e : emin64 <= e -> e + 1 <= 971 -> finish s (2 ^ 53) e = S754_finite s (2 ^ 52) (e + 1).
Proof.
  intros He He'. unfold finish, shr_fexp. rewrite fexp64. change (Zdigits2 (2 ^ 53)) with 54.
  replace (Z.max (54 + e - 53) emin64 - e) with 1 by lia. change (shr (shr_record_of_loc (2 ^ 53) loc_Exact) e 1)
    with ({| shr_m := 2 ^ 52; shr_r := false; shr_s := false |}, e + 1).
  cbn [shr_m]. change (2 ^ 52)%Z with (Zpos 4503599627370496). change (2 ^ 52)%positive with 4503599627370496%positive.
  change (emax64 - prec64) with 971. by destruct (Z.leb_spec (e + 1) 971); [|lia].
Qed.

Lemma rne_near X U m : 0 < U -> 2 * Z.abs (X - m * U) < U -> rne X U = m.
Proof.
  intros HU H. unfold rne. cbv zeta. destruct (Z.le_gt_cases (m * U) X).
  - rewrite <- (Z.div_unique_pos X U m (X - m * U)), <- (Z.mod_unique_pos X U m (X - m * U)) by lia.
    by destruct (Z.ltb_spec (2 * (X - m * U)) U); [|lia].
  - rewrite <- (Z.div_unique_pos X U (m - 1) (X - (m - 1) * U)), <- (Z.mod_unique_pos X U (m - 1) (X - (m - 1) * U)) by lia.
    destruct (Z.ltb_spec (2 * (X - (m - 1) * U)) U); [lia|]. destruct (Z.eqb_spec (2 * (X - (m - 1) * U)) U); lia.
Qed.

Lemma bounded64 m e : bounded prec64 emax64 m e = true ->
  0 < Zpos m < 2 ^ 53 /\ emin64 <= e <= 971 /\ (e = emin64 \/ 2 ^ 52 <= Zpos m).
Proof.
  unfold bounded, canonical_mantissa. rewrite andb_true_iff, Z.eqb_eq, Z.leb_le, fexp64. change (emax64 - prec64) with 971.
  intros [Hc He]. change (Zpos (digits2_pos m)) with (Zdigits2 (Zpos m)) in Hc. rewrite Zdigits2_log2 in Hc by lia.
  pose proof (Z.log2_spec (Zpos m) ltac:(lia)) as [Hlo Hhi]. set (d := Z.log2 (Zpos m)) in *.
  assert (0 <= d) by apply Z.log2_nonneg. split_and!; [lia| |lia|lia|].
  - pose proof (Z.pow_le_mono_r 2 (Z.succ d) 53 ltac:(lia) ltac:(lia)). lia.
  - destruct (decide (e = emin64)); [by left|right]. replace d with 52 in Hlo by lia. done.
Qed.

Section Near.
Context (K : Z) (HK : K <= emin64 - 2).

Lemma round_near s X D m0 e0 l0 m E : 0 < D -> precise K X D m0 e0 l0 -> bounded prec64 emax64 m E = true ->
  2 * Z.abs (X - Zpos m * unit_at K D E) * 10 ^ 16 <= Zpos m * unit_at K D E ->
  binary_round_aux prec64 emax64 s m0 e0 l0 = S754_finite s m E.
Proof.
  intros HD Hp Hb Hnear. destruct (bounded64 m E Hb) as (Hm & HE & Hnorm).
  destruct (round_value K HK s X D m0 e0 l0 HD Hp) as (ec & Hec & ->).
  assert (HU : 0 < unit_at K D E) by (apply unit_at_pos; lia). set (U := unit_at K D E) in *.
  assert (H2 : 2 * Z.abs (X - Zpos m * U) < U) by nia.
  assert (Hu : forall n, 0 <= n -> unit_at K D (E + n) = 2 ^ n * U) by (intros n Hn; unfold U; rewrite unit_at_add by lia; done).
  destruct (decide (E = emin64 \/ 2 ^ 52 * U <= X)) as [Hsame|Hlow].
  - assert (expo_ok K X D E) as HeE.
    { split; [lia|]. rewrite !Hu by lia. split; [nia|]. destruct Hsame as [->|Hx]; [by left|by right]. }
    rewrite (expo_unique K HK X D ec E HD Hec HeE). fold U. rewrite (rne_near X U (Zpos m)) by done. by rewrite finish_keep.
  - assert (E <> emin64 /\ X < 2 ^ 52 * U) as [Hne Hx] by lia. destruct Hnorm as [?|Hnorm]; [done|].
    assert (Zpos m = 2 ^ 52) as Hm52 by nia.
    assert (Hu' : U = 2 * unit_at K D (E - 1)).
    { unfold U. replace E with ((E - 1) + 1) at 1 by lia. rewrite unit_at_add by lia. done. }
    set (U' := unit_at K D (E - 1)) in *.
    assert (expo_ok K X D (E - 1)) as HeE.
    { split; [lia|]. replace (E - 1 + 53) with (E + 52) by lia. replace (E - 1 + 52) with (E + 51) by lia. rewrite !Hu by lia. nia. }
    rewrite (expo_unique K HK X D ec (E - 1) HD Hec HeE). fold U'.
    rewrite (rne_near X U' (2 ^ 53)) by nia. rewrite finish_carry by lia. f_equal; [lia|lia].
Qed.
End Near.

(** ** [of_dec] *)

(** The value [p * 10 ^ e], as a fraction in units of [2 ^ K]. *)
Definition K64 : Z := -1100.
Definition dec_num (p : positive) (e : Z) : Z := Zpos p * 10 ^ Z.max e 0 * 2 ^ (- K64).
Definition dec_den (e : Z) : Z := 10 ^ Z.max (- e) 0.

Lemma dec_den_pos e : 0 < dec_den e.
Proof. unfold dec_den. apply Z.pow_pos_nonneg; lia. Qed.

Lemma iter_xO m d : Zpos (Pos.iter xO m d) = Zpos m * 2 ^ Zpos d.
Proof.
  revert m. induction d as [|d IH] using Pos.peano_ind; intros m; [cbn; lia|].
  rewrite Pos.iter_succ, Pos2Z.inj_xO, IH, Pos2Z.inj_succ, Z.pow_succ_r by lia. ring.
Qed.

Lemma log2_double m n : 0 < m -> 0 <= n -> Z.log2 (m * 2 ^ n) = Z.log2 m + n.
Proof. intros. rewrite Z.log2_mul_pow2 by lia. lia. Qed.

Lemma precise_int M : precise K64 (Zpos M * 2 ^ (- K64)) 1
  (Zpos (shl_align M 0 (fexp prec64 emax64 (Zpos (digits2_pos M) + 0))).1) (shl_align M 0 (fexp prec64 emax64 (Zpos (digits2_pos M) + 0))).2 loc_Exact.
Proof.
  change (Zpos (digits2_pos M)) with (Zdigits2 (Zpos M)). rewrite Zdigits2_log2 by lia. set (d := Z.log2 (Zpos M)).
  assert (0 <= d) by apply Z.log2_nonneg. unfold shl_align, precise, unit_at. rewrite !fexp64, Z.add_0_r, Z.sub_0_r.
  set (f := Z.max (d + 1 - 53) emin64). assert (emin64 <= f) by lia.
  destruct f as [|q|q] eqn:Ef; cbn [fst snd].
  - rewrite Zdigits2_log2 by lia. fold d. split_and!; [unfold K64; lia|lia|cbn [at_loc]|]; [f_equal; rewrite Z.mul_1_l; f_equal; lia|lia].
  - rewrite Zdigits2_log2 by lia. fold d. split_and!; [unfold K64; lia|lia|cbn [at_loc]|]; [f_equal; rewrite Z.mul_1_l; f_equal; lia|lia].
  - rewrite iter_xO. split_and!; [unfold K64, emin64 in *; lia|nia| |].
    + cbn [at_loc]. rewrite Z.mul_1_l, <- Z.mul_assoc, <- Z.pow_add_r by (unfold K64, emin64 in *; lia). do 2 f_equal. unfold K64. lia.
    + rewrite Zdigits2_log2, log2_double by (try lia; pose proof (Z.pow_pos_nonneg 2 (Zpos q)); nia). fold d. lia.
Qed.

Lemma new_location_at m2 r q : 0 < m2 -> 0 <= r < m2 -> at_loc (q * m2 + r) m2 q (new_location m2 r).
Proof.
  intros Hm Hr. unfold new_location. destruct (Z.even m2) eqn:Hev.
  - unfold new_location_even. destruct (Z.eqb_spec r 0) as [->|]; [cbn; lia|]. destruct (Z.compare_spec (2 * r) m2); cbn; nia.
  - unfold new_location_odd. destruct (Z.eqb_spec r 0) as [->|]; [cbn; lia|].
    rewrite <- Z.negb_odd in Hev. assert (Z.odd m2 = true) as Ho by (by destruct (Z.odd m2)). apply Z.odd_spec in Ho as [k ->].
    destruct (Z.compare_spec (2 * r + 1) (2 * k + 1)); cbn; nia.
Qed.

Lemma at_loc_scale X U m l c : 0 < c -> at_loc X U m l -> at_loc (X * c) (U * c) m l.
Proof. intros Hc. destruct l as [|[]]; cbn; nia. Qed.

Lemma precise_div p m2 : 0 < m2 -> let '(q, e, l) := SFdiv_core_binary prec64 emax64 (Zpos p) 0 m2 0 in
  precise K64 (Zpos p * 2 ^ (- K64)) m2 q e l.
Proof.
  intros Hm2. unfold SFdiv_core_binary. rewrite !Z.add_0_r, Z.sub_diag, !Zdigits2_log2 by lia. cbv zeta.
  set (d1 := Z.log2 (Zpos p) + 1). set (d2 := Z.log2 m2 + 1). set (e' := Z.min (fexp prec64 emax64 (d1 - d2)) 0).
  assert (He' : emin64 <= e' <= 0) by (unfold e'; rewrite fexp64; unfold emin64; lia).
  assert (Hm : match 0 - e' with Z0 => Zpos p | Zpos _ => Z.shiftl (Zpos p) (0 - e') | Zneg _ => 0 end = Zpos p * 2 ^ (- e')).
  { rewrite <- (Z.sub_0_l e'). destruct (0 - e') as [|k|k] eqn:E; [cbn; lia|by rewrite Z.shiftl_mul_pow2 by lia|lia]. }
  rewrite Hm. pose proof (Z.div_eucl_eq (Zpos p * 2 ^ (- e')) m2 ltac:(lia)) as Hq. pose proof (Z.mod_pos_bound (Zpos p * 2 ^ (- e')) m2 Hm2) as Hr.
  unfold Z.modulo in Hr. destruct (Z.div_eucl (Zpos p * 2 ^ (- e')) m2) as [q r].
  assert (Hpow : 0 < 2 ^ (- e')) by (apply Z.pow_pos_nonneg; lia).
  assert (Hq0 : 0 <= q) by nia. unfold precise. split_and!; [unfold K64, emin64 in *; lia|done| |].
  - unfold unit_at. replace (- K64) with ((- e') + (e' - K64)) by lia.
    rewrite Z.pow_add_r, Z.mul_assoc by (unfold K64, emin64 in *; lia). rewrite Hq.
    apply at_loc_scale; [apply Z.pow_pos_nonneg; unfold K64, emin64 in *; lia|]. rewrite (Z.mul_comm m2 q). by apply new_location_at.
  - assert (Hd : d1 - d2 <= Zdigits2 q + e').
    { pose proof (Z.log2_spec (Zpos p) ltac:(lia)) as [Hp1 _]. pose proof (Z.log2_spec m2 Hm2) as [_ Hp2].
      fold d1 in Hp1. assert (0 <= Z.log2 (Zpos p) /\ 0 <= Z.log2 m2) as [? ?] by (split; apply Z.log2_nonneg).
      destruct (Z.le_gt_cases (d1 - d2 - e') 0) as [Hneg|Hpos].
      { destruct (decide (q = 0)) as [->|]; [cbn; lia|]. rewrite Zdigits2_log2 by lia. pose proof (Z.log2_nonneg q). lia. }
      assert (Hge : 2 ^ (d1 - d2 - e' - 1) <= q).
      { apply Z.lt_succ_r, (Z.mul_lt_mono_pos_l m2); [done|]. apply Z.le_lt_trans with (Zpos p * 2 ^ (- e')); [|lia].
        apply Z.le_trans with (2 ^ d2 * 2 ^ (d1 - d2 - e' - 1)).
        - apply Z.mul_le_mono_nonneg_r; [apply Z.pow_nonneg; lia|]. unfold d2. rewrite Z.add_1_r. lia.
        - rewrite <- Z.pow_add_r by lia. replace (d2 + (d1 - d2 - e' - 1)) with (Z.log2 (Zpos p) + - e') by lia.
          rewrite Z.pow_add_r by lia. nia. }
      pose proof (Z.pow_pos_nonneg 2 (d1 - d2 - e' - 1) ltac:(lia) ltac:(lia)).
      rewrite Zdigits2_log2 by lia. apply Z.log2_le_mono in Hge. rewrite Z.log2_pow2 in Hge by lia. lia. }
    unfold e' at 1. rewrite !fexp64. lia.
Qed.

Lemma of_dec_precise s p e : exists m0 e0 l0,
  of_dec s p e = binary_round_aux prec64 emax64 s m0 e0 l0 /\ precise K64 (dec_num p e) (dec_den e) m0 e0 l0.
Proof.
  unfold of_dec, dec_num, dec_den. destruct (Z.leb_spec 0 e) as [He|He].
  - rewrite Z.max_l, Z.max_r by lia. unfold binary_round. set (M := (p * Z.to_pos (10 ^ e))%positive).
    pose proof (precise_int M) as Hp. destruct (shl_align M 0 _) as [mz ez]. cbn [fst snd] in Hp. do 3 eexists. split; [reflexivity|].
    replace (Zpos p * 10 ^ e) with (Zpos M); [done|]. unfold M. rewrite Pos2Z.inj_mul, Z2Pos.id; [done|]. apply Z.pow_pos_nonneg; lia.
  - rewrite Z.max_r, Z.max_l by lia. pose proof (precise_div p (10 ^ (- e)) ltac:(apply Z.pow_pos_nonneg; lia)) as Hp.
    destruct (SFdiv_core_binary _ _ _ _ _ _) as [[q e'] l]. do 3 eexists. split; [reflexivity|]. by rewrite Z.mul_1_r.
Qed.

(** Only the value counts. *)
Lemma of_dec_value s p e p' e' : dec_num p e * dec_den e' = dec_num p' e' * dec_den e -> of_dec s p e = of_dec s p' e'.
Proof.
  intros Hv. destruct (of_dec_precise s p e) as (m & x & l & -> & H1). destruct (of_dec_precise s p' e') as (m' & x' & l' & -> & H2).
  eapply (round_same K64); [unfold K64, emin64; lia|apply dec_den_pos|apply dec_den_pos|exact Hv|exact H1|exact H2].
Qed.

Lemma of_dec_near s p e m E : bounded prec64 emax64 m E = true ->
  2 * Z.abs (dec_num p e - Zpos m * unit_at K64 (dec_den e) E) * 10 ^ 16 <= Zpos m * unit_at K64 (dec_den e) E ->
  of_dec s p e = S754_finite s m E.
Proof.
  intros Hb Hn. destruct (of_dec_precise s p e) as (m0 & x & l & -> & Hp).
  eapply (round_near K64); [unfold K64, emin64; lia|apply dec_den_pos|exact Hp|exact Hb|exact Hn].
Qed.

(** Moving a power of ten between mantissa and exponent. *)
Lemma of_dec_shift s p e n : 0 <= n -> of_dec s (p * Z.to_pos (10 ^ n)) e = of_dec s p (e + n).
Proof.
  intros Hn. assert (Hpn : 0 < 10 ^ n) by (apply Z.pow_pos_nonneg; lia). apply of_dec_value. unfold dec_num, dec_den.
  rewrite Pos2Z.inj_mul, Z2Pos.id by done.
  assert (H : 10 ^ n * 10 ^ Z.max e 0 * 10 ^ Z.max (- (e + n)) 0 = 10 ^ Z.max (e + n) 0 * 10 ^ Z.max (- e) 0).
  { rewrite <- !Z.pow_add_r by lia. f_equal. lia. }
  set (a := 10 ^ n) in *. set (b := 10 ^ Z.max e 0) in *. set (c := 10 ^ Z.max (- (e + n)) 0) in *.
  set (x := 10 ^ Z.max (e + n) 0) in *. set (y := 10 ^ Z.max (- e) 0) in *. set (w := 2 ^ - K64).
  replace (Zpos p * a * b * w * c) with (Zpos p * w * (a * b * c)) by ring. rewrite H. ring.
Qed.

(** ** Seventeen digits are enough *)

(** [10 ^ E <= num / den]. *)
Definition le10 (num den E : Z) : Prop := 10 ^ Z.max E 0 * den <= num * 10 ^ Z.max (- E) 0.

Lemma dec_exp_le fuel num den : forall E, le10 num den E -> le10 num den (dec_exp fuel num den E).
Proof.
  induction fuel as [|fuel IH]; intros E H; [done|]. cbn [dec_exp].
  destruct (if 0 <=? E + 1 then _ else _) eqn:Hg; [|done]. apply IH. unfold le10.
  destruct (Z.leb_spec 0 (E + 1)); apply Z.leb_le in Hg.
  - rewrite Z.max_l, Z.max_r by lia. change (10 ^ 0) with 1. lia.
  - rewrite Z.max_r, Z.max_l by lia. change (10 ^ 0) with 1. lia.
Qed.

(** The first estimate is not too high, checked on every binary exponent. *)
Lemma estimate_ok L : -1080 <= L < 1030 ->
  let E0 := L * 30103 / 100000 - 2 in 10 ^ Z.max E0 0 * 2 ^ Z.max (1 - L) 0 <= 2 ^ Z.max (L - 1) 0 * 10 ^ Z.max (- E0) 0.
Proof.
  intros HL. set (f := fun L => let E0 := L * 30103 / 100000 - 2 in
    10 ^ Z.max E0 0 * 2 ^ Z.max (1 - L) 0 <=? 2 ^ Z.max (L - 1) 0 * 10 ^ Z.max (- E0) 0).
  assert (Hall : forallb (fun n => f (Z.of_nat n - 1080)) (seq 0 2110) = true) by (vm_compute; reflexivity).
  rewrite forallb_forall in Hall. specialize (Hall (Z.to_nat (L + 1080))). rewrite in_seq in Hall.
  rewrite Z2Nat.id in Hall by lia. replace (L + 1080 - 1080) with L in Hall by lia. apply Z.leb_le, Hall. lia.
Qed.

Lemma first_estimate num den : 0 < num -> 0 < den -> -1080 <= Z.log2 num - Z.log2 den < 1030 ->
  le10 num den ((Z.log2 num - Z.log2 den) * 30103 / 100000 - 2).
Proof.
  intros Hn Hd HL. pose proof (estimate_ok _ HL) as He. cbv zeta in He. set (L := Z.log2 num - Z.log2 den) in *.
  set (E0 := L * 30103 / 100000 - 2) in *. unfold le10.
  pose proof (Z.log2_spec num Hn) as [Hn1 _]. pose proof (Z.log2_spec den Hd) as [_ Hd2].
  assert (0 <= Z.log2 num /\ 0 <= Z.log2 den) as [? ?] by (split; apply Z.log2_nonneg).
  assert (Hc : 2 ^ Z.max (L - 1) 0 * den <= num * 2 ^ Z.max (1 - L) 0).
  { apply Z.le_trans with (2 ^ Z.max (L - 1) 0 * 2 ^ (Z.log2 den + 1)).
    - apply Z.mul_le_mono_nonneg_l; [apply Z.pow_nonneg; lia|]. rewrite Z.add_1_r. lia.
    - apply Z.le_trans with (2 ^ Z.log2 num * 2 ^ Z.max (1 - L) 0); [|apply Z.mul_le_mono_nonneg_r; [apply Z.pow_nonneg|]; lia].
      rewrite <- !Z.pow_add_r by lia. apply Z.pow_le_mono_r; lia. }
  pose proof (Z.pow_pos_nonneg 2 (Z.max (L - 1) 0) ltac:(lia) ltac:(lia)). pose proof (Z.pow_pos_nonneg 2 (Z.max (1 - L) 0) ltac:(lia) ltac:(lia)).
  pose proof (Z.pow_pos_nonneg 10 (Z.max E0 0) ltac:(lia) ltac:(lia)). pose proof (Z.pow_pos_nonneg 10 (Z.max (- E0) 0) ltac:(lia) ltac:(lia)).
  set (a := 10 ^ Z.max E0 0) in *. set (b := 10 ^ Z.max (- E0) 0) in *. set (x := 2 ^ Z.max (L - 1) 0) in *. set (y := 2 ^ Z.max (1 - L) 0) in *.
  clearbody a b x y. apply (Z.mul_le_mono_pos_r _ _ (x * y)); [nia|].
  replace (a * den * (x * y)) with ((a * y) * (x * den)) by ring. replace (num * b * (x * y)) with ((x * b) * (num * y)) by ring.
  apply Z.mul_le_mono_nonneg; nia.
Qed.

Lemma dec_exp_range fuel num den : forall E, E <= dec_exp fuel num den E <= E + Z.of_nat fuel.
Proof.
  induction fuel as [|fuel IH]; intros E; [cbn; lia|]. cbn [dec_exp]. destruct (if 0 <=? E + 1 then _ else _); [|lia].
  specialize (IH (E + 1)). lia.
Qed.

Lemma shortest_from_range x num den E : 0 < num -> 0 < den -> forall fuel k, 1 <= k -> k + Z.of_nat fuel <= 18 ->
  let '(q, ex) := shortest_from fuel k x num den E in
  E - 18 <= ex <= E /\ q <= num * 10 ^ (18 + Z.abs E) + 1.
Proof.
  intros Hn Hd. induction fuel as [|fuel IH]; intros k Hk Hf; cbn [shortest_from]; set (sc := k - 1 - E);
    set (n := if 0 <=? sc then num * 10 ^ sc else num); set (d := if 0 <=? sc then den else den * 10 ^ (- sc)); set (q := n / d).
  all: assert (Hq : q <= num * 10 ^ (18 + Z.abs E)).
  1, 3: (assert (0 < d) by (unfold d; destruct (Z.leb_spec 0 sc); [done|pose proof (Z.pow_pos_nonneg 10 (- sc) ltac:(lia) ltac:(lia)); nia]);
    assert (n <= num * 10 ^ (18 + Z.abs E)) by (unfold n; destruct (Z.leb_spec 0 sc);
      [apply Z.mul_le_mono_nonneg_l; [lia|]; apply Z.pow_le_mono_r; unfold sc; lia
      |pose proof (Z.pow_pos_nonneg 10 (18 + Z.abs E) ltac:(lia) ltac:(lia)); nia]);
    assert (0 <= n) by (unfold n; destruct (Z.leb_spec 0 sc); [pose proof (Z.pow_pos_nonneg 10 sc ltac:(lia) ltac:(lia)); nia|lia]);
    etrans; [|eassumption]; unfold q; apply Z.div_le_upper_bound; nia).
  - split; [unfold sc; lia|lia].
  - destruct (match q with Zpos p => _ | _ => false end), (match q + 1 with Zpos p => _ | _ => false end).
    + destruct (_ || _); (split; [unfold sc; lia|lia]).
    + split; [unfold sc; lia|lia].
    + split; [unfold sc; lia|lia].
    + apply IH; lia.
Qed.

Lemma pretty_length q N : 0 < q -> q < 10 ^ N -> 0 <= N -> Z.of_nat (String.length (pretty q)) <= N.
Proof.
  intros Hq Hlt HN. destruct (digits_pretty q ltac:(lia)) as [_ Hl]. specialize (Hl Hq).
  set (len := Z.of_nat (String.length (pretty q))) in *. clearbody len. apply Z.nlt_ge. intros Hgt.
  pose proof (Z.pow_le_mono_r 10 (N + 1) len ltac:(lia) ltac:(lia)) as Hp.
  rewrite Z.pow_add_r in Hp by lia. lia.
Qed.

Section Shortest.
Context (m : positive) (e : Z) (Hb : bounded prec64 emax64 m e = true).

Let num := if 0 <=? e then Zpos m * 2 ^ e else Zpos m.
Let den := if 0 <=? e then 1 else 2 ^ (- e).

Lemma num_den : 0 < num /\ 0 < den /\ Zpos m * 2 ^ (e - K64) * den = num * 2 ^ (- K64).
Proof.
  destruct (bounded64 m e Hb) as (Hm & He & _). unfold num, den, K64, emin64 in *. destruct (Z.leb_spec 0 e).
  - pose proof (Z.pow_pos_nonneg 2 e). split_and!; [nia|lia|]. replace (e - -1100) with (e + 1100) by lia. rewrite Z.pow_add_r by lia.
    change (- (-1100)) with 1100. ring.
  - pose proof (Z.pow_pos_nonneg 2 (- e)). split_and!; [lia|lia|]. rewrite <- Z.mul_assoc, <- Z.pow_add_r by lia. do 2 f_equal. lia.
Qed.

(** A decimal [c] of the grid next to the number, when the grid is fine enough. *)
Lemma grid_near c sc : 0 < c ->
  let n := if 0 <=? sc then num * 10 ^ sc else num in
  let d := if 0 <=? sc then den else den * 10 ^ (- sc) in
  2 * Z.abs (c * d - n) <= d -> 10 ^ 16 * d <= n -> of_dec false (Z.to_pos c) (- sc) = S754_finite false m e.
Proof.
  intros Hc n d Hcd Hfine. apply of_dec_near; [done|]. destruct num_den as (Hn & Hd & Hv).
  unfold dec_num, dec_den. rewrite Z2Pos.id, Z.opp_involutive by done. unfold unit_at.
  assert (Hn' : n = num * 10 ^ Z.max sc 0) by (unfold n; destruct (Z.leb_spec 0 sc); [by rewrite Z.max_l by lia|rewrite Z.max_r by lia; cbn; lia]).
  assert (Hd' : d = den * 10 ^ Z.max (- sc) 0) by (unfold d; destruct (Z.leb_spec 0 sc); [rewrite Z.max_r by lia; cbn; lia|by rewrite Z.max_l by lia]).
  rewrite Hn', Hd' in Hcd, Hfine. clear Hn' Hd' n d.
  set (a := 10 ^ Z.max sc 0) in *. set (b := 10 ^ Z.max (- sc) 0) in *. set (W := 2 ^ (- K64)) in *.
  assert (HW : 0 < W) by (apply Z.pow_pos_nonneg; unfold K64; lia). set (V := 2 ^ (e - K64)) in *.
  apply (Z.mul_le_mono_pos_r _ _ den); [done|].
  replace (Zpos m * (a * V) * den) with (a * (Zpos m * V * den)) by ring. rewrite Hv.
  assert (Ha : Z.abs (c * b * W - Zpos m * (a * V)) * den = Z.abs (c * (den * b) - num * a) * W).
  { rewrite <- (Z.abs_eq den) at 1 by lia. rewrite <- (Z.abs_eq W) at 2 by lia. rewrite <- !Z.abs_mul. f_equal.
    replace ((c * b * W - Zpos m * (a * V)) * den) with (c * (den * b) * W - a * (Zpos m * V * den)) by ring. rewrite Hv. ring. }
  replace (2 * Z.abs (c * b * W - Zpos m * (a * V)) * 10 ^ 16 * den)
    with (2 * (Z.abs (c * b * W - Zpos m * (a * V)) * den) * 10 ^ 16) by ring. rewrite Ha.
  set (A := Z.abs (c * (den * b) - num * a)) in *. clearbody A W. change (10 ^ 16) with 10000000000000000 in *. nia.
Qed.

Lemma shortest_from_back E : le10 num den E -> forall fuel k, k = 18 - Z.of_nat fuel -> (1 <= fuel)%nat -> (fuel <= 17)%nat ->
  let '(q, ex) := shortest_from fuel k (S754_finite false m e) num den E in
  0 < q /\ of_dec false (Z.to_pos q) ex = S754_finite false m e.
Proof.
  intros HE fuel. destruct num_den as (Hn & Hd & _). induction fuel as [|fuel IH]; intros k Hk H1 H17; [lia|].
  cbn [shortest_from]. set (sc := k - 1 - E). set (n := if 0 <=? sc then num * 10 ^ sc else num).
  set (d := if 0 <=? sc then den else den * 10 ^ (- sc)). set (q := n / d).
  assert (Hback : forall c, match c with Zpos p => bool_decide (of_dec false p (- sc) = S754_finite false m e) | _ => false end = true ->
    0 < c /\ of_dec false (Z.to_pos c) (- sc) = S754_finite false m e).
  { intros [|p|p]; try done. intros Hp%bool_decide_eq_true. cbn [Z.to_pos]. split; [lia|done]. }
  destruct (match q with Zpos p => _ | _ => false end) eqn:Eq; destruct (match q + 1 with Zpos p => _ | _ => false end) eqn:Eq1.
  - destruct (_ || _); by apply Hback.
  - by apply Hback.
  - by apply Hback.
  - destruct fuel as [|fuel]; [exfalso|apply IH; lia]. assert (k = 17) as -> by lia.
    assert (Hd' : 0 < d) by (unfold d; destruct (Z.leb_spec 0 sc); [done|pose proof (Z.pow_pos_nonneg 10 (- sc)); nia]).
    assert (Hfine : 10 ^ 16 * d <= n).
    { unfold le10 in HE. unfold n, d, sc in *. destruct (Z.leb_spec 0 (17 - 1 - E)).
      - destruct (Z.le_gt_cases 0 E).
        + rewrite Z.max_l, Z.max_r in HE by lia. replace 16 with (E + (17 - 1 - E)) at 1 by lia. rewrite Z.pow_add_r by lia.
          pose proof (Z.pow_pos_nonneg 10 (17 - 1 - E) ltac:(lia) ltac:(lia)). change (10 ^ 0) with 1 in HE. nia.
        + rewrite Z.max_r, Z.max_l in HE by lia. replace (17 - 1 - E) with (16 + - E) by lia. rewrite Z.pow_add_r by lia.
          change (10 ^ 0) with 1 in HE. nia.
      - rewrite Z.max_l, Z.max_r in HE by lia. replace E with (16 + - (17 - 1 - E)) in HE at 1 by lia. rewrite Z.pow_add_r in HE by lia.
        change (10 ^ 0) with 1 in HE. nia. }
    pose proof (Z.div_mod n d ltac:(lia)) as Hdm. pose proof (Z.mod_pos_bound n d Hd') as Hr. fold q in Hdm.
    assert (Hq : 0 < q) by (unfold q; apply Z.div_str_pos; change (10 ^ 16) with 10000000000000000 in Hfine; nia).
    destruct (Z.le_gt_cases (2 * (n mod d)) d).
    + pose proof (grid_near q sc Hq ltac:(fold n d; nia) Hfine) as Hok. destruct q as [|p|p]; [lia| |lia]. cbn [Z.to_pos] in Hok.
      by rewrite bool_decide_eq_true_2 in Eq.
    + pose proof (grid_near (q + 1) sc ltac:(lia) ltac:(fold n d; nia) Hfine) as Hok. destruct (q + 1) as [|p|p] eqn:Ep; [lia| |lia].
      cbn [Z.to_pos] in Hok. by rewrite bool_decide_eq_true_2 in Eq1.
Qed.

Lemma strip_zeros_value f : forall x, 0 < x -> exists y w, strip_zeros f x = (y, w) /\ (w <= f)%nat /\ 0 < y /\ x = y * 10 ^ Z.of_nat (f - w).
Proof.
  induction f as [|f IH]; intros x Hx; cbn [strip_zeros]; [exists x, 0%nat; change (10 ^ Z.of_nat (0 - 0)) with 1; split_and!; [done|lia..]|].
  destruct ((x =? 0) || negb (x mod 10 =? 0)) eqn:Hz.
  - exists x, (S f). rewrite Nat.sub_diag. change (10 ^ Z.of_nat 0) with 1. split_and!; [done|lia..].
  - assert (Hm : x = 10 * (x / 10)) by (Z.div_mod_to_equations; lia). destruct (IH (x / 10) ltac:(lia)) as (y & w & -> & Hw & Hy & Heq).
    exists y, w. split_and!; [done|lia|done|]. replace (S f - w)%nat with (S (f - w)) by lia.
    rewrite Nat2Z.inj_succ, Z.pow_succ_r by lia. rewrite Hm, Heq at 1. ring.
Qed.

(** The digits found read back as the number; the point is not far away. *)
Lemma shortest_spec : exists q, 0 < q /\ (shortest m e).1 = pretty q /\ -2000 < (shortest m e).2 < 2000 /\
  of_dec false (Z.to_pos q) ((shortest m e).2 - Z.of_nat (String.length (pretty q))) = S754_finite false m e.
Proof.
  destruct num_den as (Hn & Hd & _). destruct (bounded64 m e Hb) as (Hm & He & _). unfold shortest. fold num den.
  assert (HL : -1080 <= Z.log2 num - Z.log2 den < 1030 /\ num < 2 ^ 1024).
  { assert (0 <= Z.log2 (Zpos m) < 53) by (split; [apply Z.log2_nonneg|apply Z.log2_lt_pow2; lia]).
    unfold num, den, emin64 in *. destruct (Z.leb_spec 0 e).
    - rewrite log2_double by lia. change (Z.log2 1) with 0. split; [lia|].
      apply Z.lt_le_trans with (2 ^ 53 * 2 ^ e); [pose proof (Z.pow_pos_nonneg 2 e ltac:(lia) ltac:(lia)); nia|].
      rewrite <- Z.pow_add_r by lia. apply Z.pow_le_mono_r; lia.
    - rewrite Z.log2_pow2 by lia. split; [lia|]. apply Z.lt_le_trans with (2 ^ 53); [lia|]. apply Z.pow_le_mono_r; lia. }
  destruct HL as [HL Hnum]. pose proof (dec_exp_range 6 num den ((Z.log2 num - Z.log2 den) * 30103 / 100000 - 2)) as HE'.
  pose proof (dec_exp_le 6 num den _ (first_estimate num den Hn Hd HL)) as HE. set (E := dec_exp 6 num den _) in *.
  assert (-340 <= E <= 330) by (Z.div_mod_to_equations; lia). clearbody E. clear HE'.
  pose proof (shortest_from_back E HE 17 1 eq_refl ltac:(lia) ltac:(lia)) as Hs.
  pose proof (shortest_from_range (S754_finite false m e) num den E Hn Hd 17 1 ltac:(lia) ltac:(lia)) as Hr.
  destruct (shortest_from 17 1 _ num den E) as [q ex]. destruct Hs as [Hq Hof]. destruct Hr as [Hex Hqb].
  destruct (strip_zeros_value 20 q Hq) as (q' & w & -> & Hw & Hq' & Heq). exists q'. split; [done|]. split; [done|]. cbn [snd].
  pose proof (Z.pow_pos_nonneg 10 (Z.of_nat (20 - w)) ltac:(lia) ltac:(lia)) as Hpw. split.
  - assert (Hlen : Z.of_nat (String.length (pretty q')) <= 700 - Z.of_nat (20 - w)); [|lia]. apply pretty_length; [done| |lia].
    assert (Hq700 : q < 10 ^ 700).
    { apply Z.le_lt_trans with (2 ^ 1024 * 10 ^ 358 + 1); [|vm_compute; reflexivity]. etrans; [exact Hqb|]. apply Z.add_le_mono_r.
      apply Z.mul_le_mono_nonneg; [lia|lia|apply Z.pow_nonneg; lia|apply Z.pow_le_mono_r; lia]. }
    apply (Z.mul_lt_mono_pos_r (10 ^ Z.of_nat (20 - w))); [done|]. rewrite <- Heq, <- Z.pow_add_r by lia.
    replace (700 - Z.of_nat (20 - w) + Z.of_nat (20 - w)) with 700 by lia. done.
  - replace (Z.of_nat (String.length (pretty q')) + ex + Z.of_nat (20 - w) - Z.of_nat (String.length (pretty q'))) with (ex + Z.of_nat (20 - w)) by lia.
    rewrite <- of_dec_shift by lia. rewrite <- Hof. f_equal. apply Pos2Z.inj.
    rewrite Pos2Z.inj_mul, !Z2Pos.id by (done || apply Z.pow_pos_nonneg; lia). done.
Qed.
End Shortest.

(** ** Decimal texts *)

(** A sign, digits before and after the point, an exponent with its sign. *)
Record dtext := mkText { dneg : bool; dint : list Z; dfrac : list Z; dexp : option (bool * list Z) }.

Definition dotted (fp : list Z) : list Z := match fp with [] => [] | _ => 46 :: fp end.
Definition exp_text (e : option (bool * list Z)) : list Z :=
  match e with None => [] | Some (neg, ed) => 101 :: (if neg then 45 else 43) :: ed end.
Definition exp_value (e : option (bool * list Z)) : Z :=
  match e with None => 0 | Some (neg, ed) => if neg then - dec_val 0 ed else dec_val 0 ed end.
Definition render (t : dtext) : list Z :=
  (if dneg t then [45] else []) ++ dint t ++ dotted (dfrac t) ++ exp_text (dexp t).

Definition all_digits (l : list Z) : Prop := Forall (fun b => is_digit b = true) l.

Record text_ok (t : dtext) : Prop := {
  to_int : all_digits (dint t) /\ dint t <> [] /\ (dint t = [48] \/ hd 0 (dint t) <> 48);
  to_frac : all_digits (dfrac t);
  to_exp : match dexp t with None => True | Some (_, ed) => all_digits ed /\ ed <> [] /\ dec_val 0 ed < 10000 end
}.

Lemma digits_bytes l : all_digits l -> Forall is_byte l.
Proof. intros H. eapply Forall_impl; [exact H|]. intros b Hb. unfold is_digit, is_byte in *. lia. Qed.

Lemma render_num_ok t : text_ok t -> num_ok (render t).
Proof.
  destruct t as [neg ip fp ep]. intros [(Hi & Hne & Hlz) Hf He]. cbn [dneg dint dfrac dexp] in *. unfold render. cbn [dneg dint dfrac dexp].
  assert (Hx : match exp_text ep with b :: _ => is_digit b = false /\ b <> 46 | [] => True end) by (by destruct ep as [[[] ed]|]).
  assert (Hy : match dotted fp ++ exp_text ep with b :: _ => is_digit b = false | [] => True end) by (destruct fp; [destruct (exp_text ep); tauto|done]).
  split.
  - rewrite !Forall_app. split_and!; [by destruct neg; bytes_ok|by apply digits_bytes| |].
    + destruct fp; [constructor|]. constructor; [done|by apply digits_bytes].
    + destruct ep as [[[] ed]|]; cbn; [..|constructor]; destruct He as [He _]; do 2 (constructor; [done|]); by apply digits_bytes.
  - destruct ip as [|b ip]; [done|]. pose proof Hi as [Hb Hi']%Forall_cons. unfold scan_num.
    assert (num_sign ((if neg then [45] else []) ++ (b :: ip) ++ dotted fp ++ exp_text ep)
      = ((if neg then [45] else []), (b :: ip) ++ dotted fp ++ exp_text ep)) as ->.
    { destruct neg; [done|]. cbn. destruct (Z.eqb_spec b 45) as [->|]; [by vm_compute in Hb|done]. }
    assert (num_int ((b :: ip) ++ dotted fp ++ exp_text ep) = Some (b :: ip, dotted fp ++ exp_text ep)) as ->.
    { cbn [app num_int]. destruct (Z.eqb_spec b 48) as [->|].
      - destruct Hlz as [[= ->]|Hlz]; [done|by destruct Hlz].
      - rewrite Hb, span_all by done. done. }
    assert (num_frac (dotted fp ++ exp_text ep) = Some (dotted fp, exp_text ep)) as ->.
    { destruct fp as [|f fp].
      - cbn [dotted app]. unfold num_frac. destruct (exp_text ep) as [|x l]; [done|]. by destruct (Z.eqb_spec x 46); [destruct Hx|].
      - cbn [dotted app num_frac]. cbn [Z.eqb Pos.eqb]. change (f :: fp ++ exp_text ep) with ((f :: fp) ++ exp_text ep).
        rewrite span_all; [done|done|]. destruct (exp_text ep); [done|tauto]. }
    assert (num_exp (exp_text ep) = Some (exp_text ep, [])) as ->; [|by rewrite ?app_nil_r].
    destruct ep as [[eneg ed]|]; [|done]. destruct He as (Hed & Hne' & _). cbn [exp_text num_exp]. cbn [Z.eqb Pos.eqb orb].
    replace (((if eneg then 45 else 43) =? 43) || ((if eneg then 45 else 43) =? 45)) with true by (by destruct eneg).
    pose proof (span_all ed [] Hed I) as Hs. rewrite app_nil_r in Hs. rewrite Hs. by destruct ed.
Qed.

Lemma mantissa_digits l : forall m frac dot saw us rest, all_digits l ->
  mantissa false m frac dot saw us (l ++ rest)
  = mantissa false (dec_val m l) (if dot : bool then frac + Z.of_nat (length l) else frac) dot (saw || negb (bool_decide (l = []))) us rest.
Proof.
  induction l as [|b l IH]; intros m frac dot saw us rest Hl.
  - cbn. rewrite orb_false_r. f_equal. destruct dot; lia.
  - apply Forall_cons in Hl as [Hb Hl]. cbn [app mantissa]. unfold is_digit in Hb. destruct (Z.eqb_spec b 95); [lia|].
    destruct (Z.eqb_spec b 46); [lia|]. cbn [andb]. unfold hex_digit. replace (is_digit b) with true by (unfold is_digit; lia).
    rewrite IH by done. rewrite (bool_decide_eq_false_2 (b :: l = [])) by done. cbn [negb orb]. rewrite orb_true_r.
    f_equal. destruct dot; [cbn [length]; lia|done].
Qed.

Lemma mantissa_point m frac saw us l : mantissa false m frac false saw us (46 :: l) = mantissa false m frac true saw us l.
Proof. reflexivity. Qed.

Lemma dec_val_ge l : forall e, 0 <= e -> all_digits l -> e <= dec_val e l.
Proof.
  intros e He Hl. rewrite dec_val_acc. pose proof (dec_val_bound l Hl). pose proof (Z.pow_pos_nonneg 10 (Z.of_nat (length l))). nia.
Qed.

Lemma exponent_digits l us : forall e, 0 <= e -> all_digits l -> dec_val e l < 10000 -> exponent e us l = (dec_val e l, us, []).
Proof.
  induction l as [|b l IH]; intros e He Hl Hlt; [done|]. apply Forall_cons in Hl as [Hb Hl]. cbn [exponent].
  pose proof Hb as Hb'. unfold is_digit in Hb'. destruct (Z.eqb_spec b 95); [lia|]. rewrite Hb.
  change (dec_val e (b :: l)) with (dec_val (e * 10 + (b - 48)) l) in *. pose proof (dec_val_ge l (e * 10 + (b - 48)) ltac:(lia) Hl).
  destruct (Z.ltb_spec e 10000); [|lia]. apply IH; [lia|done|done].
Qed.

(** A digit, a point and an exponent mark are not what a hexadecimal prefix ends in. *)
Lemma lower_not_x b : is_digit b = true \/ b = 46 \/ b = 101 -> (lower b =? 120) = false.
Proof.
  unfold is_digit. intros H. assert (b = 48 \/ b = 49 \/ b = 50 \/ b = 51 \/ b = 52 \/ b = 53 \/ b = 54 \/ b = 55 \/ b = 56 \/ b = 57 \/ b = 46 \/ b = 101)
    as Hc by lia. by repeat destruct Hc as [->|Hc]; [..|subst b].
Qed.

Lemma read_render t p : text_ok t -> Zpos p = dec_val 0 (dint t ++ dfrac t) ->
  read_float (render t) = Some (of_dec (dneg t) p (exp_value (dexp t) - Z.of_nat (length (dfrac t)))).
Proof.
  destruct t as [neg ip fp ep]. intros [(Hi & Hne & _) Hf He] Hp. cbn [dneg dint dfrac dexp] in *. unfold render. cbn [dneg dint dfrac dexp].
  destruct ip as [|b ip]; [done|]. pose proof Hi as [Hb Hi']%Forall_cons. unfold read_float.
  assert (split_sign ((if neg then [45] else []) ++ (b :: ip) ++ dotted fp ++ exp_text ep)
    = ((if neg then Some true else None), (b :: ip) ++ dotted fp ++ exp_text ep)) as ->.
  { destruct neg; [done|]. cbn. unfold is_digit in Hb. destruct (Z.eqb_spec b 45); [lia|]. by destruct (Z.eqb_spec b 43); [lia|]. }
  set (r := (b :: ip) ++ dotted fp ++ exp_text ep).
  assert ((match r with z :: x :: d :: r' => if (z =? 48) && (lower x =? 120) then (true, d :: r') else (false, r) | _ => (false, r) end) = (false, r)) as ->.
  { unfold r. destruct ip as [|c ip].
    - destruct fp as [|f fp]; [|destruct fp; cbn [app dotted]; rewrite lower_not_x by tauto; by rewrite andb_false_r].
      destruct ep as [[eneg ed]|]; [|done]. cbn [app dotted exp_text]. rewrite lower_not_x by tauto. by rewrite andb_false_r.
    - apply Forall_cons in Hi' as [Hc _]. cbn [app]. destruct (ip ++ dotted fp ++ exp_text ep); [done|]. rewrite lower_not_x by tauto. by rewrite andb_false_r. }
  replace (default false (if neg then Some true else None)) with neg by (by destruct neg).
  assert (mantissa false 0 0 false false false r = (Zpos p, Z.of_nat (length fp), true, false, exp_text ep)) as ->.
  { unfold r. rewrite mantissa_digits by done. cbn [orb negb bool_decide]. rewrite bool_decide_eq_false_2 by done. cbn [negb orb].
    assert (Hend : forall m frac dot, mantissa false m frac dot true false (exp_text ep) = (m, frac, true, false, exp_text ep)) by (by destruct ep as [[eneg ed]|]).
    unfold dec_val in Hp. rewrite foldl_app in Hp. fold (dec_val 0 (b :: ip)) in Hp.
    destruct fp as [|f fp].
    - cbn [dotted app]. rewrite Hend. by rewrite Hp.
    - change (dotted (f :: fp) ++ exp_text ep) with (46 :: ((f :: fp) ++ exp_text ep)).
      rewrite mantissa_point, (mantissa_digits (f :: fp)) by exact Hf. cbn [orb]. rewrite Hend. unfold dec_val at 1. rewrite <- Hp. done. }
  cbn [negb]. destruct ep as [[eneg ed]|].
  - destruct He as (Hed & Hne' & Hlt). cbn [exp_text exp_value]. change (lower 101 =? 101) with true. cbn iota.
    assert (split_sign ((if eneg then 45 else 43) :: ed) = (Some eneg, ed)) as -> by (by destruct eneg).
    destruct ed as [|d ed]; [done|]. pose proof Hed as [Hd _]%Forall_cons. rewrite Hd, exponent_digits by (done || lia).
    rewrite bool_decide_eq_true_2 by done. cbn [negb orb andb default]. by destruct eneg.
  - cbn [exp_text exp_value]. rewrite bool_decide_eq_true_2 by done. done.
Qed.

(** ** [json_float] and [ParseFloat] *)

Lemma of_dec_sign s p e m E : of_dec false p e = S754_finite false m E -> of_dec s p e = S754_finite s m E.
Proof.
  destruct (of_dec_precise false p e) as (m0 & e0 & l0 & Hf & _). destruct s; [|done]. unfold of_dec in *.
  assert (Haux : forall a b c, binary_round_aux prec64 emax64 false a b c = S754_finite false m E ->
    binary_round_aux prec64 emax64 true a b c = S754_finite true m E).
  { intros a b c. unfold binary_round_aux. destruct (shr_fexp _ _ a b c) as [r x]. destruct (shr_fexp _ _ _ x loc_Exact) as [r' x'].
    destruct (shr_m r'); try done. destruct (x' <=? _); [|done]. by intros [= -> ->]. }
  destruct (0 <=? e).
  - unfold binary_round. destruct (shl_align _ _ _) as [mz ez]. apply Haux.
  - destruct (SFdiv_core_binary _ _ _ _ _ _) as [[q e'] l]. apply Haux.
Qed.

Lemma lower_digit b : is_digit b = true -> lower b = b.
Proof.
  unfold is_digit. intros H. assert (b = 48 \/ b = 49 \/ b = 50 \/ b = 51 \/ b = 52 \/ b = 53 \/ b = 54 \/ b = 55 \/ b = 56 \/ b = 57)
    as Hc by lia. by repeat destruct Hc as [->|Hc]; [..|subst b].
Qed.

Lemma ParseFloat_render t p m E : text_ok t -> Zpos p = dec_val 0 (dint t ++ dfrac t) ->
  of_dec (dneg t) p (exp_value (dexp t) - Z.of_nat (length (dfrac t))) = S754_finite (dneg t) m E ->
  ParseFloat (of_bytes (render t)) = Some (S754_finite (dneg t) m E).
Proof.
  intros Ht Hp Hof. destruct (render_num_ok t Ht) as [Hbytes _]. unfold ParseFloat. rewrite bytes_of_bytes by done.
  rewrite (read_render t p Ht Hp), Hof. destruct Ht as [(Hi & Hne & _) _ _].
  assert (special (render t) = None) as ->; [|done].
  unfold special, render. destruct (dint t) as [|b ip]; [done|]. apply Forall_cons in Hi as [Hb _].
  assert (split_sign ((if dneg t then [45] else []) ++ (b :: ip) ++ dotted (dfrac t) ++ exp_text (dexp t))
    = ((if dneg t then Some true else None), (b :: ip) ++ dotted (dfrac t) ++ exp_text (dexp t))) as ->.
  { destruct (dneg t); [done|]. cbn. unfold is_digit in Hb. destruct (Z.eqb_spec b 45); [lia|]. by destruct (Z.eqb_spec b 43); [lia|]. }
  cbn [app fmap list_fmap]. rewrite (lower_digit b Hb). unfold is_digit in Hb.
  assert (Hh : forall l l', hd 0 l' <> b -> bool_decide (b :: l = l') = false) by (intros l l' Hl; apply bool_decide_eq_false_2; by intros <-).
  rewrite !Hh by (intros Heq; vm_compute in Heq; lia). by rewrite andb_false_r.
Qed.

(** The digits of a positive number: the first is not zero. *)
Lemma pretty_digit_list q : 0 < q -> exists c ds, bytes (pretty q) = c :: ds /\ all_digits (c :: ds) /\ c <> 48 /\ dec_val 0 (c :: ds) = q.
Proof.
  intros Hq. destruct (pretty_shape q Hq) as (c & ds & E & Hc & Hds & Hv). rewrite E in *. exists (byte_of c), (bytes ds).
  split_and!; [done| |lia|done]. constructor; [unfold is_digit; lia|done].
Qed.

(** A sign, then the plain form; and with an exponent. *)
Definition sign_text (s : bool) : string := if s then "-" else "".

Lemma bytes_sign s : bytes (sign_text s) = if s then [45] else [].
Proof. by destruct s. Qed.

Lemma bytes_zeros n : bytes (zeros n) = replicate n 48.
Proof. unfold zeros. apply bytes_of_bytes, Forall_replicate. done. Qed.

Lemma zeros_digits n : all_digits (replicate n 48).
Proof. by apply Forall_replicate. Qed.

Lemma bytes_drop n s : bytes (drop_bytes n s) = drop n (bytes s).
Proof. revert s. induction n as [|n IH]; intros [|c s]; try done. unfold bytes in *. cbn. by rewrite IH. Qed.

Lemma bytes_substring n s : bytes (String.substring 0 n s) = take n (bytes s).
Proof. revert s. induction n as [|n IH]; intros [|c s]; try done. unfold bytes in *. cbn. by rewrite IH. Qed.

Lemma bytes_sub_digits s n : bytes (sub_digits s 0 n) = take n (bytes s) ++ replicate (n - length (bytes s)) 48.
Proof.
  unfold sub_digits. rewrite bytes_app, bytes_substring, bytes_zeros. do 2 f_equal.
  rewrite <- length_bytes, bytes_substring, length_take. lia.
Qed.

Lemma dec_val_append_zeros l n : dec_val 0 (l ++ replicate n 48) = dec_val 0 l * 10 ^ Z.of_nat n.
Proof.
  unfold dec_val. rewrite foldl_app. fold (dec_val 0 l). fold (dec_val (dec_val 0 l) (replicate n 48)).
  rewrite dec_val_acc, length_replicate, <- (app_nil_r (replicate n 48)), dec_val_zeros. cbn. lia.
Qed.

Lemma fmtF_text s q dp : 0 < q -> exists t p, bytes (sign_text s +:+ fmtF (pretty q) dp) = render t /\ text_ok t /\ dneg t = s /\
  Zpos p = dec_val 0 (dint t ++ dfrac t) /\
  forall b, of_dec b p (exp_value (dexp t) - Z.of_nat (length (dfrac t))) = of_dec b (Z.to_pos q) (dp - Z.of_nat (String.length (pretty q))).
Proof.
  intros Hq. destruct (pretty_digit_list q Hq) as (c & ds & E & Hd & Hc & Hv). rewrite <- length_bytes.
  unfold fmtF. rewrite <- length_bytes. set (nd := Z.of_nat (length (bytes (pretty q)))).
  destruct (Z.ltb_spec 0 dp) as [Hdp|Hdp].
  - destruct (Z.ltb_spec 0 (Z.max 0 (nd - dp))) as [Hfr|Hfr].
    + (* digits on both sides of the point *)
      set (k := Z.to_nat dp). assert (Hk : (1 <= k < length (c :: ds))%nat) by (unfold k, nd in *; rewrite E in *; lia).
      exists (mkText s (take k (c :: ds)) (drop k (c :: ds)) None), (Z.to_pos q). cbn [dneg dint dfrac dexp exp_value].
      split_and!.
      * rewrite !bytes_app, bytes_sign, bytes_sub_digits, bytes_drop, E. unfold render. cbn [dneg dint dfrac dexp exp_text].
        replace (k - length (c :: ds))%nat with 0%nat by lia. cbn [replicate]. rewrite !app_nil_r. do 2 f_equal.
        unfold dotted. destruct (drop k (c :: ds)) eqn:Ed; [apply (f_equal length) in Ed; rewrite length_drop in Ed; cbn [length] in *; lia|done].
      * split; cbn [dint dfrac dexp]; [|by apply Forall_drop|done]. split_and!; [by apply Forall_take|by destruct k; [lia|]|].
        right. by destruct k; [lia|].
      * done.
      * rewrite take_drop, Hv. lia.
      * intros b. f_equal. rewrite length_drop. unfold k, nd in *. rewrite E in *. lia.
    + (* zeros before the point *)
      exists (mkText s ((c :: ds) ++ replicate (Z.to_nat dp - length (c :: ds)) 48) [] None),
        (Z.to_pos q * Z.to_pos (10 ^ Z.of_nat (Z.to_nat dp - length (c :: ds))))%positive. cbn [dneg dint dfrac dexp exp_value].
      pose proof (Z.pow_pos_nonneg 10 (Z.of_nat (Z.to_nat dp - length (c :: ds))) ltac:(lia) ltac:(lia)) as Hpw.
      split_and!.
      * rewrite bytes_app, bytes_sign, str_app_empty, bytes_sub_digits, E. unfold render. cbn [dneg dint dfrac dexp exp_text dotted].
        rewrite !app_nil_r. do 2 f_equal. apply take_ge. unfold nd in Hfr. rewrite E in Hfr. lia.
      * split; cbn [dint dfrac dexp]; [|constructor|done]. split_and!; [apply Forall_app; split; [done|apply zeros_digits]|done|by right].
      * done.
      * rewrite app_nil_r, dec_val_append_zeros, Hv, Pos2Z.inj_mul, !Z2Pos.id by done. done.
      * intros b. cbn [length]. rewrite of_dec_shift by lia. f_equal. unfold nd in *. rewrite E in *. cbn [length] in *. lia.
  - (* zeros behind the point *)
    exists (mkText s [48] (replicate (Z.to_nat (- dp)) 48 ++ c :: ds) None), (Z.to_pos q). cbn [dneg dint dfrac dexp exp_value].
    assert (Hnd : 0 < nd) by (unfold nd; rewrite E; cbn [length]; lia).
    destruct (Z.ltb_spec 0 (Z.max 0 (nd - dp))); [|lia]. split_and!.
    * rewrite !bytes_app, bytes_sign, bytes_zeros, E. unfold render. cbn [dneg dint dfrac dexp exp_text].
      rewrite !app_nil_r. do 2 f_equal. unfold dotted. by destruct (replicate (Z.to_nat (- dp)) 48).
    * split; cbn [dint dfrac dexp]; [|apply Forall_app; split; [apply zeros_digits|done]|done].
      split_and!; [by repeat constructor|done|by left].
    * done.
    * change ([48] ++ ?l) with (replicate 1 48 ++ l). rewrite !dec_val_zeros, Hv. lia.
    * intros b. f_equal. rewrite length_app, length_replicate. unfold nd in *. rewrite E in *. lia.
Qed.

Lemma appendInt_value x w : 0 <= x -> digits_of (bytes (appendInt x w)) x /\ bytes (appendInt x w) <> [].
Proof.
  intros Hx. unfold appendInt. destruct (Z.ltb_spec x 0); [lia|]. rewrite Z.abs_eq by lia. change ("" +:+ ?s) with s.
  destruct (digits_pretty x Hx) as [[Hd Hv] _]. rewrite bytes_app, bytes_zeros. split.
  - split; [apply Forall_app; split; [apply zeros_digits|done]|]. by rewrite dec_val_zeros.
  - intros Hnil%app_eq_nil. destruct Hnil as [_ Hnil]. destruct (decide (x = 0)) as [->|]; [done|].
    destruct (pretty_digit_list x ltac:(lia)) as (c & ds & E & _). by rewrite E in Hnil.
Qed.

(** The exponent form, with the exponent's digits as [json_float] leaves them. *)
Lemma fmtE_text s q dp : 0 < q -> -2000 < dp < 2000 ->
  let txt := fmtE (pretty q) dp in
  let ex := dp - 1 in
  exists t, bytes (sign_text s +:+ (if (-10 <? ex) && (ex <? 0)
      then String.substring 0 (String.length txt - 2) txt +:+ pretty (Z.abs ex) else txt)) = render t /\ text_ok t /\ dneg t = s /\
    q = dec_val 0 (dint t ++ dfrac t) /\ exp_value (dexp t) - Z.of_nat (length (dfrac t)) = dp - Z.of_nat (String.length (pretty q)).
Proof.
  intros Hq Hdp txt ex. destruct (pretty_digit_list q Hq) as (c & ds & E & Hd & Hc & Hv).
  destruct (appendInt_value (Z.abs ex) 2 ltac:(lia)) as [[Hed Hedv] Hedn].
  set (A := c :: dotted ds ++ [101; if ex <? 0 then 45 else 43]).
  assert (Htxt : bytes txt = A ++ bytes (appendInt (Z.abs ex) 2)).
  { unfold txt, fmtE. fold ex. rewrite !bytes_app, bytes_substring, E. change (take 1 (c :: ds)) with [c]. unfold A. cbn [app]. f_equal.
    rewrite <- length_bytes, E. rewrite <- app_assoc. f_equal.
    - destruct ds as [|d ds]; [done|]. change (1 <? length (c :: d :: ds))%nat with true. cbn iota. rewrite ?bytes_app, bytes_drop, E. done.
    - by destruct (ex <? 0). }
  assert (Hex : dec_val 0 (bytes (appendInt (Z.abs ex) 2)) < 10000) by (rewrite Hedv; unfold ex; lia).
  assert (Hcase : exists ed, bytes (if (-10 <? ex) && (ex <? 0)
      then String.substring 0 (String.length txt - 2) txt +:+ pretty (Z.abs ex) else txt) = A ++ ed /\
    all_digits ed /\ ed <> [] /\ dec_val 0 ed = Z.abs ex).
  { destruct ((-10 <? ex) && (ex <? 0)) eqn:Hsmall; [|by exists (bytes (appendInt (Z.abs ex) 2))].
    destruct (appendInt_digits (Z.abs ex) 2 ltac:(lia) ltac:(lia)) as [_ Hl2].
    exists (bytes (pretty (Z.abs ex))). destruct (digits_pretty (Z.abs ex) ltac:(lia)) as [[Hpd Hpv] _]. split_and!; [|done| |done].
    - rewrite bytes_app, bytes_substring, <- length_bytes, Htxt. f_equal. rewrite length_app, Hl2, Nat.add_sub. apply take_app_length.
    - destruct (pretty_digit_list (Z.abs ex) ltac:(lia)) as (c' & ds' & E' & _). by rewrite E'. }
  destruct Hcase as (ed & Hbytes & Hedd & Hedne & Hedval).
  exists (mkText s [c] ds (Some (ex <? 0, ed))). cbn [dneg dint dfrac dexp]. split_and!.
  - rewrite bytes_app, bytes_sign, Hbytes. unfold render, A. cbn [dneg dint dfrac dexp exp_text]. cbn [app]. rewrite <- app_assoc. done.
  - apply Forall_cons in Hd as [Hd1 Hd2]. split; cbn [dint dfrac dexp]; [|done|split_and!; [done|done|unfold ex in *; lia]].
    split_and!; [by constructor|done|by right].
  - done.
  - done.
  - cbn [exp_value]. rewrite Hedval, <- length_bytes, E. cbn [length]. unfold ex in *. destruct (Z.ltb_spec (dp - 1) 0); lia.
Qed.

(** Every float but the infinities and the not-a-number is printed as a number
    that is read back as itself. *)
Lemma json_float_reads x : valid_binary prec64 emax64 x = true -> (forall s, x <> S754_infinity s) -> x <> S754_nan ->
  exists lit, json_float x = Ok lit /\ num_ok (bytes lit) /\ ParseFloat lit = Some x.
Proof.
  intros Hv Hinf Hnan. destruct x as [s|s| |s m e]; [|by destruct (Hinf s)|done|].
  - exists (if s then "-0" else "0"). split; [done|]. split; [|by destruct s]. split; [apply bytes_range|by destruct s].
  - destruct (shortest_spec m e Hv) as (q & Hq & Eds & Hdp & Hof). unfold json_float.
    destruct (shortest m e) as [ds dp]. cbn [fst snd] in *. subst ds. apply (of_dec_sign s) in Hof.
    change (if s then "-" else "") with (sign_text s).
    assert (Hfin : forall lit t p, bytes lit = render t -> text_ok t -> dneg t = s -> Zpos p = dec_val 0 (dint t ++ dfrac t) ->
      of_dec s p (exp_value (dexp t) - Z.of_nat (length (dfrac t))) = S754_finite s m e ->
      num_ok (bytes lit) /\ ParseFloat lit = Some (S754_finite s m e)).
    { intros lit t p Hl Ht <- Hp Ho. rewrite Hl. split; [by apply render_num_ok|]. rewrite <- (of_bytes_bytes lit), Hl.
      by eapply ParseFloat_render. }
    destruct ((dp - 1 <? -6) || (21 <=? dp - 1)).
    + eexists. split; [reflexivity|]. destruct (fmtE_text s q dp Hq Hdp) as (t & Hl & Ht & Hs & Hqv & Hex). cbv zeta in Hl.
      eapply (Hfin _ t (Z.to_pos q)); [exact Hl|done|done|rewrite <- Hqv; lia|]. by rewrite Hex.
    + eexists. split; [reflexivity|]. destruct (fmtF_text s q dp Hq) as (t & p & Hl & Ht & Hs & Hp & Ho).
      eapply (Hfin _ t p); [exact Hl|done|done|done|]. by rewrite Ho.
Qed.

Definition e_float (x : float64) : jval := match json_float x with Ok lit => VNum (bytes lit) | Err _ => VNull end.

(** The floats [json.Marshal] accepts. *)
Definition json_finite (x : float64) : Prop :=
  valid_binary prec64 emax64 x = true /\ match x with S754_infinity _ | S754_nan => False | _ => True end.

Lemma e_float_reads x old n : json_finite x -> d_float (e_float x) old = Some x /\ doc_ok n (e_float x).
Proof.
  intros [Hv Hx]. destruct (json_float_reads x Hv) as (lit & Hl & Hn & Hp); [by destruct x..|].
  unfold e_float, d_float. rewrite Hl, of_bytes_bytes. split; [done|by constructor].
Qed.

(** ** What the decoder accepts can be printed *)

Lemma finish_valid s m e : 0 <= m <= 2 ^ 53 -> emin64 <= e -> e = emin64 \/ 2 ^ 52 <= m ->
  valid_binary prec64 emax64 (finish s m e) = true /\ finish s m e <> S754_nan.
Proof.
  intros Hm He Hn. destruct (decide (m = 2 ^ 53)) as [->|Hne].
  - unfold finish, shr_fexp. rewrite fexp64. change (Zdigits2 (2 ^ 53)) with 54.
    replace (Z.max (54 + e - 53) emin64 - e) with 1 by lia. change (shr (shr_record_of_loc (2 ^ 53) loc_Exact) e 1)
      with ({| shr_m := Zpos 4503599627370496; shr_r := false; shr_s := false |}, e + 1). cbn [shr_m].
    change (emax64 - prec64) with 971. destruct (Z.leb_spec (e + 1) 971) as [Hle|]; [|done]. split; [|done].
    cbn [valid_binary]. unfold bounded, canonical_mantissa. rewrite fexp64. change (Zpos (digits2_pos 4503599627370496)) with 53.
    change (emax64 - prec64) with 971. apply andb_true_iff. split; [apply Z.eqb_eq|apply Z.leb_le]; lia.
  - unfold finish, shr_fexp. rewrite fexp64.
    assert (Hd : 0 <= Zdigits2 m <= 53 /\ (2 ^ 52 <= m -> Zdigits2 m = 53)).
    { destruct (decide (m = 0)) as [->|]; [cbn; lia|]. rewrite Zdigits2_log2 by lia. pose proof (Z.log2_nonneg m).
      assert (Z.log2 m < 53) by (apply Z.log2_lt_pow2; lia). split; [lia|]. intros H52. apply Z.log2_le_mono in H52.
      change (Z.log2 (2 ^ 52)) with 52 in H52. lia. }
    set (n := Z.max (Zdigits2 m + e - 53) emin64 - e). assert (Hn0 : n <= 0) by lia.
    assert (shr (shr_record_of_loc m loc_Exact) e n = (shr_record_of_loc m loc_Exact, e)) as -> by (by destruct n as [|p|p]; [..|]; try lia).
    cbn [shr_record_of_loc shr_m]. destruct m as [|p|p]; [done| |lia]. change (emax64 - prec64) with 971.
    destruct (Z.leb_spec e 971); [|done]. split; [|done]. cbn [valid_binary]. unfold bounded, canonical_mantissa. rewrite fexp64.
    change (Zpos (digits2_pos p)) with (Zdigits2 (Zpos p)). change (emax64 - prec64) with 971.
    apply andb_true_iff. split; [apply Z.eqb_eq|apply Z.leb_le]; lia.
Qed.

Lemma of_dec_valid s p e : valid_binary prec64 emax64 (of_dec s p e) = true /\ of_dec s p e <> S754_nan.
Proof.
  destruct (of_dec_precise s p e) as (m0 & e0 & l0 & -> & Hp). pose proof (dec_den_pos e) as HD.
  assert (HK : K64 <= emin64 - 2) by (unfold K64, emin64; lia).
  destruct (round_value K64 HK s _ _ m0 e0 l0 HD Hp) as (ec & (Hmin & Hup & Hlo) & ->).
  assert (HU : 0 < unit_at K64 (dec_den e) ec) by (apply unit_at_pos; lia). set (U := unit_at K64 (dec_den e) ec) in *.
  rewrite unit_at_add in Hup, Hlo by lia. fold U in Hup, Hlo. set (X := dec_num p e) in *.
  assert (HX : 0 <= X) by (unfold X, dec_num; apply Z.mul_nonneg_nonneg; [apply Z.mul_nonneg_nonneg; [lia|]|]; apply Z.pow_nonneg; lia).
  assert (Hq : 0 <= X / U < 2 ^ 53) by (split; [by apply Z.div_pos|apply Z.div_lt_upper_bound; lia]).
  assert (Hr : X / U <= rne X U <= X / U + 1) by (unfold rne; cbv zeta; repeat case_match; lia).
  apply finish_valid; [lia|done|]. destruct Hlo as [->|Hlo]; [by left|right].
  assert (2 ^ 52 <= X / U) by (apply Z.div_le_lower_bound; lia). lia.
Qed.

(** A number of the grammar is decimal. *)
Lemma num_ok_decimal lit : num_ok lit -> exists sg b r, split_sign lit = (sg, b :: r) /\ is_digit b = true /\
  (b = 48 -> match r with x :: _ => (lower x =? 120) = false | [] => True end).
Proof.
  intros [_ H]. destruct (num_sign lit) as [s l1] eqn:Es.
  assert (exists sg, split_sign lit = (sg, l1) /\ num_int l1 <> None) as (sg & Hsg & Hint).
  { unfold scan_num in H. rewrite Es in H. destruct (num_int l1) as [[ip l2]|] eqn:Ei; [|done].
    destruct lit as [|b l]; [cbn in Es; injection Es as <- <-; done|]. cbn in *. destruct (Z.eqb_spec b 45); [injection Es as <- <-; by exists (Some true)|].
    injection Es as <- <-. cbn in Ei. destruct (Z.eqb_spec b 43) as [->|]; [done|]. by exists None. }
  destruct l1 as [|b r]; [done|]. exists sg, b, r. split; [done|]. split.
  { cbn in Hint. destruct (Z.eqb_spec b 48) as [->|]; [done|]. by destruct (is_digit b). }
  intros ->. unfold scan_num in H. rewrite Es in H. cbn [num_int] in H. cbn [Z.eqb Pos.eqb] in H. destruct r as [|x r]; [done|].
  cbn [num_frac] in H. destruct (Z.eqb_spec x 46) as [->|]; [done|]. cbn [num_exp] in H.
  destruct (Z.eqb_spec x 101) as [->|]; [done|]. destruct (Z.eqb_spec x 69) as [->|]; [done|]. done.
Qed.

Lemma ParseFloat_json lit x : num_ok lit -> ParseFloat (of_bytes lit) = Some x -> json_finite x.
Proof.
  intros Hn. pose proof Hn as [Hbytes _]. unfold ParseFloat. rewrite bytes_of_bytes by done.
  destruct (num_ok_decimal lit Hn) as (sg & b & r & Hsg & Hb & Hx).
  assert (special lit = None) as ->.
  { unfold special. rewrite Hsg. cbn [fmap list_fmap]. rewrite (lower_digit b Hb). unfold is_digit in Hb.
    assert (Hh : forall l l', hd 0 l' <> b -> bool_decide (b :: l = l') = false) by (intros l l' Hl; apply bool_decide_eq_false_2; by intros <-).
    rewrite !Hh by (intros Heq; vm_compute in Heq; lia). by rewrite andb_false_r. }
  unfold read_float. rewrite Hsg.
  assert ((match b :: r with z :: x :: d :: r' => if (z =? 48) && (lower x =? 120) then (true, d :: r') else (false, b :: r) | _ => (false, b :: r) end)
    = (false, b :: r)) as ->.
  { destruct r as [|y [|d r]]; [done|done|]. destruct (Z.eqb_spec b 48) as [->|]; [|done]. by rewrite (Hx eq_refl). }
  destruct (mantissa false 0 0 false false false (b :: r)) as [[[[m frac] saw] us] r1]. destruct (negb saw); [done|].
  assert (Hok : forall neg e (c : bool), match (if c then None else match m with Zpos p => Some (of_dec neg p e) | _ => Some (S754_zero neg) end) with
      Some (S754_infinity _) => None | r => r end = Some x -> json_finite x).
  { intros neg e []; [done|]. destruct m as [|p|p]; [by intros [= <-]| |by intros [= <-]].
    destruct (of_dec_valid neg p e) as [Hv Hnan]. destruct (of_dec neg p e); intros Hr; try done; by injection Hr as <-. }
  destruct r1 as [|c r2]; [apply Hok|]. destruct (lower c =? 101); [|done]. destruct (split_sign r2) as [es r3].
  destruct r3 as [|d r3]; [done|]. destruct (is_digit d); [|done]. destruct (exponent 0 us (d :: r3)) as [[e' us'] rest]. apply Hok.
Qed.

Lemma preserves_float : preserves json_finite d_float.
Proof.
  intros n v old x Hv Hold. destruct v as [| |lit| | |]; cbn; try done; [by intros [= <-]|].
  inversion Hv; subst. by apply ParseFloat_json.
Qed.
#[export] Hint Resolve preserves_float : preserves.

(** ** [json.Marshal] of dynamic values prints documents *)

Fixpoint any_doc (v : any) : jval :=
  match v with
  | ANil => VNull
  | ABool b => VBool b
  | AFloat f => e_float f
  | AInt z => e_int z
  | AStr s => e_string s
  | AStrs None => VNull
  | AStrs (Some l) => e_strings l
  | AArr l => VArr (any_doc <$> l)
  | AObj m => e_members (sort_keys ((fun kv => (kv.1, any_doc kv.2)) <$> m))
  end.

(** Values with finite numbers, nested at most [n] deep. *)
Inductive any_ok : nat -> any -> Prop :=
| any_nil n : any_ok n ANil
| any_bool n b : any_ok n (ABool b)
| any_float n f : json_finite f -> any_ok n (AFloat f)
| any_int n z : any_ok n (AInt z)
| any_str n s : any_ok n (AStr s)
| any_strs n l : any_ok (S n) (AStrs l)
| any_arr n l : Forall (any_ok n) l -> any_ok (S n) (AArr l)
| any_obj n m : Forall (fun kv => any_ok n kv.2) m -> any_ok (S n) (AObj m).

Lemma bytes_sconcat (l : list string) : bytes (sconcat l) = concat (bytes <$> l).
Proof. induction l as [|s l IH]; [done|]. change (sconcat (s :: l)) with (s +:+ sconcat l). by rewrite bytes_app, IH. Qed.

Lemma bytes_json_string s : bytes (json_string s) = quoted (escaped s).
Proof.
  unfold json_string, quoted, escaped. rewrite !bytes_app, bytes_sconcat, <- list_fmap_compose. change (bytes dquote) with [34].
  cbn [app]. do 3 f_equal. apply list_fmap_ext. by intros i [r w].
Qed.

Lemma bytes_Join (l : list string) : bytes (Join "," l) = joined [] (bytes <$> l).
Proof.
  induction l as [|s l IH]; [done|]. destruct l as [|t l]; [done|].
  change (Join "," (s :: t :: l)) with (s +:+ "," +:+ Join "," (t :: l)). rewrite !bytes_app, IH. done.
Qed.

Lemma compact_bytes v s : bytes s = print (fun _ => []) [] 0 v -> s = compact v.
Proof. unfold compact. intros <-. by rewrite of_bytes_bytes. Qed.

(** Without white space, how deep a value lies makes no difference. *)
Lemma print_compact (nl : nat -> list Z) (Hnl : forall k, nl k = []) : forall v d d', print nl [] d v = print (fun _ => []) [] d' v.
Proof.
  fix IH 1. intros [|b|lit|raw|l|m] d d'; [reflexivity..| |]; cbn [print]; rewrite !Hnl; f_equal.
  - induction l as [|v l IHl]; [reflexivity|]. cbn [fmap list_fmap]. rewrite IHl. f_equal. apply IH.
  - induction m as [|[k v] m IHm]; [reflexivity|]. cbn [fmap list_fmap fst snd]. rewrite IHm. do 3 f_equal. apply IH.
Qed.

Lemma sequence_fmap {A B} (f : A -> result B) (g : A -> B) l : (forall x, x ∈ l -> f x = Ok (g x)) -> sequence (f <$> l) = Ok (g <$> l).
Proof.
  induction l as [|x l IH]; intros H; [done|]. cbn. rewrite H by by left. rewrite IH; [done|]. intros y Hy. apply H. by right.
Qed.

Lemma bracket_compact o c items : bracket o c [] [] items = o :: joined [] items ++ [c].
Proof. by destruct items. Qed.

Lemma Marshal_doc n : forall v, any_ok n v -> Marshal v = Ok (compact (any_doc v)) /\ doc_ok n (any_doc v).
Proof.
  induction n as [n IH] using lt_wf_ind. intros v Hv.
  destruct Hv as [n|n b|n f Hf|n z|n s|n l|n l Hl|n m Hm]; cbn [Marshal any_doc].
  - split; [done|constructor].
  - split; [by destruct b|constructor].
  - destruct Hf as [Hv Hx]. destruct (json_float_reads f Hv) as (lit & Hlit & Hn & _); [by destruct f..|].
    unfold e_float. rewrite Hlit. split; [|by constructor]. f_equal. by apply compact_bytes.
  - split; [f_equal; by apply compact_bytes|]. constructor. apply num_ok_int.
  - split; [f_equal; apply compact_bytes, bytes_json_string|apply e_string_ok].
  - destruct l as [l|]; cbn [json_strings]; [|split; [done|constructor]]. split; [|apply e_strings_ok]. f_equal. apply compact_bytes.
    unfold e_strings. cbn [print]. rewrite bracket_compact, !bytes_app. unfold comma. rewrite bytes_Join, <- !list_fmap_compose.
    change (bytes "[") with [91]. change (bytes "]") with [93]. cbn [app]. do 3 f_equal. apply list_fmap_ext. intros i s _. apply bytes_json_string.
  - rewrite Forall_forall in Hl. assert (Hx : forall x, x ∈ l -> Marshal x = Ok (compact (any_doc x)) /\ doc_ok n (any_doc x)).
    { intros x Hx. apply IH; [lia|by apply Hl]. }
    rewrite (sequence_fmap Marshal (fun x => compact (any_doc x))) by (intros; by apply Hx). cbn [mbind result_bind]. split.
    + f_equal. apply compact_bytes. cbn [print]. rewrite bracket_compact, !bytes_app. unfold comma. rewrite bytes_Join, <- !list_fmap_compose.
      change (bytes "[") with [91]. change (bytes "]") with [93]. cbn [app]. do 3 f_equal. apply list_fmap_ext. intros i x Hi.
      apply list_elem_of_lookup_2 in Hi. unfold compose, compact. rewrite (print_compact _ (fun _ => eq_refl) _ 1 0), bytes_of_bytes; [done|].
      eapply print_bytes; [..|by apply Hx]; constructor.
    + constructor. apply Forall_fmap, Forall_forall. intros x Hin. by apply Hx.
  - rewrite Forall_forall in Hm. assert (Hx : forall kv, kv ∈ m -> Marshal kv.2 = Ok (compact (any_doc kv.2)) /\ doc_ok n (any_doc kv.2)).
    { intros kv Hin. apply IH; [lia|by apply Hm]. }
    assert (Hs : forall kv, kv ∈ sort_keys m -> kv ∈ m) by (intros kv; by rewrite sort_keys_perm).
    rewrite (sort_keys_fmap Marshal), (sort_keys_fmap any_doc), <- list_fmap_compose. unfold compose. cbn [fst snd].
    rewrite (sequence_fmap _ (fun kv => json_string kv.1 +:+ ":" +:+ compact (any_doc kv.2))).
    2: { intros kv Hin. by rewrite (proj1 (Hx kv (Hs kv Hin))). }
    cbn [mbind result_bind]. split.
    + f_equal. apply compact_bytes. unfold e_members, member_texts. cbn [print]. rewrite bracket_compact, !bytes_app. unfold comma.
      rewrite bytes_Join, <- !list_fmap_compose. change (bytes "{") with [123]. change (bytes "}") with [125]. cbn [app]. do 3 f_equal.
      apply list_fmap_ext. intros i kv Hi. apply list_elem_of_lookup_2 in Hi. unfold compose. cbn [fst snd].
      rewrite !bytes_app, bytes_json_string, (print_compact _ (fun _ => eq_refl) _ 1 0). unfold compact. rewrite bytes_of_bytes; [done|].
      eapply print_bytes; [..|by apply Hx, Hs]; constructor.
    + apply e_members_ok. apply Forall_fmap, Forall_forall. intros kv Hin. cbn [snd]. by apply Hx, Hs.
Qed.
