(* ===== verification/Types.v ===== *)
(** * core/internal/types: the data model

    One [Module] per Go struct, its record [t] with the struct's fields. The Go
    string enums that clients send ([Decision], [MFAMethod], [Sensitivity],
    [IdentityType]) are strings with named constants, because a decoded
    document may hold any other string; the enums only the server assigns
    ([ChallengeStatus], [FactorStatus], [Role], [ActorType], [TargetType]) are
    inductive types with their wire spelling. A nil and an empty slice are the
    same list: every slice field that reaches a hash carries [omitempty]. *)

From S2P Require Import Prelude GoStrings GoTime GoFloat GoJson.

(** ** Enumerations *)

Definition IdentityType := string.
Definition IdentityTypePerson : IdentityType := "person".
Definition IdentityTypeServiceAccount : IdentityType := "service_account".
Definition IdentityTypeMachine : IdentityType := "machine".

Definition Sensitivity := string.
Definition SensitivityLow : Sensitivity := "low".
Definition SensitivityMedium : Sensitivity := "medium".
Definition SensitivityHigh : Sensitivity := "high".
Definition SensitivityCritical : Sensitivity := "critical".

Definition Decision := string.
Definition DecisionAllow : Decision := "allow".
Definition DecisionDeny : Decision := "deny".
Definition DecisionChallenge : Decision := "challenge".
Definition DecisionAlert : Decision := "alert".

Inductive ChallengeStatus :=
| ChallengeStatusPending
| ChallengeStatusApproved
| ChallengeStatusDenied
| ChallengeStatusExpired
| ChallengeStatusFailed.

#[global] Instance ChallengeStatus_eq_dec : EqDecision ChallengeStatus.
Proof. solve_decision. Defined.

Definition ChallengeStatus_string (s : ChallengeStatus) : string :=
  match s with
  | ChallengeStatusPending => "pending"
  | ChallengeStatusApproved => "approved"
  | ChallengeStatusDenied => "denied"
  | ChallengeStatusExpired => "expired"
  | ChallengeStatusFailed => "failed"
  end.

Definition MFAMethod := string.
Definition MFAMethodTOTP : MFAMethod := "totp".
Definition MFAMethodPush : MFAMethod := "push".
Definition MFAMethodWebAuthn : MFAMethod := "webauthn".
Definition MFAMethodEmail : MFAMethod := "email".
Definition MFAMethodSMS : MFAMethod := "sms".

Inductive FactorStatus :=
| FactorStatusPendingActivation
| FactorStatusActive
| FactorStatusRevoked.

#[global] Instance FactorStatus_eq_dec : EqDecision FactorStatus.
Proof. solve_decision. Defined.

Definition FactorStatus_string (s : FactorStatus) : string :=
  match s with
  | FactorStatusPendingActivation => "pending_activation"
  | FactorStatusActive => "active"
  | FactorStatusRevoked => "revoked"
  end.

Inductive Role := RoleAdmin | RoleAuditor | RoleAdapter | RoleService.

#[global] Instance Role_eq_dec : EqDecision Role.
Proof. solve_decision. Defined.

Inductive ActorType := ActorUser | ActorAdapter | ActorAdmin | ActorSystem.

Definition ActorType_string (a : ActorType) : string :=
  match a with
  | ActorUser => "user"
  | ActorAdapter => "adapter"
  | ActorAdmin => "admin"
  | ActorSystem => "system"
  end.

Inductive TargetType :=
| TargetIdentity | TargetResource | TargetPolicy | TargetChallenge | TargetAdapter.

Definition TargetType_string (t : TargetType) : string :=
  match t with
  | TargetIdentity => "identity"
  | TargetResource => "resource"
  | TargetPolicy => "policy"
  | TargetChallenge => "challenge"
  | TargetAdapter => "adapter"
  end.

(** ** Stored objects *)

Module Identity.
Record t := mk {
  ID : string;
  Username : string;
  DisplayName : string;
  Type_ : IdentityType;
  Groups : list string;
  Email : string;
  Privileged : bool;
  UsualGeo : string;
  Attributes : gmap string string;
  CreatedAt : Time;
  UpdatedAt : Time
}.
End Identity.

Module Device.
Record t := mk {
  ID : string;
  IdentityID : string;
  Name : string;
  Managed : bool;
  Compliant : bool;
  SecretHash : string;
  CreatedAt : Time
}.
End Device.

Module Resource.
Record t := mk {
  ID : string;
  Type_ : string;
  Name : string;
  Sensitivity_ : Sensitivity
}.
End Resource.

Module Adapter.
Record t := mk {
  ID : string;
  Name : string;
  Type_ : string;
  TokenHash : string;
  Enabled : bool;
  CreatedAt : Time
}.

Definition set_TokenHash (h : string) (a : t) : t :=
  mk (ID a) (Name a) (Type_ a) h (Enabled a) (CreatedAt a).
End Adapter.

Module ChallengeSpec.
Record t := mk { Methods : list MFAMethod }.
End ChallengeSpec.

Module Policy.
(** [Conditions] is the raw JSON document; [None] when the member is absent. *)
Record t := mk {
  ID : string;
  Description : string;
  Enabled : bool;
  Priority : Z;
  Effect : Decision;
  Conditions : option json;
  Challenge : option ChallengeSpec.t;
  CreatedAt : Time;
  UpdatedAt : Time
}.
End Policy.

(** ** Access requests and decisions *)

Module AccessIdentity.
Record t := mk {
  Username : string;
  Groups : list string;
  Type_ : string;
  Privileged : bool;
  UsualGeo : string;
  LastLogonDays : Z;
  PasswordNeverExpires : bool;
  HasSPN : bool;
  IsGMSA : bool
}.
End AccessIdentity.

Module AccessResource.
Record t := mk { Type_ : string; Name : string; Sensitivity_ : string }.
End AccessResource.

Module AccessProtocol.
Record t := mk { Name : string }.
End AccessProtocol.

Module AccessSource.
Record t := mk { IP : string; Geo : string; Reputation : string }.
End AccessSource.

Module AccessDevice.
Record t := mk { Managed : bool; Compliant : bool }.
End AccessDevice.

Module AccessContext.
Record t := mk { MFARecent : bool; Interactive : bool; BaselineDeviation : bool }.
End AccessContext.

Module AccessRequest.
Record t := mk {
  Identity : AccessIdentity.t;
  Resource : AccessResource.t;
  Protocol : AccessProtocol.t;
  Source : AccessSource.t;
  Device : AccessDevice.t;
  Context_ : AccessContext.t
}.
End AccessRequest.

Module ChallengeInfo.
Record t := mk { ID : string; Methods : list MFAMethod; ExpiresAt : Time }.
End ChallengeInfo.

Module AccessDecision.
Record t := mk {
  RequestID : string;
  Decision_ : Decision;
  RiskScore : Z;
  Reasons : list string;
  Challenge : option ChallengeInfo.t
}.
End AccessDecision.

(** ** Challenges, factors and tokens *)

Module Challenge.
Record t := mk {
  ID : string;
  IdentityID : string;
  RequestID : string;
  Methods : list MFAMethod;
  Status : ChallengeStatus;
  PushNumber : Z;
  Nonce : string;
  WebAuthnSession : string;
  Attempts : Z;
  MaxAttempts : Z;
  ExpiresAt : Time;
  CreatedAt : Time;
  ResolvedAt : option Time
}.

Definition set_Status (s : ChallengeStatus) (c : t) : t :=
  mk (ID c) (IdentityID c) (RequestID c) (Methods c) s (PushNumber c) (Nonce c)
     (WebAuthnSession c) (Attempts c) (MaxAttempts c) (ExpiresAt c) (CreatedAt c) (ResolvedAt c).
Definition set_WebAuthnSession (w : string) (c : t) : t :=
  mk (ID c) (IdentityID c) (RequestID c) (Methods c) (Status c) (PushNumber c) (Nonce c)
     w (Attempts c) (MaxAttempts c) (ExpiresAt c) (CreatedAt c) (ResolvedAt c).
Definition set_Attempts (n : Z) (c : t) : t :=
  mk (ID c) (IdentityID c) (RequestID c) (Methods c) (Status c) (PushNumber c) (Nonce c)
     (WebAuthnSession c) n (MaxAttempts c) (ExpiresAt c) (CreatedAt c) (ResolvedAt c).
Definition set_ResolvedAt (r : option Time) (c : t) : t :=
  mk (ID c) (IdentityID c) (RequestID c) (Methods c) (Status c) (PushNumber c) (Nonce c)
     (WebAuthnSession c) (Attempts c) (MaxAttempts c) (ExpiresAt c) (CreatedAt c) r.
End Challenge.

Module Factor.
Record t := mk {
  ID : string;
  IdentityID : string;
  Method : MFAMethod;
  Status : FactorStatus;
  Secret : string;
  Credentials : string;
  CreatedAt : Time
}.

Definition set_Status (s : FactorStatus) (f : t) : t :=
  mk (ID f) (IdentityID f) (Method f) s (Secret f) (Credentials f) (CreatedAt f).
Definition set_Credentials (c : string) (f : t) : t :=
  mk (ID f) (IdentityID f) (Method f) (Status f) (Secret f) c (CreatedAt f).
End Factor.

Module AuthToken.
Record t := mk {
  ID : string;
  TokenHash : string;
  Role_ : Role;
  Name : string;
  ExpiresAt : option Time;
  Revoked : bool;
  CreatedAt : Time
}.

Definition set_Revoked (b : bool) (k : t) : t :=
  mk (ID k) (TokenHash k) (Role_ k) (Name k) (ExpiresAt k) b (CreatedAt k).
End AuthToken.

(** ** Audit events *)

Module AuditActor.
Record t := mk { Type_ : ActorType; ID : string }.
End AuditActor.

Module AuditTarget.
Record t := mk { Type_ : TargetType; ID : string }.
End AuditTarget.

Module AuditEvent.
Record t := mk {
  ID : string;
  Timestamp : Time;
  Type_ : string;
  Actor : AuditActor.t;
  Target : AuditTarget.t;
  Decision_ : Decision;
  RiskScore : Z;
  Reasons : list string;
  Metadata : list (string * any);
  PreviousHash : string;
  Hash : string
}.

Definition set_PreviousHash (h : string) (e : t) : t :=
  mk (ID e) (Timestamp e) (Type_ e) (Actor e) (Target e) (Decision_ e) (RiskScore e)
     (Reasons e) (Metadata e) h (Hash e).
Definition set_Hash (h : string) (e : t) : t :=
  mk (ID e) (Timestamp e) (Type_ e) (Actor e) (Target e) (Decision_ e) (RiskScore e)
     (Reasons e) (Metadata e) (PreviousHash e) h.
End AuditEvent.

(** ** Engine results *)

Module RiskResult.
Record t := mk { Score : Z; Level : string; Reasons : list string }.
End RiskResult.

Module PolicyDecision.
Record t := mk {
  Effect : Decision;
  PolicyID : string;
  Reasons : list string;
  Challenge : option ChallengeSpec.t
}.
End PolicyDecision.

(** ** Active Directory events, inventory and behavioural profiles *)

Module ADAuthEvent.
Record t := mk {
  EventID : Z;
  Timestamp : Time;
  AccountName : string;
  AccountDomain : string;
  AccountSID : string;
  LogonType : Z;
  LogonProcess : string;
  AuthPackage : string;
  SourceIP : string;
  SourcePort : Z;
  TargetServer : string;
  TargetSPN : string;
  Status : string;
  SubStatus : string;
  DCName : string;
  EventType : string
}.
End ADAuthEvent.

Module ADEventDecision.
Record t := mk {
  AccountSID : string;
  AccountName : string;
  Decision_ : Decision;
  RiskScore : Z;
  Reasons : list string
}.
End ADEventDecision.

Module ADAuthEventBatchResponse.
Record t := mk { Accepted : Z; Decisions : list ADEventDecision.t }.
End ADAuthEventBatchResponse.

Module ADInventoryRecord.
Record t := mk {
  SID : string;
  SamAccountName : string;
  DisplayName : string;
  ObjectClass : string;
  UserAccountControl : Z;
  SPNs : list string;
  MemberOf : list string;
  LastLogonTimestamp : Time;
  PwdLastSet : Time;
  Enabled : bool;
  OU : string;
  IsGMSA : bool;
  IsPrivileged : bool
}.
End ADInventoryRecord.

Module ADInventorySummary.
Record t := mk {
  TotalAccounts : Z;
  UserAccounts : Z;
  ComputerAccounts : Z;
  ServiceAccounts : Z;
  PrivilegedAccounts : Z;
  StaleAccounts : Z;
  DisabledAccounts : Z;
  ScannedAt : Time
}.
End ADInventorySummary.

Module TimeWindow.
Record t := mk { StartMinuteOfDay : Z; EndMinuteOfDay : Z; DaysOfWeek : list Z }.
End TimeWindow.

Module ServiceAccountBaseline.
Record t := mk {
  AllowedSourceIPs : list string;
  AllowedTargetSPNs : list string;
  AllowedLogonTypes : list Z;
  AllowedTimeWindows : list TimeWindow.t;
  AllowedProtocols : list string
}.

Definition empty : t := mk [] [] [] [] [].
End ServiceAccountBaseline.

Module BehaviouralProfile.
Record t := mk {
  AccountSID : string;
  SamAccountName : string;
  ObservationStart : Time;
  ObservationEnd : Time;
  TotalAuthCount : Z;
  TimeOfDayHistogram : list Z;
  DayOfWeekHistogram : list Z;
  SourceIPs : gmap string Z;
  TargetSPNs : gmap string Z;
  LogonTypes : gmap Z Z;
  AuthPackages : gmap string Z;
  LastEventTime : Time;
  InterArrivalSum : SpecFloat.spec_float;
  InterArrivalSumSq : SpecFloat.spec_float;
  InterArrivalCount : Z;
  ClassificationScore : SpecFloat.spec_float;
  Classified : bool;
  ClassifiedAt : Time;
  Baseline : option ServiceAccountBaseline.t
}.
End BehaviouralProfile.

(** ** Facts *)

Lemma ChallengeStatus_string_inj s1 s2 :
  ChallengeStatus_string s1 = ChallengeStatus_string s2 -> s1 = s2.
Proof. by destruct s1, s2. Qed.

Lemma TargetType_string_inj t1 t2 : TargetType_string t1 = TargetType_string t2 -> t1 = t2.
Proof. by destruct t1, t2. Qed.
