(* ===== verification/World.v ===== *)
(** * The process and its environment

    [Env] is what the runtime decides: clock readings, random data, the order
    in which a Go map is walked, how [sort.Slice] places elements that compare
    equal, and the parts of the standard library that are tables or engines of
    their own (Unicode case tables, the RE2 matcher, the RFC 3339 reader, the URL
    parser of [http.NewRequest], logarithm and trigonometry of [math]).
    [Lib] is the third-party code the sources call: [pquerna/otp],
    [x/crypto/bcrypt], [google/uuid], [go-webauthn] and [go-ldap]. Every theorem holds
    for all of them; the laws a theorem needs are the classes [EnvOk] and
    [LibOk], which state documented behaviour only.

    [World] is the state of one [oiafd] process: the memory store, the event
    emitter and the WebAuthn service's session map. [tick] counts the
    environment's answers, so that two readings of the clock are two answers.

    A pointer the store hands out is the object stored under its key:
    assigning to a field through it, [assign], changes the stored object at
    once, whether or not the code calls [Update] afterwards. *)

From S2P Require Import Prelude GoStrings GoTime GoFloat GoJson Types.

(** ** The environment *)

Class Env := {
  clock : nat -> Time;
  rand_Int : nat -> Z -> result Z;
  rand_Read : nat -> nat -> result (list Z);
  range_map : forall {A : Type}, nat -> gmap string A -> list (string * A);
  range_mapZ : forall {A : Type}, nat -> gmap Z A -> list (Z * A);
  sort_Slice : forall {A : Type}, nat -> (A -> A -> bool) -> list A -> list A;
  regexp_MatchString : string -> string -> option bool;
  unicode_ToLower : Z -> Z;
  unicode_ToUpper : Z -> Z;
  time_Parse_RFC3339 : string -> option Time;
  http_NewRequest : string -> bool;
  math_Log2 : SpecFloat.spec_float -> SpecFloat.spec_float;
  math_Sin : SpecFloat.spec_float -> SpecFloat.spec_float;
  math_Cos : SpecFloat.spec_float -> SpecFloat.spec_float;
  math_Asin : SpecFloat.spec_float -> SpecFloat.spec_float
}.

(** A strict weak order: what a [less] function has to be. *)
Record strict_weak {A} (less : A -> A -> bool) : Prop := {
  sw_irrefl : forall a, less a a = false;
  sw_trans : forall a b c, less a b = true -> less b c = true -> less a c = true;
  sw_incomp : forall a b c, less b a = false -> less c b = false -> less c a = false
}.

Class EnvOk (E : Env) : Prop := {
  range_map_perm : forall A n (m : gmap string A), range_map n m ≡ₚ map_to_list m;
  range_mapZ_perm : forall A n (m : gmap Z A), range_mapZ n m ≡ₚ map_to_list m;
  sort_Slice_perm : forall A n less (l : list A), sort_Slice n less l ≡ₚ l;
  sort_Slice_sorted : forall A n less (l : list A), strict_weak less ->
    StronglySorted (fun a b => less b a = false) (sort_Slice n less l);
  rand_Int_bound : forall n max k, 0 < max -> rand_Int n max = Ok k -> 0 <= k < max;
  rand_Read_length : forall n len l, rand_Read n len = Ok l -> length l = len;
  rand_Read_bytes : forall n len l, rand_Read n len = Ok l -> Forall (fun b => 0 <= b < 256) l;
  unicode_ToLower_high : forall r, 128 <= r -> r <> 304 -> r <> 8490 ->
    128 <= unicode_ToLower r;
  unicode_ToUpper_high : forall r, 128 <= r -> r <> 305 -> r <> 383 ->
    128 <= unicode_ToUpper r
}.

(** ** Third-party code *)

Class Lib := {
  (* github.com/google/uuid *)
  uuid_New : nat -> string;
  (* github.com/pquerna/otp/totp *)
  totp_Generate : nat -> string -> string -> result (string * string);
  totp_Validate : Time -> string -> string -> bool;
  totp_ValidateCustom : Time -> string -> string -> result bool;
  totp_GenerateCode : string -> Time -> result string;
  (* golang.org/x/crypto/bcrypt *)
  bcrypt_GenerateFromPassword : nat -> string -> result string;
  bcrypt_CompareHashAndPassword : string -> string -> bool;
  (* github.com/go-webauthn/webauthn *)
  SessionData : Type;
  Credential : Type;
  CredentialCreation : Type;
  CredentialAssertion : Type;
  cred_ID : Credential -> string;
  cred_SignCount : Credential -> Z;
  cred_CloneWarning : Credential -> bool;
  cred_set_authenticator : Z -> bool -> Credential -> Credential;
  wa_New : string -> string -> list string -> bool -> result unit;
  wa_BeginRegistration : nat -> string -> string -> list Credential ->
    result (CredentialCreation * SessionData);
  wa_FinishRegistration : nat -> string -> string -> list Credential -> SessionData ->
    result string -> result Credential;
  wa_BeginLogin : nat -> string -> string -> list Credential ->
    result (CredentialAssertion * SessionData);
  wa_FinishLogin : nat -> string -> string -> list Credential -> SessionData -> string ->
    result Credential;
  (* encoding/json on the library's structs *)
  session_Marshal : SessionData -> result string;
  session_Unmarshal : string -> result SessionData;
  credential_Marshal : Credential -> result string;
  credential_Unmarshal : string -> result Credential;
  assertion_Marshal : CredentialAssertion -> result string;
  (* github.com/go-ldap/ldap/v3; the [option bool] of [DialURL] is the TLS
     option with its InsecureSkipVerify; [Search] takes base, filter, attributes *)
  LdapConn : Type;
  LdapEntry : Type;
  ldap_DialURL : nat -> string -> option bool -> result LdapConn;
  ldap_Bind : nat -> LdapConn -> string -> string -> result unit;
  ldap_Search : nat -> LdapConn -> string -> string -> list string -> result (list LdapEntry);
  entry_DN : LdapEntry -> string;
  GetAttributeValues : LdapEntry -> string -> list string;
  GetAttributeValue : LdapEntry -> string -> string
}.

Class LibOk (L : Lib) : Prop := {
  uuid_inj : forall m n, uuid_New m = uuid_New n -> m = n;
  bcrypt_match : forall n p h, bcrypt_GenerateFromPassword n p = Ok h ->
    bcrypt_CompareHashAndPassword h p = true;
  session_roundtrip : forall s j, session_Marshal s = Ok j ->
    session_Unmarshal j = Ok s /\ j <> "";
  credential_roundtrip : forall c j, credential_Marshal c = Ok j -> credential_Unmarshal j = Ok c;
  cred_set_ID : forall n w c, cred_ID (cred_set_authenticator n w c) = cred_ID c;
  cred_set_SignCount : forall n w c, cred_SignCount (cred_set_authenticator n w c) = n;
  cred_set_CloneWarning : forall n w c, cred_CloneWarning (cred_set_authenticator n w c) = w
}.

(** ** The memory store *)

Module MemoryStore.
Record t := mk {
  identities : gmap string Identity.t;
  devices : gmap string Device.t;
  resources : gmap string Resource.t;
  adapters : gmap string Adapter.t;
  policies : gmap string Policy.t;
  challenges : gmap string Challenge.t;
  factors : gmap string Factor.t;
  authTokens : gmap string AuthToken.t;
  auditEvents : list AuditEvent.t;
  auditLastHash : string;
  behaviouralProfiles : gmap string BehaviouralProfile.t
}.

Definition set_identities m s :=
  mk m (devices s) (resources s) (adapters s) (policies s) (challenges s) (factors s)
     (authTokens s) (auditEvents s) (auditLastHash s) (behaviouralProfiles s).
Definition set_devices m s :=
  mk (identities s) m (resources s) (adapters s) (policies s) (challenges s) (factors s)
     (authTokens s) (auditEvents s) (auditLastHash s) (behaviouralProfiles s).
Definition set_resources m s :=
  mk (identities s) (devices s) m (adapters s) (policies s) (challenges s) (factors s)
     (authTokens s) (auditEvents s) (auditLastHash s) (behaviouralProfiles s).
Definition set_adapters m s :=
  mk (identities s) (devices s) (resources s) m (policies s) (challenges s) (factors s)
     (authTokens s) (auditEvents s) (auditLastHash s) (behaviouralProfiles s).
Definition set_policies m s :=
  mk (identities s) (devices s) (resources s) (adapters s) m (challenges s) (factors s)
     (authTokens s) (auditEvents s) (auditLastHash s) (behaviouralProfiles s).
Definition set_challenges m s :=
  mk (identities s) (devices s) (resources s) (adapters s) (policies s) m (factors s)
     (authTokens s) (auditEvents s) (auditLastHash s) (behaviouralProfiles s).
Definition set_factors m s :=
  mk (identities s) (devices s) (resources s) (adapters s) (policies s) (challenges s) m
     (authTokens s) (auditEvents s) (auditLastHash s) (behaviouralProfiles s).
Definition set_authTokens m s :=
  mk (identities s) (devices s) (resources s) (adapters s) (policies s) (challenges s) (factors s)
     m (auditEvents s) (auditLastHash s) (behaviouralProfiles s).
Definition set_audit es h s :=
  mk (identities s) (devices s) (resources s) (adapters s) (policies s) (challenges s) (factors s)
     (authTokens s) es h (behaviouralProfiles s).
Definition set_behaviouralProfiles m s :=
  mk (identities s) (devices s) (resources s) (adapters s) (policies s) (challenges s) (factors s)
     (authTokens s) (auditEvents s) (auditLastHash s) m.
End MemoryStore.

(** [storage.NewMemoryStore]. *)
Definition NewMemoryStore : MemoryStore.t :=
  MemoryStore.mk ∅ ∅ ∅ ∅ ∅ ∅ ∅ ∅ [] "" ∅.

(** ** The event emitter (package bus); [posted] is what went on the wire. *)
Module Emitter.
Record t := mk {
  source : string;
  urls : list string;
  prev : string;
  posted : list (string * string)
}.
End Emitter.

(** ** The process state *)

Module pendingSession.
Record t {L : Lib} := mk { session : SessionData; expiresAt : Time }.
Arguments t : clear implicits.
End pendingSession.

Record World {L : Lib} := mkWorld {
  store : MemoryStore.t;
  tick : nat;
  bus : option Emitter.t;
  sessions : gmap string (pendingSession.t L)
}.
Arguments World : clear implicits.

Section Primitives.
Context {L : Lib} {E : Env}.

Definition M (A : Type) : Type := ST (World L) A.

Definition set_store (s : MemoryStore.t) (w : World L) : World L :=
  mkWorld L s (tick w) (bus w) (sessions w).
Definition set_tick (n : nat) (w : World L) : World L :=
  mkWorld L (store w) n (bus w) (sessions w).
Definition set_bus (b : option Emitter.t) (w : World L) : World L :=
  mkWorld L (store w) (tick w) b (sessions w).
Definition set_sessions (m : gmap string (pendingSession.t L)) (w : World L) : World L :=
  mkWorld L (store w) (tick w) (bus w) m.

(** Ask the environment: each question gets its own answer. *)
Definition ask {A} (f : nat -> A) : M A :=
  fun w => (f (tick w), set_tick (S (tick w)) w).

(** [unicode.ToLower]; the two non-ASCII runes that fold into ASCII are
    U+0130 and the Kelvin sign U+212A. *)
Definition rune_ToLower (r : Z) : Z :=
  if r <? 128 then (if (65 <=? r) && (r <=? 90) then r + 32 else r)
  else if r =? 304 then 105
  else if r =? 8490 then 107
  else unicode_ToLower r.

(** [unicode.ToUpper]; U+0131 and U+017F are the non-ASCII runes with an ASCII
    upper case. *)
Definition rune_ToUpper (r : Z) : Z :=
  if r <? 128 then (if (97 <=? r) && (r <=? 122) then r - 32 else r)
  else if r =? 305 then 73
  else if r =? 383 then 83
  else unicode_ToUpper r.

(** [strings.ToLower] and [strings.ToUpper]. *)
Definition ToLower (s : string) : string :=
  of_bytes (concat ((fun '(r, _) => EncodeRune (rune_ToLower r)) <$> runes (bytes s))).
Definition ToUpper (s : string) : string :=
  of_bytes (concat ((fun '(r, _) => EncodeRune (rune_ToUpper r)) <$> runes (bytes s))).

Definition Now : M Time := ask clock.
Definition NewID : M string := ask uuid_New.
Definition gets {A} (f : World L -> A) : M A := fun w => (f w, w).
Definition modify (f : World L -> World L) : M unit := fun w => (tt, f w).
Definition modify_store (f : MemoryStore.t -> MemoryStore.t) : M unit :=
  modify (fun w => set_store (f (store w)) w).
End Primitives.

(** Run a piece of code down to its store operations. *)
Ltac m_run :=
  unfold NewID, Now, ask, gets, modify, modify_store in *; st_unfold;
  cbn [tick set_tick store set_store bus set_bus sessions set_sessions] in *.
