(* ===== verification/GoTimeRead.v ===== *)
(** * Package [time], reading

    [Time.UnmarshalJSON]: the fast path [parseRFC3339] is computed; a text it
    refuses goes to [time.Parse] (the environment's). A printed time is read back
    as the same instant in the same zone. *)

From S2P Require Import Prelude GoStrings GoTime GoFloat GoCrypto GoRunes GoJson GoHttp GoParse GoJsonRead Types World.

Definition isLeap (y : Z) : bool := (y mod 4 =? 0) && (negb (y mod 100 =? 0) || (y mod 400 =? 0)).

Definition daysIn (m y : Z) : Z :=
  if m =? 2 then if isLeap y then 29 else 28
  else if (m =? 4) || (m =? 6) || (m =? 9) || (m =? 11) then 30 else 31.

(** The local [parseUint] of [parseRFC3339]. *)
Definition digits_in (l : list Z) (min max : Z) : option Z :=
  if forallb is_digit l then
    let x := dec_val 0 l in if (x <? min) || (max <? x) then None else Some x
  else None.

(** [parseNanoseconds]: nine digits count. *)
Definition nanos_of (ds : list Z) : Z :=
  let ds := take 9 ds in dec_val 0 ds * 10 ^ (9 - Z.of_nat (length ds)).

Definition split_fraction (rest : list Z) : Z * list Z :=
  match rest with
  | b :: d :: _ => if (b =? 46) && is_digit d then let '(ds, r) := span_digits (tail rest) in (nanos_of ds, r) else (0, rest)
  | _ => (0, rest)
  end.

(** The offset in seconds east of UTC. *)
Definition zone_offset (rest : list Z) : option Z :=
  match rest with
  | [z] => if z =? 90 then Some 0 else None
  | [sg; h1; h2; c; m1; m2] =>
      hr ← digits_in [h1; h2] 0 23;
      mm ← digits_in [m1; m2] 0 59;
      if ((sg =? 45) || (sg =? 43)) && (c =? 58)
      then Some (if sg =? 45 then - ((hr * 60 + mm) * 60) else (hr * 60 + mm) * 60) else None
  | _ => None
  end.

Definition parseRFC3339 (s : list Z) : option Time :=
  match s with
  | y1 :: y2 :: y3 :: y4 :: c1 :: m1 :: m2 :: c2 :: d1 :: d2 :: c3 :: h1 :: h2 :: c4 :: n1 :: n2 :: c5 :: s1 :: s2 :: rest =>
      year ← digits_in [y1; y2; y3; y4] 0 9999;
      month ← digits_in [m1; m2] 1 12;
      day ← digits_in [d1; d2] 1 (daysIn month year);
      hour ← digits_in [h1; h2] 0 23;
      minute ← digits_in [n1; n2] 0 59;
      sec ← digits_in [s1; s2] 0 59;
      if (c1 =? 45) && (c2 =? 45) && (c3 =? 84) && (c4 =? 58) && (c5 =? 58) then
        let '(nsec, rest) := split_fraction rest in
        off ← zone_offset rest;
        Some (mkTime (nanos (Date year month day hour minute sec nsec) - off * Second) off)
      else None
  | _ => None
  end.

(** [Time.UnmarshalJSON]: the text of the literal, not unescaped. *)
Definition d_time {E : Env} : decoder Time := fun v old =>
  match v with
  | VNull => Some old
  | VStr raw => match parseRFC3339 raw with Some t => Some t | None => time_Parse_RFC3339 (of_bytes raw) end
  | _ => None
  end.

Definition e_time (t : Time) : jval := VStr (bytes (FormatRFC3339Nano t)).

(** The times that print without loss: four-digit years, zones of whole minutes. *)
Definition printable (t : Time) : Prop := 0 <= YearOf t <= 9999 /\ Z.abs (zone t) < 86400 /\ zone t mod 60 = 0.

Example parse_ex : parseRFC3339 <$> (bytes <$> ["2024-02-29T13:05:09.12Z"; "1969-12-31T18:30:00-05:30"; "2023-02-29T00:00:00Z";
    "2024-01-01T24:00:00Z"; "0001-01-01T00:00:00Z"; "2024-01-01 00:00:00Z"])
  = [Some (Date 2024 2 29 13 5 9 120000000); Some (mkTime 0 (-19800)); None; None; Some zeroTime; None].
Proof. vm_compute. reflexivity. Qed.

(** ** Facts: the calendar *)

Fixpoint check_from (f : Z -> bool) (n : nat) (x : Z) : bool :=
  match n with O => true | S n' => if f x then check_from f n' (x + 1) else false end.

Lemma check_from_spec f n : forall a x, check_from f n a = true -> a <= x < a + Z.of_nat n -> f x = true.
Proof.
  induction n as [|n IH]; intros a x H Hx; [lia|]. cbn [check_from] in H. destruct (f a) eqn:Hf; [|done].
  destruct (decide (x = a)) as [->|Hne]; [done|]. apply (IH (a + 1)); [done|lia].
Qed.

(** The first day of a year of the era (the years start in March), and of the next one. *)
Definition year_of_era (doe : Z) : Z := (doe - doe / 1460 + doe / 36524 - doe / 146096) / 365.
Definition year_start (yoe : Z) : Z := 365 * yoe + yoe / 4 - yoe / 100.
Definition year_end (yoe : Z) : Z := if yoe =? 399 then 146097 else year_start (yoe + 1).

(** Checked on every year of an era. *)
Lemma year_bounds yoe : 0 <= yoe < 400 -> year_of_era (year_start yoe) = yoe /\ year_of_era (year_end yoe - 1) = yoe /\
  year_end yoe = year_start yoe + (if isLeap (yoe + 1) then 366 else 365).
Proof.
  intros H. pose proof (check_from_spec (fun y => (year_of_era (year_start y) =? y) && (year_of_era (year_end y - 1) =? y) &&
    (year_end y =? year_start y + (if isLeap (y + 1) then 366 else 365))) 400 0 yoe ltac:(vm_compute; reflexivity) ltac:(lia)) as Hc.
  cbn beta in Hc. rewrite !andb_true_iff, !Z.eqb_eq in Hc. tauto.
Qed.

Lemma year_of_era_mono a b : 0 <= a -> a <= b -> b < 146097 -> year_of_era a <= year_of_era b.
Proof. intros H0 H1 H2. unfold year_of_era. apply Z.div_le_mono; [lia|]. Z.div_mod_to_equations. lia. Qed.

Lemma year_of_era_spec doe : 0 <= doe < 146097 -> let y := year_of_era doe in 0 <= y < 400 /\ year_start y <= doe < year_end y.
Proof.
  intros H. cbv zeta. set (y := year_of_era doe).
  assert (Hy : 0 <= y < 400).
  { pose proof (year_of_era_mono 0 doe ltac:(lia) ltac:(lia) ltac:(lia)) as H1.
    pose proof (year_of_era_mono doe 146096 ltac:(lia) ltac:(lia) ltac:(lia)) as H2.
    change (year_of_era 0) with 0 in H1. change (year_of_era 146096) with 399 in H2. fold y in H1, H2. lia. }
  split; [done|]. split.
  - apply Z.le_ngt. intros Hlt. destruct (decide (y = 0)) as [E|E]; [rewrite E in Hlt; change (year_start 0) with 0 in Hlt; lia|].
    destruct (year_bounds (y - 1) ltac:(lia)) as (_ & He & _). unfold year_end in He. replace (y - 1 + 1) with y in He by lia.
    destruct (Z.eqb_spec (y - 1) 399); [lia|]. pose proof (year_of_era_mono doe (year_start y - 1) ltac:(lia) ltac:(lia)
      ltac:(unfold year_start; Z.div_mod_to_equations; lia)) as Hm. fold y in Hm. lia.
  - apply Z.lt_nge. intros Hge. unfold year_end in Hge. destruct (Z.eqb_spec y 399); [lia|].
    destruct (year_bounds (y + 1) ltac:(lia)) as (Hs & _ & _).
    pose proof (year_of_era_mono (year_start (y + 1)) doe ltac:(unfold year_start; Z.div_mod_to_equations; lia) ltac:(lia) ltac:(lia)) as Hm.
    fold y in Hm. lia.
Qed.

(** Month and day of a day of such a year, checked on all of them. *)
Definition month_of (doy : Z) : Z := let mp := (5 * doy + 2) / 153 in if mp <? 10 then mp + 3 else mp - 9.
Definition day_of (doy : Z) : Z := doy - (153 * ((5 * doy + 2) / 153) + 2) / 5 + 1.

Lemma month_day doy : 0 <= doy < 366 -> let m := month_of doy in let d := day_of doy in
  1 <= m <= 12 /\ 1 <= d <= daysIn m (if (m <=? 2) && (doy =? 365) then 4 else 1) /\
  (153 * (if 2 <? m then m - 3 else m + 9) + 2) / 5 + d - 1 = doy.
Proof.
  intros H. pose proof (check_from_spec (fun doy => let m := month_of doy in let d := day_of doy in
    (1 <=? m) && (m <=? 12) && (1 <=? d) && (d <=? daysIn m (if (m <=? 2) && (doy =? 365) then 4 else 1)) &&
    ((153 * (if 2 <? m then m - 3 else m + 9) + 2) / 5 + d - 1 =? doy)) 366 0 doy ltac:(vm_compute; reflexivity) ltac:(lia)) as Hc.
  cbv zeta in *. rewrite !andb_true_iff, !Z.leb_le, !Z.eqb_eq in Hc. tauto.
Qed.

Lemma isLeap_era y k : isLeap (y + k * 400) = isLeap y.
Proof.
  unfold isLeap. assert (forall m, (400 mod m = 0) -> 0 < m -> (y + k * 400) mod m = y mod m) as H.
  { intros m Hm Hp. rewrite (Z.div_mod 400 m) by lia. rewrite Hm, Z.add_0_r.
    replace (k * (m * (400 / m))) with ((k * (400 / m)) * m) by ring. apply Z.mod_add. lia. }
  by rewrite !H.
Qed.

Lemma daysIn_year m y y' : (isLeap y = true -> isLeap y' = true) -> daysIn m y <= daysIn m y'.
Proof. unfold daysIn. intros H. destruct (m =? 2); [|done]. destruct (isLeap y); [by rewrite H|]. destruct (isLeap y'); lia. Qed.

Lemma civil_spec days y m d : civil days = (y, m, d) ->
  1 <= m <= 12 /\ 1 <= d <= daysIn m y /\ days_of_civil y m d = days.
Proof.
  unfold civil. set (z := days + 719468). set (era := z / 146097). set (doe := z - era * 146097).
  assert (Hdoe : 0 <= doe < 146097) by (unfold doe, era; Z.div_mod_to_equations; lia).
  fold (year_of_era doe). destruct (year_of_era_spec doe Hdoe) as [Hy Hd]. set (yoe := year_of_era doe) in *. clearbody yoe.
  destruct (year_bounds yoe Hy) as (_ & _ & He). fold (year_start yoe). set (doy := doe - year_start yoe).
  assert (Hdoy : 0 <= doy < 366 /\ (doy = 365 -> isLeap (yoe + 1) = true)) by (unfold doy; destruct (isLeap (yoe + 1)); lia).
  destruct Hdoy as [Hdoy Hleap]. pose proof (month_day doy Hdoy) as Hmd. cbv zeta in Hmd.
  fold (month_of doy). fold (day_of doy). set (m0 := month_of doy) in *. set (d0 := day_of doy) in *. clearbody m0 d0.
  intros [= <- <- <-]. destruct Hmd as (Hm & Hd0 & Hinv). split; [done|]. split.
  - split; [lia|]. etrans; [apply Hd0|]. apply daysIn_year.
    replace (yoe + era * 400 + (if m0 <=? 2 then 1 else 0)) with ((yoe + (if m0 <=? 2 then 1 else 0)) + era * 400) by ring.
    rewrite isLeap_era. destruct (m0 <=? 2); cbn [andb]; [|done]. destruct (Z.eqb_spec doy 365); [|done]. auto.
  - unfold days_of_civil. replace (if m0 <=? 2 then yoe + era * 400 + (if m0 <=? 2 then 1 else 0) - 1
      else yoe + era * 400 + (if m0 <=? 2 then 1 else 0)) with (yoe + era * 400) by (destruct (m0 <=? 2); lia).
    rewrite Z.div_add, (Z.div_small yoe) by lia. replace (yoe + era * 400 - (0 + era) * 400) with yoe by ring.
    rewrite Hinv. unfold doy, doe, z, year_start. ring.
Qed.

(** ** Facts: fields *)

Lemma digits_in_of l x min max : digits_of l x -> min <= x <= max -> digits_in l min max = Some x.
Proof.
  intros [Hd Hv] Hx. unfold digits_in. rewrite (proj2 (forallb_forall _ _)).
  - rewrite Hv. by replace ((x <? min) || (max <? x)) with false by lia.
  - intros b Hb. rewrite Forall_forall in Hd. apply Hd. by apply list_elem_of_In.
Qed.

Lemma appendInt_2 x : 0 <= x < 100 -> exists a b, bytes (appendInt x 2) = [a; b] /\ digits_of [a; b] x.
Proof.
  intros Hx. destruct (appendInt_digits x 2 Hx ltac:(lia)) as [Hd Hl].
  destruct (bytes (appendInt x 2)) as [|a [|b [|]]]; try done. by exists a, b.
Qed.

Lemma appendInt_4 x : 0 <= x < 10000 -> exists a b c d, bytes (appendInt x 4) = [a; b; c; d] /\ digits_of [a; b; c; d] x.
Proof.
  intros Hx. destruct (appendInt_digits x 4 Hx ltac:(lia)) as [Hd Hl].
  destruct (bytes (appendInt x 4)) as [|a [|b [|c [|d [|]]]]]; try done. by exists a, b, c, d.
Qed.

(** ** Facts: fraction and zone *)

Lemma strip_zeros_spec f : forall x, 0 < x < 10 ^ Z.of_nat f -> exists y w, strip_zeros f x = (y, w) /\
  (1 <= w <= f)%nat /\ 0 < y < 10 ^ Z.of_nat w /\ x = y * 10 ^ Z.of_nat (f - w).
Proof.
  induction f as [|f IH]; intros x Hx; [cbn in Hx; lia|]. cbn [strip_zeros].
  destruct ((x =? 0) || negb (x mod 10 =? 0)) eqn:Hz.
  - exists x, (S f). replace (S f - S f)%nat with 0%nat by lia. split_and!; [done|lia..|cbn; lia].
  - rewrite Nat2Z.inj_succ, Z.pow_succ_r in Hx by lia. assert (Hm : x = 10 * (x / 10)) by (Z.div_mod_to_equations; lia).
    destruct (IH (x / 10)) as (y & w & -> & Hw & Hy & Heq); [split; [|]; Z.div_mod_to_equations; lia|].
    exists y, w. split_and!; [done|lia..|]. replace (S f - w)%nat with (S (f - w)) by lia.
    rewrite Nat2Z.inj_succ, Z.pow_succ_r by lia. rewrite Hm, Heq at 1. ring.
Qed.

Definition zone_start (z : list Z) : Prop := match z with b :: _ => is_digit b = false /\ b <> 46 | [] => False end.

Lemma split_fraction_nano ns z : 0 <= ns < Second -> zone_start z -> split_fraction (bytes (appendNano ns) ++ z) = (ns, z).
Proof.
  intros Hn Hz. unfold appendNano. destruct (Z.eqb_spec ns 0) as [->|Hne].
  - destruct z as [|b z]; [done|]. destruct Hz as [_ Hb]. cbn. destruct z; [done|]. by destruct (Z.eqb_spec b 46).
  - destruct (strip_zeros_spec 9 ns ltac:(unfold Second in Hn; lia)) as (y & w & -> & Hw & Hy & Heq).
    destruct (appendInt_digits y w ltac:(lia) ltac:(lia)) as [[Hd Hv] Hl].
    change (bytes ("." +:+ ?s)) with (46 :: bytes s). destruct (bytes (appendInt y w)) as [|d ds] eqn:E; [cbn in Hl; lia|].
    cbn [app split_fraction tail]. pose proof Hd as Hd'. apply Forall_cons in Hd as [Hd1 _]. rewrite Hd1. cbn [Z.eqb Pos.eqb andb].
    change (d :: ds ++ z) with ((d :: ds) ++ z). rewrite span_all; [|done|by destruct z as [|b z]; [|destruct Hz]].
    unfold nanos_of. rewrite take_ge by lia. rewrite Hv, Hl, Heq. do 3 f_equal. lia.
Qed.

Lemma zone_offset_append z : Z.abs z < 86400 -> z mod 60 = 0 -> zone_offset (bytes (appendZone z)) = Some z /\ zone_start (bytes (appendZone z)).
Proof.
  intros Hz Hm. unfold appendZone. destruct (Z.eqb_spec z 0) as [->|Hne]; [done|]. cbv zeta.
  set (m := Z.quot z 60). assert (Hq : z = m * 60) by (unfold m; Z.quot_rem_to_equations; Z.div_mod_to_equations; lia). clearbody m.
  assert (0 <= Z.abs m / 60 < 24 /\ 0 <= Z.abs m mod 60 < 60 /\ Z.abs m = Z.abs m / 60 * 60 + Z.abs m mod 60) as (Hh & Hmm & Ha)
    by (Z.div_mod_to_equations; lia).
  set (h := Z.abs m / 60) in *. set (mm := Z.abs m mod 60) in *. clearbody h mm.
  destruct (appendInt_2 h ltac:(lia)) as (h1 & h2 & Eh & Dh). destruct (appendInt_2 mm ltac:(lia)) as (m1 & m2 & Em & Dm).
  rewrite !bytes_app, Eh, Em. change (bytes ":") with [58].
  destruct (Z.ltb_spec m 0); [change (bytes "-") with [45]|change (bytes "+") with [43]]; cbn [app];
    (split; [|split; [done|lia]]); cbn [zone_offset];
    rewrite (digits_in_of _ _ 0 23 Dh), (digits_in_of _ _ 0 59 Dm) by lia; cbn; f_equal; lia.
Qed.

(** ** Facts: the round trip *)

Lemma parse_format t : printable t -> parseRFC3339 (bytes (FormatRFC3339Nano t)) = Some t.
Proof.
  intros (Hy & Hz & Hzm). unfold FormatRFC3339Nano, FormatRFC3339_gen. unfold YearOf in Hy.
  destruct (civil (local_secs t / 86400)) as [[y mo] d] eqn:Hciv. cbn [fst] in Hy.
  destruct (civil_spec _ _ _ _ Hciv) as (Hmo & Hd & Hdays).
  assert (Hd31 : d <= 31) by (unfold daysIn in Hd; repeat case_match; lia).
  pose proof (HourOf_range t) as Hh. pose proof (MinuteOf_range t) as Hmi.
  assert (Hs : 0 <= SecondOf t < 60) by (apply Z.mod_pos_bound; lia).
  assert (Hns : 0 <= NanosecondOf t < Second) by (apply Z.mod_pos_bound; unfold Second; lia).
  destruct (appendInt_4 y ltac:(lia)) as (y1 & y2 & y3 & y4 & Ey & Dy). destruct (appendInt_2 mo ltac:(lia)) as (m1 & m2 & Em & Dm).
  destruct (appendInt_2 d ltac:(lia)) as (d1 & d2 & Ed & Dd). destruct (appendInt_2 (HourOf t) ltac:(lia)) as (h1 & h2 & Eh & Dh).
  destruct (appendInt_2 (MinuteOf t) ltac:(lia)) as (n1 & n2 & En & Dn). destruct (appendInt_2 (SecondOf t) ltac:(lia)) as (s1 & s2 & Es & Ds).
  destruct (zone_offset_append (zone t) Hz Hzm) as [Hoff Hst].
  rewrite !bytes_app, Ey, Em, Ed, Eh, En, Es. change (bytes "-") with [45]. change (bytes "T") with [84]. change (bytes ":") with [58].
  cbn [app parseRFC3339].
  rewrite (digits_in_of _ _ 0 9999 Dy), (digits_in_of _ _ 1 12 Dm) by lia. cbn [mbind option_bind].
  rewrite (digits_in_of _ _ 1 _ Dd), (digits_in_of _ _ 0 23 Dh), (digits_in_of _ _ 0 59 Dn), (digits_in_of _ _ 0 59 Ds) by lia.
  cbn [mbind option_bind Z.eqb Pos.eqb andb]. rewrite split_fraction_nano, Hoff by done. cbn [mbind option_bind].
  unfold Date. cbn [nanos]. rewrite Hdays. f_equal. destruct t as [ns z]. cbn [zone] in *. f_equal.
  unfold HourOf, MinuteOf, SecondOf, NanosecondOf, local_secs, Second in *. cbn [nanos zone] in *.
  assert (Hl : ns = (ns + z * 1000000000) / 1000000000 * 1000000000 + ns mod 1000000000 - z * 1000000000) by (Z.div_mod_to_equations; lia).
  set (ls := (ns + z * 1000000000) / 1000000000) in *. rewrite Hl at 2.
  assert (ls / 86400 * 86400 + ls mod 86400 / 3600 * 3600 + ls mod 3600 / 60 * 60 + ls mod 60 = ls) as -> by (clearbody ls; Z.div_mod_to_equations; lia).
  lia.
Qed.

Lemma d_time_e_time {E : Env} t old : printable t -> d_time (e_time t) old = Some t.
Proof. intros Ht. unfold d_time, e_time. by rewrite parse_format. Qed.

(** ** Facts: the text needs no escaping *)

Definition plain (b : Z) : Prop := 32 <= b < 128 /\ b <> 34 /\ b <> 92.

Lemma plain_lit s : forallb (fun b => (32 <=? b) && (b <? 128) && negb (b =? 34) && negb (b =? 92)) (bytes s) = true ->
  Forall plain (bytes s).
Proof.
  rewrite forallb_forall. intros H. apply Forall_forall. intros b Hb%list_elem_of_In. specialize (H b Hb). unfold plain. lia.
Qed.

Lemma plain_str_ok l : Forall plain l -> str_ok l.
Proof.
  intros H. split; [eapply Forall_impl; [exact H|]; intros b Hb; unfold plain, is_byte in *; lia|].
  induction H as [|b l (Hr & H1 & H2) _ IH]; [done|]. cbn [app scan_str].
  destruct (Z.eqb_spec b 34); [lia|]. destruct (Z.eqb_spec b 92); [lia|]. destruct (Z.ltb_spec b 32); [lia|]. by rewrite IH.
Qed.

Lemma plain_app s t : Forall plain (bytes s) -> Forall plain (bytes t) -> Forall plain (bytes (s +:+ t)).
Proof. intros. rewrite bytes_app. by apply Forall_app. Qed.

Lemma digits_plain l : Forall (fun b => is_digit b = true) l -> Forall plain l.
Proof. intros H. eapply Forall_impl; [exact H|]. intros b Hb. unfold is_digit, plain in *. lia. Qed.

Lemma appendInt_plain x w : Forall plain (bytes (appendInt x w)).
Proof.
  unfold appendInt. apply plain_app; [by apply plain_lit; destruct (x <? 0)|]. apply plain_app.
  - unfold zeros. rewrite bytes_of_bytes by (by apply Forall_replicate). apply Forall_replicate. unfold plain. lia.
  - apply digits_plain. apply (digits_pretty (Z.abs x)). lia.
Qed.

Ltac plain_parts :=
  repeat match goal with |- Forall plain (bytes (_ +:+ _)) => apply plain_app end;
  try first [apply appendInt_plain|by apply plain_lit|by apply plain_lit; destruct (_ <? 0)].

Lemma format_plain t : Forall plain (bytes (FormatRFC3339Nano t)).
Proof.
  unfold FormatRFC3339Nano, FormatRFC3339_gen. destruct (civil _) as [[y mo] d].
  plain_parts.
  - unfold appendNano. destruct (_ =? 0); [constructor|]. destruct (strip_zeros 9 _) as [x w]. plain_parts.
  - unfold appendZone. destruct (_ =? 0); [by apply plain_lit|]. cbv zeta. plain_parts.
Qed.

Lemma e_time_ok n t : doc_ok n (e_time t).
Proof. constructor. apply plain_str_ok, format_plain. Qed.

(** ** What is parsed can be printed *)

(** Days before March of a year. *)
Definition year_days (y : Z) : Z := 365 * y + y / 4 - y / 100 + y / 400.

Lemma days_of_civil_year y m d : 1 <= m <= 12 ->
  days_of_civil y m d = year_days (if m <=? 2 then y - 1 else y) + (153 * (if 2 <? m then m - 3 else m + 9) + 2) / 5 + d - 1 - 719468.
Proof.
  intros Hm. unfold days_of_civil, year_days. set (y' := if m <=? 2 then y - 1 else y). clearbody y'.
  assert (Hy : (y' - y' / 400 * 400) / 4 = y' / 4 - 100 * (y' / 400) /\ (y' - y' / 400 * 400) / 100 = y' / 100 - 4 * (y' / 400))
    by (split; Z.div_mod_to_equations; lia).
  destruct Hy as [-> ->]. lia.
Qed.

Lemma year_days_step y : year_days (y - 1) + 365 <= year_days y.
Proof. unfold year_days. Z.div_mod_to_equations. lia. Qed.

Lemma year_days_mono y k : 0 <= k -> year_days y <= year_days (y + k).
Proof.
  intros Hk. pattern k. apply natlike_ind; [by rewrite Z.add_0_r| |done]. intros x Hx IH.
  pose proof (year_days_step (y + Z.succ x)) as Hs. replace (y + Z.succ x - 1) with (y + x) in Hs by lia. lia.
Qed.

(** A day lies in its year. *)
Lemma year_spans y m d : 1 <= m <= 12 -> 1 <= d <= daysIn m y ->
  year_days (y - 1) + 306 <= days_of_civil y m d + 719468 < year_days y + 306.
Proof.
  intros Hm Hd. rewrite days_of_civil_year by done. pose proof (year_days_step y) as Hs.
  assert (Hc : m = 1 \/ m = 2 \/ m = 3 \/ m = 4 \/ m = 5 \/ m = 6 \/ m = 7 \/ m = 8 \/ m = 9 \/ m = 10 \/ m = 11 \/ m = 12) by lia.
  unfold daysIn in Hd.
  repeat destruct Hc as [->|Hc]; [..|subst m]; cbn [Z.leb Z.ltb Z.eqb Z.compare Pos.compare Pos.compare_cont Pos.eqb orb] in *;
    match goal with |- context [?x / 5] => let v := eval vm_compute in (x / 5) in change (x / 5) with v end; try lia.
  destruct (isLeap y); lia.
Qed.

Lemma civil_year y m d : 1 <= m <= 12 -> 1 <= d <= daysIn m y -> (civil (days_of_civil y m d)).1.1 = y.
Proof.
  intros Hm Hd. destruct (civil (days_of_civil y m d)) as [[y' m'] d'] eqn:Hc. cbn [fst].
  apply civil_spec in Hc as (Hm' & Hd' & Heq). pose proof (year_spans y m d Hm Hd) as H1. pose proof (year_spans y' m' d' Hm' Hd') as H2.
  rewrite Heq in H2. destruct (Z.lt_trichotomy y y') as [Hlt|[->|Hlt]]; [|done|].
  - pose proof (year_days_mono y (y' - 1 - y) ltac:(lia)) as Hmo. replace (y + (y' - 1 - y)) with (y' - 1) in Hmo by lia. lia.
  - pose proof (year_days_mono y' (y - 1 - y') ltac:(lia)) as Hmo. replace (y' + (y - 1 - y')) with (y - 1) in Hmo by lia. lia.
Qed.

Lemma digits_in_range l lo hi x : digits_in l lo hi = Some x -> lo <= x <= hi.
Proof. unfold digits_in. destruct (forallb _ _); [|done]. destruct (_ || _) eqn:H; [done|]. intros [= <-]. lia. Qed.

Lemma zone_offset_range l z : zone_offset l = Some z -> Z.abs z < 86400 /\ z mod 60 = 0.
Proof.
  unfold zone_offset. destruct l as [|sg [|h1 [|h2 [|c [|m1 [|m2 [|? ?]]]]]]]; try done.
  - destruct (sg =? 90); [|done]. by intros [= <-].
  - destruct (digits_in [h1; h2] 0 23) as [hr|] eqn:Hh; [|done]. destruct (digits_in [m1; m2] 0 59) as [mm|] eqn:Hm; [|done].
    apply digits_in_range in Hh. apply digits_in_range in Hm. cbn [mbind option_bind]. destruct (_ && _); [|done].
    intros [= <-]. destruct (sg =? 45); (split; [lia|]); [rewrite Z.mod_opp_l_z|]; try lia; apply Z.mod_mul; lia.
Qed.

Lemma split_fraction_range rest : 0 <= (split_fraction rest).1 < Second.
Proof.
  unfold split_fraction. destruct rest as [|b [|d r]]; [done..|]. destruct ((b =? 46) && is_digit d); [|done].
  destruct (span_digits (tail _)) as [ds r'] eqn:Hs. apply span_digits_sound in Hs as (_ & Hds & _). cbn [fst]. unfold nanos_of.
  set (t := take 9 ds). assert (Ht : Forall (fun b => is_digit b = true) t) by (by apply Forall_take).
  assert (Hl : (length t <= 9)%nat) by (unfold t; rewrite length_take; lia). pose proof (dec_val_bound t Ht) as Hb.
  assert (Hp : 10 ^ Z.of_nat (length t) * 10 ^ (9 - Z.of_nat (length t)) = Second).
  { rewrite <- Z.pow_add_r by lia. by replace (Z.of_nat (length t) + (9 - Z.of_nat (length t))) with 9 by lia. }
  pose proof (Z.pow_pos_nonneg 10 (9 - Z.of_nat (length t)) ltac:(lia) ltac:(lia)). nia.
Qed.

Lemma parse_printable l t : parseRFC3339 l = Some t -> printable t.
Proof.
  unfold parseRFC3339. do 19 (destruct l as [|? l]; [done|]).
  repeat (match goal with |- context [digits_in ?a ?b ?c] => destruct (digits_in a b c) as [?|] eqn:?Hd; cbn [mbind option_bind]; [|done] end).
  destruct (_ && _); [|done]. pose proof (split_fraction_range l) as Hn. destruct (split_fraction l) as [ns rest]. cbn [fst] in Hn.
  destruct (zone_offset rest) as [off|] eqn:Hz; [|done]. cbn [mbind option_bind]. intros [= <-].
  repeat match goal with H : digits_in _ _ _ = Some _ |- _ => apply digits_in_range in H end.
  apply zone_offset_range in Hz. unfold printable. cbn [zone]. split; [|done]. unfold YearOf, local_secs, Date. cbn [nanos zone].
  match goal with |- context [days_of_civil ?y ?m ?d * 86400 + ?h * 3600 + ?mi * 60 + ?s] =>
    replace (((days_of_civil y m d * 86400 + h * 3600 + mi * 60 + s) * Second + ns - off * Second + off * Second) / Second / 86400)
      with (days_of_civil y m d) by (unfold Second in *; Z.div_mod_to_equations; lia) end.
  rewrite civil_year; lia.
Qed.

(** [time.Parse] of RFC 3339 yields such times too. *)
Definition parses_printable {E : Env} : Prop := forall s t, time_Parse_RFC3339 s = Some t -> printable t.

Lemma preserves_time {E : Env} : parses_printable -> preserves printable d_time.
Proof.
  intros Hp n v old x Hv Hold. destruct v as [| | |raw| |]; cbn; try done; [by intros [= <-]|].
  destruct (parseRFC3339 raw) as [t|] eqn:Ht; [|by apply Hp]. intros [= <-]. by eapply parse_printable.
Qed.
#[export] Hint Resolve preserves_time : preserves.
