(* ===== verification/Instances.v ===== *)
(** * Concrete environments

    An environment and a set of third-party functions that satisfy [EnvOk] and
    [LibOk]: they show that the laws can hold, and the witnesses of theorems
    that assume them run on these. The third-party functions are toys (a
    "hash" that is the password itself, credentials that are a counter and a
    name); no theorem depends on what they do. *)

From S2P Require Import Prelude GoStrings GoTime GoFloat GoCrypto GoJson Types World.

(** ** An environment whose clock is [base], [base + 1s], ... *)

(** Insertion sort, the reference for [sort_Slice]. *)
Fixpoint insert_by {A} (less : A -> A -> bool) (x : A) (l : list A) : list A :=
  match l with
  | [] => [x]
  | y :: l' => if less y x then y :: insert_by less x l' else x :: l
  end.

Fixpoint isort {A} (less : A -> A -> bool) (l : list A) : list A :=
  match l with
  | [] => []
  | x :: l' => insert_by less x (isort less l')
  end.

Definition demo_base : Time := Date 2026 1 5 10 0 0 0.

Definition demo_clock (n : nat) : Time := Add demo_base (Z.of_nat n * Second).

(** The environment: maps are walked in the order of their representation,
    random bytes are all [7], regular expressions match by containment. *)
#[global] Instance demo_env : Env := {|
  clock := demo_clock;
  rand_Int := fun n max => if 0 <? max then Ok (Z.of_nat n mod max) else Err "crypto/rand: argument to Int is <= 0";
  rand_Read := fun n len => Ok (replicate len 7);
  range_map := fun A n m => map_to_list m;
  range_mapZ := fun A n m => map_to_list m;
  sort_Slice := fun A n less l => isort less l;
  regexp_MatchString := fun p s => Some (Contains s p);
  unicode_ToLower := fun r => r;
  unicode_ToUpper := fun r => r;
  time_Parse_RFC3339 := fun s => None;
  http_NewRequest := fun url => true;
  math_Log2 := fun x => fsub x (of_int 1);
  math_Sin := fun x => x;
  math_Cos := fun x => fsub (of_int 1) x;
  math_Asin := fun x => x
|}.

(** The same, but maps are walked and ties broken the other way round. *)
Definition demo_env_rev : Env := {|
  clock := demo_clock;
  rand_Int := fun n max => if 0 <? max then Ok (Z.of_nat n mod max) else Err "crypto/rand: argument to Int is <= 0";
  rand_Read := fun n len => Ok (replicate len 7);
  range_map := fun A n m => reverse (map_to_list m);
  range_mapZ := fun A n m => reverse (map_to_list m);
  sort_Slice := fun A n less l => isort less (reverse l);
  regexp_MatchString := fun p s => Some (Contains s p);
  unicode_ToLower := fun r => r;
  unicode_ToUpper := fun r => r;
  time_Parse_RFC3339 := fun s => None;
  http_NewRequest := fun url => true;
  math_Log2 := fun x => fsub x (of_int 1);
  math_Sin := fun x => x;
  math_Cos := fun x => fsub (of_int 1) x;
  math_Asin := fun x => x
|}.

(** ** Toy third-party functions *)

Definition char_x : Ascii.ascii := ascii_of 120.
Definition char_colon : Ascii.ascii := ascii_of 58.

Module DemoCredential.
Record t := mk { ID : string; SignCount : Z; CloneWarning : bool }.
End DemoCredential.

Fixpoint xs (n : nat) (rest : string) : string :=
  match n with O => String char_colon rest | S n' => String char_x (xs n' rest) end.

Fixpoint un_xs (s : string) : option (nat * string) :=
  match s with
  | EmptyString => None
  | String c s' =>
      if bool_decide (c = char_x)
      then match un_xs s' with Some (n, r) => Some (S n, r) | None => None end
      else if bool_decide (c = char_colon) then Some (O, s') else None
  end.

Definition demo_cred_Marshal (c : DemoCredential.t) : result string :=
  if DemoCredential.SignCount c <? 0 then Err "negative counter"
  else Ok (xs (if DemoCredential.CloneWarning c then 1 else 0)
             (xs (Z.to_nat (DemoCredential.SignCount c)) (DemoCredential.ID c))).

Definition demo_cred_Unmarshal (s : string) : result DemoCredential.t :=
  match un_xs s with
  | Some (w, r) =>
      match un_xs r with
      | Some (n, id) => Ok (DemoCredential.mk id (Z.of_nat n) (bool_decide (w = 1%nat)))
      | None => Err "bad credential"
      end
  | None => Err "bad credential"
  end.

Definition demo_session_Unmarshal (s : string) : result string :=
  match s with EmptyString => Err "unexpected end of JSON input" | String _ r => Ok r end.

(** A directory entry is a name and its attributes. *)
Fixpoint demo_values (name : string) (attrs : list (string * list string)) : list string :=
  match attrs with
  | [] => []
  | (k, vs) :: attrs' => if String.eqb k name then vs else demo_values name attrs'
  end.

Definition demo_directory : list (string * list (string * list string)) :=
  [("CN=Bob,OU=Staff,DC=corp", [("sAMAccountName", ["bob"]); ("userAccountControl", ["512"]);
      ("memberOf", ["CN=Backup Operators,CN=Builtin,DC=corp"]);
      ("lastLogonTimestamp", ["132223104000000000"]); ("primaryGroupID", ["513"])]);
   ("CN=svc,OU=Services,DC=corp", [("sAMAccountName", ["svc-sql"]); ("userAccountControl", ["514"]);
      ("servicePrincipalName", ["MSSQL/db"]); ("primaryGroupID", ["0512"])])].

(** The TOTP code of a secret is the secret; an assertion is accepted when it
    spells "ok" and names the first credential, whose counter it increments. *)
#[global] Instance demo_lib : Lib := {|
  uuid_New := fun n => pretty n;
  totp_Generate := fun n issuer account => Ok ("424242", "otpauth://totp/" +:+ issuer +:+ ":" +:+ account);
  totp_Validate := fun t code secret => String.eqb code secret;
  totp_ValidateCustom := fun t code secret => Ok (String.eqb code secret);
  totp_GenerateCode := fun secret t => Ok secret;
  bcrypt_GenerateFromPassword := fun n p => Ok p;
  bcrypt_CompareHashAndPassword := fun h p => String.eqb h p;
  SessionData := string;
  Credential := DemoCredential.t;
  CredentialCreation := string;
  CredentialAssertion := string;
  cred_ID := DemoCredential.ID;
  cred_SignCount := DemoCredential.SignCount;
  cred_CloneWarning := DemoCredential.CloneWarning;
  cred_set_authenticator := fun n w c => DemoCredential.mk (DemoCredential.ID c) n w;
  wa_New := fun id name origins uv => Ok tt;
  wa_BeginRegistration := fun n id name creds => Ok ("create", "s" +:+ pretty n);
  wa_FinishRegistration := fun n id name creds s body => id ← body; Ok (DemoCredential.mk id 0 false);
  wa_BeginLogin := fun n id name creds => Ok ("get", "s" +:+ pretty n);
  wa_FinishLogin := fun n id name creds s body =>
    match creds with
    | c :: _ => if String.eqb body "ok"
                then Ok (DemoCredential.mk (DemoCredential.ID c) (DemoCredential.SignCount c + 1) false)
                else Err "assertion rejected"
    | [] => Err "no credentials"
    end;
  session_Marshal := fun s => Ok (String char_x s);
  session_Unmarshal := demo_session_Unmarshal;
  credential_Marshal := demo_cred_Marshal;
  credential_Unmarshal := demo_cred_Unmarshal;
  assertion_Marshal := fun s => Ok s;
  LdapConn := string;
  LdapEntry := string * list (string * list string);
  ldap_DialURL := fun n url tls => Ok url;
  ldap_Bind := fun n c dn pw => if String.eqb pw "pw" then Ok tt else Err "Invalid Credentials";
  ldap_Search := fun n c base filter attrs => Ok demo_directory;
  entry_DN := fst;
  GetAttributeValues := fun e name => demo_values name e.2;
  GetAttributeValue := fun e name => default "" (head (demo_values name e.2))
|}.

(** A process just after start. *)
Definition demo_world : World demo_lib := mkWorld demo_lib NewMemoryStore 0 None ∅.

(** ** They satisfy the laws *)

Lemma insert_by_perm {A} less (x : A) l : insert_by less x l ≡ₚ x :: l.
Proof.
  induction l as [|y l IH]; [done|]. simpl. destruct (less y x); [|done].
  rewrite IH. apply Permutation_swap.
Qed.

Lemma isort_perm {A} less (l : list A) : isort less l ≡ₚ l.
Proof. induction l as [|x l IH]; [done|]. simpl. by rewrite insert_by_perm, IH. Qed.

Lemma insert_by_sorted {A} less (x : A) l : strict_weak less ->
  StronglySorted (fun a b => less b a = false) l ->
  StronglySorted (fun a b => less b a = false) (insert_by less x l).
Proof.
  intros [Hirr Htr Hinc]. induction 1 as [|y l Hs IH Hall]; simpl; [by repeat constructor|].
  destruct (less y x) eqn:Hyx.
  - constructor; [done|]. rewrite insert_by_perm. constructor; [|done].
    destruct (less x y) eqn:Hxy; [|done].
    pose proof (Htr _ _ _ Hyx Hxy) as Hyy. by rewrite Hirr in Hyy.
  - constructor; [by constructor|]. constructor; [done|].
    eapply Forall_impl; [exact Hall|]. intros z Hz. simpl in *. by apply (Hinc x y z).
Qed.

Lemma isort_sorted {A} less (l : list A) : strict_weak less ->
  StronglySorted (fun a b => less b a = false) (isort less l).
Proof.
  intros H. induction l as [|x l IH]; simpl; [constructor|]. by apply insert_by_sorted.
Qed.

Lemma demo_rand_bound (n : nat) max k : 0 < max ->
  (if 0 <? max then Ok (Z.of_nat n mod max) else Err "crypto/rand: argument to Int is <= 0") = Ok k ->
  0 <= k < max.
Proof.
  intros H. rewrite (proj2 (Z.ltb_lt _ _) H). intros [= <-]. by apply Z.mod_pos_bound.
Qed.

#[global] Instance demo_env_ok : EnvOk demo_env.
Proof.
  split; simpl; intros; auto using isort_perm, isort_sorted.
  - by eapply demo_rand_bound.
  - simplify_eq. by rewrite length_replicate.
  - simplify_eq. by apply Forall_replicate.
Qed.

Lemma demo_env_rev_ok : EnvOk demo_env_rev.
Proof.
  split; simpl; intros; auto using reverse_Permutation, isort_sorted.
  - by rewrite isort_perm, reverse_Permutation.
  - by eapply demo_rand_bound.
  - simplify_eq. by rewrite length_replicate.
  - simplify_eq. by apply Forall_replicate.
Qed.

Lemma un_xs_xs n r : un_xs (xs n r) = Some (n, r).
Proof. induction n as [|n IH]; [done|]. simpl. by rewrite IH. Qed.

#[global] Instance demo_lib_ok : LibOk demo_lib.
Proof.
  split; simpl; try done.
  - intros m n H. by apply (inj pretty) in H.
  - intros _ p h [= <-]. apply String.eqb_refl.
  - by intros s j [= <-].
  - intros c j. unfold demo_cred_Marshal, demo_cred_Unmarshal.
    destruct (DemoCredential.SignCount c <? 0) eqn:Hn; [done|]. intros [= <-].
    rewrite un_xs_xs, un_xs_xs. rewrite Z2Nat.id by (apply Z.ltb_ge in Hn; lia).
    by destruct c as [id n []].
Qed.
