(* ===== verification/Storage.v ===== *)
(** * core/internal/storage: the store interface and the memory store

    The nine sub-stores are dictionaries from string keys; [Table] is the
    interface one sub-store gives its clients, and the operations are stated
    once against it. The modules at the end name the operations of each
    sub-store as the Go interfaces do. The audit log is in file AuditLog. *)

From S2P Require Import Prelude GoStrings GoTime GoFloat GoJson Types World.

(** ** One sub-store *)

Class Table (A : Type) := {
  tbl : MemoryStore.t -> gmap string A;
  set_tbl : gmap string A -> MemoryStore.t -> MemoryStore.t;
  key : A -> string
}.

(** Writing one sub-store reads back, and leaves the audit log alone. *)
Class TableOk (A : Type) (T : Table A) : Prop := {
  tbl_set : forall m s, tbl (set_tbl m s) = m;
  set_tbl_set : forall m m' s, set_tbl m (set_tbl m' s) = set_tbl m s;
  set_tbl_id : forall s, set_tbl (tbl s) s = s;
  audit_set_tbl : forall m s, MemoryStore.auditEvents (set_tbl m s) = MemoryStore.auditEvents s
    /\ MemoryStore.auditLastHash (set_tbl m s) = MemoryStore.auditLastHash s
}.

#[global] Instance identity_table : Table Identity.t :=
  {| tbl := MemoryStore.identities; set_tbl := MemoryStore.set_identities; key := Identity.ID |}.
#[global] Instance device_table : Table Device.t :=
  {| tbl := MemoryStore.devices; set_tbl := MemoryStore.set_devices; key := Device.ID |}.
#[global] Instance resource_table : Table Resource.t :=
  {| tbl := MemoryStore.resources; set_tbl := MemoryStore.set_resources; key := Resource.ID |}.
#[global] Instance adapter_table : Table Adapter.t :=
  {| tbl := MemoryStore.adapters; set_tbl := MemoryStore.set_adapters; key := Adapter.ID |}.
#[global] Instance policy_table : Table Policy.t :=
  {| tbl := MemoryStore.policies; set_tbl := MemoryStore.set_policies; key := Policy.ID |}.
#[global] Instance challenge_table : Table Challenge.t :=
  {| tbl := MemoryStore.challenges; set_tbl := MemoryStore.set_challenges; key := Challenge.ID |}.
#[global] Instance factor_table : Table Factor.t :=
  {| tbl := MemoryStore.factors; set_tbl := MemoryStore.set_factors; key := Factor.ID |}.
#[global] Instance token_table : Table AuthToken.t :=
  {| tbl := MemoryStore.authTokens; set_tbl := MemoryStore.set_authTokens; key := AuthToken.ID |}.
#[global] Instance profile_table : Table BehaviouralProfile.t :=
  {| tbl := MemoryStore.behaviouralProfiles; set_tbl := MemoryStore.set_behaviouralProfiles;
     key := BehaviouralProfile.AccountSID |}.

Definition notFound (id : string) : string := "not found: " +:+ id.

Section Operations.
Context {L : Lib} {E : Env} {A : Type} {T : Table A}.

(** [m[v.ID] = v]. *)
Definition tbl_put (v : A) : M unit :=
  modify_store (fun s => set_tbl (<[key v := v]> (tbl s)) s).

Definition tbl_Create (v : A) : M (result unit) :=
  _ ← tbl_put v; mret (Ok tt).

Definition tbl_Get (id : string) : M (result A) :=
  m ← gets (fun w => tbl (store w));
  mret (match m !! id with Some v => Ok v | None => Err (notFound id) end).

(** [for _, v := range m]: the values, in the order the runtime picks. *)
Definition tbl_range : M (list A) :=
  m ← gets (fun w => tbl (store w));
  ask (fun n => (range_map n m).*2).

Definition tbl_List : M (result (list A)) :=
  vs ← tbl_range; mret (Ok vs).

(** The first value in walking order that satisfies [p]. *)
Definition tbl_Find (p : A -> bool) (what : string) : M (result A) :=
  vs ← tbl_range;
  mret (match find p vs with Some v => Ok v | None => Err (notFound what) end).

Definition tbl_ListBy (p : A -> bool) : M (result (list A)) :=
  vs ← tbl_range; mret (Ok (base.filter (fun v => p v = true) vs)).

Definition tbl_Update (v : A) : M (result unit) :=
  m ← gets (fun w => tbl (store w));
  match m !! key v with
  | None => mret (Err (notFound (key v)))
  | Some _ => _ ← tbl_put v; mret (Ok tt)
  end.

Definition tbl_Delete (id : string) : M (result unit) :=
  _ ← modify_store (fun s => set_tbl (delete id (tbl s)) s); mret (Ok tt).

(** [v.Field = x] through a pointer [v] that the store handed out: the stored
    object changes at once, and [v] is the changed object. *)
Definition assign (f : A -> A) (v : A) : M A :=
  _ ← modify_store (fun s => set_tbl (alter (fun _ => f v) (key v) (tbl s)) s);
  mret (f v).
End Operations.

(** ** The sub-stores, by the names of the Go interfaces *)

Module Identities.
Section Ops.
Context {L : Lib} {E : Env}.
Definition Create := tbl_Create (A := Identity.t).
Definition Get := tbl_Get (A := Identity.t).
Definition GetByUsername (username : string) : M (result Identity.t) :=
  tbl_Find (fun v => bool_decide (Identity.Username v = username)) username.
Definition List_ := tbl_List (A := Identity.t).
Definition Update := tbl_Update (A := Identity.t).
Definition Delete := tbl_Delete (A := Identity.t).
End Ops.
End Identities.

Module Devices.
Section Ops.
Context {L : Lib} {E : Env}.
Definition Create := tbl_Create (A := Device.t).
Definition Get := tbl_Get (A := Device.t).
Definition List_ := tbl_List (A := Device.t).
Definition ListByIdentity (identityID : string) : M (result (list Device.t)) :=
  tbl_ListBy (fun v => bool_decide (Device.IdentityID v = identityID)).
Definition Delete := tbl_Delete (A := Device.t).
End Ops.
End Devices.

Module Resources.
Section Ops.
Context {L : Lib} {E : Env}.
Definition Create := tbl_Create (A := Resource.t).
Definition Get := tbl_Get (A := Resource.t).
Definition List_ := tbl_List (A := Resource.t).
Definition Delete := tbl_Delete (A := Resource.t).
End Ops.
End Resources.

Module Adapters.
Section Ops.
Context {L : Lib} {E : Env}.
Definition Create := tbl_Create (A := Adapter.t).
Definition Get := tbl_Get (A := Adapter.t).
Definition List_ := tbl_List (A := Adapter.t).
Definition Delete := tbl_Delete (A := Adapter.t).
End Ops.
End Adapters.

Module Policies.
Section Ops.
Context {L : Lib} {E : Env}.
Definition Create := tbl_Create (A := Policy.t).
Definition Get := tbl_Get (A := Policy.t).
Definition List_ := tbl_List (A := Policy.t).
Definition Update := tbl_Update (A := Policy.t).
Definition Delete := tbl_Delete (A := Policy.t).
End Ops.
End Policies.

Module Challenges.
Section Ops.
Context {L : Lib} {E : Env}.
Definition Create := tbl_Create (A := Challenge.t).
Definition Get := tbl_Get (A := Challenge.t).
Definition Update := tbl_Update (A := Challenge.t).
Definition List_ := tbl_List (A := Challenge.t).
End Ops.
End Challenges.

Module Factors.
Section Ops.
Context {L : Lib} {E : Env}.
Definition Create := tbl_Create (A := Factor.t).
Definition Get := tbl_Get (A := Factor.t).
Definition ListByIdentity (identityID : string) : M (result (list Factor.t)) :=
  tbl_ListBy (fun v => bool_decide (Factor.IdentityID v = identityID)).
Definition Update := tbl_Update (A := Factor.t).
Definition Delete := tbl_Delete (A := Factor.t).
End Ops.
End Factors.

Module AuthTokens.
Section Ops.
Context {L : Lib} {E : Env}.
Definition Create := tbl_Create (A := AuthToken.t).
Definition GetByHash (hash : string) : M (result AuthToken.t) :=
  tbl_Find (fun v => bool_decide (AuthToken.TokenHash v = hash)) hash.
Definition List_ := tbl_List (A := AuthToken.t).
Definition Revoke (id : string) : M (result unit) :=
  r ← tbl_Get id;
  match r with
  | Err e => mret (Err e)
  | Ok v => _ ← assign (AuthToken.set_Revoked true) v; mret (Ok tt)
  end.
End Ops.
End AuthTokens.

Module BehaviouralProfiles.
Section Ops.
Context {L : Lib} {E : Env}.
Definition Get := tbl_Get (A := BehaviouralProfile.t).
Definition Upsert := tbl_Create (A := BehaviouralProfile.t).
Definition List_ := tbl_List (A := BehaviouralProfile.t).
Definition Delete := tbl_Delete (A := BehaviouralProfile.t).
End Ops.
End BehaviouralProfiles.

(** ** Facts *)

#[global] Instance identity_table_ok : TableOk Identity.t identity_table.
Proof. by split; intros; try destruct s. Qed.
#[global] Instance device_table_ok : TableOk Device.t device_table.
Proof. by split; intros; try destruct s. Qed.
#[global] Instance resource_table_ok : TableOk Resource.t resource_table.
Proof. by split; intros; try destruct s. Qed.
#[global] Instance adapter_table_ok : TableOk Adapter.t adapter_table.
Proof. by split; intros; try destruct s. Qed.
#[global] Instance policy_table_ok : TableOk Policy.t policy_table.
Proof. by split; intros; try destruct s. Qed.
#[global] Instance challenge_table_ok : TableOk Challenge.t challenge_table.
Proof. by split; intros; try destruct s. Qed.
#[global] Instance factor_table_ok : TableOk Factor.t factor_table.
Proof. by split; intros; try destruct s. Qed.
#[global] Instance token_table_ok : TableOk AuthToken.t token_table.
Proof. by split; intros; try destruct s. Qed.
#[global] Instance profile_table_ok : TableOk BehaviouralProfile.t profile_table.
Proof. by split; intros; try destruct s. Qed.

Section Facts.
Context {L : Lib} {E : Env} {A : Type} {T : Table A}.

(** The part of the world one sub-store is. *)
Definition rows (w : World L) : gmap string A := tbl (store w).

(** Every object is stored under its own key. *)
Definition keyed (w : World L) : Prop := forall id v, rows w !! id = Some v -> key v = id.

Lemma tbl_Get_run id (w : World L) :
  tbl_Get id w = (match rows w !! id with Some v => Ok v | None => Err (notFound id) end, w).
Proof. done. Qed.

Lemma tbl_Create_run (v : A) (w : World L) :
  tbl_Create v w = (Ok tt, set_store (set_tbl (<[key v := v]> (rows w)) (store w)) w).
Proof. done. Qed.

Lemma tbl_Update_run (v : A) (w : World L) :
  tbl_Update v w =
    match rows w !! key v with
    | None => (Err (notFound (key v)), w)
    | Some _ => (Ok tt, set_store (set_tbl (<[key v := v]> (rows w)) (store w)) w)
    end.
Proof. unfold tbl_Update. st_unfold. unfold gets, rows. by destruct (tbl (store w) !! key v). Qed.

Lemma tbl_Delete_run id (w : World L) :
  tbl_Delete id w = (Ok tt, set_store (set_tbl (delete id (rows w)) (store w)) w).
Proof. done. Qed.

Lemma assign_run f (v : A) (w : World L) :
  assign f v w = (f v, set_store (set_tbl (alter (fun _ => f v) (key v) (rows w)) (store w)) w).
Proof. done. Qed.

Lemma tbl_range_run (w : World L) :
  tbl_range w = ((range_map (tick w) (rows w)).*2, set_tick (S (tick w)) w).
Proof. done. Qed.

Context {TOk : TableOk A T}.

Lemma rows_set_store m (w : World L) : rows (set_store (set_tbl m (store w)) w) = m.
Proof. unfold rows. apply tbl_set. Qed.

(** Walking a map visits every stored object exactly once. *)
Lemma tbl_range_elem `{!EnvOk E} (w : World L) v :
  v ∈ (tbl_range w).1 <-> exists id, rows w !! id = Some v.
Proof.
  rewrite tbl_range_run. simpl. rewrite range_map_perm, list_elem_of_fmap. split.
  - intros [[id v'] [-> Hin]]. exists id. by apply elem_of_map_to_list in Hin.
  - intros [id Hid]. exists (id, v). split; [done|]. by apply elem_of_map_to_list.
Qed.

(** [assign] followed by [Update] is one write: the store already has the
    new object when [Update] runs. *)
Lemma assign_update f (v : A) (w : World L) v' :
  rows w !! key v = Some v' -> key (f v) = key v ->
  (let '(u, w1) := assign f v w in tbl_Update u w1)
  = (Ok tt, set_store (set_tbl (<[key v := f v]> (rows w)) (store w)) w).
Proof.
  intros Hv Hk. rewrite assign_run. rewrite tbl_Update_run, rows_set_store.
  rewrite Hk, lookup_alter_eq, Hv. simpl. unfold set_store. simpl. rewrite set_tbl_set.
  assert (<[key v := f v]> (alter (fun _ => f v) (key v) (rows w)) = <[key v := f v]> (rows w))
    as ->; [|done].
  apply map_eq. intros i. destruct (decide (i = key v)) as [->|Hne].
  - by rewrite !lookup_insert_eq.
  - by rewrite !lookup_insert_ne, lookup_alter_ne by done.
Qed.

Lemma keyed_empty (w : World L) : rows w = ∅ -> keyed w.
Proof. intros Hw id v. by rewrite Hw, lookup_empty. Qed.

Lemma keyed_insert m (w : World L) v :
  keyed w -> m = <[key v := v]> (rows w) -> keyed (set_store (set_tbl m (store w)) w).
Proof.
  intros Hk -> id v' H. rewrite rows_set_store in H.
  apply lookup_insert_Some in H as [[<- <-]|[_ H]]; [done|by apply Hk].
Qed.
End Facts.
