(* ===== verification/AuditLog.v ===== *)
(** * core/internal/audit and the audit store of core/internal/storage

    The audit log is a list of events, each carrying the SHA-256 of the
    previous hash followed by the event's own JSON. [Emit] reads the last hash
    and appends in two separate critical sections; the interleavings of
    concurrent emitters are the step relation at the end of the definitions. *)

From S2P Require Import Prelude GoStrings GoTime GoFloat GoCrypto GoJson Types World Instances Storage.

(** ** Hashing *)

Definition member (k v : string) : string := json_string k +:+ ":" +:+ v.
Definition member_if (present : bool) (k v : string) : list string :=
  if present then [member k v] else [].

Definition json_object (ms : list string) : string := "{" +:+ comma ms +:+ "}".

Definition actor_json (a : AuditActor.t) : string :=
  json_object [member "type" (json_string (ActorType_string (AuditActor.Type_ a)));
               member "id" (json_string (AuditActor.ID a))].

Definition target_json (t : AuditTarget.t) : string :=
  json_object [member "type" (json_string (TargetType_string (AuditTarget.Type_ t)));
               member "id" (json_string (AuditTarget.ID t))].

(** [json.Marshal(noHash)]: fails on a time or a number JSON cannot hold. *)
Definition event_json (prevHash : string) (e : AuditEvent.t) : result string :=
  ts ← Time_MarshalJSON (AuditEvent.Timestamp e);
  md ← Marshal (AObj (AuditEvent.Metadata e));
  Ok (json_object (
    [member "id" (json_string (AuditEvent.ID e));
     member "timestamp" ts;
     member "type" (json_string (AuditEvent.Type_ e));
     member "actor" (actor_json (AuditEvent.Actor e));
     member "target" (target_json (AuditEvent.Target e))] ++
    member_if (negb (String.eqb (AuditEvent.Decision_ e) "")) "decision"
      (json_string (AuditEvent.Decision_ e)) ++
    member_if (negb (AuditEvent.RiskScore e =? 0)) "risk_score" (pretty (AuditEvent.RiskScore e)) ++
    member_if (negb (bool_decide (AuditEvent.Reasons e = []))) "reasons"
      (json_strings (Some (AuditEvent.Reasons e))) ++
    member_if (negb (bool_decide (length (AuditEvent.Metadata e) = 0%nat))) "metadata" md ++
    [member "previous_hash" (json_string prevHash)])).

(** [data, _ := json.Marshal(noHash)]: no bytes when marshalling fails. *)
Definition event_data (prevHash : string) (e : AuditEvent.t) : list Z :=
  match event_json prevHash e with Ok d => bytes d | Err _ => [] end.

Definition hash_input (prevHash : string) (e : AuditEvent.t) : list Z :=
  bytes prevHash ++ event_data prevHash e.

Definition computeAuditHash (prevHash : string) (e : AuditEvent.t) : string :=
  EncodeToString (Sum256 (hash_input prevHash e)).

(** The service's own copy hashes the event's [PreviousHash] field. *)
Definition computeHash (prevHash : string) (e : AuditEvent.t) : string :=
  EncodeToString (Sum256 (bytes prevHash ++ event_data (AuditEvent.PreviousHash e) e)).

(** ** The store's operations *)

Definition link (prevHash : string) (e : AuditEvent.t) : AuditEvent.t :=
  let e := AuditEvent.set_PreviousHash prevHash e in
  AuditEvent.set_Hash (computeAuditHash prevHash e) e.

Definition append_event (e : AuditEvent.t) (s : MemoryStore.t) : MemoryStore.t :=
  let e := link (MemoryStore.auditLastHash s) e in
  MemoryStore.set_audit (MemoryStore.auditEvents s ++ [e]) (AuditEvent.Hash e) s.

Module AuditFilter.
Record t := mk {
  IdentityID : string;
  ResourceType : string;
  Decision_ : string;
  RiskScoreMin : Z;
  Type_ : string;
  Since : string;
  Until : string;
  Limit : Z
}.
End AuditFilter.

(** The loop of [Verify]: [i] is the index of the next event. *)
Fixpoint verify_loop (prevHash : string) (i : Z) (es : list AuditEvent.t) : bool * Z :=
  match es with
  | [] => (true, i)
  | e :: es' =>
      if String.eqb (AuditEvent.Hash e) (computeAuditHash prevHash e)
      then verify_loop (AuditEvent.Hash e) (i + 1) es'
      else (false, i)
  end.

Section Store.
Context {L : Lib} {E : Env}.

Definition nonempty (s : string) : bool := negb (String.eqb s "").

(** [bound] was given, is a date, and [bad date] holds of it. *)
Definition out_of_bound (bound : string) (bad : Time -> bool) : bool :=
  nonempty bound &&
  match time_Parse_RFC3339 bound with Some t => bad t | None => false end.

(** The [continue] guards of [List], in order. *)
Definition rejected (f : AuditFilter.t) (e : AuditEvent.t) : bool :=
  nonempty (AuditFilter.Type_ f) && negb (String.eqb (AuditEvent.Type_ e) (AuditFilter.Type_ f))
  || nonempty (AuditFilter.Decision_ f)
     && negb (String.eqb (AuditEvent.Decision_ e) (AuditFilter.Decision_ f))
  || nonempty (AuditFilter.IdentityID f)
     && negb (String.eqb (AuditActor.ID (AuditEvent.Actor e)) (AuditFilter.IdentityID f))
  || nonempty (AuditFilter.ResourceType f)
     && negb (String.eqb (TargetType_string (AuditTarget.Type_ (AuditEvent.Target e)))
                         (AuditFilter.ResourceType f))
  || (0 <? AuditFilter.RiskScoreMin f) && (AuditEvent.RiskScore e <? AuditFilter.RiskScoreMin f)
  || out_of_bound (AuditFilter.Since f) (fun t => Before (AuditEvent.Timestamp e) t)
  || out_of_bound (AuditFilter.Until f) (fun t => After (AuditEvent.Timestamp e) t).

(** The loop of [List], with the events found so far. *)
Fixpoint list_loop (f : AuditFilter.t) (found : list AuditEvent.t) (es : list AuditEvent.t)
    : list AuditEvent.t :=
  match es with
  | [] => found
  | e :: es' =>
      if rejected f e then list_loop f found es'
      else
        let found := found ++ [e] in
        if (0 <? AuditFilter.Limit f) && (AuditFilter.Limit f <=? Z.of_nat (length found))
        then found
        else list_loop f found es'
  end.

Definition Append (e : AuditEvent.t) : M (result unit) :=
  _ ← modify_store (append_event e); mret (Ok tt).

Definition GetLastHash : M (result string) :=
  h ← gets (fun w => MemoryStore.auditLastHash (store w)); mret (Ok h).

Definition List_ (f : AuditFilter.t) : M (result (list AuditEvent.t)) :=
  es ← gets (fun w => MemoryStore.auditEvents (store w)); mret (Ok (list_loop f [] es)).

Definition Verify : M (result (bool * Z)) :=
  es ← gets (fun w => MemoryStore.auditEvents (store w)); mret (Ok (verify_loop "" 0 es)).

(** ** The service *)

Definition Emit (eventType : string) (actor : AuditActor.t) (target : AuditTarget.t)
    (decision : Decision) (riskScore : Z) (reasons : list string)
    (metadata : list (string * any)) : M (result unit) :=
  prevHash ←? GetLastHash;
  id ← NewID;
  now ← Now;
  let event := AuditEvent.mk id (UTC now) eventType actor target decision riskScore reasons
                 metadata prevHash "" in
  let event := AuditEvent.set_Hash (computeHash prevHash event) event in
  Append event.
End Store.

(** ** Chains *)

(** Each hash covers the event and the hash before it. *)
Fixpoint chain (prev : string) (es : list AuditEvent.t) : Prop :=
  match es with
  | [] => True
  | e :: es' => AuditEvent.Hash e = computeAuditHash prev e /\ chain (AuditEvent.Hash e) es'
  end.

(** Each event names the hash before it. *)
Fixpoint linked (prev : string) (es : list AuditEvent.t) : Prop :=
  match es with
  | [] => True
  | e :: es' => AuditEvent.PreviousHash e = prev /\ linked (AuditEvent.Hash e) es'
  end.

Definition last_hash (es : list AuditEvent.t) : string := default "" (AuditEvent.Hash <$> last es).

(** The invariant of the audit part of the store. *)
Definition audit_ok (s : MemoryStore.t) : Prop :=
  chain "" (MemoryStore.auditEvents s) /\ linked "" (MemoryStore.auditEvents s) /\
  MemoryStore.auditLastHash s = last_hash (MemoryStore.auditEvents s).

(** The byte strings hashed along a log. *)
Fixpoint hash_inputs (prev : string) (es : list AuditEvent.t) : list (list Z) :=
  match es with
  | [] => []
  | e :: es' => hash_input prev e :: hash_inputs (AuditEvent.Hash e) es'
  end.

(** The serialised events along a log: what the hashes protect. *)
Fixpoint contents (prev : string) (es : list AuditEvent.t) : list (list Z) :=
  match es with
  | [] => []
  | e :: es' => event_data prev e :: contents (AuditEvent.Hash e) es'
  end.

(** ** Concurrent emitters

    An emitter is about to read the last hash, or has read [prev] and is about
    to append an event built with it, or is done. *)
Inductive emitter :=
| Reading (e : AuditEvent.t)
| Appending (prev : string) (e : AuditEvent.t)
| Finished.

Definition finished (t : emitter) : bool := match t with Finished => true | _ => false end.

Inductive emit_step : list emitter * MemoryStore.t -> list emitter * MemoryStore.t -> Prop :=
| step_read ts i e s :
    ts !! i = Some (Reading e) ->
    emit_step (ts, s) (<[i := Appending (MemoryStore.auditLastHash s) e]> ts, s)
| step_append ts i prev e s :
    ts !! i = Some (Appending prev e) ->
    let e := AuditEvent.set_PreviousHash prev e in
    let e := AuditEvent.set_Hash (computeHash prev e) e in
    emit_step (ts, s) (<[i := Finished]> ts, append_event e s).

(** ** Concrete data *)

Definition demo_actor : AuditActor.t := AuditActor.mk ActorUser "alice".
Definition demo_target : AuditTarget.t := AuditTarget.mk TargetResource "db01".
Definition demo_emit : M (result unit) :=
  Emit "access.evaluate" demo_actor demo_target DecisionAllow 10 ["ok"] [("k", AStr "v")].
Definition demo_event (id : string) : AuditEvent.t :=
  AuditEvent.mk id demo_base "access.evaluate" demo_actor demo_target DecisionDeny 90 [] [] "" "".

Example demo_emit_verifies :
  let w := (demo_emit (demo_emit demo_world).2).2 in (Verify w).1 = Ok (true, 2).
Proof. vm_compute. reflexivity. Qed.

(** ** Facts *)

Lemma chain_app prev es es' :
  chain prev (es ++ es') <-> chain prev es /\ chain (default prev (AuditEvent.Hash <$> last es)) es'.
Proof.
  revert prev. induction es as [|e es IH]; intros prev; [simpl; tauto|].
  cbn [app chain linked].
  rewrite IH, last_cons. destruct (last es); simpl; tauto.
Qed.

Lemma linked_app prev es es' :
  linked prev (es ++ es') <-> linked prev es /\ linked (default prev (AuditEvent.Hash <$> last es)) es'.
Proof.
  revert prev. induction es as [|e es IH]; intros prev; [simpl; tauto|].
  cbn [app chain linked].
  rewrite IH, last_cons. destruct (last es); simpl; tauto.
Qed.

Lemma chain_snoc es e :
  chain "" (es ++ [e]) <-> chain "" es /\ AuditEvent.Hash e = computeAuditHash (last_hash es) e.
Proof. rewrite chain_app. unfold last_hash. simpl. tauto. Qed.

Lemma last_hash_snoc es e : last_hash (es ++ [e]) = AuditEvent.Hash e.
Proof. unfold last_hash. by rewrite last_snoc. Qed.

(** The hash of an event does not depend on its own hash fields. *)
Lemma event_json_irrel prev h h' e :
  event_json prev (AuditEvent.set_Hash h (AuditEvent.set_PreviousHash h' e)) = event_json prev e.
Proof. by destruct e. Qed.

Lemma computeAuditHash_irrel prev h h' e :
  computeAuditHash prev (AuditEvent.set_Hash h (AuditEvent.set_PreviousHash h' e))
  = computeAuditHash prev e.
Proof. unfold computeAuditHash, hash_input, event_data. by rewrite event_json_irrel. Qed.

Lemma link_hash prev e : AuditEvent.Hash (link prev e) = computeAuditHash prev (link prev e).
Proof.
  unfold link. cbn [AuditEvent.Hash AuditEvent.set_Hash]. rewrite computeAuditHash_irrel.
  unfold computeAuditHash, hash_input, event_data.
  apply (f_equal (fun d => EncodeToString (Sum256 (bytes prev ++ match d with Ok d => bytes d | Err _ => [] end)))).
  by destruct e.
Qed.

Lemma link_prev prev e : AuditEvent.PreviousHash (link prev e) = prev.
Proof. done. Qed.

Lemma append_event_ok e s : audit_ok s -> audit_ok (append_event e s).
Proof.
  intros (Hc & Hl & Hh). unfold append_event, audit_ok. cbn -[link last_hash].
  rewrite last_hash_snoc. split_and!; [|apply linked_app; split; [done|]|done].
  - apply chain_snoc. split; [done|]. rewrite <- Hh. apply link_hash.
  - simpl. by rewrite Hh.
Qed.

Lemma verify_loop_true prev i es :
  chain prev es -> verify_loop prev i es = (true, i + Z.of_nat (length es)).
Proof.
  revert prev i. induction es as [|e es IH]; intros prev i; simpl; [intros _; f_equal; lia|].
  intros [He Hc]. rewrite (proj2 (String.eqb_eq _ _) He), IH by done. f_equal. lia.
Qed.

Lemma verify_loop_chain prev i es n : verify_loop prev i es = (true, n) -> chain prev es.
Proof.
  revert prev i. induction es as [|e es IH]; intros prev i; simpl; [done|].
  destruct (String.eqb_spec (AuditEvent.Hash e) (computeAuditHash prev e)); [|done].
  intros Hv. split; [done|]. by eapply IH.
Qed.

Lemma verify_loop_false prev i es n : verify_loop prev i es = (false, n) ->
  exists es1 e es2, es = es1 ++ e :: es2 /\ n = i + Z.of_nat (length es1) /\ chain prev es1 /\
    AuditEvent.Hash e <> computeAuditHash (default prev (AuditEvent.Hash <$> last es1)) e.
Proof.
  revert prev i. induction es as [|e es IH]; intros prev i; simpl; [done|].
  destruct (String.eqb_spec (AuditEvent.Hash e) (computeAuditHash prev e)) as [He|He]; intros Hv.
  - apply IH in Hv as (es1 & e' & es2 & -> & -> & Hc & Hne).
    exists (e :: es1), e', es2. simpl. split_and!; [done|lia|done|done|].
    rewrite last_cons. by destruct (last es1).
  - injection Hv as <-. exists [], e, es. simpl. split_and!; [done|lia|done|done].
Qed.

Lemma list_loop_spec `{Env} f found es :
  (0 < AuditFilter.Limit f -> Z.of_nat (length found) < AuditFilter.Limit f) ->
  list_loop f found es =
    let all := found ++ base.filter (fun e => rejected f e = false) es in
    if 0 <? AuditFilter.Limit f then take (Z.to_nat (AuditFilter.Limit f)) all else all.
Proof.
  revert found. induction es as [|e es IH]; intros found Hlen; cbn -[take].
  { rewrite app_nil_r. destruct (Z.ltb_spec 0 (AuditFilter.Limit f)); [|done].
    rewrite take_ge; [done|]. lia. }
  destruct (rejected f e) eqn:Hr.
  { rewrite IH by done. by rewrite decide_False by congruence. }
  rewrite decide_True by done.
  destruct (Z.ltb_spec 0 (AuditFilter.Limit f)) as [Hpos|Hpos]; cbn -[take].
  - rewrite length_app. simpl. destruct (Z.leb_spec (AuditFilter.Limit f) (Z.of_nat (length found + 1))).
    + rewrite take_app_ge by lia. replace (Z.to_nat _ - length found)%nat with 1%nat by lia. done.
    + rewrite IH by (intros; rewrite length_app; simpl; lia). cbv zeta. by rewrite <- app_assoc.
  - rewrite IH by lia. cbv zeta. by rewrite <- app_assoc.
Qed.

(** A hash is 64 hexadecimal digits. *)
Lemma computeAuditHash_bytes prev e : exists l,
  Forall is_byte l /\ length l = 32%nat /\ bytes (computeAuditHash prev e) = concat (hex_byte <$> l).
Proof.
  exists (Sum256 (hash_input prev e)). split_and!; [apply Sum256_range|apply length_Sum256|].
  apply bytes_hex, Sum256_range.
Qed.


Lemma length_hex l : length (concat (hex_byte <$> l)) = (2 * length l)%nat.
Proof. induction l as [|b l IH]; [done|]. cbn [fmap list_fmap concat]. rewrite length_app, IH. simpl. lia. Qed.

Lemma hash_bytes prev e : length (bytes (computeAuditHash prev e)) = 64%nat /\
  exists c r, bytes (computeAuditHash prev e) = c :: r /\ c <> 123.
Proof.
  destruct (computeAuditHash_bytes prev e) as (l & Hb & Hl & ->). split; [by rewrite length_hex, Hl|].
  destruct l as [|b l]; [done|]. cbn. eexists _, _. split; [done|].
  apply Forall_cons in Hb as [Hb _]. apply hex_digit_range, nibbles, Hb.
Qed.

Lemma event_data_head prev e : event_data prev e = [] \/ exists r, event_data prev e = 123 :: r.
Proof.
  unfold event_data. destruct (event_json prev e) as [d|] eqn:Hj; [right|by left].
  unfold event_json, mbind, result_bind in Hj.
  destruct (Time_MarshalJSON _); [|done]. destruct (Marshal _); [|done].
  injection Hj as <-. unfold json_object. eexists. reflexivity.
Qed.

Lemma last_hash_cases es : chain "" es ->
  es = [] /\ last_hash es = "" \/ exists prev e, last_hash es = computeAuditHash prev e.
Proof.
  induction es as [|e es _] using rev_ind; intros Hc; [by left|right].
  apply chain_snoc in Hc as [_ He]. rewrite last_hash_snoc, He. eauto.
Qed.

Lemma hash_inputs_snoc prev es e : hash_inputs prev (es ++ [e])
  = hash_inputs prev es ++ [hash_input (default prev (AuditEvent.Hash <$> last es)) e].
Proof.
  revert prev. induction es as [|e' es IH]; intros prev; [done|].
  cbn [app hash_inputs]. rewrite IH, last_cons. by destruct (last es).
Qed.

Lemma contents_snoc prev es e : contents prev (es ++ [e])
  = contents prev es ++ [event_data (default prev (AuditEvent.Hash <$> last es)) e].
Proof.
  revert prev. induction es as [|e' es IH]; intros prev; [done|].
  cbn [app contents]. rewrite IH, last_cons. by destruct (last es).
Qed.

(** Equal hash inputs split into equal previous hashes and equal events. *)
Lemma hash_input_split es es' e e' : chain "" es -> chain "" es' ->
  hash_input (last_hash es) e = hash_input (last_hash es') e' ->
  last_hash es = last_hash es' /\
  event_data (last_hash es) e = event_data (last_hash es') e'.
Proof.
  unfold hash_input. intros Hc Hc' Heq.
  destruct (last_hash_cases es Hc) as [[_ H]|(p & x & H)],
    (last_hash_cases es' Hc') as [[_ H']|(p' & x' & H')]; rewrite H, H' in *.
  - split; [reflexivity|exact Heq].
  - destruct (hash_bytes p' x') as [_ (c & r & Hb & Hne)]. rewrite Hb in Heq. change (bytes "") with (@nil Z) in Heq. cbn [app] in Heq.
    destruct (event_data_head "" e) as [Hd|[r' Hd]]; rewrite Hd in Heq; congruence.
  - destruct (hash_bytes p x) as [_ (c & r & Hb & Hne)]. rewrite Hb in Heq. change (bytes "") with (@nil Z) in Heq. cbn [app] in Heq.
    destruct (event_data_head "" e') as [Hd|[r' Hd]]; rewrite Hd in Heq; congruence.
  - apply app_inj_1 in Heq as [Hp Hd]; [by apply bytes_inj in Hp|].
    by rewrite (proj1 (hash_bytes p x)), (proj1 (hash_bytes p' x')).
Qed.

Lemma computeAuditHash_inj prev e prev' e' :
  computeAuditHash prev e = computeAuditHash prev' e' ->
  Sum256 (hash_input prev e) = Sum256 (hash_input prev' e').
Proof. apply EncodeToString_inj; apply Sum256_range. Qed.

(** The last hash of a valid log determines the log, up to a collision among
    the byte strings hashed along the two. *)
Lemma last_hash_commits es : forall es', chain "" es -> chain "" es' -> last_hash es = last_hash es' ->
  (contents "" es = contents "" es' /\ AuditEvent.Hash <$> es = AuditEvent.Hash <$> es') \/
  exists m m', m ∈ hash_inputs "" es /\ m' ∈ hash_inputs "" es' /\ m <> m' /\ Sum256 m = Sum256 m'.
Proof.
  induction es as [|e es IH] using rev_ind; intros es' Hc Hc' Hh.
  { destruct (last_hash_cases es' Hc') as [[-> _]|(p & x & H)]; [by left|].
    rewrite H in Hh. apply (f_equal (fun s => length (bytes s))) in Hh.
    rewrite (proj1 (hash_bytes p x)) in Hh. done. }
  induction es' as [|e' es' _] using rev_ind.
  { destruct (last_hash_cases _ Hc) as [[H _]|(p & x & H)]; [by destruct es|].
    rewrite H in Hh. apply (f_equal (fun s => length (bytes s))) in Hh.
    rewrite (proj1 (hash_bytes p x)) in Hh. done. }
  rewrite !last_hash_snoc in Hh.
  apply chain_snoc in Hc as [Hc He], Hc' as [Hc' He'].
  rewrite !hash_inputs_snoc, !contents_snoc, !fmap_app. cbn [fmap list_fmap].
  fold (last_hash es) (last_hash es').
  pose proof Hh as Hsum. rewrite He, He' in Hsum. apply computeAuditHash_inj in Hsum.
  destruct (decide (hash_input (last_hash es) e = hash_input (last_hash es') e')) as [Heq|Hne].
  - apply hash_input_split in Heq as [Hl Hd]; [|done..].
    destruct (IH es' Hc Hc' Hl) as [[H1 H2]|(m & m' & Hm & Hm' & Hne & Hs)].
    + left. by rewrite H1, H2, Hd, Hh.
    + right. exists m, m'. rewrite !elem_of_app. auto.
  - right. eexists _, _. split_and!; [..|exact Hne|exact Hsum]; apply elem_of_app; right; by left.
Qed.

(** What one [Emit] does: one event, linked to the end of the log. *)
Lemma Emit_run {L : Lib} {E : Env} ty actor target d score reasons md (w : World L) :
  exists e, Emit ty actor target d score reasons md w
    = (Ok tt, set_store (append_event e (store w)) (set_tick (S (S (tick w))) w)) /\
  AuditEvent.Type_ e = ty /\ AuditEvent.Actor e = actor /\ AuditEvent.Target e = target /\
  AuditEvent.Decision_ e = d /\ AuditEvent.RiskScore e = score /\ AuditEvent.Reasons e = reasons /\
  AuditEvent.Metadata e = md /\ AuditEvent.ID e = uuid_New (tick w) /\
  AuditEvent.Timestamp e = UTC (clock (S (tick w))).
Proof.
  set (h := MemoryStore.auditLastHash (store w)).
  set (e := AuditEvent.mk (uuid_New (tick w)) (UTC (clock (S (tick w)))) ty actor target d score
              reasons md h "").
  exists (AuditEvent.set_Hash (computeHash h e) e). split; [reflexivity|]. by split_and!.
Qed.

Lemma append_event_events e s :
  MemoryStore.auditEvents (append_event e s)
  = MemoryStore.auditEvents s ++ [link (MemoryStore.auditLastHash s) e].
Proof. reflexivity. Qed.

Lemma Verify_run {L : Lib} (w : World L) :
  Verify w = (Ok (verify_loop "" 0 (MemoryStore.auditEvents (store w))), w).
Proof. reflexivity. Qed.

Lemma audit_ok_verifies {L : Lib} (w : World L) : audit_ok (store w) ->
  Verify w = (Ok (true, Z.of_nat (length (MemoryStore.auditEvents (store w)))), w).
Proof. intros [Hc _]. by rewrite Verify_run, verify_loop_true. Qed.

(** ** Facts about concurrent emitters *)

Definition count_finished (ts : list emitter) : nat :=
  length (base.filter (fun t => finished t = true) ts).

Lemma count_finished_insert ts i t t' : ts !! i = Some t ->
  (count_finished (<[i := t']> ts) + (if finished t then 1 else 0)
   = count_finished ts + (if finished t' then 1 else 0))%nat.
Proof.
  intros Hi. unfold count_finished.
  rewrite insert_take_drop by (by eapply lookup_lt_Some).
  rewrite <- (take_drop_middle ts i t) at 3 by done.
  rewrite !filter_app, !filter_cons, !length_app.
  destruct (finished t), (finished t'); simpl; lia.
Qed.

Lemma emit_step_inv ts s ts' s' :
  emit_step (ts, s) (ts', s') -> audit_ok s ->
  audit_ok s' /\ exists new, MemoryStore.auditEvents s' = MemoryStore.auditEvents s ++ new /\
    (count_finished ts' = count_finished ts + length new)%nat.
Proof.
  intros Hstep Hok. remember (ts, s) as c eqn:Hc. remember (ts', s') as c' eqn:Hc'.
  destruct Hstep as [ts0 i e s0 Hi|ts0 i prev e s0 Hi e1 e2]; simplify_eq.
  - split; [done|]. exists []. rewrite app_nil_r. split; [done|].
    pose proof (count_finished_insert ts i _ (Appending (MemoryStore.auditLastHash s) e) Hi).
    simpl in *. lia.
  - split; [by apply append_event_ok|]. eexists [_]. split; [apply append_event_events|].
    pose proof (count_finished_insert ts i _ Finished Hi). simpl in *. lia.
Qed.

Lemma emit_steps_inv ts s ts' s' :
  rtc emit_step (ts, s) (ts', s') -> audit_ok s ->
  audit_ok s' /\ exists new, MemoryStore.auditEvents s' = MemoryStore.auditEvents s ++ new /\
    (count_finished ts' = count_finished ts + length new)%nat.
Proof.
  intros Hr. remember (ts, s) as c eqn:Hc. remember (ts', s') as c' eqn:Hc'.
  revert ts s Hc Hc'. induction Hr as [c|c1 [ts1 s1] c2 Hs _ IH]; intros ts s -> Hok Hc.
  - simplify_eq. split; [done|]. exists []. rewrite app_nil_r. simpl. split; [done|lia].
  - subst. destruct (emit_step_inv _ _ _ _ Hs Hc) as (Hok1 & new1 & H1 & Hn1).
    destruct (IH ts1 s1 eq_refl eq_refl Hok1) as (Hok2 & new2 & H2 & Hn2).
    split; [done|]. exists (new1 ++ new2). rewrite H2, H1, app_assoc, length_app. split; [done|lia].
Qed.

(** ** Properties *)

(** emitting an audit event keeps the log a valid hash chain: from a store
    whose log is valid, [Emit] succeeds, appends exactly one event that carries
    the arguments, keeps every earlier event, and the extended log verifies. *)
Theorem Emit_extends_chain {L : Lib} {E : Env} ty actor target d score reasons md (w : World L) :
  audit_ok (store w) ->
  exists e w', Emit ty actor target d score reasons md w = (Ok tt, w') /\
    audit_ok (store w') /\
    MemoryStore.auditEvents (store w') = MemoryStore.auditEvents (store w) ++ [e] /\
    AuditEvent.Type_ e = ty /\ AuditEvent.Actor e = actor /\ AuditEvent.Target e = target /\
    AuditEvent.Decision_ e = d /\ AuditEvent.RiskScore e = score /\
    AuditEvent.Reasons e = reasons /\ AuditEvent.Metadata e = md /\
    AuditEvent.PreviousHash e = last_hash (MemoryStore.auditEvents (store w)) /\
    Verify w' = (Ok (true, Z.of_nat (length (MemoryStore.auditEvents (store w))) + 1), w').
Proof.
  intros Hok. destruct (Emit_run ty actor target d score reasons md w)
    as (e & -> & H1 & H2 & H3 & H4 & H5 & H6 & H7 & _).
  pose proof (append_event_ok e _ Hok) as Hok'.
  eexists (link (MemoryStore.auditLastHash (store w)) e), _. split; [reflexivity|].
  split; [exact Hok'|]. split; [reflexivity|]. split_and!; try done.
  - rewrite link_prev. apply Hok.
  - rewrite audit_ok_verifies by done. simpl store. rewrite append_event_events, length_app.
    do 3 f_equal. simpl. lia.
Qed.

Lemma Emit_extends_chain_witness : audit_ok (store demo_world) /\
  exists e w', demo_emit demo_world = (Ok tt, w') /\
    audit_ok (store w') /\ MemoryStore.auditEvents (store w') = [] ++ [e] /\
    AuditEvent.Type_ e = "access.evaluate" /\ AuditEvent.Actor e = demo_actor /\
    AuditEvent.Target e = demo_target /\ AuditEvent.Decision_ e = DecisionAllow /\
    AuditEvent.RiskScore e = 10 /\ AuditEvent.Reasons e = ["ok"] /\
    AuditEvent.Metadata e = [("k", AStr "v")] /\ AuditEvent.PreviousHash e = "" /\
    Verify w' = (Ok (true, 1), w').
Proof.
  assert (audit_ok (store demo_world)) as H by (split; [exact I|split; [exact I|reflexivity]]).
  split; [exact H|].
  apply (Emit_extends_chain "access.evaluate" demo_actor demo_target DecisionAllow 10 ["ok"]
           [("k", AStr "v")] demo_world H).
Defined.

(** C8: concurrent emitters cannot break the chain: however the reads of the
    last hash and the appends of any number of emitters interleave, the log
    stays valid, keeps every earlier event, and grows by exactly one event per
    emitter that has finished. *)
Theorem concurrent_emits_verify ts s ts' s' :
  audit_ok s -> Forall (fun t => finished t = false) ts ->
  rtc emit_step (ts, s) (ts', s') ->
  chain "" (MemoryStore.auditEvents s') /\
  MemoryStore.auditLastHash s' = last_hash (MemoryStore.auditEvents s') /\
  exists new, MemoryStore.auditEvents s' = MemoryStore.auditEvents s ++ new /\
    length new = count_finished ts'.
Proof.
  intros Hok Hts Hr. destruct (emit_steps_inv _ _ _ _ Hr Hok) as ((Hc & _ & Hl) & new & He & Hn).
  split; [done|]. split; [done|]. exists new. split; [done|].
  assert (count_finished ts = 0%nat) as H0; [|lia].
  unfold count_finished. clear - Hts. induction Hts as [|t ts Ht _ IH]; [done|].
  rewrite filter_cons, decide_False by congruence. done.
Qed.

(** Two emitters that both read the empty log before either appends. *)
Lemma concurrent_emits_verify_witness : exists ts' s',
  rtc emit_step ([Reading (demo_event "a"); Reading (demo_event "b")], NewMemoryStore) (ts', s') /\
  chain "" (MemoryStore.auditEvents s') /\
  MemoryStore.auditLastHash s' = last_hash (MemoryStore.auditEvents s') /\
  exists new, MemoryStore.auditEvents s' = [] ++ new /\ length new = 2%nat.
Proof.
  assert (exists s', rtc emit_step
    ([Reading (demo_event "a"); Reading (demo_event "b")], NewMemoryStore)
    ([Finished; Finished], s')) as [s' Hr].
  { eexists. eapply rtc_l; [apply (step_read _ 0); reflexivity|].
    eapply rtc_l; [apply (step_read _ 1); reflexivity|].
    eapply rtc_l; [apply (step_append _ 1); reflexivity|].
    eapply rtc_l; [apply (step_append _ 0); reflexivity|]. apply rtc_refl. }
  exists [Finished; Finished], s'. split; [exact Hr|].
  apply (concurrent_emits_verify [Reading (demo_event "a"); Reading (demo_event "b")]
           NewMemoryStore [Finished; Finished] s').
  - split; [exact I|split; [exact I|reflexivity]].
  - repeat constructor.
  - exact Hr.
Defined.

(** [Verify] is exact: it reports success with the number of events when the
    log is a valid chain, and otherwise the index of the first event whose hash
    does not match, every event before it being intact. *)
Theorem Verify_exact {L : Lib} (w : World L) :
  let es := MemoryStore.auditEvents (store w) in
  (chain "" es /\ Verify w = (Ok (true, Z.of_nat (length es)), w)) \/
  exists es1 e es2, es = es1 ++ e :: es2 /\ chain "" es1 /\
    AuditEvent.Hash e <> computeAuditHash (last_hash es1) e /\
    Verify w = (Ok (false, Z.of_nat (length es1)), w).
Proof.
  cbv zeta. rewrite Verify_run. set (es := MemoryStore.auditEvents (store w)).
  destruct (verify_loop "" 0 es) as [[] n] eqn:Hv.
  - left. pose proof (verify_loop_chain _ _ _ _ Hv) as Hc. split; [done|].
    rewrite verify_loop_true in Hv by done. by simplify_eq.
  - right. apply verify_loop_false in Hv as (es1 & e & es2 & -> & -> & Hc & Hne). by exists es1, e, es2.
Qed.

(** C37: tamper evidence: two logs that both verify and end in the same hash
    record the same serialised events and hashes, whatever their lengths,
    unless two different byte strings hashed along them collide under SHA-256. *)
Theorem last_hash_binds_log es es' :
  chain "" es -> chain "" es' -> last_hash es = last_hash es' ->
  (contents "" es = contents "" es' /\ AuditEvent.Hash <$> es = AuditEvent.Hash <$> es') \/
  exists m m', m ∈ hash_inputs "" es /\ m' ∈ hash_inputs "" es' /\ m <> m' /\ Sum256 m = Sum256 m'.
Proof. apply last_hash_commits. Qed.

Lemma last_hash_binds_log_witness :
  let es := [link "" (demo_event "a")] in
  chain "" es /\
  ((contents "" es = contents "" es /\ AuditEvent.Hash <$> es = AuditEvent.Hash <$> es) \/
  exists m m', m ∈ hash_inputs "" es /\ m' ∈ hash_inputs "" es /\ m <> m' /\ Sum256 m = Sum256 m').
Proof.
  assert (H : chain "" [link "" (demo_event "a")]) by (split; [apply link_hash|exact I]).
  split; [exact H|]. exact (last_hash_binds_log _ _ H H eq_refl).
Defined.

(** listing audit events returns, in log order, the events the filter lets
    through, cut to the first [Limit] of them when a positive limit is given,
    and changes nothing. *)
Theorem List_filters {L : Lib} {E : Env} f (w : World L) :
  List_ f w = (Ok (let all := base.filter (fun e => rejected f e = false)
                                (MemoryStore.auditEvents (store w)) in
                   if 0 <? AuditFilter.Limit f then take (Z.to_nat (AuditFilter.Limit f)) all
                   else all), w).
Proof.
  unfold List_. st_unfold. unfold gets. do 2 f_equal. by rewrite list_loop_spec by (simpl; lia).
Qed.

(** the verifier never looks at the [PreviousHash] an event carries:
    rewriting that field of any stored event leaves the answer unchanged. *)
Theorem Verify_ignores_PreviousHash {L : Lib} (w : World L) (g : AuditEvent.t -> string) :
  let es := MemoryStore.auditEvents (store w) in
  let es' := (fun e => AuditEvent.set_PreviousHash (g e) e) <$> es in
  (Verify (set_store (MemoryStore.set_audit es' (MemoryStore.auditLastHash (store w)) (store w)) w)).1
  = (Verify w).1.
Proof.
  cbv zeta. rewrite !Verify_run. simpl. f_equal. generalize "", 0.
  induction (MemoryStore.auditEvents (store w)) as [|e es IH]; intros prev i; [done|].
  cbn [fmap list_fmap verify_loop].
  assert (computeAuditHash prev (AuditEvent.set_PreviousHash (g e) e) = computeAuditHash prev e) as ->.
  { rewrite <- (computeAuditHash_irrel prev (AuditEvent.Hash e) (g e) e). by destruct e. }
  cbn [AuditEvent.Hash AuditEvent.set_PreviousHash]. destruct (String.eqb _ _); [apply IH|done].
Qed.
