(* ===== verification/Bus.v ===== *)
(** * core/internal/bus: the integration event emitter

    Events are JSON objects, hash-chained over their canonical form: compact
    JSON with the members of every object in key order. An object is an
    association list; [same_value] says that two values differ only in the
    order of the members of their objects, which is what a Go map leaves open. *)

From S2P Require Import Prelude GoStrings GoTime GoFloat GoCrypto GoJson Types World Instances Storage.

Definition genesis : string := "genesis".

Definition New (source : string) (urls : list string) : Emitter.t :=
  Emitter.mk source urls genesis [].

Definition Enabled (e : Emitter.t) : bool := (0 <? length (Emitter.urls e))%nat.

(** ** Canonical JSON *)

Definition encodeString (buf : string) (s : string) : result string := Ok (buf +:+ json_string s).

(** The loops of [writeCanonical] over array items and over sorted members;
    [i] tells whether a comma is due. *)
Fixpoint writeItems (buf : string) (i : nat) (writers : list (string -> result string)) : result string :=
  match writers with
  | [] => Ok buf
  | w :: writers' =>
      let buf := if (0 <? i)%nat then buf +:+ "," else buf in
      buf ← w buf; writeItems buf (S i) writers'
  end.

Fixpoint writeCanonical (v : any) (buf : string) : result string :=
  match v with
  | ANil => Ok (buf +:+ "null")
  | AStr t => encodeString buf t
  | AFloat t => b ← json_float t; Ok (buf +:+ b)
  | ABool t => Ok (buf +:+ (if t then "true" else "false"))
  | AArr t =>
      buf ← writeItems (buf +:+ "[") 0 (writeCanonical <$> t);
      Ok (buf +:+ "]")
  | AObj t =>
      let writers := (fun kv => (kv.1, writeCanonical kv.2)) <$> t in
      buf ← writeItems (buf +:+ "{") 0
              ((fun kv buf => buf ← encodeString buf kv.1; kv.2 (buf +:+ ":")) <$> sort_keys writers);
      Ok (buf +:+ "}")
  | AInt t => Ok (buf +:+ pretty t)
  | AStrs t => Ok (buf +:+ json_strings t)
  end.

Definition marshalCanonical (v : any) : result string := writeCanonical v "".

Definition Digest (ev : list (string * any)) : string :=
  let copied := put "hash" (AStr "") ev in
  let b := match marshalCanonical (AObj copied) with Ok b => bytes b | Err _ => [] end in
  EncodeToString (Sum256 b).

(** ** Emission *)

Section Emission.
Context {L : Lib} {E : Env}.

(** [b[lo:hi]]. *)
Definition slice (lo hi : nat) (b : list Z) : list Z := take (hi - lo) (drop lo b).

Definition newID : M string :=
  r ← ask (fun n => rand_Read n 16);
  match r with
  | Err _ => t ← Now; mret ("id-" +:+ pretty (int64 (nanos t)))
  | Ok b => mret (EncodeToString (slice 0 4 b) +:+ "-" +:+ EncodeToString (slice 4 6 b) +:+ "-" +:+
                  EncodeToString (slice 6 8 b) +:+ "-" +:+ EncodeToString (slice 8 10 b) +:+ "-" +:+
                  EncodeToString (slice 10 16 b))
  end.

(** The event before it is hashed. *)
Definition draft (e : Emitter.t) (id time eventType action subject : string)
    (refs data : list (string * any)) : list (string * any) :=
  [("id", AStr id); ("time", AStr time); ("type", AStr eventType);
   ("source", AStr (Emitter.source e)); ("action", AStr action); ("subject", AStr subject);
   ("refs", AObj refs); ("data", AObj data); ("prev_hash", AStr (Emitter.prev e));
   ("hash", AStr "")].

(** The result: the event if there are subscribers, and the error. Delivery
    errors are swallowed: every URL that parses gets the payload. *)
Definition Emit (e : Emitter.t) (eventType action subject : string)
    (refs data : list (string * any)) : M (option (list (string * any)) * option string) :=
  if negb (Enabled e) then mret (None, None)
  else
    id ← newID;
    now ← Now;
    let ev := draft e id (FormatRFC3339Nano (UTC now)) eventType action subject refs data in
    let h := Digest ev in
    let ev := put "hash" (AStr h) ev in
    let e := Emitter.mk (Emitter.source e) (Emitter.urls e) h (Emitter.posted e) in
    _ ← modify (set_bus (Some e));
    match marshalCanonical (AObj ev) with
    | Err err => mret (Some ev, Some err)
    | Ok payload =>
        let sent := (fun u => (u, payload)) <$>
                    base.filter (fun u => http_NewRequest u = true) (Emitter.urls e) in
        _ ← modify (set_bus (Some (Emitter.mk (Emitter.source e) (Emitter.urls e) h
                                     (Emitter.posted e ++ sent))));
        mret (Some ev, None)
    end.
End Emission.

(** ** Values up to the order of object members *)

Inductive same_value : any -> any -> Prop :=
| same_refl v : same_value v v
| same_arr l l' : same_values l l' -> same_value (AArr l) (AArr l')
| same_obj m m' : same_members m m' -> same_value (AObj m) (AObj m')
with same_values : list any -> list any -> Prop :=
| same_nil : same_values [] []
| same_cons v v' l l' : same_value v v' -> same_values l l' -> same_values (v :: l) (v' :: l')
with same_members : list (string * any) -> list (string * any) -> Prop :=
| same_none : same_members [] []
| same_member k v v' m m' :
    same_value v v' -> same_members m m' -> same_members ((k, v) :: m) ((k, v') :: m')
| same_swap k1 v1 k2 v2 m :
    k1 <> k2 -> same_members ((k1, v1) :: (k2, v2) :: m) ((k2, v2) :: (k1, v1) :: m)
| same_trans m1 m2 m3 : same_members m1 m2 -> same_members m2 m3 -> same_members m1 m3.

Scheme same_value_min := Minimality for same_value Sort Prop
with same_values_min := Minimality for same_values Sort Prop
with same_members_min := Minimality for same_members Sort Prop.
Combined Scheme same_mutind from same_value_min, same_values_min, same_members_min.

(** A chain of emitted events: each names the digest before it and carries its own. *)
Fixpoint event_chain (prev : string) (evs : list (list (string * any))) : Prop :=
  match evs with
  | [] => True
  | ev :: evs' => get "prev_hash" ev = Some (AStr prev) /\ get "hash" ev = Some (AStr (Digest ev)) /\
                  event_chain (Digest ev) evs'
  end.

(** Emitting a series of events through one emitter, as the server does. *)
Section Series.
Context {L : Lib} {E : Env}.

Definition call : Type := string * string * string * list (string * any) * list (string * any).

Fixpoint emit_all (calls : list call) : M (list (list (string * any))) :=
  match calls with
  | [] => mret []
  | (ty, action, subject, refs, data) :: calls' =>
      b ← gets bus;
      match b with
      | None => emit_all calls'
      | Some e =>
          r ← Emit e ty action subject refs data;
          evs ← emit_all calls';
          mret (option_list r.1 ++ evs)
      end
  end.
End Series.

Definition demo_emitter : Emitter.t := New "oiaf" ["https://siem.example/hook"].
Definition demo_bus_world : World demo_lib := set_bus (Some demo_emitter) demo_world.
Definition demo_calls : list call :=
  [("access.decided", "evaluate", "req-1", [("request_id", AStr "r1")], [("decision", AStr "allow")]);
   ("challenge.verified", "verify", "ch-1", [], [("method", AStr "totp")])].

(** ** Facts *)

#[export] Instance append_assoc : Assoc (=) String.append.
Proof. intros s1 s2 s3. induction s1 as [|c s1 IH]; [done|]. exact (f_equal (String c) IH). Qed.

Lemma append_nil_r s : s +:+ "" = s.
Proof. induction s as [|c s IH]; [done|]. exact (f_equal (String c) IH). Qed.

(** A writer that appends the text [r], or fails. *)
Definition appends (w : string -> result string) (r : result string) : Prop :=
  forall buf, w buf = (t ← r; Ok (buf +:+ t)).

Definition with_comma (i : nat) (l : list string) : string :=
  if (0 <? i)%nat then foldr (fun s acc => "," +:+ s +:+ acc) "" l else comma l.

Lemma comma_cons s l : comma (s :: l) = s +:+ with_comma 1 l.
Proof.
  revert s. induction l as [|s' l IH]; intros s; [symmetry; apply append_nil_r|].
  change (comma (s :: s' :: l)) with (s +:+ "," +:+ comma (s' :: l)). by rewrite IH.
Qed.

Lemma writeItems_spec ws rs : Forall2 appends ws rs -> forall i buf,
  writeItems buf i ws = (ts ← sequence rs; Ok (buf +:+ with_comma i ts)).
Proof.
  induction 1 as [|w r ws rs Hw _ IH]; intros i buf.
  { simpl. unfold with_comma. destruct (0 <? i)%nat; by rewrite append_nil_r. }
  cbn [writeItems]. rewrite Hw. destruct r as [t|e]; [|done]. cbn [mbind result_bind sequence].
  rewrite IH. destruct (sequence rs) as [ts|e]; [|done]. cbn [mbind result_bind]. f_equal.
  destruct i as [|i]; cbn [Nat.ltb Nat.leb].
  - change (with_comma 0 (t :: ts)) with (comma (t :: ts)). by rewrite comma_cons, <- (assoc_L _).
  - unfold with_comma. cbn. by rewrite <- !(assoc_L String.append).
Qed.

(** The canonical writer appends what [encoding/json] produces. *)
Lemma writeCanonical_appends v : appends (writeCanonical v) (Marshal v).
Proof.
  induction v as [|b|f|z|s|l|l IH|m IH] using any_nested_ind; intros buf; try done.
  - cbn [writeCanonical Marshal].
    rewrite (writeItems_spec _ (Marshal <$> l)) by (by apply Forall2_fmap_2, Forall_Forall2_diag).
    destruct (sequence (Marshal <$> l)) as [ts|e]; [|done].
    cbn. by rewrite <- !(assoc_L String.append).
  - cbn [writeCanonical Marshal]. rewrite !sort_keys_fmap, <- !list_fmap_compose.
    rewrite (writeItems_spec _ ((fun kv => v ← Marshal kv.2; Ok (json_string kv.1 +:+ ":" +:+ v))
                                  <$> sort_keys m)).
    + unfold compose. cbn [fst snd]. destruct (sequence _) as [ts|e]; [|done].
      cbn. by rewrite <- !(assoc_L String.append).
    + apply Forall2_fmap_2, Forall_Forall2_diag.
      rewrite sort_keys_perm. eapply Forall_impl; [exact IH|].
      intros [k v] Hv buf'. cbn in *. rewrite Hv. destruct (Marshal v) as [t|e]; [|done].
      cbn. by rewrite <- !(assoc_L String.append).
Qed.

Lemma marshalCanonical_eq v : marshalCanonical v = Marshal v.
Proof. unfold marshalCanonical. rewrite writeCanonical_appends. by destruct (Marshal v). Qed.

(** Reordering members changes neither the JSON text nor a failure. *)
Lemma Marshal_same :
  (forall v v', same_value v v' -> Marshal v = Marshal v') /\
  (forall l l', same_values l l' -> Marshal <$> l = Marshal <$> l') /\
  (forall m m', same_members m m' ->
     sort_keys ((fun kv => (kv.1, Marshal kv.2)) <$> m) = sort_keys ((fun kv => (kv.1, Marshal kv.2)) <$> m')).
Proof.
  apply same_mutind.
  - done.
  - intros l l' _ IH. cbn [Marshal]. by rewrite IH.
  - intros m m' _ IH. cbn [Marshal]. by rewrite IH.
  - done.
  - intros v v' l l' _ Hv _ Hl. cbn. f_equal; [exact Hv|exact Hl].
  - done.
  - intros k v v' m m' _ Hv _ Hm. cbn. rewrite Hv. f_equal. exact Hm.
  - intros k1 v1 k2 v2 m Hne. cbn. by apply insert_key_comm.
  - intros m1 m2 m3 _ H1 _ H2. by rewrite H1.
Qed.

Lemma same_members_refl m : same_members m m.
Proof. induction m as [|[k v] m IH]; constructor; [constructor|done]. Qed.

Lemma put_same k v m m' : same_members m m' -> same_members (put k v m) (put k v m').
Proof.
  induction 1 as [|k' x x' m m' Hx Hm IH|k1 v1 k2 v2 m Hne|m1 m2 m3 _ IH1 _ IH2].
  - apply same_members_refl.
  - cbn. destruct (String.eqb_spec k k') as [<-|]; by repeat constructor.
  - cbn. destruct (String.eqb_spec k k1) as [<-|], (String.eqb_spec k k2) as [<-|]; try done;
      by apply same_swap.
  - by eapply same_trans.
Qed.

Lemma Digest_put_hash ev v : Digest (put "hash" v ev) = Digest ev.
Proof. unfold Digest. by rewrite put_put. Qed.

(** One emission: the event, the new end of the chain, and what was posted. *)
Lemma busEmit_run {L : Lib} {E : Env} e ty action subject refs data (w : World L) :
  Enabled e = true -> exists ev err k sent,
  Emit e ty action subject refs data w
    = ((Some ev, err), set_bus (Some (Emitter.mk (Emitter.source e) (Emitter.urls e) (Digest ev)
                                        (Emitter.posted e ++ sent))) (set_tick k w)) /\
  get "prev_hash" ev = Some (AStr (Emitter.prev e)) /\ get "hash" ev = Some (AStr (Digest ev)) /\
  get "type" ev = Some (AStr ty) /\ get "subject" ev = Some (AStr subject) /\
  match Marshal (AObj ev) with
  | Ok payload => err = None /\ sent = (fun u => (u, payload)) <$>
                    base.filter (fun u => http_NewRequest u = true) (Emitter.urls e)
  | Err _ => sent = []
  end.
Proof.
  intros Hen. unfold Emit. rewrite Hen. cbn [negb].
  assert (Hid : exists id k, newID w = (id, set_tick k w)).
  { unfold newID. st_unfold. unfold ask, Now. simpl. by destruct (rand_Read _ 16); eexists _, _. }
  destruct Hid as (id & k & Hid). st_unfold. rewrite Hid. unfold Now, ask, modify. cbn [tick set_tick].
  set (d := draft _ _ _ _ _ _ _ _).
  exists (put "hash" (AStr (Digest d)) d). rewrite Digest_put_hash, marshalCanonical_eq.
  destruct (Marshal (AObj (put "hash" (AStr (Digest d)) d))) as [payload|err].
  - eexists None, _, _. split; [reflexivity|]. by split_and!.
  - eexists (Some err), _, []. rewrite app_nil_r. split; [reflexivity|]. by split_and!.
Qed.

Lemma emit_all_chain {L : Lib} {E : Env} calls : forall e (w : World L),
  bus w = Some e -> Enabled e = true ->
  exists evs w' e', emit_all calls w = (evs, w') /\ bus w' = Some e' /\ store w' = store w /\
    length evs = length calls /\ event_chain (Emitter.prev e) evs /\
    Emitter.prev e' = default (Emitter.prev e) (Digest <$> last evs).
Proof.
  induction calls as [|[[[[ty action] subject] refs] data] calls IH]; intros e w Hb Hen.
  { by exists [], w, e. }
  cbn [emit_all]. st_unfold. unfold gets. rewrite Hb.
  destruct (busEmit_run e ty action subject refs data w Hen) as (ev & err & k & sent & -> & Hp & Hh & _).
  set (e1 := Emitter.mk _ _ _ _).
  destruct (IH e1 (set_bus (Some e1) (set_tick k w)) eq_refl Hen)
    as (evs & w' & e' & Hrun & Hb' & Hst & Hlen & Hch & Hprev).
  rewrite Hrun. exists (ev :: evs), w', e'. split_and!; try done.
  - simpl. by rewrite Hlen.
  - rewrite last_cons, Hprev. by destruct (last evs).
Qed.

(** ** Properties *)

(** the hand-written canonical writer agrees with [encoding/json] on every
    value: the same text, with the members of every object in key order, and
    the same failures. *)
Theorem canonical_is_json v : marshalCanonical v = Marshal v.
Proof. apply marshalCanonical_eq. Qed.

(** the digest of an event does not depend on the order in which the members
    of the event, or of any object nested in it, are walked. *)
Theorem Digest_order_independent ev ev' : same_members ev ev' -> Digest ev = Digest ev'.
Proof.
  intros H. unfold Digest. rewrite !marshalCanonical_eq.
  by rewrite (proj1 Marshal_same (AObj (put "hash" (AStr "") ev)) (AObj (put "hash" (AStr "") ev')))
    by (by apply same_obj, put_same).
Qed.

Lemma Digest_order_independent_witness :
  Digest [("a", ANil); ("refs", AObj [("x", AInt 1); ("y", AInt 2)])]
  = Digest [("refs", AObj [("y", AInt 2); ("x", AInt 1)]); ("a", ANil)].
Proof.
  apply (Digest_order_independent
    [("a", ANil); ("refs", AObj [("x", AInt 1); ("y", AInt 2)])]
    [("refs", AObj [("y", AInt 2); ("x", AInt 1)]); ("a", ANil)]).
  eapply same_trans; [apply same_swap; discriminate|].
  apply same_member; [apply same_obj, same_swap; discriminate|]. apply same_members_refl.
Defined.

(** C39: a series of emissions through an emitter with subscribers is one hash
    chain: every call yields an event, each event names the digest of the one
    before it (the emitter's previous hash, genesis at the start, for the
    first) and carries its own digest, and the emitter ends at the last one. *)
Theorem emissions_chain {L : Lib} {E : Env} calls e (w : World L) :
  bus w = Some e -> Enabled e = true ->
  exists evs w' e', emit_all calls w = (evs, w') /\ bus w' = Some e' /\ store w' = store w /\
    length evs = length calls /\ event_chain (Emitter.prev e) evs /\
    Emitter.prev e' = default (Emitter.prev e) (Digest <$> last evs).
Proof. apply emit_all_chain. Qed.

Lemma emissions_chain_witness : bus demo_bus_world = Some demo_emitter /\
  exists evs w' e', emit_all demo_calls demo_bus_world = (evs, w') /\ bus w' = Some e' /\
    store w' = store demo_bus_world /\ length evs = 2%nat /\ event_chain "genesis" evs /\
    Emitter.prev e' = default "genesis" (Digest <$> last evs).
Proof.
  split; [reflexivity|].
  apply (emissions_chain demo_calls demo_emitter demo_bus_world); reflexivity.
Defined.

(** emission is opt-in and best-effort: without subscribers [Emit] changes
    nothing and returns no event and no error; with subscribers the process
    state outside the emitter is untouched, and every subscriber whose URL
    parses is sent exactly one copy of the event's canonical JSON, in order. *)
Theorem Emit_delivers {L : Lib} {E : Env} e ty action subject refs data (w : World L) :
  if Enabled e then
    exists ev err k sent, Emit e ty action subject refs data w
      = ((Some ev, err), set_bus (Some (Emitter.mk (Emitter.source e) (Emitter.urls e) (Digest ev)
                                          (Emitter.posted e ++ sent))) (set_tick k w)) /\
    match Marshal (AObj ev) with
    | Ok payload => err = None /\ sent = (fun u => (u, payload)) <$>
                      base.filter (fun u => http_NewRequest u = true) (Emitter.urls e)
    | Err _ => sent = []
    end
  else Emit e ty action subject refs data w = ((None, None), w).
Proof.
  destruct (Enabled e) eqn:Hen; [|unfold Emit; by rewrite Hen].
  destruct (busEmit_run e ty action subject refs data w Hen) as (ev & err & k & sent & -> & _ & _ & _ & _ & H).
  by exists ev, err, k, sent.
Qed.

(** the canonical form is not raw UTF-8: the characters <, > and & of a
    string are written as six-byte escapes. *)
Theorem canonical_escapes_html :
  marshalCanonical (AStr "<&>")
  = Ok (dquote +:+ backslash +:+ "u003c" +:+ backslash +:+ "u0026" +:+ backslash +:+ "u003e" +:+ dquote).
Proof. vm_compute. reflexivity. Qed.
