(* ===== verification/Auth.v ===== *)
(** * core/internal/auth: API tokens and the authentication middleware

    A request carries what the handlers read of it: the Authorization header,
    the token the middleware put in its context, path values, query values and
    the outcome of decoding its body ([None] when [decodeJSON] fails). *)

From S2P Require Import Prelude GoStrings GoTime GoFloat GoCrypto GoJson Types World Instances Storage.

(** ** Requests and responses *)

Module Request.
Record t {B : Type} := mk {
  Authorization : string;
  token : option AuthToken.t;
  PathValue : string -> string;
  Query : string -> string;
  Body : option B
}.
Arguments t : clear implicits.

Definition set_token {B} (k : AuthToken.t) (r : t B) : t B :=
  mk B (Authorization r) (Some k) (PathValue r) (Query r) (Body r).
End Request.

(** What a handler writes: a status and a payload, or an error text. *)
Inductive Response (P : Type) : Type :=
| writeJSON (status : Z) (v : P)
| writeError (status : Z) (msg : string)
| WriteHeader (status : Z).
Arguments writeJSON {P} status v.
Arguments writeError {P} status msg.
Arguments WriteHeader {P} status.

Definition status_of {P} (r : Response P) : Z :=
  match r with writeJSON s _ | writeError s _ | WriteHeader s => s end.

Definition StatusOK : Z := 200.
Definition StatusCreated : Z := 201.
Definition StatusAccepted : Z := 202.
Definition StatusNoContent : Z := 204.
Definition StatusBadRequest : Z := 400.
Definition StatusUnauthorized : Z := 401.
Definition StatusForbidden : Z := 403.
Definition StatusNotFound : Z := 404.
Definition StatusInternalServerError : Z := 500.
Definition StatusServiceUnavailable : Z := 503.

(** ** Tokens *)

Section Tokens.
Context {L : Lib} {E : Env}.

Definition CreateToken (name : string) (role : Role) : M (result (string * AuthToken.t)) :=
  raw ← ask (fun n => rand_Read n 32);
  match raw with
  | Err e => mret (Err ("generate token: " +:+ e))
  | Ok raw =>
      let tokenStr := EncodeToString raw in
      hash ← ask (fun n => bcrypt_GenerateFromPassword n tokenStr);
      match hash with
      | Err e => mret (Err ("hash token: " +:+ e))
      | Ok hash =>
          id ← NewID;
          now ← Now;
          let tok := AuthToken.mk id hash role name None false (UTC now) in
          _ ←? AuthTokens.Create tok;
          mret (Ok (tokenStr, tok))
      end
  end.

Definition RegisterToken (plainToken name : string) (role : Role) : M (result AuthToken.t) :=
  hash ← ask (fun n => bcrypt_GenerateFromPassword n plainToken);
  match hash with
  | Err e => mret (Err ("hash token: " +:+ e))
  | Ok hash =>
      id ← NewID;
      now ← Now;
      let tok := AuthToken.mk id hash role name None false (UTC now) in
      _ ←? AuthTokens.Create tok;
      mret (Ok tok)
  end.

(** The loop of [Validate]: the clock is read for each token with an expiry. *)
Fixpoint validate_loop (tokenStr : string) (tokens : list AuthToken.t) : M (result AuthToken.t) :=
  match tokens with
  | [] => mret (Err "invalid token")
  | tok :: tokens' =>
      if AuthToken.Revoked tok then validate_loop tokenStr tokens'
      else
        expired ← match AuthToken.ExpiresAt tok with
                  | None => mret false
                  | Some t => now ← Now; mret (After now t)
                  end;
        if (expired : bool) then validate_loop tokenStr tokens'
        else if bcrypt_CompareHashAndPassword (AuthToken.TokenHash tok) tokenStr
        then mret (Ok tok)
        else validate_loop tokenStr tokens'
  end.

Definition Validate (tokenStr : string) : M (result AuthToken.t) :=
  tokens ←? AuthTokens.List_;
  validate_loop tokenStr tokens.

Definition Revoke (id : string) : M (result unit) := AuthTokens.Revoke id.

Definition GenerateToken : M (result string) :=
  raw ← ask (fun n => rand_Read n 32);
  mret (match raw with Err e => Err e | Ok raw => Ok (EncodeToString raw) end).

Definition HashToken (plain : string) : M (result string) :=
  ask (fun n => bcrypt_GenerateFromPassword n plain).

(** ** Middleware *)

Definition handler (B P : Type) : Type := Request.t B -> M (Response P).

Definition Middleware {B P} (next : handler B P) : handler B P := fun r =>
  let header := Request.Authorization r in
  if String.eqb header "" then mret (writeError StatusUnauthorized "missing authorization header")
  else
    let tokenStr := TrimPrefix header "Bearer " in
    if String.eqb tokenStr header
    then mret (writeError StatusUnauthorized "invalid authorization format")
    else
      tok ← Validate tokenStr;
      match tok with
      | Err _ => mret (writeError StatusUnauthorized "invalid token")
      | Ok tok => next (Request.set_token tok r)
      end.

Definition RequireRole {B P} (roles : list Role) (next : handler B P) : handler B P := fun r =>
  match Request.token r with
  | None => mret (writeError StatusUnauthorized "unauthorized")
  | Some tok =>
      if existsb (fun role => bool_decide (AuthToken.Role_ tok = role)) roles
      then next r
      else mret (writeError StatusForbidden "forbidden")
  end.

Definition TokenFromContext {B} (r : Request.t B) : option AuthToken.t := Request.token r.

(** ** What the middleware promises *)

(** [tok] is a stored, unrevoked token whose hash matches, not expired at
    some clock reading taken while validating. *)
Definition accepted (w : World L) (tokenStr : string) (tok : AuthToken.t) : Prop :=
  (exists id, MemoryStore.authTokens (store w) !! id = Some tok) /\
  AuthToken.Revoked tok = false /\
  bcrypt_CompareHashAndPassword (AuthToken.TokenHash tok) tokenStr = true /\
  forall t, AuthToken.ExpiresAt tok = Some t -> exists n, (tick w < n)%nat /\ After (clock n) t = false.

(** No stored token can be accepted, whatever the clock says. *)
Definition rejected_by_all (w : World L) (tokenStr : string) : Prop :=
  forall id tok, MemoryStore.authTokens (store w) !! id = Some tok ->
    AuthToken.Revoked tok = true \/
    bcrypt_CompareHashAndPassword (AuthToken.TokenHash tok) tokenStr = false \/
    exists t, AuthToken.ExpiresAt tok = Some t /\ forall n, (tick w < n)%nat -> After (clock n) t = true.
End Tokens.

(** ** Concrete data *)

Definition demo_token_world : World demo_lib := (RegisterToken "secret" "admin" RoleAdmin demo_world).2.
Definition demo_request (auth : string) : Request.t unit :=
  Request.mk unit auth None (fun _ => "") (fun _ => "") (Some tt).
Definition demo_next : handler unit string := fun r => mret (writeJSON StatusOK "served").

(** ** Facts *)

Section Facts.
Context {L : Lib} {E : Env}.

Lemma validate_loop_state s toks (w : World L) : exists r k,
  validate_loop s toks w = (r, set_tick k w) /\ (tick w <= k)%nat.
Proof.
  revert w. induction toks as [|tok toks IH]; intros w.
  { exists (Err "invalid token"), (tick w). split; [by destruct w|done]. }
  cbn [validate_loop]. destruct (AuthToken.Revoked tok); [apply IH|].
  destruct (AuthToken.ExpiresAt tok) as [t|]; st_unfold.
  - unfold Now, ask. destruct (After _ t).
    + destruct (IH (set_tick (S (tick w)) w)) as (r & k & -> & Hk). exists r, k. simpl in Hk. split; [done|lia].
    + destruct (bcrypt_CompareHashAndPassword _ s).
      * eexists _, _. split; [done|lia].
      * destruct (IH (set_tick (S (tick w)) w)) as (r & k & -> & Hk). exists r, k. simpl in Hk. split; [done|lia].
  - destruct (bcrypt_CompareHashAndPassword _ s); [|apply IH].
    exists (Ok tok), (tick w). split; [by destruct w|lia].
Qed.

(** An accepted token is one of those listed and passed all three tests. *)
Lemma validate_loop_sound s toks (w w' : World L) tok :
  validate_loop s toks w = (Ok tok, w') ->
  tok ∈ toks /\ AuthToken.Revoked tok = false /\
  bcrypt_CompareHashAndPassword (AuthToken.TokenHash tok) s = true /\
  forall t, AuthToken.ExpiresAt tok = Some t -> exists n, (tick w <= n)%nat /\ After (clock n) t = false.
Proof.
  revert w. induction toks as [|tok' toks IH]; intros w; cbn [validate_loop]; [done|].
  destruct (AuthToken.Revoked tok') eqn:Hr.
  { intros H. apply IH in H as (? & ? & ? & ?). by split_and!; [right|..]. }
  destruct (AuthToken.ExpiresAt tok') as [t|] eqn:He; st_unfold.
  - unfold Now, ask. destruct (After _ t) eqn:Ha; [|destruct (bcrypt_CompareHashAndPassword (AuthToken.TokenHash tok') s) eqn:Hb].
    + intros H. apply IH in H as (? & ? & ? & Hx). split_and!; [by right|done..|].
      intros t' Ht'. destruct (Hx t' Ht') as (n & Hn & ?). exists n. simpl in Hn. split; [lia|done].
    + intros ?. simplify_eq. split_and!; [by left|done..|]. intros t' Ht'. simplify_eq. by exists (tick w).
    + intros H. apply IH in H as (? & ? & ? & Hx). split_and!; [by right|done..|].
      intros t' Ht'. destruct (Hx t' Ht') as (n & Hn & ?). exists n. simpl in Hn. split; [lia|done].
  - destruct (bcrypt_CompareHashAndPassword (AuthToken.TokenHash tok') s) eqn:Hb.
    + intros ?. simplify_eq. split_and!; [by left|done..|]. intros t' Ht'. congruence.
    + intros H. apply IH in H as (? & ? & ? & ?). by split_and!; [right|..].
Qed.

Lemma validate_loop_err s toks (w w' : World L) e :
  validate_loop s toks w = (Err e, w') -> e = "invalid token".
Proof.
  revert w. induction toks as [|tok toks IH]; intros w; cbn [validate_loop].
  { intros H. by inversion H. }
  destruct (AuthToken.Revoked tok); [apply IH|].
  destruct (AuthToken.ExpiresAt tok) as [t|]; st_unfold.
  - unfold Now, ask. destruct (After _ t); [apply IH|].
    destruct (bcrypt_CompareHashAndPassword _ s); [done|apply IH].
  - destruct (bcrypt_CompareHashAndPassword _ s); [done|apply IH].
Qed.

(** A listed token that passes makes the loop succeed. *)
Lemma validate_loop_complete s toks (w : World L) tok :
  tok ∈ toks -> AuthToken.Revoked tok = false -> AuthToken.ExpiresAt tok = None ->
  bcrypt_CompareHashAndPassword (AuthToken.TokenHash tok) s = true ->
  exists tok' w', validate_loop s toks w = (Ok tok', w').
Proof.
  intros Hin Hr He Hb. revert w Hin.
  induction toks as [|tok0 toks IH]; intros w Hin; [by apply not_elem_of_nil in Hin|]. cbn [validate_loop].
  apply elem_of_cons in Hin as [<-|Hin]; [rewrite Hr, He; st_unfold; rewrite Hb; by eauto|].
  destruct (AuthToken.Revoked tok0); [by apply IH|].
  destruct (AuthToken.ExpiresAt tok0) as [t|]; st_unfold.
  - unfold Now, ask. destruct (After _ t); [by apply IH|].
    destruct (bcrypt_CompareHashAndPassword (AuthToken.TokenHash tok0) s); [eexists _, _; reflexivity|by apply IH].
  - destruct (bcrypt_CompareHashAndPassword (AuthToken.TokenHash tok0) s); [eexists _, _; reflexivity|by apply IH].
Qed.

Lemma Validate_run s (w : World L) :
  Validate s w = validate_loop s ((range_map (tick w) (MemoryStore.authTokens (store w))).*2)
                   (set_tick (S (tick w)) w).
Proof. reflexivity. Qed.

Lemma RegisterToken_run plain name role (w : World L) :
  (exists h, bcrypt_GenerateFromPassword (tick w) plain = Ok h /\
    let tok := AuthToken.mk (uuid_New (S (tick w))) h role name None false (UTC (clock (S (S (tick w))))) in
    RegisterToken plain name role w
    = (Ok tok, set_store (set_tbl (<[AuthToken.ID tok := tok]> (MemoryStore.authTokens (store w))) (store w))
                 (set_tick (S (S (S (tick w)))) w))) \/
  exists e k, RegisterToken plain name role w = (Err e, set_tick k w).
Proof.
  unfold RegisterToken, AuthTokens.Create. m_run.
  destruct (bcrypt_GenerateFromPassword (tick w) plain) as [h|e]; [left|right]; eauto.
Qed.

Lemma RegisterToken_keyed plain name role (w : World L) :
  keyed (A := AuthToken.t) w -> keyed (A := AuthToken.t) (RegisterToken plain name role w).2.
Proof.
  intros Hk. destruct (RegisterToken_run plain name role w) as [(h & _ & ->)|(e & k & ->)]; [|exact Hk].
  intros id v. cbn. intros [[<- <-]|[_ Hv]]%lookup_insert_Some; [done|by apply Hk].
Qed.

Context `{!EnvOk E}.

Lemma listed_token (w : World L) n tok :
  tok ∈ (range_map n (MemoryStore.authTokens (store w))).*2 <->
  exists id, MemoryStore.authTokens (store w) !! id = Some tok.
Proof.
  rewrite range_map_perm, list_elem_of_fmap. split.
  - intros [[id t] [-> Hin]]. exists id. by apply elem_of_map_to_list in Hin.
  - intros [id Hid]. exists (id, tok). split; [done|]. by apply elem_of_map_to_list.
Qed.

Lemma Validate_sound_run s (w : World L) : exists r k,
  Validate s w = (r, set_tick k w) /\ forall tok, r = Ok tok -> accepted w s tok.
Proof.
  rewrite Validate_run. destruct (validate_loop_state s
    ((range_map (tick w) (MemoryStore.authTokens (store w))).*2) (set_tick (S (tick w)) w))
    as (r & k & Hrun & Hk).
  exists r, k. split; [exact Hrun|]. intros tok ->.
  apply validate_loop_sound in Hrun as (Hin & Hr & Hb & He). apply listed_token in Hin.
  split_and!; try done.
Qed.

Lemma Validate_rejects s (w : World L) : rejected_by_all w s ->
  exists k, Validate s w = (Err "invalid token", set_tick k w).
Proof.
  intros Hall. destruct (Validate_sound_run s w) as (r & k & Hrun & Hacc). exists k. rewrite Hrun.
  assert (Hno : forall tok, ~ accepted w s tok).
  { intros tok ([id Hid] & Hr & Hb & He). destruct (Hall id tok Hid) as [?|[?|(t & Ht & Hx)]]; [congruence..|].
    destruct (He t Ht) as (n & Hn & Hf). rewrite Hx in Hf by done. done. }
  destruct r as [tok|e]; [by destruct (Hno tok); apply Hacc|]. f_equal. f_equal.
  rewrite Validate_run in Hrun. by apply validate_loop_err in Hrun.
Qed.
End Facts.

Lemma Middleware_cases {L : Lib} {E : Env} `{!EnvOk E} {B P} (next : handler B P) r (w : World L) :
  (exists k msg, Middleware next r w = (writeError StatusUnauthorized msg, set_tick k w)) \/
  (exists tok k, HasPrefix (Request.Authorization r) "Bearer " = true /\
     accepted w (TrimPrefix (Request.Authorization r) "Bearer ") tok /\
     Middleware next r w = next (Request.set_token tok r) (set_tick k w)).
Proof.
  assert (Hw : forall w : World L, w = set_tick (tick w) w) by (by intros []).
  unfold Middleware. destruct (String.eqb (Request.Authorization r) "").
  { left. eexists (tick w), _. unfold mret, st_ret. by rewrite <- Hw. }
  destruct (String.eqb_spec (TrimPrefix (Request.Authorization r) "Bearer ") (Request.Authorization r)) as [|Hne].
  { left. eexists (tick w), _. unfold mret, st_ret. by rewrite <- Hw. }
  st_unfold. destruct (Validate_sound_run (TrimPrefix (Request.Authorization r) "Bearer ") w)
    as ([tok|e] & k & -> & Hacc).
  - right. exists tok, k. split_and!; [|by apply Hacc|done].
    unfold TrimPrefix in Hne. by destruct (HasPrefix _ _).
  - left. by eexists _, _.
Qed.

(** ** Properties *)

(** authentication is sound: [Validate] writes nothing to the store, and a
    token it returns is stored, not revoked, has a hash that matches the
    presented string, and had not expired when its expiry was checked. *)
Theorem Validate_sound {L : Lib} {E : Env} `{!EnvOk E} s (w : World L) tok w' :
  Validate s w = (Ok tok, w') -> store w' = store w /\ accepted w s tok.
Proof.
  intros H. destruct (Validate_sound_run s w) as (r & k & Hrun & Hacc).
  rewrite Hrun in H. simplify_eq. split; [done|]. by apply Hacc.
Qed.

Lemma Validate_sound_witness : exists tok w',
  Validate "secret" demo_token_world = (Ok tok, w') /\
  store w' = store demo_token_world /\ accepted demo_token_world "secret" tok.
Proof.
  eexists _, _. split; [vm_compute; reflexivity|].
  apply (Validate_sound "secret" demo_token_world). vm_compute. reflexivity.
Defined.

(** a token that was registered validates: after [RegisterToken] succeeds,
    presenting the same plain text is accepted, in every environment. *)
Theorem RegisterToken_validates {L : Lib} {E : Env} `{!EnvOk E} `{!LibOk L} plain name role
    (w : World L) tok w' :
  RegisterToken plain name role w = (Ok tok, w') ->
  exists tok' w'', Validate plain w' = (Ok tok', w'').
Proof.
  intros Hreg. destruct (RegisterToken_run plain name role w) as [(h & Hb & Hrun)|(e & k & Hrun)];
    rewrite Hrun in Hreg; [|done]. injection Hreg as _ <-.
  rewrite Validate_run. apply (validate_loop_complete _ _ _
    (AuthToken.mk (uuid_New (S (tick w))) h role name None false (UTC (clock (S (S (tick w)))))));
    [|done|done|by eapply bcrypt_match].
  apply listed_token. exists (uuid_New (S (tick w))). apply lookup_insert_eq.
Qed.

Lemma RegisterToken_validates_witness : exists tok' w'',
  Validate "secret" demo_token_world = (Ok tok', w'').
Proof.
  eapply (RegisterToken_validates "secret" "admin" RoleAdmin demo_world). vm_compute. reflexivity.
Defined.

(** revocation is final for a token: after [Revoke] of a stored token
    succeeds, that token is not what [Validate] returns for any string. *)
Theorem revoked_never_validates {L : Lib} {E : Env} `{!EnvOk E} id s (w w1 w2 : World L) tok tok' :
  MemoryStore.authTokens (store w) !! id = Some tok -> keyed (A := AuthToken.t) w ->
  Revoke id w = (Ok tt, w1) -> Validate s w1 = (Ok tok', w2) -> AuthToken.ID tok' <> id.
Proof.
  intros Hid Hkey Hrev Hval Heq.
  assert (Hk : AuthToken.ID tok = id) by (by apply (Hkey id)).
  destruct (Validate_sound_run s w1) as (r & k & Hrun & Hacc).
  rewrite Hval in Hrun. injection Hrun as <- _.
  destruct (Hacc tok' eq_refl) as ([id' Hid'] & Hr & _).
  assert (Hw1 : MemoryStore.authTokens (store w1)
    = alter (fun _ => AuthToken.set_Revoked true tok) (AuthToken.ID tok) (MemoryStore.authTokens (store w))).
  { unfold Revoke, AuthTokens.Revoke in Hrev. revert Hrev. st_unfold.
    rewrite tbl_Get_run. unfold rows. cbn [tbl token_table]. rewrite Hid, assign_run.
    intros Hrev. by injection Hrev as <-. }
  rewrite Hw1 in Hid'. clear Hw1.
  rewrite Hk in Hid'. destruct (decide (id' = id)) as [->|Hne].
  - rewrite lookup_alter_eq, Hid in Hid'. simpl in Hid'. by simplify_eq.
  - rewrite lookup_alter_ne in Hid' by done. apply (Hkey id') in Hid'. simpl in Hid'. congruence.
Qed.

(** The demo token, revoked, no longer answers to its own text; another one does. *)
Lemma revoked_never_validates_witness : exists w tok,
  let w1 := (Revoke "1" w).2 in
  MemoryStore.authTokens (store w) !! "1" = Some tok /\ Revoke "1" w = (Ok tt, w1) /\
  exists tok' w2, Validate "secret" w1 = (Ok tok', w2) /\ AuthToken.ID tok' <> "1".
Proof.
  exists (RegisterToken "secret" "second" RoleAuditor demo_token_world).2.
  eexists. split; [vm_compute; reflexivity|]. split; [vm_compute; reflexivity|].
  eexists _, _. split; [vm_compute; reflexivity|].
  eapply (revoked_never_validates "1" "secret"
    (RegisterToken "secret" "second" RoleAuditor demo_token_world).2);
    [vm_compute; reflexivity| |vm_compute; reflexivity|vm_compute; reflexivity].
  apply RegisterToken_keyed, RegisterToken_keyed. by apply keyed_empty.
Defined.

(** the middleware guards every handler it wraps: a request without a bearer
    token, or with one that no stored unrevoked unexpired token matches, gets
    401 and leaves the store, the bus and the sessions exactly as they were;
    the wrapped handler runs only on a request whose context holds an accepted
    token. *)
Theorem Middleware_guards {L : Lib} {E : Env} `{!EnvOk E} {B P} (next : handler B P) r (w : World L) :
  (exists k msg, Middleware next r w = (writeError StatusUnauthorized msg, set_tick k w)) \/
  (exists tok k, HasPrefix (Request.Authorization r) "Bearer " = true /\
     accepted w (TrimPrefix (Request.Authorization r) "Bearer ") tok /\
     Middleware next r w = next (Request.set_token tok r) (set_tick k w)).
Proof. apply Middleware_cases. Qed.

Lemma Middleware_guards_witness :
  (exists k msg, Middleware demo_next (demo_request "Bearer secret") demo_token_world
     = (writeError StatusUnauthorized msg, set_tick k demo_token_world)) \/
  (exists tok k, HasPrefix "Bearer secret" "Bearer " = true /\
     accepted demo_token_world (TrimPrefix "Bearer secret" "Bearer ") tok /\
     Middleware demo_next (demo_request "Bearer secret") demo_token_world
     = demo_next (Request.set_token tok (demo_request "Bearer secret")) (set_tick k demo_token_world)).
Proof. apply (Middleware_guards demo_next (demo_request "Bearer secret") demo_token_world). Defined.

(** role checks are exact: behind [RequireRole] the handler runs for a
    context token whose role is listed, a token of another role gets 403, and a
    request without a token 401; nothing is changed by the refusals. *)
Theorem RequireRole_exact {L : Lib} {B P} roles (next : handler B P) r (w : World L) :
  RequireRole roles next r w =
    match TokenFromContext r with
    | None => (writeError StatusUnauthorized "unauthorized", w)
    | Some tok => if decide (AuthToken.Role_ tok ∈ roles) then next r w
                  else (writeError StatusForbidden "forbidden", w)
    end.
Proof.
  unfold RequireRole, TokenFromContext. destruct (Request.token r) as [tok|]; [|done].
  destruct (existsb _ roles) eqn:He; destruct (decide _) as [Hin|Hin]; try done; exfalso.
  - apply existsb_exists in He as (role & Hr & Heq). apply bool_decide_eq_true in Heq.
    apply Hin. subst. by apply list_elem_of_In.
  - rewrite <- not_true_iff_false in He. apply He, existsb_exists. exists (AuthToken.Role_ tok).
    split; [by apply list_elem_of_In|]. by apply bool_decide_eq_true.
Qed.
