(* ===== verification/Mfa.v ===== *)
(** * core/internal/mfa: TOTP, push and WebAuthn factors

    The one-time-password, password-hash and WebAuthn libraries are the
    parameters of [Lib]; everything the package itself does is here: which
    factors are consulted, in which status, for which identity, and what is
    written back. The HTTP request body a WebAuthn ceremony reads is a
    [result string]: its bytes, or the error of reading it. *)

From S2P Require Import Prelude GoStrings GoTime GoFloat GoCrypto GoJson Types World Instances Storage.

(** ** TOTP *)

Module Totp.
Section Ops.
Context {L : Lib} {E : Env}.

Definition Enroll (identityID issuer : string) : M (result (Factor.t * string * string)) :=
  key ← ask (fun n => totp_Generate n issuer identityID);
  match key with
  | Err e => mret (Err ("generate totp: " +:+ e))
  | Ok (secret, url) =>
      id ← NewID;
      now ← Now;
      let factor := Factor.mk id identityID MFAMethodTOTP FactorStatusPendingActivation secret ""
                      (UTC now) in
      _ ←? Factors.Create factor;
      mret (Ok (factor, secret, url))
  end.

(** [totp.Validate(code, secret)] reads the clock. *)
Definition validate (code secret : string) : M bool :=
  now ← Now; mret (totp_Validate now code secret).

Definition Activate (identityID factorID code : string) : M (result unit) :=
  factor ←? Factors.Get factorID;
  if negb (String.eqb (Factor.IdentityID factor) identityID)
  then mret (Err "factor not found for identity")
  else if negb (bool_decide (Factor.Status factor = FactorStatusPendingActivation))
  then mret (Err "factor already activated")
  else
    valid ← validate code (Factor.Secret factor);
    if negb valid then mret (Err "invalid totp code")
    else
      factor ← assign (Factor.set_Status FactorStatusActive) factor;
      Factors.Update factor.

(** The loop of [Verify]: each active TOTP factor is tried at the current time
    and, with one period of skew, thirty seconds earlier. *)
Fixpoint verify_loop (code : string) (fs : list Factor.t) : M (result bool) :=
  match fs with
  | [] => mret (Ok false)
  | f :: fs' =>
      if String.eqb (Factor.Method f) MFAMethodTOTP
         && bool_decide (Factor.Status f = FactorStatusActive)
      then
        valid ← validate code (Factor.Secret f);
        if (valid : bool) then mret (Ok true)
        else
          now ← Now;
          match totp_ValidateCustom (Add now (-30 * Second)) code (Factor.Secret f) with
          | Ok true => mret (Ok true)
          | _ => verify_loop code fs'
          end
      else verify_loop code fs'
  end.

Definition Verify (identityID code : string) : M (result bool) :=
  factors ←? Factors.ListByIdentity identityID;
  verify_loop code factors.

Definition GenerateCode (secret : string) : M (result string) :=
  now ← Now; mret (totp_GenerateCode secret now).
End Ops.
End Totp.

(** ** Push approvals *)

Module Push.
(** The acceptance window for timestamps. *)
Definition NewPushService (skewSeconds : Z) : Z := int64 (skewSeconds * Second).

Definition computeHMAC (payload key : string) : string :=
  EncodeToString (hmac_sha256 (bytes key) (bytes payload)).

Definition hashSecret (secret : string) : string := EncodeToString (Sum256 (bytes secret)).

(** [fmt.Sprintf] of the three parts, separated by a bar. *)
Definition payload (challengeID : string) (number : Z) (timestamp : Time) : string :=
  challengeID +:+ "|" +:+ pretty number +:+ "|" +:+ FormatRFC3339 timestamp.

Definition ComputePushSignature (deviceSecret challengeID : string) (number : Z) (timestamp : Time) : string :=
  computeHMAC (payload challengeID number timestamp) (hashSecret deviceSecret).

Section Ops.
Context {L : Lib} {E : Env}.

Definition RegisterDevice (identityID name : string) : M (result (Device.t * string)) :=
  raw ← ask (fun n => rand_Read n 32);
  match raw with
  | Err e => mret (Err e)
  | Ok raw =>
      let secret := EncodeToString raw in
      let hash := hashSecret secret in
      id ← NewID;
      now ← Now;
      let device := Device.mk id identityID name true true hash (UTC now) in
      _ ←? Devices.Create device;
      mret (Ok (device, secret))
  end.

Definition GenerateNumber : M (result Z) := ask (fun n => rand_Int n 100).

(** [time.Since(t) > w || time.Until(t) > w]. *)
Definition outside_window (skewWindow : Z) (timestamp : Time) : M bool :=
  now ← Now;
  if skewWindow <? Sub now timestamp then mret true
  else now' ← Now; mret (skewWindow <? Sub timestamp now').

Definition VerifyApproval (skewWindow : Z) (deviceID challengeID : string) (number : Z)
    (signature : string) (timestamp : Time) : M (result unit) :=
  outside ← outside_window skewWindow timestamp;
  if (outside : bool) then mret (Err "timestamp outside acceptable window")
  else
    device ← Devices.Get deviceID;
    match device with
    | Err _ => mret (Err "device not found")
    | Ok device =>
        let expectedSig := computeHMAC (payload challengeID number timestamp) (Device.SecretHash device) in
        if negb (String.eqb signature expectedSig) then mret (Err "invalid signature")
        else mret (Ok tt)
    end.
End Ops.
End Push.

(** ** WebAuthn *)

Module WebAuthn.
Module WebAuthnSettings.
Record t := mk {
  RPID : string;
  RPDisplayName : string;
  RPOrigins : list string;
  RequireUserVerification : bool
}.
End WebAuthnSettings.

Definition sessionTTL : Z := 5 * Minute.

Module webauthnUser.
Record t {L : Lib} := mk { identityID : string; displayName : string; credentials : list Credential }.
Arguments t : clear implicits.
End webauthnUser.

Section Ops.
Context {L : Lib} {E : Env}.

(** Fails fast on invalid relying-party settings; the session map is empty. *)
Definition NewWebAuthnService (settings : WebAuthnSettings.t) : M (result unit) :=
  match wa_New (WebAuthnSettings.RPID settings) (WebAuthnSettings.RPDisplayName settings)
          (WebAuthnSettings.RPOrigins settings) (WebAuthnSettings.RequireUserVerification settings) with
  | Err e => mret (Err ("webauthn config: " +:+ e))
  | Ok _ => _ ← modify (set_sessions ∅); mret (Ok tt)
  end.

Definition WebAuthnName (u : webauthnUser.t L) : string :=
  if negb (String.eqb (webauthnUser.displayName u) "") then webauthnUser.displayName u
  else webauthnUser.identityID u.

(** The factor holds a usable credential. *)
Definition usable (f : Factor.t) : bool :=
  String.eqb (Factor.Method f) MFAMethodWebAuthn && bool_decide (Factor.Status f = FactorStatusActive).

Definition credential_of (f : Factor.t) : option Credential :=
  if usable f then
    match credential_Unmarshal (Factor.Credentials f) with Ok c => Some c | Err _ => None end
  else None.

Definition user (identityID : string) : M (result (webauthnUser.t L)) :=
  identity ← Identities.Get identityID;
  let displayName :=
    match identity with
    | Err _ => ""
    | Ok i => if negb (String.eqb (Identity.DisplayName i) "") then Identity.DisplayName i
              else Identity.Username i
    end in
  factors ←? Factors.ListByIdentity identityID;
  mret (Ok (webauthnUser.mk L identityID displayName (omap credential_of factors))).

Definition BeginRegistration (identityID : string) : M (result (Factor.t * CredentialCreation)) :=
  user ←? user identityID;
  r ← ask (fun n => wa_BeginRegistration n (webauthnUser.identityID user) (WebAuthnName user)
                      (webauthnUser.credentials user));
  match r with
  | Err e => mret (Err ("begin registration: " +:+ e))
  | Ok (creation, session) =>
      match session_Marshal session with
      | Err e => mret (Err ("encode registration session: " +:+ e))
      | Ok sessionJSON =>
          id ← NewID;
          now ← Now;
          let factor := Factor.mk id identityID MFAMethodWebAuthn FactorStatusPendingActivation ""
                          sessionJSON (UTC now) in
          _ ←? Factors.Create factor;
          mret (Ok (factor, creation))
      end
  end.

(** [t.IsZero() || time.Since(t) > sessionTTL]. *)
Definition ceremony_expired (createdAt : Time) : M bool :=
  if IsZero createdAt then mret true
  else now ← Now; mret (sessionTTL <? Sub now createdAt).

Definition FinishRegistration (identityID factorID : string) (body : result string) : M (result Factor.t) :=
  factor ←? Factors.Get factorID;
  if negb (String.eqb (Factor.IdentityID factor) identityID)
     || negb (String.eqb (Factor.Method factor) MFAMethodWebAuthn)
  then mret (Err "factor not found for identity")
  else if negb (bool_decide (Factor.Status factor = FactorStatusPendingActivation))
  then mret (Err "factor already activated")
  else
    expired ← ceremony_expired (Factor.CreatedAt factor);
    if (expired : bool) then mret (Err "registration ceremony expired")
    else
      match session_Unmarshal (Factor.Credentials factor) with
      | Err e => mret (Err ("corrupt registration session: " +:+ e))
      | Ok session =>
          user ←? user identityID;
          r ← ask (fun n => wa_FinishRegistration n (webauthnUser.identityID user) (WebAuthnName user)
                              (webauthnUser.credentials user) session body);
          match r with
          | Err e => mret (Err ("finish registration: " +:+ e))
          | Ok credential =>
              match credential_Marshal credential with
              | Err e => mret (Err ("encode credential: " +:+ e))
              | Ok credJSON =>
                  factor ← assign (Factor.set_Credentials credJSON) factor;
                  factor ← assign (Factor.set_Status FactorStatusActive) factor;
                  _ ←? Factors.Update factor;
                  mret (Ok factor)
              end
          end
      end.

Definition BeginVerification (identityID : string) : M (result (CredentialAssertion * string)) :=
  user ←? user identityID;
  if (length (webauthnUser.credentials user) =? 0)%nat
  then mret (Err "no active webauthn credentials for identity")
  else
    r ← ask (fun n => wa_BeginLogin n (webauthnUser.identityID user) (WebAuthnName user)
                        (webauthnUser.credentials user));
    match r with
    | Err e => mret (Err ("begin verification: " +:+ e))
    | Ok (assertion, session) =>
        match session_Marshal session with
        | Err e => mret (Err ("encode verification session: " +:+ e))
        | Ok sessionJSON => mret (Ok (assertion, sessionJSON))
        end
    end.

(** Drop the sessions that expired before [now]. *)
Definition prune (now : Time) (m : gmap string (pendingSession.t L)) : gmap string (pendingSession.t L) :=
  base.filter (fun kv => Before (pendingSession.expiresAt kv.2) now = false) m.

Definition BeginIdentityVerification (identityID : string) : M (result CredentialAssertion) :=
  p ←? BeginVerification identityID;
  match session_Unmarshal p.2 with
  | Err e => mret (Err ("encode verification session: " +:+ e))
  | Ok session =>
      now ← Now;
      _ ← modify (fun w => set_sessions
            (<[identityID := pendingSession.mk L session (Add now sessionTTL)]> (prune now (sessions w))) w);
      mret (Ok p.1)
  end.

(** The loop of [persistCounter] over the identity's factors. *)
Fixpoint persist_loop (updated : Credential) (fs : list Factor.t) : M (result unit) :=
  match fs with
  | [] => mret (Err "credential not found for identity")
  | f :: fs' =>
      match credential_of f with
      | None => persist_loop updated fs'
      | Some stored =>
          if negb (String.eqb (cred_ID stored) (cred_ID updated)) then persist_loop updated fs'
          else
            let stored := cred_set_authenticator (cred_SignCount updated) (cred_CloneWarning updated) stored in
            match credential_Marshal stored with
            | Err e => mret (Err e)
            | Ok credJSON =>
                f ← assign (Factor.set_Credentials credJSON) f;
                Factors.Update f
            end
      end
  end.

Definition persistCounter (identityID : string) (updated : Credential) : M (result unit) :=
  factors ←? Factors.ListByIdentity identityID;
  persist_loop updated factors.

(** Returns the verdict and the error: after a successful ceremony a failure to
    store the counter is reported beside the verdict [true]. *)
Definition FinishVerification (identityID sessionJSON : string) (body : result string)
    : M (bool * option string) :=
  match session_Unmarshal sessionJSON with
  | Err e => mret (false, Some ("corrupt verification session: " +:+ e))
  | Ok session =>
      u ← user identityID;
      match u with
      | Err e => mret (false, Some e)
      | Ok user =>
          match body with
          | Err e => mret (false, Some ("read assertion response: " +:+ e))
          | Ok body =>
              r ← ask (fun n => wa_FinishLogin n (webauthnUser.identityID user) (WebAuthnName user)
                                  (webauthnUser.credentials user) session body);
              match r with
              | Err e => mret (false, Some ("finish verification: " +:+ e))
              | Ok credential =>
                  p ← persistCounter identityID credential;
                  mret (match p with
                        | Err e => (true, Some ("persist sign counter: " +:+ e))
                        | Ok _ => (true, None)
                        end)
              end
          end
      end
  end.

Definition FinishIdentityVerification (identityID : string) (body : result string)
    : M (bool * option string) :=
  ps ← gets (fun w => sessions w !! identityID);
  _ ← modify (fun w => set_sessions (delete identityID (sessions w)) w);
  match ps with
  | None => mret (false, Some "no webauthn ceremony in progress; call begin first")
  | Some ps =>
      now ← Now;
      if After now (pendingSession.expiresAt ps)
      then mret (false, Some "webauthn ceremony expired")
      else
        match session_Marshal (pendingSession.session ps) with
        | Err e => mret (false, Some ("encode verification session: " +:+ e))
        | Ok sessionJSON => FinishVerification identityID sessionJSON body
        end
  end.
End Ops.
End WebAuthn.

(** ** Concrete data *)

Definition demo_factor_world : World demo_lib := (Totp.Enroll "id-1" "OIAF" demo_world).2.

(** Running [m] reads the environment and changes nothing. *)
Definition reads_only {L : Lib} {A} (m : M A) : Prop :=
  forall w : World L, exists a k, m w = (a, set_tick k w) /\ (tick w <= k)%nat.

(** Running [m] changes factors only. *)
Definition factors_only {L : Lib} {A} (m : M A) : Prop :=
  forall w : World L, exists a k fs,
    m w = (a, set_store (MemoryStore.set_factors fs (store w)) (set_tick k w)) /\ (tick w <= k)%nat.

(** The TOTP library accepts [code] for a factor at some clock reading. *)
Definition totp_accepts {L : Lib} {E : Env} (code : string) (f : Factor.t) : Prop :=
  exists n, totp_Validate (clock n) code (Factor.Secret f) = true \/
            totp_ValidateCustom (Add (clock n) (-30 * Second)) code (Factor.Secret f) = Ok true.

(** ** Facts *)

Section Frames.
Context {L : Lib} {E : Env}.

Lemma set_tick_id (w : World L) : set_tick (tick w) w = w.
Proof. by destruct w. Qed.

Lemma set_factors_id (s : MemoryStore.t) : MemoryStore.set_factors (MemoryStore.factors s) s = s.
Proof. by destruct s. Qed.

Lemma reads_only_ret {A} (a : A) : reads_only (mret a).
Proof. intros w. exists a, (tick w). by rewrite set_tick_id. Qed.

Lemma reads_only_ask {A} (f : nat -> A) : reads_only (ask f).
Proof. intros w. eexists _, _. split; [reflexivity|lia]. Qed.

Lemma reads_only_gets {A} (f : World L -> A) : reads_only (gets f).
Proof. intros w. exists (f w), (tick w). by rewrite set_tick_id. Qed.

Lemma reads_only_bind {A B} (m : M A) (k : A -> M B) :
  reads_only m -> (forall a, reads_only (k a)) -> reads_only (x ← m; k x).
Proof.
  intros Hm Hk w. st_unfold. destruct (Hm w) as (a & n & -> & Hn).
  destruct (Hk a (set_tick n w)) as (b & n' & -> & Hn'). exists b, n'. simpl in Hn'. split; [done|lia].
Qed.

Lemma reads_only_try {A B} (m : M (result A)) (k : A -> M (result B)) :
  reads_only m -> (forall a, reads_only (k a)) -> reads_only (st_try m k).
Proof.
  intros Hm Hk w. unfold st_try. destruct (Hm w) as ([a|e] & n & -> & Hn); [|by exists (Err e), n].
  destruct (Hk a (set_tick n w)) as (b & n' & -> & Hn'). exists b, n'. simpl in Hn'. split; [done|lia].
Qed.

Lemma reads_only_Get {A} `{Table A} id : reads_only (tbl_Get id).
Proof. intros w. eexists _, (tick w). rewrite tbl_Get_run, set_tick_id. split; [reflexivity|done]. Qed.

Lemma reads_only_ListBy {A} `{Table A} p : reads_only (tbl_ListBy p).
Proof. intros w. eexists _, _. split; [reflexivity|lia]. Qed.

Lemma factors_only_reads {A} (m : M A) : reads_only m -> factors_only m.
Proof.
  intros Hm w. destruct (Hm w) as (a & k & Hrun & Hk). exists a, k, (MemoryStore.factors (store w)).
  rewrite Hrun, set_factors_id. by destruct w.
Qed.

Lemma factors_only_bind {A B} (m : M A) (k : A -> M B) :
  factors_only m -> (forall a, factors_only (k a)) -> factors_only (x ← m; k x).
Proof.
  intros Hm Hk w. st_unfold. destruct (Hm w) as (a & n & fs & -> & Hn).
  destruct (Hk a (set_store (MemoryStore.set_factors fs (store w)) (set_tick n w)))
    as (b & n' & fs' & -> & Hn'). exists b, n', fs'. simpl in Hn'. split; [done|lia].
Qed.

Lemma factors_only_try {A B} (m : M (result A)) (k : A -> M (result B)) :
  factors_only m -> (forall a, factors_only (k a)) -> factors_only (st_try m k).
Proof.
  intros Hm Hk w. unfold st_try.
  destruct (Hm w) as ([a|e] & n & fs & -> & Hn); [|by exists (Err e), n, fs].
  destruct (Hk a (set_store (MemoryStore.set_factors fs (store w)) (set_tick n w)))
    as (b & n' & fs' & -> & Hn'). exists b, n', fs'. simpl in Hn'. split; [done|lia].
Qed.

Lemma factors_only_assign f (v : Factor.t) : factors_only (assign f v).
Proof. intros w. rewrite assign_run. eexists _, (tick w), _. by rewrite set_tick_id. Qed.

Lemma factors_only_Update (v : Factor.t) : factors_only (Factors.Update v).
Proof.
  intros w. unfold Factors.Update. rewrite tbl_Update_run. destruct (rows w !! key v).
  - eexists _, (tick w), _. by rewrite set_tick_id.
  - exists (Err (notFound (key v))), (tick w), (MemoryStore.factors (store w)).
    rewrite set_tick_id, set_factors_id. by destruct w.
Qed.
End Frames.

#[export] Hint Resolve reads_only_ret reads_only_ask reads_only_gets reads_only_Get reads_only_ListBy
  factors_only_reads factors_only_assign factors_only_Update : oiaf.

(** Decompose a computation down to the primitives. *)
Ltac frame :=
  repeat match goal with
  | |- forall _, _ => intros ?
  | |- reads_only (mbind _ _) => apply reads_only_bind
  | |- reads_only (st_try _ _) => apply reads_only_try
  | |- reads_only (if ?b then _ else _) => destruct b
  | |- reads_only (match ?x with _ => _ end) => destruct x
  | |- reads_only _ => solve [eauto with oiaf]
  | |- factors_only (mbind _ _) => apply factors_only_bind
  | |- factors_only (st_try _ _) => apply factors_only_try
  | |- factors_only (if ?b then _ else _) => destruct b
  | |- factors_only (match ?x with _ => _ end) => destruct x
  | |- factors_only _ => solve [eauto with oiaf]
  end.

Section Reads.
Context {L : Lib} {E : Env}.

Lemma Totp_verify_loop_reads code fs : reads_only (Totp.verify_loop code fs).
Proof.
  induction fs as [|f fs IH]; cbn [Totp.verify_loop]; [frame|].
  unfold Totp.validate, Now. frame; exact IH.
Qed.

Lemma Totp_Verify_reads id code : reads_only (Totp.Verify id code).
Proof.
  unfold Totp.Verify, Factors.ListByIdentity. apply reads_only_try; [frame|].
  intros fs. apply Totp_verify_loop_reads.
Qed.

Lemma VerifyApproval_reads win dev ch n sig ts : reads_only (Push.VerifyApproval win dev ch n sig ts).
Proof. unfold Push.VerifyApproval, Push.outside_window, Devices.Get, Now. frame. Qed.

Lemma user_reads id : reads_only (WebAuthn.user id).
Proof. unfold WebAuthn.user, Identities.Get, Factors.ListByIdentity. frame. Qed.

Lemma BeginVerification_reads id : reads_only (WebAuthn.BeginVerification id).
Proof. unfold WebAuthn.BeginVerification. apply reads_only_try; [apply user_reads|]. frame. Qed.

Lemma persistCounter_frame id c : factors_only (WebAuthn.persistCounter id c).
Proof.
  unfold WebAuthn.persistCounter, Factors.ListByIdentity. apply factors_only_try; [frame|].
  intros fs. induction fs as [|f fs IH]; cbn [WebAuthn.persist_loop]; [frame|]. frame; exact IH.
Qed.

Lemma FinishVerification_frame id sess body : factors_only (WebAuthn.FinishVerification id sess body).
Proof.
  unfold WebAuthn.FinishVerification. destruct (session_Unmarshal sess) as [s|e]; [|frame].
  apply factors_only_bind; [apply factors_only_reads, user_reads|]. intros u.
  destruct u as [u|e]; [|frame]. destruct body as [body|e]; [|frame].
  apply factors_only_bind; [frame|]. intros r. destruct r as [c|e]; [|frame].
  apply factors_only_bind; [apply persistCounter_frame|]. frame.
Qed.
End Reads.

Section Runs.
Context {L : Lib} {E : Env}.

(** An accepted code is accepted by the library for one of the listed factors. *)
Lemma Totp_verify_loop_sound code fs (w w' : World L) :
  Totp.verify_loop code fs w = (Ok true, w') ->
  exists f, f ∈ fs /\ Factor.Method f = MFAMethodTOTP /\ Factor.Status f = FactorStatusActive /\
    totp_accepts code f.
Proof.
  revert w. induction fs as [|f fs IH]; intros w; cbn [Totp.verify_loop]; [done|].
  destruct (_ && _) eqn:Hu.
  - apply andb_prop in Hu as [Hm%String.eqb_eq Hs%bool_decide_eq_true].
    unfold Totp.validate. m_run.
    destruct (totp_Validate (clock (tick w)) code (Factor.Secret f)) eqn:Hv.
    { intros _. exists f. split_and!; [by left|done|done|]. exists (tick w). by left. }
    destruct (totp_ValidateCustom _ code (Factor.Secret f)) as [[]|] eqn:Hc.
    { intros _. exists f. split_and!; [by left|done|done|]. eexists. right. exact Hc. }
    all: intros Hrun; apply IH in Hrun as (f' & ? & ?); exists f'; split; [by right|done].
  - intros Hrun. apply IH in Hrun as (f' & ? & ?). exists f'. split; [by right|done].
Qed.

(** A listed active factor whose code is valid throughout makes the loop succeed. *)
Lemma Totp_verify_loop_complete code fs f (w : World L) :
  f ∈ fs -> Factor.Method f = MFAMethodTOTP -> Factor.Status f = FactorStatusActive ->
  (forall n, (tick w <= n)%nat -> totp_Validate (clock n) code (Factor.Secret f) = true) ->
  exists w', Totp.verify_loop code fs w = (Ok true, w').
Proof.
  intros Hin Hm Hs. revert w Hin.
  induction fs as [|f0 fs IH]; intros w Hin Hv; [by apply not_elem_of_nil in Hin|]. cbn [Totp.verify_loop].
  unfold Totp.validate. apply elem_of_cons in Hin as [<-|Hin].
  { rewrite Hm, Hs, String.eqb_refl, bool_decide_eq_true_2 by done. cbn [andb]. m_run.
    rewrite Hv by lia. by eexists. }
  destruct (_ && _); [|by apply IH]. m_run.
  destruct (totp_Validate _ code (Factor.Secret f0)); [by eexists|].
  destruct (totp_ValidateCustom _ code (Factor.Secret f0)) as [[]|]; [by eexists|..];
    (apply IH; [done|]; intros n Hn; apply Hv; simpl in Hn; lia).
Qed.

Lemma listed_factor `{!EnvOk E} id (w : World L) f :
  f ∈ base.filter (fun v => bool_decide (Factor.IdentityID v = id) = true)
        ((range_map (tick w) (MemoryStore.factors (store w))).*2) ->
  Factor.IdentityID f = id /\ exists k, MemoryStore.factors (store w) !! k = Some f.
Proof.
  rewrite list_elem_of_filter, range_map_perm, list_elem_of_fmap.
  intros (Hid%bool_decide_eq_true & [k v] & -> & Hin). apply elem_of_map_to_list in Hin. eauto.
Qed.

Lemma outside_window_run win t (w : World L) : exists b k,
  Push.outside_window win t w = (b, set_tick k w) /\
  (b = false <-> Sub (clock (tick w)) t <= win /\ Sub t (clock (S (tick w))) <= win).
Proof.
  unfold Push.outside_window. m_run.
  destruct (Z.ltb_spec win (Sub (clock (tick w)) t)) as [H|H].
  - eexists _, _. split; [reflexivity|]. split; [done|lia].
  - eexists _, _. split; [reflexivity|]. cbn [tick set_tick].
    destruct (Z.ltb_spec win (Sub t (clock (S (tick w))))); split; intros; (done || lia).
Qed.

(** What an approval is checked against. *)
Definition approval_ok (win : Z) (dev ch : string) (n : Z) (sig : string) (t : Time) (w : World L) : Prop :=
  Sub (clock (tick w)) t <= win /\ Sub t (clock (S (tick w))) <= win /\
  exists d, MemoryStore.devices (store w) !! dev = Some d /\
    sig = Push.computeHMAC (Push.payload ch n t) (Device.SecretHash d).

Lemma VerifyApproval_run win dev ch n sig t (w : World L) : exists r k,
  Push.VerifyApproval win dev ch n sig t w = (r, set_tick k w) /\
  (r = Ok tt <-> approval_ok win dev ch n sig t w).
Proof.
  unfold Push.VerifyApproval, approval_ok. st_unfold.
  destruct (outside_window_run win t w) as ([] & k & -> & Hb).
  { eexists _, k. split; [reflexivity|]. split; [done|]. intros (H1 & H2 & _).
    by pose proof (proj2 Hb (conj H1 H2)). }
  destruct Hb as [Hb _]. specialize (Hb eq_refl).
  unfold Devices.Get. rewrite tbl_Get_run. unfold rows. cbn [tbl device_table store set_tick].
  destruct (MemoryStore.devices (store w) !! dev) as [d|].
  - destruct (String.eqb_spec sig (Push.computeHMAC (Push.payload ch n t) (Device.SecretHash d))) as [->|Hne];
      eexists _, k; (split; [reflexivity|]).
    + split; [|done]. intros _. split_and!; [apply Hb|apply Hb|]. by exists d.
    + split; [done|]. intros (_ & _ & d' & [= <-] & ?). done.
  - eexists _, k. split; [reflexivity|]. split; [done|]. by intros (_ & _ & d' & ? & _).
Qed.
End Runs.

Lemma Totp_Verify_true {L : Lib} {E : Env} `{!EnvOk E} id code (w w' : World L) :
  Totp.Verify id code w = (Ok true, w') ->
  store w' = store w /\
  exists k f, MemoryStore.factors (store w) !! k = Some f /\ Factor.IdentityID f = id /\
    Factor.Method f = MFAMethodTOTP /\ Factor.Status f = FactorStatusActive /\ totp_accepts code f.
Proof.
  intros Hrun. split.
  { destruct (Totp_Verify_reads id code w) as (r & k & Hr & _). rewrite Hrun in Hr. by simplify_eq. }
  unfold Totp.Verify, Factors.ListByIdentity, tbl_ListBy, tbl_range, st_try in Hrun. m_run.
  apply Totp_verify_loop_sound in Hrun as (f & Hin & Hm & Hs & Ha).
  apply listed_factor in Hin as (Hid & k & Hk). by exists k, f.
Qed.

(** A stored active factor whose code stays valid makes [Verify] say yes. *)
Lemma Totp_Verify_complete {L : Lib} {E : Env} `{!EnvOk E} id code (w : World L) k f :
  MemoryStore.factors (store w) !! k = Some f -> Factor.IdentityID f = id ->
  Factor.Method f = MFAMethodTOTP -> Factor.Status f = FactorStatusActive ->
  (forall n, (tick w <= n)%nat -> totp_Validate (clock n) code (Factor.Secret f) = true) ->
  exists w', Totp.Verify id code w = (Ok true, w').
Proof.
  intros Hf Hid Hm Hs Hv. unfold Totp.Verify, Factors.ListByIdentity, tbl_ListBy, tbl_range, st_try. m_run.
  apply (Totp_verify_loop_complete code _ f); [|done|done|intros n Hn; apply Hv; simpl in Hn; lia].
  rewrite list_elem_of_filter, range_map_perm, list_elem_of_fmap. split; [by apply bool_decide_eq_true|].
  exists (k, f). split; [done|]. by apply elem_of_map_to_list.
Qed.

(** A successful verification was accepted by the WebAuthn library. *)
Lemma FinishVerification_true {L : Lib} {E : Env} id sess body (w : World L) err w' :
  WebAuthn.FinishVerification id sess body w = ((true, err), w') ->
  exists s b n name creds cred, session_Unmarshal sess = Ok s /\ body = Ok b /\
    wa_FinishLogin n id name creds s b = Ok cred.
Proof.
  unfold WebAuthn.FinishVerification. destruct (session_Unmarshal sess) as [s|]; [|done]. st_unfold.
  assert (Hu : forall u w1, WebAuthn.user id w = (Ok u, w1) -> WebAuthn.webauthnUser.identityID u = id).
  { intros u w1. unfold WebAuthn.user, Factors.ListByIdentity, tbl_ListBy, tbl_range, st_try.
    m_run. destruct (Identities.Get id w) as [i w2]. intros H. by injection H as <- _. }
  destruct (WebAuthn.user id w) as [[u|e] w1]; [|done]. specialize (Hu u w1 eq_refl).
  destruct body as [b|]; [|done]. unfold ask. rewrite Hu.
  destruct (wa_FinishLogin _ id _ _ s b) as [cred|] eqn:Hl; [|done]. intros _. eauto 10.
Qed.

(** ** Properties *)

(** enrolment needs proof of possession: [Activate] succeeds exactly for a
    pending factor of the named identity with a code the library accepts now;
    it then makes that factor active and changes nothing else, and on every
    error path the store is left as it was. *)
Theorem Activate_exact {L : Lib} {E : Env} id fid code (w : World L) :
  keyed (A := Factor.t) w ->
  exists k, match MemoryStore.factors (store w) !! fid with
  | Some f =>
      if String.eqb (Factor.IdentityID f) id
         && bool_decide (Factor.Status f = FactorStatusPendingActivation)
         && totp_Validate (clock (tick w)) code (Factor.Secret f)
      then Totp.Activate id fid code w
           = (Ok tt, set_store (MemoryStore.set_factors
               (<[fid := Factor.set_Status FactorStatusActive f]> (MemoryStore.factors (store w))) (store w))
               (set_tick k w))
      else exists e, Totp.Activate id fid code w = (Err e, set_tick k w)
  | None => exists e, Totp.Activate id fid code w = (Err e, set_tick k w)
  end.
Proof.
  intros Hk. unfold Totp.Activate, Factors.Get, Totp.validate, st_try. rewrite tbl_Get_run.
  unfold rows. cbn [tbl factor_table].
  destruct (MemoryStore.factors (store w) !! fid) as [f|] eqn:Hf.
  2: { exists (tick w). rewrite set_tick_id. eauto. }
  assert (Hid : Factor.ID f = fid) by (by apply (Hk fid)).
  destruct (String.eqb (Factor.IdentityID f) id); cbn [negb andb].
  2: { exists (tick w). rewrite set_tick_id. unfold mret, st_ret. eauto. }
  destruct (bool_decide _); cbn [negb andb].
  2: { exists (tick w). rewrite set_tick_id. unfold mret, st_ret. eauto. }
  exists (S (tick w)). m_run. destruct (totp_Validate _ code _); cbn [negb]; [|eauto].
  pose proof (assign_update (Factor.set_Status FactorStatusActive) f (set_tick (S (tick w)) w) f) as Hau.
  cbn [key factor_table] in Hau. rewrite Hid in Hau. unfold Factors.Update. apply Hau; [exact Hf|done].
Qed.

Lemma Activate_exact_witness : exists f w', 
  MemoryStore.factors (store demo_factor_world) !! "1" = Some f /\
  Totp.Activate "id-1" "1" "424242" demo_factor_world = (Ok tt, w') /\
  MemoryStore.factors (store w') !! "1" = Some (Factor.set_Status FactorStatusActive f).
Proof.
  assert (Hk : keyed (A := Factor.t) demo_factor_world).
  { assert (Hr : rows demo_factor_world = <["1" := Factor.mk "1" "id-1" MFAMethodTOTP
      FactorStatusPendingActivation "424242" "" (UTC (demo_clock 2))]> ∅) by (vm_compute; reflexivity).
    intros id v Hv. rewrite Hr in Hv.
    apply lookup_insert_Some in Hv as [[<- <-]|[_ Hv]]; [reflexivity|]. by rewrite lookup_empty in Hv. }
  destruct (Activate_exact "id-1" "1" "424242" demo_factor_world Hk) as [k Hrun].
  eexists _, _. split; [reflexivity|]. split; [exact Hrun|]. apply lookup_insert_eq.
Defined.

(** one-time codes count only against the identity's own active factors:
    [Verify] changes nothing in the store, and when it says yes there is a
    stored, active TOTP factor of that identity for which the library accepted
    the code. *)
Theorem Totp_Verify_sound {L : Lib} {E : Env} `{!EnvOk E} id code (w w' : World L) :
  Totp.Verify id code w = (Ok true, w') ->
  store w' = store w /\
  exists k f, MemoryStore.factors (store w) !! k = Some f /\ Factor.IdentityID f = id /\
    Factor.Method f = MFAMethodTOTP /\ Factor.Status f = FactorStatusActive /\ totp_accepts code f.
Proof. apply Totp_Verify_true. Qed.

Lemma Totp_Verify_sound_witness : exists w w', Totp.Verify "id-1" "424242" w = (Ok true, w') /\
  store w' = store w /\
  exists k f, MemoryStore.factors (store w) !! k = Some f /\ Factor.IdentityID f = "id-1" /\
    Factor.Method f = MFAMethodTOTP /\ Factor.Status f = FactorStatusActive /\ totp_accepts "424242" f.
Proof.
  exists (Totp.Activate "id-1" "1" "424242" demo_factor_world).2. eexists.
  split; [vm_compute; reflexivity|].
  eapply (Totp_Verify_sound "id-1" "424242"). vm_compute. reflexivity.
Defined.

(** a push approval is accepted exactly when its timestamp is within the
    window on both sides, the device is registered, and the signature is the
    HMAC of challenge id, number and timestamp under that device's key; the
    check itself changes nothing. *)
Theorem VerifyApproval_exact {L : Lib} {E : Env} win dev ch n sig t (w : World L) : exists r k,
  Push.VerifyApproval win dev ch n sig t w = (r, set_tick k w) /\
  (r = Ok tt <-> approval_ok win dev ch n sig t w).
Proof. apply VerifyApproval_run. Qed.

(** push round trip: a signature a device computes with the secret it got
    from [RegisterDevice] is accepted for the same challenge, number and
    timestamp whenever the timestamp is within the window. *)
Theorem push_roundtrip {L : Lib} {E : Env} id name (w w1 : World L) dev secret win ch n t :
  Push.RegisterDevice id name w = (Ok (dev, secret), w1) ->
  Sub (clock (tick w1)) t <= win -> Sub t (clock (S (tick w1))) <= win ->
  exists w2, Push.VerifyApproval win (Device.ID dev) ch n (Push.ComputePushSignature secret ch n t) t w1
             = (Ok tt, w2).
Proof.
  intros Hreg H1 H2.
  destruct (VerifyApproval_run win (Device.ID dev) ch n (Push.ComputePushSignature secret ch n t) t w1)
    as (r & k & Hrun & Hiff).
  exists (set_tick k w1). rewrite Hrun. f_equal. apply Hiff. split; [done|]. split; [done|].
  unfold Push.RegisterDevice, Devices.Create in Hreg. m_run.
  destruct (rand_Read (tick w) 32) as [raw|]; [|done]. injection Hreg as <- <- <-.
  eexists. split; [apply lookup_insert_eq|reflexivity].
Qed.

Lemma push_roundtrip_witness : exists dev secret w1 w2,
  Push.RegisterDevice "id-1" "phone" demo_world = (Ok (dev, secret), w1) /\
  Push.VerifyApproval (60 * Second) (Device.ID dev) "ch-1" 42
    (Push.ComputePushSignature secret "ch-1" 42 demo_base) demo_base w1 = (Ok tt, w2).
Proof.
  destruct (push_roundtrip "id-1" "phone" demo_world
    (Push.RegisterDevice "id-1" "phone" demo_world).2
    (Device.mk "1" "id-1" "phone" true true
       (Push.hashSecret (EncodeToString (replicate 32 7))) (UTC (demo_clock 2)))
    (EncodeToString (replicate 32 7)) (60 * Second) "ch-1" 42 demo_base) as [w2 H].
  - vm_compute. reflexivity.
  - vm_compute. discriminate.
  - vm_compute. discriminate.
  - eexists _, _, _, w2. split; [vm_compute; reflexivity|exact H].
Defined.

(** an identity-scoped WebAuthn ceremony is single use: however
    [FinishIdentityVerification] ends, the parked session is gone afterwards,
    and finishing again is refused as "no ceremony in progress"; without a
    session, or after its expiry, the verdict is no and no factor changes. *)
Theorem identity_session_single_use {L : Lib} {E : Env} id body body' (w : World L) :
  let w' := (WebAuthn.FinishIdentityVerification id body w).2 in
  sessions w' !! id = None /\
  (WebAuthn.FinishIdentityVerification id body' w').1
    = (false, Some "no webauthn ceremony in progress; call begin first") /\
  (match sessions w !! id with
   | None => True
   | Some ps => After (clock (tick w)) (pendingSession.expiresAt ps) = true
   end ->
   (WebAuthn.FinishIdentityVerification id body w).1.1 = false /\ store w' = store w).
Proof.
  assert (Hnone : forall w0 : World L, sessions w0 !! id = None ->
    (WebAuthn.FinishIdentityVerification id body' w0).1
    = (false, Some "no webauthn ceremony in progress; call begin first")).
  { intros w0 H0. unfold WebAuthn.FinishIdentityVerification. m_run. by rewrite H0. }
  cbv zeta.
  assert (Hgone : sessions (WebAuthn.FinishIdentityVerification id body w).2 !! id = None).
  { unfold WebAuthn.FinishIdentityVerification. m_run.
    destruct (sessions w !! id) as [ps|]; [|apply lookup_delete_eq]. m_run.
    destruct (After _ _); [apply lookup_delete_eq|].
    destruct (session_Marshal _) as [js|]; [|apply lookup_delete_eq].
    destruct (FinishVerification_frame id js body
      (set_tick (S (tick w)) (set_sessions (delete id (sessions w)) w))) as (a & k & fs & -> & _).
    apply lookup_delete_eq. }
  split; [exact Hgone|]. split; [by apply Hnone|].
  unfold WebAuthn.FinishIdentityVerification. m_run.
  destruct (sessions w !! id) as [ps|]; [|done]. m_run. intros Hexp. by rewrite Hexp.
Qed.
