(* ===== verification/WebauthnTest.v ===== *)
(** * core/internal/webauthntest: the software authenticator

    A WebAuthn authenticator with one ES256 credential: the responses it builds
    for registration and authentication. The elliptic-curve operations and the
    CBOR encoder are other packages' (parameters); JSON, base64 and SHA-256 are
    computed. A [panic] is [None]. *)

From S2P Require Import Prelude GoStrings GoTime GoFloat GoCrypto GoRunes GoJson GoHttp GoParse GoJsonRead GoFloatRead Types World Instances.

(** ** [base64.RawURLEncoding] *)

Definition b64_char (x : Z) : Z :=
  if x <? 26 then 65 + x else if x <? 52 then 71 + x else if x <? 62 then x - 4 else if x =? 62 then 45 else 95.

Fixpoint b64_bytes (l : list Z) : list Z :=
  match l with
  | a :: b :: c :: r =>
      b64_char (a / 4) :: b64_char (a mod 4 * 16 + b / 16) :: b64_char (b mod 16 * 4 + c / 64) :: b64_char (c mod 64) :: b64_bytes r
  | [a; b] => [b64_char (a / 4); b64_char (a mod 4 * 16 + b / 16); b64_char (b mod 16 * 4)]
  | [a] => [b64_char (a / 4); b64_char (a mod 4 * 16)]
  | [] => []
  end.

Definition b64 (data : list Z) : string := of_bytes (b64_bytes data).

Definition b64_val (c : Z) : option Z :=
  if (65 <=? c) && (c <=? 90) then Some (c - 65)
  else if (97 <=? c) && (c <=? 122) then Some (c - 71)
  else if (48 <=? c) && (c <=? 57) then Some (c + 4)
  else if c =? 45 then Some 62 else if c =? 95 then Some 63 else None.

(** [DecodeString]. *)
Fixpoint b64_decode (l : list Z) : option (list Z) :=
  match l with
  | a :: b :: c :: d :: r =>
      a ← b64_val a; b ← b64_val b; c ← b64_val c; d ← b64_val d; rest ← b64_decode r;
      Some (a * 4 + b / 16 :: b mod 16 * 16 + c / 4 :: c mod 4 * 64 + d :: rest)
  | [a; b; c] => a ← b64_val a; b ← b64_val b; c ← b64_val c; Some [a * 4 + b / 16; b mod 16 * 16 + c / 4]
  | [a; b] => a ← b64_val a; b ← b64_val b; Some [a * 4 + b / 16]
  | [_] => None
  | [] => Some []
  end.

Example b64_ex : b64 [102; 111; 111; 98] = "Zm9vYg" /\ b64 [251; 255] = "-_8" /\ b64_decode (bytes "-_8") = Some [251; 255].
Proof. vm_compute. done. Qed.

(** ** Numbers as bytes *)

(** [n.Bytes()] of a [big.Int]: big-endian, without leading zeros. *)
Definition big_Bytes (n : Z) : list Z := if n =? 0 then [] else be_bytes (S (Z.to_nat (Z.log2 n / 8))) n.

Definition padded32 (n : Z) : list Z :=
  let b := big_Bytes n in
  if (32 <=? length b)%nat then drop (length b - 32) b else replicate (32 - length b) 0 ++ b.

(** ** The authenticator *)

Definition RPID : string := "localhost".
Definition Origin : string := "http://localhost:8080".

(** Values the CBOR encoder is given. *)
Inductive cbor :=
| CInt (z : Z)
| CBytes (b : list Z)
| CText (s : string)
| CMap (m : list (cbor * cbor)).

(** Packages crypto/ecdsa and webauthncbor. *)
Class Ecdsa := {
  PrivateKey : Type;
  PublicKey : PrivateKey -> Z * Z;
  GenerateKey : nat -> result PrivateKey;
  SignASN1 : nat -> PrivateKey -> list Z -> result (list Z);
  VerifyASN1 : Z * Z -> list Z -> list Z -> bool;
  cbor_Marshal : cbor -> result (list Z)
}.

(** What a signature is good for. *)
Class EcdsaOk (C : Ecdsa) : Prop := {
  sign_verifies : forall n k digest sig, SignASN1 n k digest = Ok sig -> VerifyASN1 (PublicKey k) digest sig = true;
  sign_bytes : forall n k digest sig, SignASN1 n k digest = Ok sig -> Forall is_byte sig;
  cbor_bytes : forall v data, cbor_Marshal v = Ok data -> Forall is_byte data
}.

Module Authenticator.
Record t {C : Ecdsa} := mk { Key : PrivateKey; CredID : list Z; AAGUID : list Z; Counter : Z; NoUserVerified : bool }.
Arguments t _ : clear implicits.
End Authenticator.

Definition must {A} (r : result A) : option A := match r with Ok a => Some a | Err _ => None end.

Section Authenticator.
Context {E : Env} {C : Ecdsa}.
Notation auth := (Authenticator.t C).

(** Keys and ids come from the random source at tick [n]. *)
Definition NewAuthenticator (n : nat) : option auth :=
  key ← must (GenerateKey n);
  credID ← must (rand_Read n 32);
  Some (Authenticator.mk C key credID (replicate 16 0) 0 false).

Definition COSEPublicKey (a : auth) : option (list Z) :=
  let '(x, y) := PublicKey (Authenticator.Key a) in
  must (cbor_Marshal (CMap [(CInt 1, CInt 2); (CInt 3, CInt (-7)); (CInt (-1), CInt 1); (CInt (-2), CBytes (padded32 x));
                            (CInt (-3), CBytes (padded32 y))])).

Definition assertionFlags (a : auth) : Z := if Authenticator.NoUserVerified a then 1 else Z.lor 1 4.

Definition registrationFlags (a : auth) : Z :=
  let flags := Z.lor 1 64 in if negb (Authenticator.NoUserVerified a) then Z.lor flags 4 else flags.

Definition registrationAuthData (a : auth) (rpID : string) (counter : Z) : option (list Z) :=
  key ← COSEPublicKey a;
  Some (Sum256 (bytes rpID) ++ [registrationFlags a] ++ be_bytes 4 counter ++ Authenticator.AAGUID a ++
        be_bytes 2 (Z.of_nat (length (Authenticator.CredID a))) ++ Authenticator.CredID a ++ key).

Definition assertionAuthData (a : auth) (rpID : string) : list Z :=
  Sum256 (bytes rpID) ++ [assertionFlags a] ++ be_bytes 4 (Authenticator.Counter a).

Definition mustJSON (v : any) : option string := must (Marshal v).

Definition clientData (ty challenge origin : string) : option string :=
  mustJSON (AObj [("type", AStr ty); ("challenge", AStr challenge); ("origin", AStr origin); ("crossOrigin", ABool false)]).

Definition CreationResponse (a : auth) (challenge origin rpID : string) : option string :=
  clientData ← clientData "webauthn.create" challenge origin;
  authData ← registrationAuthData a rpID 0;
  attestationObject ← must (cbor_Marshal (CMap [(CText "fmt", CText "none"); (CText "attStmt", CMap []); (CText "authData", CBytes authData)]));
  mustJSON (AObj [("id", AStr (b64 (Authenticator.CredID a))); ("rawId", AStr (b64 (Authenticator.CredID a))); ("type", AStr "public-key");
    ("response", AObj [("clientDataJSON", AStr (b64 (bytes clientData))); ("attestationObject", AStr (b64 attestationObject));
                       ("transports", AStrs (Some ["internal"]))])]).

(** The 32-bit counter wraps around. *)
Definition bump (a : auth) : auth :=
  Authenticator.mk C (Authenticator.Key a) (Authenticator.CredID a) (Authenticator.AAGUID a)
    (Z.land (Authenticator.Counter a + 1) 4294967295) (Authenticator.NoUserVerified a).

(** The response, and the authenticator after it. *)
Definition AssertionResponse (n : nat) (a : auth) (challenge origin rpID : string) (userHandle : list Z) : option (string * auth) :=
  let a := bump a in
  clientData ← clientData "webauthn.get" challenge origin;
  let authData := assertionAuthData a rpID in
  let digest := Sum256 (authData ++ Sum256 (bytes clientData)) in
  sig ← must (SignASN1 n (Authenticator.Key a) digest);
  let resp := [("clientDataJSON", AStr (b64 (bytes clientData))); ("authenticatorData", AStr (b64 authData)); ("signature", AStr (b64 sig))] ++
              (if (0 <? length userHandle)%nat then [("userHandle", AStr (b64 userHandle))] else []) in
  out ← mustJSON (AObj [("id", AStr (b64 (Authenticator.CredID a))); ("rawId", AStr (b64 (Authenticator.CredID a)));
                        ("type", AStr "public-key"); ("response", AObj resp)]);
  Some (out, a).
End Authenticator.

(** ** Specification: the relying party

    The steps of the Web Authentication recommendation a relying party takes to
    verify an assertion (section 7.2), on the response's text. *)

Definition member_of (k : string) (v : jval) : option jval :=
  match v with VObj m => snd <$> find (fun kv => String.eqb (unquote kv.1) k) m | _ => None end.

Definition text_of (k : string) (v : jval) : option string :=
  x ← member_of k v; match x with VStr raw => Some (unquote raw) | _ => None end.

Definition data_of (k : string) (v : jval) : option (list Z) := t ← text_of k v; b64_decode (bytes t).

Definition check (b : bool) : option unit := if b then Some tt else None.

Definition be_val (l : list Z) : Z := foldl (fun a b => a * 256 + b) 0 l.

Record AuthData := mkAuthData { rpIdHash : list Z; flags : Z; signCount : Z; extra : list Z }.

Definition parse_auth_data (l : list Z) : option AuthData :=
  f ← l !! 32%nat;
  _ ← check (37 <=? length l)%nat;
  Some (mkAuthData (take 32 l) f (be_val (take 4 (drop 33 l))) (drop 37 l)).

(** Attested credential data: the authenticator's model, the id, the public key. *)
Definition parse_attested (l : list Z) : option (list Z * list Z * list Z) :=
  let n := Z.to_nat (be_val (take 2 (drop 16 l))) in
  _ ← check (18 + n <=? length l)%nat;
  Some (take 16 l, take n (drop 18 l), drop (18 + n) l).

Section RelyingParty.
Context {C : Ecdsa} (uvRequired : bool) (challenge origin rpID : string) (credID : list Z) (pk : Z * Z) (stored : Z).

(** The new signature counter, if the assertion is accepted. *)
Definition verify_assertion (response : string) : option Z :=
  doc ← scan (bytes response);
  id ← data_of "rawId" doc;
  _ ← check (bool_decide (id = credID));
  r ← member_of "response" doc;
  cData ← data_of "clientDataJSON" r;
  aData ← data_of "authenticatorData" r;
  sig ← data_of "signature" r;
  c ← scan cData;
  _ ← check (bool_decide (text_of "type" c = Some "webauthn.get"));
  _ ← check (bool_decide (text_of "challenge" c = Some challenge));
  _ ← check (bool_decide (text_of "origin" c = Some origin));
  ad ← parse_auth_data aData;
  _ ← check (bool_decide (rpIdHash ad = Sum256 (bytes rpID)));
  _ ← check (Z.testbit (flags ad) 0);
  _ ← check (negb uvRequired || Z.testbit (flags ad) 2);
  _ ← check (VerifyASN1 pk (Sum256 (aData ++ Sum256 cData)) sig);
  _ ← check ((stored <? signCount ad) || ((stored =? 0) && (signCount ad =? 0)));
  Some (signCount ad).
End RelyingParty.

(** ** Facts: base64 *)

Lemma b64_val_char x : 0 <= x < 64 -> b64_val (b64_char x) = Some x /\ 33 <= b64_char x < 128.
Proof.
  intros Hx. unfold b64_val, b64_char. destruct (Z.ltb_spec x 26); [|destruct (Z.ltb_spec x 52); [|destruct (Z.ltb_spec x 62);
    [|destruct (Z.eqb_spec x 62)]]]; repeat (match goal with |- context [if ?b then _ else _] => destruct b eqn:? end; try lia); split; f_equal; lia.
Qed.

Lemma b64_val_eq x : 0 <= x < 64 -> b64_val (b64_char x) = Some x.
Proof. apply b64_val_char. Qed.

Ltac b64_digits := repeat (rewrite b64_val_eq by (Z.div_mod_to_equations; lia); cbn [mbind option_bind]).

Ltac same_list := apply (f_equal Some); repeat first [reflexivity | apply (f_equal2 cons); [Z.div_mod_to_equations; lia|]].

Lemma b64_roundtrip_len n : forall l, (length l <= n)%nat -> Forall is_byte l ->
  b64_decode (b64_bytes l) = Some l /\ Forall (fun b => 33 <= b < 128) (b64_bytes l).
Proof.
  induction n as [|n IH]; intros [|a [|b [|c l]]] Hn Hl; cbn [length] in Hn; try lia; try done;
    repeat (apply Forall_cons in Hl as [? Hl]); unfold is_byte in *; cbn [b64_bytes b64_decode].
  - b64_digits. split; [same_list|]. repeat (apply Forall_cons_2; [apply b64_val_char; Z.div_mod_to_equations; lia|]). done.
  - b64_digits. split; [same_list|]. repeat (apply Forall_cons_2; [apply b64_val_char; Z.div_mod_to_equations; lia|]). done.
  - destruct (IH l ltac:(lia) Hl) as [IH1 IH2]. b64_digits. rewrite IH1. cbn [mbind option_bind]. split; [same_list|].
    repeat (apply Forall_cons_2; [apply b64_val_char; Z.div_mod_to_equations; lia|]). done.
Qed.

Lemma b64_roundtrip l : Forall is_byte l -> b64_decode (bytes (b64 l)) = Some l.
Proof.
  intros Hl. destruct (b64_roundtrip_len (length l) l (le_n _) Hl) as [Hd Hr]. unfold b64. rewrite bytes_of_bytes; [done|].
  eapply Forall_impl; [exact Hr|]. intros b Hb. cbn in Hb. unfold is_byte. lia.
Qed.

Lemma ascii_valid s : Forall (fun b => b < 128) (bytes s) -> valid_utf8 s.
Proof.
  intros Hs. unfold valid_utf8. rewrite ToValidUTF8_runes, to_runes_ascii by done. unfold of_runes.
  rewrite <- (of_bytes_bytes s) at 2. f_equal. pose proof (bytes_range s) as Hr. induction (bytes s) as [|b l IH]; [done|].
  apply Forall_cons in Hs as [Hb Hs]. apply Forall_cons in Hr as [Hb' Hr]. cbn [fmap list_fmap concat]. rewrite IH by done.
  unfold is_byte in Hb'. rewrite EncodeRune_small by (unfold valid_rune; lia). by destruct (Z.ltb_spec b 128); [|lia].
Qed.

Lemma b64_valid l : Forall is_byte l -> valid_utf8 (b64 l).
Proof.
  intros Hl. destruct (b64_roundtrip_len (length l) l (le_n _) Hl) as [_ Hr]. apply ascii_valid. unfold b64.
  rewrite bytes_of_bytes; (eapply Forall_impl; [exact Hr|]); intros b Hb; cbn in Hb; unfold is_byte in *; lia.
Qed.

(** ** Facts: big-endian numbers *)

Lemma be_val_4 x : 0 <= x < 4294967296 -> be_val (be_bytes 4 x) = x.
Proof.
  intros Hx. unfold be_bytes, be_val. cbn -[Z.land Z.shiftr Z.mul Z.of_nat]. change 255 with (Z.ones 8).
  rewrite !Z.land_ones, !Z.shiftr_div_pow2 by lia. cbn. Z.div_mod_to_equations. lia.
Qed.

Lemma be_val_2 x : 0 <= x < 65536 -> be_val (be_bytes 2 x) = x.
Proof.
  intros Hx. unfold be_bytes, be_val. cbn -[Z.land Z.shiftr Z.mul Z.of_nat]. change 255 with (Z.ones 8).
  rewrite !Z.land_ones, !Z.shiftr_div_pow2 by lia. cbn. Z.div_mod_to_equations. lia.
Qed.

(** ** Facts: documents *)

(** Not to be unfolded when terms are compared. *)
#[local] Opaque scan Sum256.

Lemma member_of_members k m : member_of k (e_members m) = snd <$> find (fun kv => String.eqb (ToValidUTF8 kv.1) k) m.
Proof.
  unfold member_of, e_members, member_texts. induction m as [|[k' v] m IH]; [done|]. cbn [fmap list_fmap find fst snd].
  rewrite unquote_escaped. by destruct (String.eqb _ _).
Qed.

Lemma text_of_string k v s : member_of k v = Some (e_string s) -> valid_utf8 s -> text_of k v = Some s.
Proof. intros Hk Hs. unfold text_of. rewrite Hk. cbn [mbind option_bind e_string]. by rewrite unquote_escaped, Hs. Qed.

Lemma data_of_b64 k v l : member_of k v = Some (e_string (b64 l)) -> Forall is_byte l -> data_of k v = Some l.
Proof.
  intros Hk Hl. unfold data_of. rewrite (text_of_string k v (b64 l) Hk) by (by apply b64_valid). cbn [mbind option_bind].
  by apply b64_roundtrip.
Qed.

(** A marshalled value is read back as its document. *)
Lemma mustJSON_scan n v s : any_ok n v -> Z.of_nat n <= 10000 -> mustJSON v = Some s -> scan (bytes s) = Some (any_doc v).
Proof.
  intros Hv Hn. unfold mustJSON. destruct (Marshal_doc n v Hv) as [-> Hd]. intros [= <-]. apply scan_compact. by eapply depth_ok.
Qed.

(** ** Facts: authenticator data *)

Section DataFacts.
Context {E : Env} {C : Ecdsa} `{!EcdsaOk C}.
Notation auth := (Authenticator.t C).

Lemma drop_past {A} (h t : list A) n k : length h = n -> drop (n + k) (h ++ t) = drop k t.
Proof. intros <-. rewrite drop_app_ge by lia. f_equal. lia. Qed.

Lemma take_past {A} (h t : list A) n : length h = n -> take n (h ++ t) = h.
Proof. intros <-. by rewrite take_app_length. Qed.

Lemma header_parse h f x rest : length h = 32%nat -> 0 <= x < 4294967296 ->
  parse_auth_data (h ++ [f] ++ be_bytes 4 x ++ rest) = Some (mkAuthData h f x rest).
Proof.
  intros Hh Hx. assert (Hl : length (be_bytes 4 x) = 4%nat) by apply length_be_bytes. unfold parse_auth_data.
  rewrite lookup_app_r, Hh by lia. cbn [app]. change ((f :: be_bytes 4 x ++ rest) !! (32 - 32)%nat) with (Some f). cbn [mbind option_bind].
  rewrite length_app. cbn [length]. rewrite Hh, length_app, Hl.
  replace (37 <=? 32 + S (4 + length rest))%nat with true by (symmetry; apply Nat.leb_le; lia). cbn [check mbind option_bind].
  set (t := f :: be_bytes 4 x ++ rest). rewrite (take_past h t 32 Hh).
  rewrite (drop_past h t 32 1 Hh : drop 33 (h ++ t) = _), (drop_past h t 32 5 Hh : drop 37 (h ++ t) = _).
  change (drop 1 t) with (be_bytes 4 x ++ rest). change (drop 5 t) with (drop (4 + 0) (be_bytes 4 x ++ rest)).
  by rewrite (take_past _ _ 4 Hl), (drop_past _ _ 4 0 Hl), be_val_4, drop_0.
Qed.

Lemma flags_byte (a : auth) : is_byte (assertionFlags a) /\ is_byte (registrationFlags a) /\
  Z.testbit (assertionFlags a) 0 = true /\ Z.testbit (assertionFlags a) 2 = negb (Authenticator.NoUserVerified a) /\
  Z.testbit (registrationFlags a) 0 = true /\ Z.testbit (registrationFlags a) 6 = true /\
  Z.testbit (registrationFlags a) 2 = negb (Authenticator.NoUserVerified a).
Proof. unfold assertionFlags, registrationFlags. by destruct (Authenticator.NoUserVerified a). Qed.

Lemma bump_counter (a : auth) : Authenticator.Counter (bump a) = (Authenticator.Counter a + 1) mod 4294967296.
Proof. cbn. change 4294967295 with (Z.ones 32). by rewrite Z.land_ones. Qed.

Lemma assertionAuthData_parse (a : auth) rpID : 0 <= Authenticator.Counter a < 4294967296 ->
  parse_auth_data (assertionAuthData a rpID) = Some (mkAuthData (Sum256 (bytes rpID)) (assertionFlags a) (Authenticator.Counter a) []).
Proof.
  intros Hc. unfold assertionAuthData. rewrite <- (app_nil_r (be_bytes 4 _)). apply header_parse; [apply length_Sum256|done].
Qed.

Lemma assertionAuthData_bytes (a : auth) rpID : Forall is_byte (assertionAuthData a rpID).
Proof.
  unfold assertionAuthData. repeat (apply Forall_app; split); [apply Sum256_range| |apply be_bytes_range].
  apply Forall_singleton, flags_byte.
Qed.

(** The client data reads back as what was put in. *)
Lemma clientData_reads ty challenge origin s : valid_utf8 ty -> valid_utf8 challenge -> valid_utf8 origin ->
  clientData ty challenge origin = Some s -> exists c, scan (bytes s) = Some c /\
  text_of "type" c = Some ty /\ text_of "challenge" c = Some challenge /\ text_of "origin" c = Some origin.
Proof.
  intros Ht Hc Ho Hs. eexists. split; [eapply (mustJSON_scan 1); [|done|exact Hs]; repeat constructor|].
  cbn [any_doc]. split_and!; (apply text_of_string; [rewrite member_of_members; reflexivity|done]).
Qed.
End DataFacts.

(** The response's members, and the steps of the verification on them. *)
Definition envelope (credID cData aData sig userHandle : list Z) : any :=
  AObj [("id", AStr (b64 credID)); ("rawId", AStr (b64 credID)); ("type", AStr "public-key");
        ("response", AObj ([("clientDataJSON", AStr (b64 cData)); ("authenticatorData", AStr (b64 aData)); ("signature", AStr (b64 sig))] ++
          (if (0 <? length userHandle)%nat then [("userHandle", AStr (b64 userHandle))] else [])))].

Lemma envelope_ok credID cData aData sig userHandle : any_ok 2 (envelope credID cData aData sig userHandle).
Proof. unfold envelope. destruct (0 <? length userHandle)%nat; repeat constructor. Qed.

Lemma envelope_reads credID cData aData sig userHandle :
  Forall is_byte credID -> Forall is_byte cData -> Forall is_byte aData -> Forall is_byte sig ->
  let doc := any_doc (envelope credID cData aData sig userHandle) in
  exists r, data_of "rawId" doc = Some credID /\ member_of "response" doc = Some r /\ data_of "clientDataJSON" r = Some cData /\
    data_of "authenticatorData" r = Some aData /\ data_of "signature" r = Some sig.
Proof.
  intros H1 H2 H3 H4. cbv zeta. unfold envelope.
  exists (any_doc (AObj ([("clientDataJSON", AStr (b64 cData)); ("authenticatorData", AStr (b64 aData)); ("signature", AStr (b64 sig))] ++
        (if (0 <? length userHandle)%nat then [("userHandle", AStr (b64 userHandle))] else [])))).
  destruct (0 <? length userHandle)%nat; cbn [any_doc app];
    (split_and!; [apply data_of_b64; [rewrite member_of_members; reflexivity|done]|rewrite member_of_members; reflexivity|..];
     (apply data_of_b64; [rewrite member_of_members; reflexivity|done])).
Qed.

Lemma bind_Some {A B} (a : A) (f : A -> option B) : (x ← Some a; f x) = f a.
Proof. done. Qed.
Lemma check_bind {B} b (k : option B) : (_ ← check b; k) = if b then k else None.
Proof. by destruct b. Qed.

Lemma verify_steps {C : Ecdsa} uv challenge origin rpID credID pk stored resp doc r cData aData sig c h :
  scan (bytes resp) = Some doc -> data_of "rawId" doc = Some credID -> member_of "response" doc = Some r ->
  data_of "clientDataJSON" r = Some cData -> data_of "authenticatorData" r = Some aData -> data_of "signature" r = Some sig ->
  scan cData = Some c -> text_of "type" c = Some "webauthn.get" -> text_of "challenge" c = Some challenge -> text_of "origin" c = Some origin ->
  parse_auth_data aData = Some h ->
  verify_assertion uv challenge origin rpID credID pk stored resp
  = if bool_decide (rpIdHash h = Sum256 (bytes rpID)) && (Z.testbit (flags h) 0 && (VerifyASN1 pk (Sum256 (aData ++ Sum256 cData)) sig &&
      ((negb uv || Z.testbit (flags h) 2) && ((stored <? signCount h) || ((stored =? 0) && (signCount h =? 0))))))
    then Some (signCount h) else None.
Proof.
  intros H1 H2 H3 H4 H5 H6 H7 H8 H9 H10 H11. unfold verify_assertion.
  rewrite H1, bind_Some, H2, bind_Some, H3, check_bind, bool_decide_eq_true_2, bind_Some, H4, bind_Some, H5, bind_Some, H6, bind_Some by done.
  rewrite H7, bind_Some, !check_bind, H8, H9, H10, !bool_decide_eq_true_2, H11, bind_Some by done. rewrite !check_bind.
  generalize (VerifyASN1 pk (Sum256 (aData ++ Sum256 cData)) sig). generalize (bool_decide (rpIdHash h = Sum256 (bytes rpID))).
  generalize (Z.testbit (flags h) 0) (negb uv || Z.testbit (flags h) 2) ((stored <? signCount h) || ((stored =? 0) && (signCount h =? 0))).
  by intros [] [] [] [] [].
Qed.

Lemma assertion_accepted {E : Env} {C : Ecdsa} `{!EcdsaOk C} n (a a' : Authenticator.t C) challenge origin rpID userHandle resp
    uvRequired stored :
  valid_utf8 challenge -> valid_utf8 origin -> Forall is_byte (Authenticator.CredID a) ->
  AssertionResponse n a challenge origin rpID userHandle = Some (resp, a') ->
  let c := (Authenticator.Counter a + 1) mod 4294967296 in
  Authenticator.Counter a' = c /\
  verify_assertion uvRequired challenge origin rpID (Authenticator.CredID a) (PublicKey (Authenticator.Key a)) stored resp
  = if (negb uvRequired || negb (Authenticator.NoUserVerified a)) && ((stored <? c) || ((stored =? 0) && (c =? 0))) then Some c else None.
Proof.
  intros Hch Hor Hid. unfold AssertionResponse. destruct (clientData "webauthn.get" challenge origin) as [cd|] eqn:Hcd; [|done].
  cbn [mbind option_bind]. set (a1 := bump a). set (ad := assertionAuthData a1 rpID).
  set (digest := Sum256 (ad ++ Sum256 (bytes cd))). destruct (SignASN1 n (Authenticator.Key a1) digest) as [sig|e] eqn:Hsig; [|done].
  cbn [must mbind option_bind].
  change (AObj (_ :: _)) with (envelope (Authenticator.CredID a) (bytes cd) ad sig userHandle).
  destruct (mustJSON (envelope _ _ _ _ _)) as [out|] eqn:Hout; [|done]. cbn [mbind option_bind].
  intros [= <- <-]. cbv zeta. split; [apply bump_counter|].
  assert (Hc : 0 <= Authenticator.Counter a1 < 4294967296) by (unfold a1; rewrite bump_counter; apply Z.mod_pos_bound; lia).
  assert (Hget : valid_utf8 "webauthn.get") by (vm_compute; reflexivity).
  destruct (clientData_reads "webauthn.get" challenge origin cd Hget Hch Hor Hcd) as (c & Hsc & Hty & Hcc & Hco).
  pose proof (mustJSON_scan 2 _ _ (envelope_ok _ _ _ _ _) ltac:(lia) Hout) as Hdoc.
  assert (Hsb : Forall is_byte sig) by (by eapply sign_bytes).
  destruct (envelope_reads (Authenticator.CredID a) (bytes cd) ad sig userHandle Hid (bytes_range cd) (assertionAuthData_bytes a1 rpID) Hsb)
    as (r & H0 & Hr & H1 & H2 & H3).
  rewrite (verify_steps uvRequired challenge origin rpID (Authenticator.CredID a) (PublicKey (Authenticator.Key a)) stored out _ r (bytes cd) ad sig c
    _ Hdoc H0 Hr H1 H2 H3 Hsc Hty Hcc Hco (assertionAuthData_parse a1 rpID Hc)). cbn [rpIdHash flags signCount].
  destruct (flags_byte a1) as (_ & _ & -> & -> & _). rewrite (bump_counter a : Authenticator.Counter a1 = _), bool_decide_eq_true_2 by done.
  change (Authenticator.Key a1) with (Authenticator.Key a) in Hsig. fold digest.
  rewrite (sign_verifies n _ _ sig Hsig). change (Authenticator.NoUserVerified a1) with (Authenticator.NoUserVerified a).
  cbn [andb]. reflexivity.
Qed.

Lemma mustJSON_total n v : any_ok n v -> exists s, mustJSON v = Some s.
Proof. intros Hv. unfold mustJSON. destruct (Marshal_doc n v Hv) as [-> _]. by eexists. Qed.

(** Nothing but a refused signature makes the authenticator panic. *)
Lemma AssertionResponse_total {E : Env} {C : Ecdsa} n (a : Authenticator.t C) challenge origin rpID userHandle :
  (forall digest, exists sig, SignASN1 n (Authenticator.Key a) digest = Ok sig) ->
  exists resp a', AssertionResponse n a challenge origin rpID userHandle = Some (resp, a').
Proof.
  intros Hsign. unfold AssertionResponse, clientData.
  destruct (mustJSON_total 1 (AObj [("type", AStr "webauthn.get"); ("challenge", AStr challenge); ("origin", AStr origin); ("crossOrigin", ABool false)]))
    as [cd Hcd]; [repeat constructor|]. rewrite Hcd, bind_Some. cbv zeta.
  destruct (Hsign (Sum256 (assertionAuthData (bump a) rpID ++ Sum256 (bytes cd)))) as [sig Hsig].
  change (Authenticator.Key (bump a)) with (Authenticator.Key a). rewrite Hsig. cbn [must]. rewrite bind_Some.
  change (AObj (_ :: _)) with (envelope (Authenticator.CredID (bump a)) (bytes cd) (assertionAuthData (bump a) rpID) sig userHandle).
  destruct (mustJSON_total 2 _ (envelope_ok (Authenticator.CredID (bump a)) (bytes cd) (assertionAuthData (bump a) rpID) sig userHandle)) as [out ->].
  rewrite bind_Some. by eexists _, _.
Qed.

(** ** Properties *)

(** C34: what the authenticator builds is what a relying party verifies: as long as
    signing succeeds, [AssertionResponse] returns an assertion for the given
    challenge, origin and party that is accepted under the authenticator's public
    key exactly if user verification was not required or was performed, and the
    counter it carries, one more than before modulo 2^32, is above the one the
    party has stored (or both are zero). *)
Theorem assertion_verifies {E : Env} {C : Ecdsa} `{!EcdsaOk C} n (a : Authenticator.t C) challenge origin rpID userHandle
    uvRequired stored :
  valid_utf8 challenge -> valid_utf8 origin -> Forall is_byte (Authenticator.CredID a) ->
  (forall digest, exists sig, SignASN1 n (Authenticator.Key a) digest = Ok sig) ->
  let c := (Authenticator.Counter a + 1) mod 4294967296 in
  exists resp a', AssertionResponse n a challenge origin rpID userHandle = Some (resp, a') /\ Authenticator.Counter a' = c /\
  verify_assertion uvRequired challenge origin rpID (Authenticator.CredID a) (PublicKey (Authenticator.Key a)) stored resp
  = if (negb uvRequired || negb (Authenticator.NoUserVerified a)) && ((stored <? c) || ((stored =? 0) && (c =? 0))) then Some c else None.
Proof.
  intros Hch Hor Hid Hsign. cbv zeta. destruct (AssertionResponse_total n a challenge origin rpID userHandle Hsign) as (resp & a' & Hr).
  exists resp, a'. split; [exact Hr|]. by apply (assertion_accepted n a a' challenge origin rpID userHandle resp uvRequired stored Hch Hor Hid).
Qed.

(** A signature scheme to run the model with: the signature is the digest. *)
#[global] Instance demo_ecdsa : Ecdsa := {|
  PrivateKey := Z; PublicKey := fun k => (k, k); GenerateKey := fun n => Ok (Z.of_nat n);
  SignASN1 := fun _ _ digest => Ok ((fun b => b mod 256) <$> digest);
  VerifyASN1 := fun _ digest sig => bool_decide (sig = (fun b => b mod 256) <$> digest);
  cbor_Marshal := fun _ => Ok []
|}.

Lemma demo_ecdsa_ok : EcdsaOk demo_ecdsa.
Proof.
  split.
  - intros n k digest sig [= <-]. cbn. by rewrite bool_decide_eq_true_2.
  - intros n k digest sig [= <-]. apply Forall_fmap, Forall_forall. intros b _. unfold compose, is_byte. apply Z.mod_pos_bound. lia.
  - by intros v data [= <-].
Qed.

Definition demo_authenticator : Authenticator.t demo_ecdsa := Authenticator.mk demo_ecdsa 7 [1; 2; 3] (replicate 16 0) 4294967294 true.

(** The last counter before it wraps; a party that asks for user verification refuses. *)
Lemma assertion_verifies_witness : exists resp a',
  AssertionResponse 0 demo_authenticator "dGVzdA" Origin RPID [9] = Some (resp, a') /\ Authenticator.Counter a' = 4294967295 /\
  verify_assertion false "dGVzdA" Origin RPID [1; 2; 3] (7, 7) 5 resp = Some 4294967295.
Proof.
  refine (assertion_verifies (EcdsaOk0 := demo_ecdsa_ok) 0 demo_authenticator "dGVzdA" Origin RPID [9] false 5 _ _ _ _).
  - vm_compute. reflexivity.
  - vm_compute. reflexivity.
  - unfold is_byte. cbn. repeat (constructor; [lia|]). constructor.
  - intros digest. eexists. reflexivity.
Defined.

(** ** Facts: padding *)

Lemma be_bytes_split j k x : be_bytes (j + k) x = be_bytes j (Z.shiftr x (8 * Z.of_nat k)) ++ be_bytes k x.
Proof.
  unfold be_bytes. rewrite Nat.add_comm, seq_app, rev_app_distr, fmap_app. f_equal.
  replace (seq (0 + k) j) with (Nat.add k <$> seq 0 j) by (rewrite fmap_add_seq; f_equal; lia). change (Nat.add k <$> seq 0 j) with (map (Nat.add k) (seq 0 j)). rewrite <- map_rev.
  change (map ?f ?l) with (f <$> l). rewrite <- list_fmap_compose. apply list_fmap_ext. intros i y _. unfold compose. f_equal.
  rewrite Z.shiftr_shiftr by lia. f_equal. lia.
Qed.

Lemma be_bytes_zero j : be_bytes j 0 = replicate j 0.
Proof.
  symmetry. apply replicate_as_Forall. split; [apply length_be_bytes|]. unfold be_bytes. apply Forall_fmap, Forall_forall.
  intros i _. cbn. by rewrite Z.shiftr_0_l.
Qed.

Section Registration.
Context {E : Env} {C : Ecdsa}.

(** The padding is the number's 32 low bytes. *)
Lemma padded32_eq x : 0 <= x -> padded32 x = be_bytes 32 x.
Proof.
  intros Hx. unfold padded32, big_Bytes. destruct (Z.eqb_spec x 0) as [->|Hne]; [by rewrite be_bytes_zero|].
  set (k := S (Z.to_nat (Z.log2 x / 8))). rewrite length_be_bytes. destruct (Nat.leb_spec 32 k) as [Hk|Hk].
  - replace k with ((k - 32) + 32)%nat at 2 by lia. rewrite be_bytes_split. 
    pose proof (drop_past (be_bytes (k - 32) (Z.shiftr x (8 * Z.of_nat 32))) (be_bytes 32 x) (k - 32) 0 (length_be_bytes _ _)) as Hd.
    by rewrite Nat.add_0_r, drop_0 in Hd.
  - replace 32%nat with ((32 - k) + k)%nat at 2 by lia. rewrite be_bytes_split. f_equal.
    replace (Z.shiftr x (8 * Z.of_nat k)) with 0; [by rewrite be_bytes_zero|]. symmetry. apply Z.shiftr_eq_0; [done|].
    unfold k. rewrite Nat2Z.inj_succ, Z2Nat.id by (apply Z.div_pos; [apply Z.log2_nonneg|lia]). Z.div_mod_to_equations. lia.
Qed.

(** A registration reads back as the authenticator's model, credential id and key. *)
Lemma registration_parses (a : Authenticator.t C) rpID counter data : 0 <= counter < 4294967296 ->
  length (Authenticator.AAGUID a) = 16%nat -> Z.of_nat (length (Authenticator.CredID a)) < 65536 ->
  registrationAuthData a rpID counter = Some data -> exists key extra,
  COSEPublicKey a = Some key /\
  parse_auth_data data = Some (mkAuthData (Sum256 (bytes rpID)) (registrationFlags a) counter extra) /\
  parse_attested extra = Some (Authenticator.AAGUID a, Authenticator.CredID a, key).
Proof.
  intros Hc Ha Hi. unfold registrationAuthData. destruct (COSEPublicKey a) as [key|]; [|done]. rewrite bind_Some. intros [= <-].
  exists key, (Authenticator.AAGUID a ++ be_bytes 2 (Z.of_nat (length (Authenticator.CredID a))) ++ Authenticator.CredID a ++ key).
  split_and!; [done|by apply header_parse, Hc; apply length_Sum256|].
  set (i := Authenticator.CredID a) in *. set (g := Authenticator.AAGUID a) in *.
  assert (Hl : length (be_bytes 2 (Z.of_nat (length i))) = 2%nat) by apply length_be_bytes. unfold parse_attested.
  cbv zeta. rewrite (drop_past g _ 16 0 Ha : drop 16 (g ++ _) = _), drop_0. rewrite (take_past _ (i ++ key) 2 Hl), be_val_2, Nat2Z.id by lia.
  rewrite !length_app, Ha, Hl, check_bind. replace (18 + length i <=? _)%nat with true by (symmetry; apply Nat.leb_le; lia).
  rewrite (take_past g _ 16 Ha), (drop_past g _ 16 2 Ha : drop 18 (g ++ _) = _), (drop_past _ (i ++ key) 2 0 Hl : drop 2 _ = _), drop_0.
  rewrite (take_past i key _ eq_refl). change (18 + length i)%nat with (16 + (2 + length i))%nat.
  by rewrite (drop_past g _ 16 _ Ha), (drop_past _ (i ++ key) 2 _ Hl), <- (Nat.add_0_r (length i)), (drop_past i key _ 0 eq_refl), drop_0.
Qed.

Lemma NewAuthenticator_fits n `{!EnvOk E} (a : Authenticator.t C) :
  NewAuthenticator n = Some a -> length (Authenticator.AAGUID a) = 16%nat /\ length (Authenticator.CredID a) = 32%nat /\
  Authenticator.Counter a = 0 /\ Authenticator.NoUserVerified a = false.
Proof.
  unfold NewAuthenticator. destruct (GenerateKey n) as [key|]; [|done]. cbn [must]. rewrite bind_Some.
  destruct (rand_Read n 32) as [id|] eqn:Hid; [|done]. cbn [must]. rewrite bind_Some. intros [= <-]. cbn.
  split_and!; [done|by eapply rand_Read_length|done|done].
Qed.
End Registration.
