(* ===== verification/Orchestrator.v ===== *)
(** * core/internal/challenge: the MFA challenge orchestrator

    A challenge is pending until one verification resolves it, it expires, or
    its attempts are used up. The service's pointers are those of the store:
    every assignment to a field of a challenge is visible at once. A stored
    challenge is reached through its own id ([keyed]). *)

From S2P Require Import Prelude GoStrings GoTime GoFloat GoCrypto GoJson Types World Instances Storage AuditLog Mfa.

Module Service.
(** [webauthn] tells whether the WebAuthn service is configured (non-nil);
    [skewWindow] is the push service's window. *)
Record t := mk { ttl : Z; maxAttempts : Z; skewWindow : Z; webauthn : bool }.
End Service.

Definition New (ttlSeconds maxAttempts skewSeconds : Z) (webauthn : bool) : Service.t :=
  Service.mk (int64 (ttlSeconds * Second)) maxAttempts (Push.NewPushService skewSeconds) webauthn.

Section Ops.
Context {L : Lib} {E : Env} (svc : Service.t).

(** [ch.f = ...] through the shared pointer. *)
Definition set_field (f : Challenge.t -> Challenge.t) (ch : Challenge.t) : M Challenge.t := assign f ch.

Definition emit (ty : string) (actor : AuditActor.t) (ch : Challenge.t) (d : Decision)
    (reasons : list string) : M (result unit) :=
  Emit ty actor (AuditTarget.mk TargetChallenge (Challenge.ID ch)) d 0 reasons [].

Definition user_actor (ch : Challenge.t) : AuditActor.t :=
  AuditActor.mk ActorUser (Challenge.IdentityID ch).

(** The loop of [Create]: a number is drawn at the first push method. *)
Definition drawNumber (methods : list MFAMethod) : M (result Z) :=
  if existsb (fun m => String.eqb m MFAMethodPush) methods then Push.GenerateNumber else mret (Ok 0).

Definition Create (identityID requestID : string) (methods : list MFAMethod) : M (result Challenge.t) :=
  pushNumber ←? drawNumber methods;
  id ← NewID;
  nonce ← NewID;
  now ← Now;
  now' ← Now;
  let ch := Challenge.mk id identityID requestID methods ChallengeStatusPending pushNumber nonce ""
              0 (Service.maxAttempts svc) (Add (UTC now) (Service.ttl svc)) (UTC now') None in
  _ ←? Challenges.Create ch;
  _ ← emit "challenge.created" (AuditActor.mk ActorSystem "system") ch DecisionChallenge [];
  mret (Ok ch).

Definition preVerify (challengeID : string) : M (result Challenge.t) :=
  ch ←? Challenges.Get challengeID;
  if negb (bool_decide (Challenge.Status ch = ChallengeStatusPending))
  then mret (Err "challenge already resolved")
  else
    now ← Now;
    if After now (Challenge.ExpiresAt ch) then
      ch ← set_field (Challenge.set_Status ChallengeStatusExpired) ch;
      _ ← Challenges.Update ch;
      mret (Err "challenge expired")
    else if Challenge.MaxAttempts ch <=? Challenge.Attempts ch then
      ch ← set_field (Challenge.set_Status ChallengeStatusFailed) ch;
      _ ← Challenges.Update ch;
      mret (Err "too many attempts")
    else mret (Ok ch).

Definition allowsMethod (ch : Challenge.t) (method : MFAMethod) : bool :=
  existsb (fun m => String.eqb m method) (Challenge.Methods ch).

(** [ch.Attempts++], in 64-bit arithmetic. *)
Definition bump (ch : Challenge.t) : Challenge.t := Challenge.set_Attempts (int64 (Challenge.Attempts ch + 1)) ch.

(** [if ch.Attempts >= ch.MaxAttempts { ch.Status = failed }]. *)
Definition fail_if_exhausted (ch : Challenge.t) : M Challenge.t :=
  if Challenge.MaxAttempts ch <=? Challenge.Attempts ch
  then set_field (Challenge.set_Status ChallengeStatusFailed) ch else mret ch.

(** Approve, store and audit. *)
Definition approve (now : Time) (reason : string) (ch : Challenge.t) : M Challenge.t :=
  ch ← set_field (Challenge.set_Status ChallengeStatusApproved) ch;
  ch ← set_field (Challenge.set_ResolvedAt (Some now)) ch;
  _ ← Challenges.Update ch;
  _ ← emit "challenge.verified" (user_actor ch) ch DecisionAllow [reason];
  mret ch.

Definition VerifyTOTP (challengeID code : string) : M (result Challenge.t) :=
  ch ←? preVerify challengeID;
  ch ← set_field bump ch;
  valid ←? Totp.Verify (Challenge.IdentityID ch) code;
  now ← Now;
  if (valid : bool) then ch ← approve (UTC now) "totp_verified" ch; mret (Ok ch)
  else
    ch ← fail_if_exhausted ch;
    _ ← Challenges.Update ch;
    _ ← emit "challenge.failed" (user_actor ch) ch DecisionDeny ["totp_invalid"];
    mret (Err "invalid code").

Definition VerifyPush (challengeID deviceID : string) (number : Z) (signature : string)
    (timestamp : Time) : M (result Challenge.t) :=
  ch ←? preVerify challengeID;
  ch ← set_field bump ch;
  if negb (number =? Challenge.PushNumber ch) then
    _ ← Challenges.Update ch;
    mret (Err "number mismatch")
  else
    r ← Push.VerifyApproval (Service.skewWindow svc) deviceID challengeID number signature timestamp;
    match r with
    | Err e =>
        ch ← fail_if_exhausted ch;
        _ ← Challenges.Update ch;
        mret (Err ("push verification failed: " +:+ e))
    | Ok _ =>
        now ← Now;
        ch ← approve (UTC now) "push_verified" ch; mret (Ok ch)
    end.

Definition BeginWebAuthn (challengeID : string) : M (result string) :=
  if negb (Service.webauthn svc) then mret (Err "webauthn factor not configured")
  else
    ch ←? Challenges.Get challengeID;
    if negb (bool_decide (Challenge.Status ch = ChallengeStatusPending))
    then mret (Err "challenge already resolved")
    else
      now ← Now;
      if After now (Challenge.ExpiresAt ch) then
        ch ← set_field (Challenge.set_Status ChallengeStatusExpired) ch;
        _ ← Challenges.Update ch;
        mret (Err "challenge expired")
      else if negb (allowsMethod ch MFAMethodWebAuthn)
      then mret (Err "challenge does not allow webauthn")
      else
        p ←? WebAuthn.BeginVerification (Challenge.IdentityID ch);
        ch ← set_field (Challenge.set_WebAuthnSession p.2) ch;
        _ ←? Challenges.Update ch;
        mret (assertion_Marshal p.1).

(** Returns the challenge (if any) and the error (if any): on approval with an
    unstored counter, both. *)
Definition FinishWebAuthn (challengeID : string) (body : result string)
    : M (option Challenge.t * option string) :=
  if negb (Service.webauthn svc) then mret (None, Some "webauthn factor not configured")
  else
    pre ← preVerify challengeID;
    match pre with
    | Err e => mret (None, Some e)
    | Ok ch =>
        if negb (allowsMethod ch MFAMethodWebAuthn)
        then mret (None, Some "challenge does not allow webauthn")
        else if String.eqb (Challenge.WebAuthnSession ch) ""
        then mret (None, Some "no webauthn ceremony in progress; call begin first")
        else
          ch ← set_field bump ch;
          let session := Challenge.WebAuthnSession ch in
          ch ← set_field (Challenge.set_WebAuthnSession "") ch;
          v ← WebAuthn.FinishVerification (Challenge.IdentityID ch) session body;
          now ← Now;
          if (v.1 : bool) then ch ← approve (UTC now) "webauthn_verified" ch; mret (Some ch, v.2)
          else
            ch ← fail_if_exhausted ch;
            _ ← Challenges.Update ch;
            _ ← emit "challenge.failed" (user_actor ch) ch DecisionDeny ["webauthn_invalid"];
            mret (None, Some (default "invalid assertion" v.2))
    end.

Definition Get (id : string) : M (result Challenge.t) := Challenges.Get id.
Definition List_ : M (result (list Challenge.t)) := Challenges.List_.
End Ops.

(** ** The life of a challenge *)

(** The operations of the service, as a client calls them. *)
Inductive op :=
| OpCreate (identityID requestID : string) (methods : list MFAMethod)
| OpVerifyTOTP (challengeID code : string)
| OpVerifyPush (challengeID deviceID : string) (number : Z) (signature : string) (timestamp : Time)
| OpBeginWebAuthn (challengeID : string)
| OpFinishWebAuthn (challengeID : string) (body : result string).

Definition run_op {L : Lib} {E : Env} (svc : Service.t) (o : op) (w : World L) : World L :=
  match o with
  | OpCreate i r ms => (Create svc i r ms w).2
  | OpVerifyTOTP c code => (VerifyTOTP c code w).2
  | OpVerifyPush c d n sig ts => (VerifyPush svc c d n sig ts w).2
  | OpBeginWebAuthn c => (BeginWebAuthn svc c w).2
  | OpFinishWebAuthn c body => (FinishWebAuthn svc c body w).2
  end.

Definition run_ops {L : Lib} {E : Env} (svc : Service.t) (os : list op) (w : World L) : World L :=
  foldl (fun w o => run_op svc o w) w os.

(** The abstract machine of one challenge: what an operation may do to it. *)
Inductive ch_step : Challenge.t -> Challenge.t -> Prop :=
| ch_same c : ch_step c c
| ch_expire c : Challenge.Status c = ChallengeStatusPending ->
    ch_step c (Challenge.set_Status ChallengeStatusExpired c)
| ch_exhaust c : Challenge.Status c = ChallengeStatusPending ->
    Challenge.MaxAttempts c <= Challenge.Attempts c ->
    ch_step c (Challenge.set_Status ChallengeStatusFailed c)
| ch_session c s : Challenge.Status c = ChallengeStatusPending ->
    ch_step c (Challenge.set_WebAuthnSession s c)
| ch_attempt c s : Challenge.Status c = ChallengeStatusPending ->
    Challenge.Attempts c < Challenge.MaxAttempts c ->
    ch_step c (Challenge.set_WebAuthnSession s (bump c))
| ch_attempt_failed c s : Challenge.Status c = ChallengeStatusPending ->
    Challenge.Attempts c < Challenge.MaxAttempts c ->
    Challenge.MaxAttempts c <= int64 (Challenge.Attempts c + 1) ->
    ch_step c (Challenge.set_Status ChallengeStatusFailed (Challenge.set_WebAuthnSession s (bump c)))
| ch_approve c s now : Challenge.Status c = ChallengeStatusPending ->
    Challenge.Attempts c < Challenge.MaxAttempts c ->
    ch_step c (Challenge.set_ResolvedAt (Some now)
      (Challenge.set_Status ChallengeStatusApproved (Challenge.set_WebAuthnSession s (bump c)))).

(** The invariant of a stored challenge. *)
Definition ch_ok (c : Challenge.t) : Prop :=
  0 <= Challenge.Attempts c <= Z.max 0 (Challenge.MaxAttempts c) /\
  in_int64 (Challenge.MaxAttempts c) /\
  (Challenge.ResolvedAt c <> None <-> Challenge.Status c = ChallengeStatusApproved).

(** All challenges of a world, and how a world may follow another. *)
Definition challenges {L : Lib} (w : World L) : gmap string Challenge.t := MemoryStore.challenges (store w).

Definition evolves {L : Lib} (w w' : World L) : Prop :=
  forall id c, challenges w !! id = Some c ->
    exists c', challenges w' !! id = Some c' /\ rtc ch_step c c'.

(** Everything the service never touches, and what it does to the log: events
    are only added, and a valid chain stays valid. *)
Record frame {L : Lib} (w w' : World L) : Prop := {
  frame_audit : audit_ok (store w) -> audit_ok (store w');
  frame_log : exists new, MemoryStore.auditEvents (store w') = MemoryStore.auditEvents (store w) ++ new;
  frame_tick : (tick w <= tick w')%nat;
  frame_bus : bus w' = bus w;
  frame_sessions : sessions w' = sessions w;
  frame_identities : MemoryStore.identities (store w') = MemoryStore.identities (store w);
  frame_devices : MemoryStore.devices (store w') = MemoryStore.devices (store w);
  frame_policies : MemoryStore.policies (store w') = MemoryStore.policies (store w);
  frame_tokens : MemoryStore.authTokens (store w') = MemoryStore.authTokens (store w)
}.

(** The invariant of the service: challenges are stored under their ids, ids
    not yet handed out are free, and every challenge is consistent. *)
Record ch_inv {L : Lib} (w : World L) : Prop := {
  inv_keyed : keyed (A := Challenge.t) w;
  inv_fresh : forall n, (tick w <= n)%nat -> challenges w !! uuid_New n = None;
  inv_ok : forall id c, challenges w !! id = Some c -> ch_ok c
}.

(** What makes an approval legitimate, by the kind of verification. *)
Definition evidence {L : Lib} {E : Env} (svc : Service.t) (o : op) (w : World L) (c : Challenge.t) : Prop :=
  match o with
  | OpCreate _ _ _ | OpBeginWebAuthn _ => False
  | OpVerifyTOTP id code =>
      exists k f, MemoryStore.factors (store w) !! k = Some f /\ Factor.IdentityID f = Challenge.IdentityID c /\
        Factor.Method f = MFAMethodTOTP /\ Factor.Status f = FactorStatusActive /\ totp_accepts code f
  | OpVerifyPush id dev n sig ts =>
      n = Challenge.PushNumber c /\
      exists d, MemoryStore.devices (store w) !! dev = Some d /\
        sig = Push.computeHMAC (Push.payload id n ts) (Device.SecretHash d)
  | OpFinishWebAuthn id body =>
      Service.webauthn svc = true /\ allowsMethod c MFAMethodWebAuthn = true /\
      exists s b n name creds cred, session_Unmarshal (Challenge.WebAuthnSession c) = Ok s /\ body = Ok b /\
        wa_FinishLogin n (Challenge.IdentityID c) name creds s b = Ok cred
  end.

(** The answers given before the evidence is looked at. *)
Definition refusals (id : string) : list string :=
  [notFound id; "challenge already resolved"; "challenge expired"; "too many attempts"; "webauthn factor not configured";
   "challenge does not allow webauthn"; "no webauthn ceremony in progress; call begin first"].

(** Any other answer passes judgement on the evidence. *)
Definition judged {A} (id : string) (r : result A) : bool :=
  match r with Ok _ => true | Err e => negb (bool_decide (e ∈ refusals id)) end.
Definition judged_pair {A} (id : string) (r : option A * option string) : bool :=
  match r with (None, Some e) => negb (bool_decide (e ∈ refusals id)) | _ => true end.

(** Whether the call [o] is a guess at the challenge [id] that was judged, and how
    many such guesses a sequence of calls holds. *)
Definition guess {L : Lib} {E : Env} (svc : Service.t) (id : string) (o : op) (w : World L) : bool :=
  match o with
  | OpCreate _ _ _ | OpBeginWebAuthn _ => false
  | OpVerifyTOTP c code => String.eqb c id && judged id (VerifyTOTP c code w).1
  | OpVerifyPush c d n sig ts => String.eqb c id && judged id (VerifyPush svc c d n sig ts w).1
  | OpFinishWebAuthn c body => String.eqb c id && judged_pair id (FinishWebAuthn svc c body w).1
  end.

Fixpoint guesses {L : Lib} {E : Env} (svc : Service.t) (id : string) (os : list op) (w : World L) : nat :=
  match os with
  | [] => 0
  | o :: os' => (if guess svc id o w then 1 else 0) + guesses svc id os' (run_op svc o w)
  end.

(** ** Concrete data *)

Definition demo_svc : Service.t := New 300 3 60 true.
Definition demo_totp_world : World demo_lib := (Totp.Activate "id-1" "1" "424242" demo_factor_world).2.

(** A TOTP challenge for [id-1], its id is "4". *)
Definition demo_ch_world : World demo_lib :=
  (Create demo_svc "id-1" "req-1" [MFAMethodTOTP] demo_totp_world).2.

(** ** Facts about the abstract machine *)

Lemma ch_step_resolved c c' : ch_step c c' -> Challenge.Status c <> ChallengeStatusPending -> c' = c.
Proof. by destruct 1. Qed.

Lemma ch_steps_resolved c c' : rtc ch_step c c' -> Challenge.Status c <> ChallengeStatusPending -> c' = c.
Proof.
  induction 1 as [|c1 c2 c3 Hs _ IH]; [done|]. intros Hp. apply ch_step_resolved in Hs; [|done].
  subst. by apply IH.
Qed.

Lemma bump_in c : ch_ok c -> Challenge.Attempts c < Challenge.MaxAttempts c ->
  Challenge.Attempts (bump c) = Challenge.Attempts c + 1.
Proof.
  intros (H1 & H2 & _) Hlt. cbn. apply int64_id. unfold in_int64 in *. lia.
Qed.

Lemma ch_step_ok c c' : ch_step c c' -> ch_ok c -> ch_ok c'.
Proof.
  intros Hs Hok. pose proof Hok as (Ha & Hm & Hr).
  destruct Hs as [c|c Hp|c Hp _|c s Hp|c s Hp Hlt|c s Hp Hlt _|c s now Hp Hlt]; [exact Hok|..];
    try (pose proof (bump_in c Hok Hlt) as Hb); unfold ch_ok; cbn in *; rewrite ?Hb, ?Hp in *;
    (split; [lia|]; split; [done|]); split; try done; try tauto; intros; try congruence;
    exfalso; (apply Hr in H || (destruct Hr as [Hr _]; apply Hr in H)); done.
Qed.

Lemma ch_steps_ok c c' : rtc ch_step c c' -> ch_ok c -> ch_ok c'.
Proof. induction 1 as [|c1 c2 c3 Hs _ IH]; eauto using ch_step_ok. Qed.

(** ** Frames *)

Section FrameFacts.
Context {L : Lib} {E : Env}.

#[global] Instance frame_preorder : PreOrder (frame (L := L)).
Proof.
  split.
  - intros w. split; auto. exists []. by rewrite app_nil_r.
  - intros w1 w2 w3 H1 H2. destruct H1 as [a1 [n1 l1] t1 b1 s1 i1 d1 p1 k1], H2 as [a2 [n2 l2] t2 b2 s2 i2 d2 p2 k2].
    split; try congruence; auto; try lia. exists (n1 ++ n2). by rewrite l2, l1, app_assoc.
Qed.

Lemma frame_set_tick k (w : World L) : (tick w <= k)%nat -> frame w (set_tick k w).
Proof. intros Hk. split; auto. exists []. by rewrite app_nil_r. Qed.

Lemma frame_set_challenges m (w : World L) :
  frame w (set_store (MemoryStore.set_challenges m (store w)) w).
Proof. split; auto. exists []. by rewrite app_nil_r. Qed.

Lemma frame_set_factors m (w : World L) :
  frame w (set_store (MemoryStore.set_factors m (store w)) w).
Proof. split; auto. exists []. by rewrite app_nil_r. Qed.

Lemma frame_append e (w : World L) : frame w (set_store (append_event e (store w)) w).
Proof. split; auto; [apply append_event_ok|by eexists]. Qed.

(** [m] run in [w] returns [a], within the frame, and leaves challenges [cs]. *)
Definition runs {A} (m : M A) (w : World L) (a : A) (cs : gmap string Challenge.t) : Prop :=
  exists w', m w = (a, w') /\ frame w w' /\ challenges w' = cs.

(** The same with a postcondition, when the result depends on the run. *)
Definition lands {A} (m : M A) (w : World L) (P : A -> gmap string Challenge.t -> Prop) : Prop :=
  exists a w', m w = (a, w') /\ frame w w' /\ P a (challenges w').

Lemma lands_runs {A} (m : M A) (w : World L) a cs P : runs m w a cs -> P a cs -> lands m w P.
Proof. intros (w' & Hm & Hf & <-) HP. by exists a, w'. Qed.

Lemma lands_bind {A B} (m : M A) (k : A -> M B) (w : World L) P :
  lands m w (fun a cs => forall w', m w = (a, w') -> frame w w' -> challenges w' = cs -> lands (k a) w' P) ->
  lands (x ← m; k x) w P.
Proof.
  intros (a & w1 & Hm & Hf & Hk). destruct (Hk w1 Hm Hf eq_refl) as (b & w2 & Hk' & Hf' & HP).
  exists b, w2. split; [st_unfold; by rewrite Hm|]. split; [by etransitivity|done].
Qed.

Lemma lands_try {A B} (m : M (result A)) (k : A -> M (result B)) (w : World L) P :
  lands m w (fun r cs => match r with
    | Ok a => forall w', m w = (Ok a, w') -> frame w w' -> challenges w' = cs -> lands (k a) w' P
    | Err e => P (Err e) cs
    end) -> lands (st_try m k) w P.
Proof.
  intros ([a|e] & w1 & Hm & Hf & Hk).
  - destruct (Hk w1 Hm Hf eq_refl) as (b & w2 & Hk' & Hf' & HP).
    exists b, w2. split; [unfold st_try; by rewrite Hm|]. split; [by etransitivity|done].
  - exists (Err e), w1. split; [unfold st_try; by rewrite Hm|done].
Qed.

(** A step with a known result, then the rest. *)
Lemma lands_step {A B} (m : M A) (k : A -> M B) (w : World L) a cs P :
  runs m w a cs -> (forall w', m w = (a, w') -> frame w w' -> challenges w' = cs -> lands (k a) w' P) ->
  lands (x ← m; k x) w P.
Proof. intros Hr Hk. apply lands_bind. eapply lands_runs; [exact Hr|exact Hk]. Qed.

Lemma lands_ret {A} (a : A) (w : World L) P : P a (challenges w) -> lands (mret a) w P.
Proof. intros HP. by exists a, w. Qed.

Lemma runs_reads {A} (m : M A) (w : World L) : reads_only m -> exists a, runs m w a (challenges w).
Proof.
  intros Hm. destruct (Hm w) as (a & k & Hrun & Hk). exists a, (set_tick k w).
  split; [done|]. split; [by apply frame_set_tick|done].
Qed.

Lemma runs_factors {A} (m : M A) (w : World L) : factors_only m -> exists a, runs m w a (challenges w).
Proof.
  intros Hm. destruct (Hm w) as (a & k & fs & Hrun & Hk). eexists a, _. split; [exact Hrun|]. split; [|done].
  transitivity (set_tick k w); [by apply frame_set_tick|apply (frame_set_factors fs (set_tick k w))].
Qed.

Lemma runs_bind {A B} (m : M A) (k : A -> M B) (w : World L) a cs b cs' :
  runs m w a cs -> (forall w', m w = (a, w') -> frame w w' -> challenges w' = cs -> runs (k a) w' b cs') ->
  runs (x ← m; k x) w b cs'.
Proof.
  intros (w1 & Hm & Hf & Hc) Hk. destruct (Hk w1 Hm Hf Hc) as (w2 & Hk' & Hf' & Hc').
  exists w2. split; [|split; [by etransitivity|done]]. st_unfold. by rewrite Hm.
Qed.

Lemma runs_try {A B} (m : M (result A)) (k : A -> M (result B)) (w : World L) a cs b cs' :
  runs m w (Ok a) cs -> (forall w', m w = (Ok a, w') -> frame w w' -> challenges w' = cs -> runs (k a) w' b cs') ->
  runs (st_try m k) w b cs'.
Proof.
  intros (w1 & Hm & Hf & Hc) Hk. destruct (Hk w1 Hm Hf Hc) as (w2 & Hk' & Hf' & Hc').
  exists w2. split; [|split; [by etransitivity|done]]. unfold st_try. by rewrite Hm.
Qed.

Lemma runs_try_err {A B} (m : M (result A)) (k : A -> M (result B)) (w : World L) e cs :
  runs m w (Err e) cs -> runs (st_try m k) w (Err e) cs.
Proof. intros (w1 & Hm & H). exists w1. split; [|done]. unfold st_try. by rewrite Hm. Qed.

Lemma runs_ret {A} (a : A) (w : World L) : runs (mret a) w a (challenges w).
Proof. by exists w. Qed.

Lemma runs_Now (w : World L) : runs Now w (clock (tick w)) (challenges w).
Proof. eexists. split; [reflexivity|]. split; [apply frame_set_tick; lia|done]. Qed.

Lemma runs_set_field f c c0 (w : World L) : challenges w !! Challenge.ID c = Some c0 ->
  runs (set_field f c) w (f c) (<[Challenge.ID c := f c]> (challenges w)).
Proof.
  intros Hc. unfold set_field. eexists. split; [apply assign_run|]. split; [apply frame_set_challenges|].
  unfold challenges, rows in *. cbn. apply map_eq. intros i.
  destruct (decide (i = Challenge.ID c)) as [->|Hne].
  - by rewrite lookup_insert_eq, lookup_alter_eq, Hc.
  - by rewrite lookup_insert_ne, lookup_alter_ne by done.
Qed.

Lemma runs_Update c (w : World L) c0 : challenges w !! Challenge.ID c = Some c0 ->
  runs (Challenges.Update c) w (Ok tt) (<[Challenge.ID c := c]> (challenges w)).
Proof.
  intros Hc. unfold Challenges.Update. eexists. split.
  { rewrite tbl_Update_run. unfold rows. cbn [tbl key challenge_table]. unfold challenges in Hc. by rewrite Hc. }
  split; [apply frame_set_challenges|done].
Qed.

Lemma runs_emit ty a c d rs (w : World L) : runs (emit ty a c d rs) w (Ok tt) (challenges w).
Proof.
  unfold emit. destruct (Emit_run ty a (AuditTarget.mk TargetChallenge (Challenge.ID c)) d 0 rs [] w)
    as (e & Hrun & _).
  eexists. split; [exact Hrun|]. split; [|done].
  transitivity (set_tick (S (S (tick w))) w); [apply frame_set_tick; lia|].
  apply (frame_append e (set_tick (S (S (tick w))) w)).
Qed.
End FrameFacts.

(** Store the final state of a challenge through a series of writes. *)
Section Writes.
Context {L : Lib} {E : Env}.

Lemma runs_approve now reason c c0 (w : World L) : challenges w !! Challenge.ID c = Some c0 ->
  let c' := Challenge.set_ResolvedAt (Some now) (Challenge.set_Status ChallengeStatusApproved c) in
  runs (approve now reason c) w c' (<[Challenge.ID c := c']> (challenges w)).
Proof.
  intros Hc c'. unfold approve.
  eapply runs_bind; [by eapply runs_set_field|]. intros w1 _ _ H1.
  eapply runs_bind; [eapply runs_set_field; cbn; rewrite H1; apply lookup_insert_eq|]. intros w2 _ _ H2.
  eapply runs_bind; [eapply runs_Update; cbn; rewrite H2; apply lookup_insert_eq|]. intros w3 _ _ H3.
  eapply runs_bind; [apply runs_emit|]. intros w4 _ _ H4.
  rewrite H2, H1 in H3. cbn in H3. rewrite !insert_insert_eq in H3.
  fold c' in H3. rewrite <- H3, <- H4. apply runs_ret.
Qed.

(** Marking a challenge (expired, failed) and storing it. *)
Lemma runs_mark {A} s c c0 (a : A) (w : World L) : challenges w !! Challenge.ID c = Some c0 ->
  runs (c ← set_field (Challenge.set_Status s) c; _ ← Challenges.Update c; mret a) w a
    (<[Challenge.ID c := Challenge.set_Status s c]> (challenges w)).
Proof.
  intros Hc. eapply runs_bind; [by eapply runs_set_field|]. intros w1 _ _ H1.
  eapply runs_bind; [eapply runs_Update; cbn; rewrite H1; apply lookup_insert_eq|]. intros w2 _ _ H2.
  rewrite H1 in H2. cbn in H2. rewrite insert_insert_eq in H2. rewrite <- H2. apply runs_ret.
Qed.

Definition exhausted (c : Challenge.t) : Challenge.t :=
  if Challenge.MaxAttempts c <=? Challenge.Attempts c
  then Challenge.set_Status ChallengeStatusFailed c else c.

Lemma lands_fail_store {A} (k : Challenge.t -> M A) c c0 (w : World L) P :
  challenges w !! Challenge.ID c = Some c0 ->
  (forall w', challenges w' = <[Challenge.ID c := exhausted c]> (challenges w) ->
     lands (k (exhausted c)) w' P) ->
  lands (c ← fail_if_exhausted c; _ ← Challenges.Update c; k c) w P.
Proof.
  intros Hc Hk.
  assert (Hid : Challenge.ID (exhausted c) = Challenge.ID c) by (unfold exhausted; by destruct (_ <=? _)).
  assert (H1 : runs (fail_if_exhausted c) w (exhausted c)
    (if Challenge.MaxAttempts c <=? Challenge.Attempts c
     then <[Challenge.ID c := exhausted c]> (challenges w) else challenges w)).
  { unfold fail_if_exhausted, exhausted. destruct (_ <=? _); [by eapply runs_set_field|apply runs_ret]. }
  eapply lands_step; [exact H1|]. intros w1 _ _ Hw1.
  assert (Hl : exists c1, challenges w1 !! Challenge.ID (exhausted c) = Some c1).
  { rewrite Hw1, Hid. destruct (_ <=? _); [rewrite lookup_insert_eq|]; eauto. }
  destruct Hl as [c1 Hl]. eapply lands_step; [by eapply runs_Update|]. intros w2 _ _ Hw2.
  apply Hk. rewrite Hw2, Hid, Hw1. destruct (_ <=? _); [by rewrite insert_insert_eq|done].
Qed.
End Writes.

(** ** What each operation does *)

Section OpFacts.
Context {L : Lib} {E : Env} (svc : Service.t).

(** The lifecycle gates, on a stored challenge. *)
Definition pre_result (now : Time) (c : Challenge.t) : result Challenge.t * Challenge.t :=
  if negb (bool_decide (Challenge.Status c = ChallengeStatusPending))
  then (Err "challenge already resolved", c)
  else if After now (Challenge.ExpiresAt c)
  then (Err "challenge expired", Challenge.set_Status ChallengeStatusExpired c)
  else if Challenge.MaxAttempts c <=? Challenge.Attempts c
  then (Err "too many attempts", Challenge.set_Status ChallengeStatusFailed c)
  else (Ok c, c).

Lemma preVerify_runs id c (w : World L) :
  challenges w !! id = Some c -> Challenge.ID c = id ->
  runs (preVerify id) w (pre_result (clock (tick w)) c).1
    (<[id := (pre_result (clock (tick w)) c).2]> (challenges w)).
Proof.
  intros Hc Hid. unfold preVerify, pre_result.
  eapply runs_try.
  { exists w. split; [|done]. unfold Challenges.Get. rewrite tbl_Get_run. unfold rows. cbn [tbl challenge_table].
    unfold challenges in Hc. by rewrite Hc. }
  intros w1 H1 _ _. assert (w1 = w) as ->.
  { unfold Challenges.Get in H1. rewrite tbl_Get_run in H1. by injection H1. }
  destruct (negb _) eqn:Hp; [rewrite insert_id by done; apply runs_ret|].
  eapply runs_bind; [apply runs_Now|]. intros w2 _ _ H2.
  destruct (After _ _); [|destruct (_ <=? _)].
  - rewrite <- H2, <- Hid. eapply runs_mark. by rewrite H2, Hid.
  - rewrite <- H2, <- Hid. eapply runs_mark. by rewrite H2, Hid.
  - rewrite insert_id, <- H2 by done. apply runs_ret.
Qed.

Lemma preVerify_missing id (w : World L) : challenges w !! id = None ->
  preVerify id w = (Err (notFound id), w).
Proof.
  intros Hc. unfold preVerify, Challenges.Get, st_try. rewrite tbl_Get_run. unfold rows, challenges in *.
  cbn [tbl challenge_table]. by rewrite Hc.
Qed.

Lemma preVerify_ok_world id c (w w1 : World L) :
  preVerify id w = (Ok c, w1) -> w1 = set_tick (S (tick w)) w.
Proof.
  unfold preVerify, Challenges.Get, st_try. rewrite tbl_Get_run.
  destruct (rows w !! id) as [c0|]; [|done]. m_run.
  destruct (negb _); [done|]. unfold Now, ask.
  destruct (After _ _); [|destruct (_ <=? _)].
  - destruct (set_field _ _ _) as [c1 w2]. by destruct (Challenges.Update _ _).
  - destruct (set_field _ _ _) as [c1 w2]. by destruct (Challenges.Update _ _).
  - intros H. by injection H as _ <-.
Qed.

Lemma pre_result_step now c : ch_step c (pre_result now c).2.
Proof.
  unfold pre_result. destruct (bool_decide _) eqn:Hp; cbn [negb]; [|apply ch_same].
  apply bool_decide_eq_true in Hp. destruct (After _ _); [by apply ch_expire|].
  destruct (Z.leb_spec (Challenge.MaxAttempts c) (Challenge.Attempts c)); [by apply ch_exhaust|apply ch_same].
Qed.

Lemma pre_result_ok now c c' : (pre_result now c).1 = Ok c' ->
  c' = c /\ (pre_result now c).2 = c /\ Challenge.Status c = ChallengeStatusPending /\
  After now (Challenge.ExpiresAt c) = false /\ Challenge.Attempts c < Challenge.MaxAttempts c.
Proof.
  unfold pre_result. destruct (bool_decide _) eqn:Hp; cbn [negb]; [|done].
  apply bool_decide_eq_true in Hp. destruct (After _ _); [done|].
  destruct (Z.leb_spec (Challenge.MaxAttempts c) (Challenge.Attempts c)); [done|].
  by intros [= ->].
Qed.

Lemma pre_result_refusal now c e id : (pre_result now c).1 = Err e -> e ∈ refusals id.
Proof. unfold pre_result, refusals. repeat case_match; intros [= <-]; set_solver. Qed.

Lemma set_session_id c : Challenge.set_WebAuthnSession (Challenge.WebAuthnSession c) c = c.
Proof. by destruct c. Qed.

(** After an attempt: still pending or failed. *)
Lemma exhausted_step c s : Challenge.Status c = ChallengeStatusPending ->
  Challenge.Attempts c < Challenge.MaxAttempts c ->
  ch_step c (exhausted (Challenge.set_WebAuthnSession s (bump c))).
Proof.
  intros Hp Hlt. unfold exhausted. cbn.
  destruct (Z.leb_spec (Challenge.MaxAttempts c) (int64 (Challenge.Attempts c + 1)));
    [by apply ch_attempt_failed|by apply ch_attempt].
Qed.

Lemma exhausted_attempts c : Challenge.Attempts (exhausted c) = Challenge.Attempts c.
Proof. unfold exhausted. by destruct (_ <=? _). Qed.

Lemma exhausted_not_approved c : Challenge.Status c = ChallengeStatusPending ->
  Challenge.Status (exhausted c) <> ChallengeStatusApproved.
Proof. unfold exhausted. destruct (_ <=? _); cbn; congruence. Qed.

(** The outcome of an operation on the challenge [id]: one abstract step, an
    approval only with the evidence, and an attempt counted if it was [judged]. *)
Definition outcome (o : op) (judged : bool) (id : string) (w w' : World L) : Prop :=
  frame w w' /\
  exists c', match challenges w !! id with
             | None => challenges w' = challenges w
             | Some c => challenges w' = <[id := c']> (challenges w) /\ ch_step c c' /\
                 (judged = true -> Challenge.Attempts c < Challenge.MaxAttempts c /\ Challenge.Attempts c' = Challenge.Attempts (bump c)) /\
                 (Challenge.Status c = ChallengeStatusPending ->
                  Challenge.Status c' = ChallengeStatusApproved ->
                  (exists n, (tick w <= n)%nat /\ After (clock n) (Challenge.ExpiresAt c) = false) /\
                  Challenge.Attempts c < Challenge.MaxAttempts c /\ evidence svc o w c)
             end.

Lemma outcome_missing o j id (w : World L) : challenges w !! id = None -> outcome o j id w w.
Proof.
  intros Hc. split; [done|].
  exists (Challenge.mk "" "" "" [] ChallengeStatusPending 0 "" "" 0 0 zeroTime zeroTime None).
  by rewrite Hc.
Qed.

(** Shared shape: the gates refuse, or they pass and [k] runs an attempt. *)
Lemma outcome_gate {A} (k : result Challenge.t -> M A) (j : A -> bool) o id (w : World L) :
  keyed (A := Challenge.t) w ->
  (forall e, exists a, k (Err e) = mret a /\ (e ∈ refusals id -> j a = false)) ->
  (forall c w1, challenges w !! id = Some c -> Challenge.ID c = id -> frame w w1 ->
     challenges w1 = challenges w -> MemoryStore.factors (store w1) = MemoryStore.factors (store w) ->
     Challenge.Status c = ChallengeStatusPending ->
     Challenge.Attempts c < Challenge.MaxAttempts c ->
     lands (k (Ok c)) w1 (fun a cs => exists c', cs = <[id := c']> (challenges w1) /\ ch_step c c' /\
       (j a = true -> Challenge.Attempts c' = Challenge.Attempts (bump c)) /\
       (Challenge.Status c' = ChallengeStatusApproved -> evidence svc o w c))) ->
  let r := (r ← preVerify id; k r) w in outcome o (j r.1) id w r.2.
Proof.
  intros Hkey Herr Hok. cbv zeta. st_unfold. destruct (challenges w !! id) as [c|] eqn:Hc.
  2: { rewrite preVerify_missing by done. destruct (Herr (notFound id)) as [a [-> _]]. by apply outcome_missing. }
  assert (Hid : Challenge.ID c = id) by (by apply (Hkey id)).
  destruct (preVerify_runs id c w Hc Hid) as (w1 & Hpre & Hf & Hw1). rewrite Hpre.
  destruct (pre_result (clock (tick w)) c).1 as [c1|e] eqn:Hr.
  - pose proof (pre_result_ok _ _ _ Hr) as (-> & H2 & Hp & Hexp & Hlt). rewrite H2, insert_id in Hw1 by done.
    assert (Hfac : MemoryStore.factors (store w1) = MemoryStore.factors (store w))
      by (by rewrite (preVerify_ok_world _ _ _ _ Hpre)).
    destruct (Hok c w1 eq_refl Hid Hf Hw1 Hfac Hp Hlt) as (a & w2 & Hrun & Hf2 & c' & Hw2 & Hstep & Hj & Hev).
    rewrite Hrun. cbn [fst snd]. split; [by etransitivity|]. exists c'. rewrite Hc. split; [by rewrite Hw2, Hw1|].
    split; [done|]. split; [by intros Hja; split; [|apply Hj]|]. intros _ Hap. split; [exists (tick w); split; [done|done]|]. split; [done|]. by apply Hev.
  - destruct (Herr e) as [a [-> Hja]]. cbn [fst snd mret st_ret]. split; [exact Hf|]. eexists. rewrite Hc. split; [exact Hw1|].
    split; [apply pre_result_step|]. split; [by rewrite Hja by (by eapply pre_result_refusal)|]. intros Hp Hap. exfalso. revert Hap Hr. unfold pre_result. rewrite Hp. cbn.
    destruct (After _ _); [done|]. destruct (_ <=? _); [done|]. done.
Qed.

(** A refusal is passed on and not judged. *)
Lemma refused {A} id e : e ∈ refusals id -> judged (A := A) id (Err e) = false.
Proof. intros He. cbn. by rewrite bool_decide_true. Qed.
Lemma refused_pair {A} id e : e ∈ refusals id -> judged_pair (A := A) id (None, Some e) = false.
Proof. intros He. cbn. by rewrite bool_decide_true. Qed.
Lemma st_try_bind {A B} (m : M (result A)) (k : A -> M (result B)) (w : World L) :
  st_try m k w = (r ← m; match r with Ok a => k a | Err e => mret (Err e) end) w.
Proof. st_unfold. by destruct (m w) as [[] ?]. Qed.

Context `{!EnvOk E}.

(** Counting an attempt, then running [k]. *)
Lemma lands_bump {A} (k : Challenge.t -> M A) c (w1 : World L) P :
  challenges w1 !! Challenge.ID c = Some c ->
  (forall w2, frame w1 w2 -> MemoryStore.factors (store w2) = MemoryStore.factors (store w1) ->
     challenges w2 = <[Challenge.ID c := bump c]> (challenges w1) -> lands (k (bump c)) w2 P) ->
  lands (c ← set_field bump c; k c) w1 P.
Proof.
  intros Hc Hk. eapply lands_step; [by eapply runs_set_field|]. intros w2 Hrun Hf Hw2.
  apply Hk; [done| |done]. unfold set_field in Hrun. rewrite assign_run in Hrun. by injection Hrun as <-.
Qed.

Lemma VerifyTOTP_outcome id code (w : World L) :
  keyed (A := Challenge.t) w ->
  outcome (OpVerifyTOTP id code) (judged id (VerifyTOTP id code w).1) id w (VerifyTOTP id code w).2.
Proof.
  intros Hkey. unfold VerifyTOTP. rewrite st_try_bind.
  apply (outcome_gate _ (judged id)); [done|intros e; exists (Err e); split; [done|apply refused]|]. intros c w1 Hc Hid Hf1 Hw1 Hfac Hp Hlt. subst id.
  rewrite <- Hw1 in Hc. apply lands_bump; [done|]. intros w2 _ Hfac2 Hw2.
  apply lands_try. destruct (runs_reads _ w2 (Totp_Verify_reads (Challenge.IdentityID (bump c)) code)) as [r Hr].
  eapply lands_runs; [exact Hr|]. destruct r as [valid|e].
  2: { exists (bump c). split; [done|]. split; [|split; [done|by cbn; rewrite Hp]].
       rewrite <- (set_session_id (bump c)). by apply ch_attempt. }
  intros w3 Hv _ Hw3. eapply lands_step; [apply runs_Now|]. intros w4 _ _ Hw4.
  assert (Hl : challenges w4 !! Challenge.ID (bump c) = Some (bump c))
    by (rewrite Hw4, Hw3, Hw2; apply lookup_insert_eq).
  destruct valid.
  - eapply lands_step; [by eapply runs_approve|]. intros w5 _ _ Hw5. apply lands_ret.
    eexists. split; [rewrite Hw5, Hw4, Hw3, Hw2; apply insert_insert_eq|]. split; [|split; [done|]].
    + rewrite <- (set_session_id (bump c)). by apply ch_approve.
    + intros _. apply Totp_Verify_true in Hv as (_ & k & f & Hf & Hrest).
      exists k, f. split; [by rewrite <- Hfac, <- Hfac2|exact Hrest].
  - eapply lands_fail_store; [exact Hl|]. intros w5 Hw5.
    eapply lands_step; [apply runs_emit|]. intros w6 _ _ Hw6. apply lands_ret.
    eexists. split; [rewrite Hw6, Hw5, Hw4, Hw3, Hw2; apply insert_insert_eq|]. split; [|split; [intros _; apply exhausted_attempts|]].
    + rewrite <- (set_session_id (bump c)). by apply exhausted_step.
    + intros Ha. by destruct (exhausted_not_approved (bump c)).
Qed.

Lemma VerifyPush_outcome id dev n sig ts (w : World L) : keyed (A := Challenge.t) w ->
  outcome (OpVerifyPush id dev n sig ts) (judged id (VerifyPush svc id dev n sig ts w).1) id w (VerifyPush svc id dev n sig ts w).2.
Proof.
  intros Hkey. unfold VerifyPush. rewrite st_try_bind.
  apply (outcome_gate _ (judged id)); [done|intros e; exists (Err e); split; [done|apply refused]|]. intros c w1 Hc Hid Hf1 Hw1 Hfac Hp Hlt. subst id.
  rewrite <- Hw1 in Hc. apply lands_bump; [done|]. intros w2 Hf2 Hfac2 Hw2.
  assert (Hl : challenges w2 !! Challenge.ID (bump c) = Some (bump c)) by (rewrite Hw2; apply lookup_insert_eq).
  destruct (Z.eqb_spec n (Challenge.PushNumber (bump c))) as [Hn|Hn]; cbn [negb].
  2: { eapply lands_step; [by eapply runs_Update|]. intros w3 _ _ Hw3. apply lands_ret.
       exists (bump c). split; [rewrite Hw3, Hw2; apply insert_insert_eq|]. split; [|split; [done|by cbn; rewrite Hp]].
       rewrite <- (set_session_id (bump c)). by apply ch_attempt. }
  destruct (VerifyApproval_run (Service.skewWindow svc) dev (Challenge.ID c) n sig ts w2) as (r & k & Hrun & Hiff).
  destruct (VerifyApproval_reads (Service.skewWindow svc) dev (Challenge.ID c) n sig ts w2) as (r' & k' & Hrun' & Hk).
  rewrite Hrun in Hrun'. injection Hrun' as <- Hkk.
  apply lands_bind. exists r, (set_tick k w2). split; [exact Hrun|].
  split; [rewrite Hkk; by apply frame_set_tick|]. intros w3 _ _ Hw3.
  assert (Hl3 : challenges w3 !! Challenge.ID (bump c) = Some (bump c)) by (by rewrite Hw3).
  destruct r as [[]|e].
  - eapply lands_step; [apply runs_Now|]. intros w4 _ _ Hw4.
    eapply lands_step; [eapply runs_approve; rewrite Hw4; exact Hl3|]. intros w5 _ _ Hw5. apply lands_ret.
    eexists. split; [rewrite Hw5, Hw4, Hw3; cbn; unfold challenges in Hw2 |- *; cbn; rewrite Hw2; apply insert_insert_eq|].
    split; [rewrite <- (set_session_id (bump c)); by apply ch_approve|]. split; [done|].
    intros _. split; [exact Hn|]. destruct (proj1 Hiff eq_refl) as (_ & _ & d & Hd & Hs). exists d. split; [|exact Hs].
    by rewrite <- (frame_devices _ _ Hf1), <- (frame_devices _ _ Hf2).
  - eapply lands_fail_store; [exact Hl3|]. intros w5 Hw5. apply lands_ret.
    eexists. split; [rewrite Hw5, Hw3; cbn; unfold challenges in Hw2 |- *; cbn; rewrite Hw2; apply insert_insert_eq|].
    split; [rewrite <- (set_session_id (bump c)); by apply exhausted_step|]. split; [intros _; apply exhausted_attempts|].
    intros Ha. by destruct (exhausted_not_approved (bump c)).
Qed.

Lemma outcome_same o id (w w' : World L) : frame w w' -> challenges w' = challenges w -> outcome o false id w w'.
Proof.
  intros Hf Hw. split; [done|]. destruct (challenges w !! id) as [c|] eqn:Hc.
  - exists c. split; [by rewrite insert_id|]. split; [apply ch_same|]. split; [done|]. congruence.
  - by exists (Challenge.mk "" "" "" [] ChallengeStatusPending 0 "" "" 0 0 zeroTime zeroTime None).
Qed.

Lemma FinishWebAuthn_outcome id body (w : World L) : keyed (A := Challenge.t) w ->
  outcome (OpFinishWebAuthn id body) (judged_pair id (FinishWebAuthn svc id body w).1) id w (FinishWebAuthn svc id body w).2.
Proof.
  intros Hkey. unfold FinishWebAuthn. destruct (Service.webauthn svc) eqn:Hwa; cbn [negb].
  2: { cbn [fst snd mret st_ret]. rewrite refused_pair by (unfold refusals; set_solver). by apply outcome_same. }
  apply (outcome_gate _ (judged_pair id)); [done|by eauto using refused_pair|]. intros c w1 Hc Hid Hf1 Hw1 Hfac Hp Hlt. subst id.
  rewrite <- Hw1 in Hc.
  assert (Hsame : forall e, e ∈ refusals (Challenge.ID c) -> exists c', challenges w1 = <[Challenge.ID c := c']> (challenges w1) /\ ch_step c c' /\
    (judged_pair (Challenge.ID c) (@None Challenge.t, Some e) = true -> Challenge.Attempts c' = Challenge.Attempts (bump c)) /\
    (Challenge.Status c' = ChallengeStatusApproved -> evidence svc (OpFinishWebAuthn (Challenge.ID c) body) w c)).
  { intros e He. exists c. split; [by rewrite insert_id|]. split; [apply ch_same|]. split; [by rewrite refused_pair|congruence]. }
  destruct (allowsMethod c MFAMethodWebAuthn) eqn:Hal; cbn [negb]; [|apply lands_ret, Hsame; unfold refusals; set_solver].
  destruct (String.eqb (Challenge.WebAuthnSession c) ""); [apply lands_ret, Hsame; unfold refusals; set_solver|].
  apply lands_bump; [done|]. intros w2 _ _ Hw2. cbv zeta.
  eapply lands_step; [eapply runs_set_field; rewrite Hw2; apply lookup_insert_eq|]. intros w3 _ _ Hw3.
  set (c1 := Challenge.set_WebAuthnSession "" (bump c)) in *.
  destruct (runs_factors _ w3 (FinishVerification_frame (Challenge.IdentityID c1)
    (Challenge.WebAuthnSession (bump c)) body)) as [v Hv].
  eapply lands_step; [exact Hv|]. intros w4 Hrun _ Hw4.
  eapply lands_step; [apply runs_Now|]. intros w5 _ _ Hw5.
  assert (Hw5' : challenges w5 = <[Challenge.ID c1 := c1]> (challenges w1))
    by (rewrite Hw5, Hw4, Hw3, Hw2; apply insert_insert_eq).
  assert (Hl : challenges w5 !! Challenge.ID c1 = Some c1) by (rewrite Hw5'; apply lookup_insert_eq).
  destruct v as [[] err]; cbn [fst snd].
  - eapply lands_step; [by eapply runs_approve|]. intros w6 _ _ Hw6. apply lands_ret.
    eexists. split; [rewrite Hw6, Hw5'; apply insert_insert_eq|]. split; [by apply ch_approve|]. split; [done|].
    intros _. split; [done|]. split; [done|]. by apply FinishVerification_true in Hrun.
  - eapply lands_fail_store; [exact Hl|]. intros w6 Hw6.
    eapply lands_step; [apply runs_emit|]. intros w7 _ _ Hw7. apply lands_ret.
    eexists. split; [rewrite Hw7, Hw6, Hw5'; apply insert_insert_eq|].
    split; [by apply exhausted_step|]. split; [intros _; apply (exhausted_attempts c1)|]. intros Ha. by destruct (exhausted_not_approved c1).
Qed.

Lemma BeginWebAuthn_outcome id (w : World L) : keyed (A := Challenge.t) w ->
  outcome (OpBeginWebAuthn id) false id w (BeginWebAuthn svc id w).2.
Proof.
  intros Hkey. unfold BeginWebAuthn. destruct (Service.webauthn svc); cbn [negb]; [|by apply outcome_same].
  assert (Hland : forall A (m : M A), lands m w (fun _ cs => exists c', match challenges w !! id with
    | None => cs = challenges w
    | Some c => cs = <[id := c']> (challenges w) /\ ch_step c c' /\
        (Challenge.Status c = ChallengeStatusPending -> Challenge.Status c' <> ChallengeStatusApproved)
    end) -> outcome (OpBeginWebAuthn id) false id w (m w).2).
  { intros A m (a & w' & Hm & Hf & c' & HP). rewrite Hm. split; [done|]. exists c'.
    destruct (challenges w !! id) as [c|]; [|done]. destruct HP as (H1 & H2 & H3). split_and!; try done.
    intros Hp Ha. by destruct (H3 Hp). }
  apply Hland. clear Hland. apply lands_try.
  exists (match challenges w !! id with Some c => Ok c | None => Err (notFound id) end), w.
  split; [done|]. split; [done|]. destruct (challenges w !! id) as [c|] eqn:Hc.
  2: { by exists (Challenge.mk "" "" "" [] ChallengeStatusPending 0 "" "" 0 0 zeroTime zeroTime None). }
  intros w0 H0 _ _. assert (w0 = w) as -> by (unfold Challenges.Get in H0; rewrite tbl_Get_run in H0; by injection H0).
  assert (Hid : Challenge.ID c = id) by (by apply (Hkey id)). subst id.
  assert (Hsame : forall cs, cs = challenges w -> exists c', cs = <[Challenge.ID c := c']> (challenges w) /\
    ch_step c c' /\ (Challenge.Status c = ChallengeStatusPending -> Challenge.Status c' <> ChallengeStatusApproved)).
  { intros cs ->. exists c. split; [by rewrite insert_id|]. split; [apply ch_same|congruence]. }
  destruct (bool_decide _) eqn:Hp; cbn [negb]; [|by apply lands_ret, Hsame]. apply bool_decide_eq_true in Hp.
  eapply lands_step; [apply runs_Now|]. intros w1 _ _ Hw1. rewrite <- Hw1 in Hc.
  destruct (After _ _).
  { eapply lands_runs; [by eapply runs_mark|]. eexists. split; [by rewrite Hw1|]. split; [by apply ch_expire|done]. }
  destruct (allowsMethod _ _); cbn [negb]; [|by apply lands_ret, Hsame].
  apply lands_try. destruct (runs_reads _ w1 (BeginVerification_reads (Challenge.IdentityID c))) as [r Hr].
  eapply lands_runs; [exact Hr|]. destruct r as [p|e]; [|by apply Hsame].
  intros w2 _ _ Hw2. eapply lands_step; [eapply runs_set_field; by rewrite Hw2|]. intros w3 _ _ Hw3.
  apply lands_try. eapply lands_runs; [eapply runs_Update; rewrite Hw3; apply lookup_insert_eq|].
  intros w4 _ _ Hw4. apply lands_ret. eexists.
  split; [rewrite Hw4, Hw3, Hw2, Hw1; apply insert_insert_eq|]. split; [by apply ch_session|]. cbn. congruence.
Qed.
End OpFacts.

(** ** The invariant *)

Section Invariant.
Context {L : Lib} {E : Env} `{!LibOk L} `{!EnvOk E} (svc : Service.t).

Lemma ch_step_id c c' : ch_step c c' -> Challenge.ID c' = Challenge.ID c.
Proof. by destruct 1. Qed.

Lemma outcome_inv o j id (w w' : World L) : outcome svc o j id w w' -> ch_inv w -> ch_inv w' /\ evolves w w'.
Proof.
  intros [Hf [c' Hout]] [Hkey Hfresh Hok]. destruct (challenges w !! id) as [c|] eqn:Hc.
  - destruct Hout as (Hw & Hstep & _).
    assert (Hid : Challenge.ID c' = id) by (rewrite (ch_step_id c c' Hstep); by apply (Hkey id)).
    split; [split|].
    + intros i v Hv. change (rows w' !! i) with (challenges w' !! i) in Hv. rewrite Hw in Hv.
      apply lookup_insert_Some in Hv as [[<- <-]|[_ Hv]]; [done|by apply Hkey].
    + intros n Hn. rewrite Hw, lookup_insert_None. split.
      * apply Hfresh. pose proof (frame_tick _ _ Hf). lia.
      * intros ->. rewrite Hfresh in Hc; [done|]. pose proof (frame_tick _ _ Hf). lia.
    + intros i v Hv. rewrite Hw in Hv.
      apply lookup_insert_Some in Hv as [[<- <-]|[_ Hv]]; eauto using ch_step_ok.
    + intros i v Hv. rewrite Hw. destruct (decide (id = i)) as [<-|Hne].
      * exists c'. rewrite lookup_insert_eq. split; [done|]. assert (v = c) as -> by congruence.
        by apply rtc_once.
      * exists v. rewrite lookup_insert_ne by done. split; [done|]. apply rtc_refl.
  - split; [split|].
    + intros i v Hv. change (rows w' !! i) with (challenges w' !! i) in Hv. rewrite Hout in Hv. by apply Hkey.
    + intros n Hn. rewrite Hout. apply Hfresh. pose proof (frame_tick _ _ Hf). lia.
    + intros i v Hv. rewrite Hout in Hv. eauto.
    + intros i v Hv. exists v. rewrite Hout. split; [done|apply rtc_refl].
Qed.

(** A new challenge is pending, untried, and stored under a fresh id. *)
Lemma Create_run i r ms (w : World L) : exists res w', Create svc i r ms w = (res, w') /\ frame w w' /\
  match res with
  | Err _ => challenges w' = challenges w
  | Ok c => challenges w' = <[Challenge.ID c := c]> (challenges w) /\
      (exists n, (tick w <= n < tick w')%nat /\ Challenge.ID c = uuid_New n) /\
      (exists n, (tick w <= n)%nat /\ Challenge.ExpiresAt c = Add (UTC (clock n)) (Service.ttl svc)) /\
      Challenge.IdentityID c = i /\ Challenge.RequestID c = r /\ Challenge.Methods c = ms /\
      Challenge.Status c = ChallengeStatusPending /\ Challenge.Attempts c = 0 /\
      Challenge.MaxAttempts c = Service.maxAttempts svc /\ Challenge.ResolvedAt c = None /\
      0 <= Challenge.PushNumber c < 100
  end.
Proof.
  unfold Create, st_try.
  assert (Hd : exists rn k, drawNumber ms w = (rn, set_tick k w) /\ (tick w <= k)%nat /\
                            forall n, rn = Ok n -> 0 <= n < 100).
  { unfold drawNumber. destruct (existsb (fun m => String.eqb m MFAMethodPush) ms).
    - eexists _, _. split; [reflexivity|]. split; [lia|]. intros n. by apply rand_Int_bound.
    - exists (Ok 0), (tick w). split; [by rewrite set_tick_id|]. split; [done|]. intros n [= <-]. lia. }
  destruct Hd as (rn & k & -> & Hk & Hn).
  destruct rn as [n|e]; [|exists (Err e), (set_tick k w); split; [done|]; split; [by apply frame_set_tick|done]].
  unfold Challenges.Create. m_run. rewrite tbl_Create_run.
  set (c := Challenge.mk _ _ _ _ _ _ _ _ _ _ _ _ _).
  set (w1 := set_store _ _).
  destruct (runs_emit "challenge.created" (AuditActor.mk ActorSystem "system") c DecisionChallenge [] w1)
    as (w2 & -> & Hf & Hw2).
  exists (Ok c), w2. split; [done|].
  assert (Hf1 : frame w w1).
  { etransitivity; [|apply (frame_set_challenges _ (set_tick (S (S (S (S k)))) w))]. apply frame_set_tick. lia. }
  split; [by etransitivity|]. split; [by rewrite Hw2|]. split; [|split].
  - exists k. split; [|done]. split; [done|]. pose proof (frame_tick _ _ Hf). cbn in *. lia.
  - exists (S (S k)). split; [lia|done].
  - split_and!; try done; by apply (Hn n).
Qed.

Context (Hmax : in_int64 (Service.maxAttempts svc)).

Lemma Create_inv i r ms (w : World L) : ch_inv w ->
  ch_inv (Create svc i r ms w).2 /\ evolves w (Create svc i r ms w).2 /\ frame w (Create svc i r ms w).2.
Proof.
  intros [Hkey Hfresh Hok]. destruct (Create_run i r ms w) as (res & w' & -> & Hf & Hres). cbn [snd].
  destruct res as [c|e].
  - destruct Hres as (Hw & (n & [Hn1 Hn2] & Hid) & _ & _ & _ & _ & Hp & Ha & Hm & Hr & _).
    split; [split|split; [|done]].
    + intros id v Hv. change (rows w' !! id) with (challenges w' !! id) in Hv. rewrite Hw in Hv.
      apply lookup_insert_Some in Hv as [[<- <-]|[_ Hv]]; [done|by apply Hkey].
    + intros m Hm'. rewrite Hw, lookup_insert_None, Hid. split; [apply Hfresh; lia|].
      intros He. apply uuid_inj in He. lia.
    + intros id v Hv. rewrite Hw in Hv. apply lookup_insert_Some in Hv as [[_ <-]|[_ Hv]]; [|by eauto].
      unfold ch_ok. rewrite Ha, Hm, Hp, Hr. split; [lia|]. split; [done|]. split; [done|congruence].
    + intros id v Hv. rewrite Hw. exists v. rewrite lookup_insert_ne; [by split; [|apply rtc_refl]|].
      rewrite Hid. intros <-. rewrite Hfresh in Hv by lia. done.
  - split; [split|split; [|done]].
    + intros id v Hv. change (rows w' !! id) with (challenges w' !! id) in Hv. rewrite Hres in Hv. by apply Hkey.
    + intros m Hm'. rewrite Hres. apply Hfresh. pose proof (frame_tick _ _ Hf). lia.
    + intros id v Hv. rewrite Hres in Hv. eauto.
    + intros id v Hv. rewrite Hres. by exists v; split; [|apply rtc_refl].
Qed.

Lemma run_op_inv o (w : World L) : ch_inv w ->
  ch_inv (run_op svc o w) /\ evolves w (run_op svc o w) /\ frame w (run_op svc o w).
Proof.
  intros Hi. pose proof (inv_keyed _ Hi) as Hk.
  destruct o as [i r ms|id code|id dev n sig ts|id|id body]; [by apply Create_inv|..]; cbn [run_op].
  - pose proof (VerifyTOTP_outcome svc id code w Hk) as Ho. destruct (outcome_inv _ _ _ _ _ Ho Hi). by split_and!; [..|apply Ho].
  - pose proof (VerifyPush_outcome svc id dev n sig ts w Hk) as Ho. destruct (outcome_inv _ _ _ _ _ Ho Hi). by split_and!; [..|apply Ho].
  - pose proof (BeginWebAuthn_outcome svc id w Hk) as Ho. destruct (outcome_inv _ _ _ _ _ Ho Hi). by split_and!; [..|apply Ho].
  - pose proof (FinishWebAuthn_outcome svc id body w Hk) as Ho. destruct (outcome_inv _ _ _ _ _ Ho Hi). by split_and!; [..|apply Ho].
Qed.

Lemma run_ops_inv os : forall w : World L, ch_inv w ->
  ch_inv (run_ops svc os w) /\ evolves w (run_ops svc os w) /\ frame w (run_ops svc os w).
Proof.
  induction os as [|o os IH]; intros w Hi.
  - split; [done|]. split; [|done]. intros id c Hc. exists c. by split; [|apply rtc_refl].
  - destruct (run_op_inv o w Hi) as (Hi1 & He1 & Hf1). destruct (IH _ Hi1) as (Hi2 & He2 & Hf2).
    split; [done|]. split; [|by etransitivity]. intros id c Hc.
    destruct (He1 id c Hc) as (c1 & Hc1 & Hs1). destruct (He2 id c1 Hc1) as (c2 & Hc2 & Hs2).
    exists c2. split; [done|]. by etransitivity.
Qed.

Lemma ch_step_attempts c c' : ch_ok c -> ch_step c c' ->
  Challenge.MaxAttempts c' = Challenge.MaxAttempts c /\ Challenge.Attempts c <= Challenge.Attempts c'.
Proof.
  intros Hok Hs. destruct Hs as [c|c Hp|c Hp _|c s Hp|c s Hp Hlt|c s Hp Hlt _|c s now Hp Hlt];
    try (pose proof (bump_in c Hok Hlt) as Hb); (split; [reflexivity|]); cbn in *; lia.
Qed.

Lemma ch_steps_attempts c c' : rtc ch_step c c' -> ch_ok c ->
  Challenge.MaxAttempts c' = Challenge.MaxAttempts c /\ Challenge.Attempts c <= Challenge.Attempts c'.
Proof.
  induction 1 as [c|c1 c2 c3 Hs _ IH]; intros Hok; [done|]. destruct (ch_step_attempts c1 c2 Hok Hs) as [Hm Ha].
  destruct IH as [Hm' Ha']; [by eapply ch_step_ok|]. split; [congruence|lia].
Qed.

(** A judged guess costs an attempt; no call gives one back. *)
Lemma guess_counts o (w : World L) id c : ch_inv w -> challenges w !! id = Some c -> exists c',
  challenges (run_op svc o w) !! id = Some c' /\ Challenge.MaxAttempts c' = Challenge.MaxAttempts c /\
  Challenge.Attempts c + (if guess svc id o w then 1 else 0) <= Challenge.Attempts c'.
Proof.
  intros Hi Hc. destruct (run_op_inv o w Hi) as (_ & He & _). destruct (He id c Hc) as (c' & Hc' & Hs).
  pose proof (inv_ok _ Hi id c Hc) as Hok. destruct (ch_steps_attempts c c' Hs Hok) as [Hm Ha].
  exists c'. split_and!; [done|done|]. destruct (guess svc id o w) eqn:Hg; [|lia].
  assert (Hgen : forall w', outcome svc o true id w w' -> challenges w' !! id = Some c' -> Challenge.Attempts c + 1 <= Challenge.Attempts c').
  { intros w' [_ [c1 Ho]] Hl. rewrite Hc in Ho. destruct Ho as (Hw & _ & Hj & _). destruct (Hj eq_refl) as [Hlt Hb].
    rewrite Hw, lookup_insert_eq in Hl. injection Hl as <-. rewrite Hb, bump_in by done. lia. }
  pose proof (inv_keyed _ Hi) as Hk. destruct o as [i r ms|i code|i dev n sig ts|i|i body]; try done; cbn [guess run_op] in *;
    apply andb_true_iff in Hg as [->%String.eqb_eq Hg]; eapply Hgen; try exact Hc'; rewrite <- Hg.
  - by apply VerifyTOTP_outcome.
  - by apply VerifyPush_outcome.
  - by apply FinishWebAuthn_outcome.
Qed.
End Invariant.

(** A valid code approves a challenge that passes the gates. *)
Lemma VerifyTOTP_valid {L : Lib} {E : Env} `{!EnvOk E} id code c (w : World L) k f :
  keyed (A := Challenge.t) w -> challenges w !! id = Some c ->
  Challenge.Status c = ChallengeStatusPending ->
  After (clock (tick w)) (Challenge.ExpiresAt c) = false ->
  Challenge.Attempts c < Challenge.MaxAttempts c ->
  MemoryStore.factors (store w) !! k = Some f -> Factor.IdentityID f = Challenge.IdentityID c ->
  Factor.Method f = MFAMethodTOTP -> Factor.Status f = FactorStatusActive ->
  (forall n, (tick w <= n)%nat -> totp_Validate (clock n) code (Factor.Secret f) = true) ->
  lands (VerifyTOTP id code) w (fun r cs => exists now,
    let c' := Challenge.set_ResolvedAt (Some now) (Challenge.set_Status ChallengeStatusApproved (bump c)) in
    r = Ok c' /\ cs = <[id := c']> (challenges w)).
Proof.
  intros Hkey Hc Hp Hexp Hlt Hf Hfi Hfm Hfs Hv. assert (Hid : Challenge.ID c = id) by (by apply (Hkey id)).
  pose proof (preVerify_runs id c w Hc Hid) as Hpre. unfold pre_result in Hpre.
  rewrite Hp, Hexp, (proj2 (Z.leb_gt _ _) Hlt) in Hpre. cbn in Hpre. rewrite insert_id in Hpre by done.
  subst id. unfold VerifyTOTP. apply lands_try. eapply lands_runs; [exact Hpre|]. intros w1 H1 _ Hw1.
  apply preVerify_ok_world in H1. rewrite <- Hw1 in Hc.
  apply lands_bump; [done|]. intros w2 Hf2 Hfac2 Hw2. apply lands_try.
  destruct (Totp_Verify_complete (Challenge.IdentityID c) code w2 k f) as [w3 H3]; try done.
  { rewrite Hfac2, H1. done. }
  { intros n Hn. apply Hv. pose proof (frame_tick _ _ Hf2). rewrite H1 in *. simpl in *. lia. }
  destruct (runs_reads _ w2 (Totp_Verify_reads (Challenge.IdentityID (bump c)) code)) as (r & w3' & H3' & Hf3 & Hw3).
  change (Challenge.IdentityID (bump c)) with (Challenge.IdentityID c) in H3'. rewrite H3 in H3'.
  injection H3' as <- <-. exists (Ok true), w3. split; [exact H3|]. split; [exact Hf3|].
  intros w3' H3' _ Hw3'. eapply lands_step; [apply runs_Now|]. intros w4 _ _ Hw4.
  eapply lands_step; [eapply runs_approve; rewrite Hw4, Hw3', Hw3, Hw2; apply lookup_insert_eq|].
  intros w5 _ _ Hw5. apply lands_ret. eexists. split; [reflexivity|].
  rewrite Hw5, Hw4, Hw3', Hw3, Hw2. rewrite <- Hw1. apply insert_insert_eq.
Qed.

Lemma demo_totp_inv : ch_inv demo_totp_world.
Proof.
  assert (challenges demo_totp_world = ∅) as He by (vm_compute; reflexivity). split.
  - by apply keyed_empty.
  - intros n _. by rewrite He.
  - intros id c. by rewrite He.
Qed.

Lemma demo_max : in_int64 (Service.maxAttempts demo_svc).
Proof. split; vm_compute; congruence. Qed.

Lemma demo_ch_inv : ch_inv demo_ch_world.
Proof. apply (Create_inv demo_svc demo_max), demo_totp_inv. Qed.

Lemma demo_ch_audit : audit_ok (store demo_ch_world).
Proof.
  apply (frame_audit demo_totp_world); [apply (Create_inv demo_svc demo_max), demo_totp_inv|].
  assert (MemoryStore.auditEvents (store demo_totp_world) = []) as He by (vm_compute; reflexivity).
  unfold audit_ok. rewrite He. split; [exact I|]. split; [exact I|]. vm_compute. reflexivity.
Qed.

(** ** Properties *)

(** C4: the service implements the challenge state machine: from any consistent
    state, after any sequence of service calls with any inputs, every earlier
    challenge has moved only along the transitions of the abstract machine
    (expire, count an attempt, fail when exhausted, start a ceremony, approve),
    the stored challenges are consistent, and the audit log is still a valid
    chain that extends the old one. *)
Theorem service_refines_machine {L : Lib} {E : Env} `{!LibOk L} `{!EnvOk E} svc os (w : World L) :
  in_int64 (Service.maxAttempts svc) -> ch_inv w -> audit_ok (store w) ->
  let w' := run_ops svc os w in
  evolves w w' /\ ch_inv w' /\ audit_ok (store w') /\
  exists new, MemoryStore.auditEvents (store w') = MemoryStore.auditEvents (store w) ++ new.
Proof.
  intros Hmax Hi Ha. destruct (run_ops_inv svc Hmax os w Hi) as (Hi' & He & Hf).
  split_and!; [done|done|by apply Hf|apply Hf].
Qed.

Lemma service_refines_machine_witness :
  let w' := run_ops demo_svc [OpVerifyTOTP "4" "000000"; OpVerifyTOTP "4" "424242"] demo_ch_world in
  evolves demo_ch_world w' /\ ch_inv w' /\ audit_ok (store w') /\
  exists new, MemoryStore.auditEvents (store w') = MemoryStore.auditEvents (store demo_ch_world) ++ new.
Proof.
  apply (service_refines_machine demo_svc [OpVerifyTOTP "4" "000000"; OpVerifyTOTP "4" "424242"] demo_ch_world).
  - exact demo_max.
  - exact demo_ch_inv.
  - exact demo_ch_audit.
Defined.

(** C11: a resolved challenge is final: once a challenge is approved, denied,
    expired or failed, no sequence of service calls changes any field of it. *)
Theorem resolved_is_final {L : Lib} {E : Env} `{!LibOk L} `{!EnvOk E} svc os (w : World L) id c :
  in_int64 (Service.maxAttempts svc) -> ch_inv w ->
  challenges w !! id = Some c -> Challenge.Status c <> ChallengeStatusPending ->
  challenges (run_ops svc os w) !! id = Some c.
Proof.
  intros Hmax Hi Hc Hs. destruct (run_ops_inv svc Hmax os w Hi) as (_ & He & _).
  destruct (He id c Hc) as (c' & Hc' & Hst). by rewrite (ch_steps_resolved c c' Hst Hs) in Hc'.
Qed.

Lemma resolved_is_final_witness : exists c,
  challenges (run_op demo_svc (OpVerifyTOTP "4" "424242") demo_ch_world) !! "4" = Some c /\
  challenges (run_ops demo_svc [OpVerifyTOTP "4" "000000"; OpBeginWebAuthn "4"]
    (run_op demo_svc (OpVerifyTOTP "4" "424242") demo_ch_world)) !! "4" = Some c.
Proof.
  eexists. split; [vm_compute; reflexivity|].
  apply (resolved_is_final demo_svc [OpVerifyTOTP "4" "000000"; OpBeginWebAuthn "4"]
    (run_op demo_svc (OpVerifyTOTP "4" "424242") demo_ch_world) "4").
  - exact demo_max.
  - exact (proj1 (run_op_inv demo_svc demo_max _ _ demo_ch_inv)).
  - vm_compute. reflexivity.
  - vm_compute. discriminate.
Defined.

(** C12: guesses are bounded: whatever is called, in whatever order and with
    whatever inputs, the calls that get a judgement on a code, a push approval or
    an assertion for a challenge (an answer that is not one of the refusals given
    before the evidence is looked at) are at most as many as the attempts it has
    left; so none is judged once they are used up. *)
Theorem guesses_bounded {L : Lib} {E : Env} `{!LibOk L} `{!EnvOk E} svc os (w : World L) id c :
  in_int64 (Service.maxAttempts svc) -> ch_inv w -> challenges w !! id = Some c ->
  Z.of_nat (guesses svc id os w) <= Z.max 0 (Challenge.MaxAttempts c) - Challenge.Attempts c.
Proof.
  intros Hmax. revert w c. induction os as [|o os IH]; intros w c Hi Hc; cbn [guesses].
  { destruct (inv_ok _ Hi id c Hc). lia. }
  destruct (run_op_inv svc Hmax o w Hi) as (Hi1 & _). destruct (guess_counts svc Hmax o w id c Hi Hc) as (c1 & Hc1 & Hm & Ha).
  specialize (IH _ c1 Hi1 Hc1). rewrite Hm in IH. destruct (guess svc id o w); lia.
Qed.

(** Five wrong codes for a challenge with three attempts: three are judged. *)
Lemma guesses_bounded_witness : exists c, challenges demo_ch_world !! "4" = Some c /\
  guesses demo_svc "4" (replicate 5 (OpVerifyTOTP "4" "000000")) demo_ch_world = 3%nat /\
  Z.max 0 (Challenge.MaxAttempts c) - Challenge.Attempts c = 3 /\
  Z.of_nat (guesses demo_svc "4" (replicate 5 (OpVerifyTOTP "4" "000000")) demo_ch_world)
  <= Z.max 0 (Challenge.MaxAttempts c) - Challenge.Attempts c.
Proof.
  eexists. split; [vm_compute; reflexivity|]. split; [vm_compute; reflexivity|]. split; [vm_compute; reflexivity|].
  apply (guesses_bounded demo_svc (replicate 5 (OpVerifyTOTP "4" "000000")) demo_ch_world "4").
  - exact demo_max.
  - exact demo_ch_inv.
  - vm_compute. reflexivity.
Defined.

(** C5: approval needs evidence: when a service call turns a pending challenge
    into an approved one, the challenge had attempts left and had not expired
    at a clock reading of that call, and the call carried what its method
    demands: a code the library accepts for an active TOTP factor of the
    challenge's identity, or the challenge's number with a signature under a
    registered device's key, or an assertion the WebAuthn library accepts for
    the ceremony begun on this challenge. *)
Theorem approval_needs_evidence {L : Lib} {E : Env} `{!LibOk L} `{!EnvOk E} svc o (w : World L) id c c' :
  in_int64 (Service.maxAttempts svc) -> ch_inv w ->
  challenges w !! id = Some c -> Challenge.Status c = ChallengeStatusPending ->
  challenges (run_op svc o w) !! id = Some c' -> Challenge.Status c' = ChallengeStatusApproved ->
  (exists n, (tick w <= n)%nat /\ After (clock n) (Challenge.ExpiresAt c) = false) /\
  Challenge.Attempts c < Challenge.MaxAttempts c /\ evidence svc o w c.
Proof.
  intros Hmax Hi Hc Hp Hc' Ha. pose proof (inv_keyed _ Hi) as Hk.
  assert (Hgen : forall j id0 w', outcome svc o j id0 w w' -> challenges w' !! id = Some c' ->
    (exists n, (tick w <= n)%nat /\ After (clock n) (Challenge.ExpiresAt c) = false) /\
    Challenge.Attempts c < Challenge.MaxAttempts c /\ evidence svc o w c).
  { intros j id0 w' [_ [c1 Ho]] Hl. destruct (challenges w !! id0) as [c0|] eqn:Hc0.
    - destruct Ho as (Hw & _ & _ & Hev). rewrite Hw in Hl. destruct (decide (id0 = id)) as [->|Hne].
      + rewrite lookup_insert_eq in Hl. simplify_eq. auto.
      + rewrite lookup_insert_ne in Hl by done. congruence.
    - rewrite Ho in Hl. congruence. }
  destruct o as [i r ms|i code|i dev n sig ts|i|i body]; cbn [run_op] in Hc'.
  - destruct (Create_inv svc Hmax i r ms w Hi) as (_ & He & _).
    destruct (Create_run svc i r ms w) as (res & w' & Hrun & _ & Hres). rewrite Hrun in Hc'. cbn [snd] in Hc'.
    destruct res as [c1|]; [|rewrite Hres in Hc'; congruence].
    destruct Hres as (Hw & (n & Hn & Hid) & _). rewrite Hw in Hc'.
    apply lookup_insert_Some in Hc' as [[He' _]|[_ Hc']]; [|congruence].
    rewrite Hid in He'. subst id. rewrite (inv_fresh _ Hi n) in Hc by lia. done.
  - exact (Hgen _ i _ (VerifyTOTP_outcome svc i code w Hk) Hc').
  - exact (Hgen _ i _ (VerifyPush_outcome svc i dev n sig ts w Hk) Hc').
  - exact (Hgen _ i _ (BeginWebAuthn_outcome svc i w Hk) Hc').
  - exact (Hgen _ i _ (FinishWebAuthn_outcome svc i body w Hk) Hc').
Qed.

Lemma approval_needs_evidence_witness : exists c,
  challenges demo_ch_world !! "4" = Some c /\
  (exists n, (tick demo_ch_world <= n)%nat /\ After (clock n) (Challenge.ExpiresAt c) = false) /\
  Challenge.Attempts c < Challenge.MaxAttempts c /\
  evidence demo_svc (OpVerifyTOTP "4" "424242") demo_ch_world c.
Proof.
  eexists. split; [vm_compute; reflexivity|].
  eapply (approval_needs_evidence demo_svc (OpVerifyTOTP "4" "424242") demo_ch_world "4").
  - exact demo_max.
  - exact demo_ch_inv.
  - vm_compute. reflexivity.
  - vm_compute. reflexivity.
  - vm_compute. reflexivity.
  - vm_compute. reflexivity.
Defined.

(** a correct code gets through: on a pending, unexpired challenge with
    attempts left, a code the library accepts for an active TOTP factor of its
    identity makes [VerifyTOTP] return the challenge approved and resolved, and
    that is what the store holds; no other challenge changes. *)
Theorem VerifyTOTP_approves {L : Lib} {E : Env} `{!EnvOk E} id code c (w : World L) k f :
  keyed (A := Challenge.t) w -> challenges w !! id = Some c ->
  Challenge.Status c = ChallengeStatusPending ->
  After (clock (tick w)) (Challenge.ExpiresAt c) = false ->
  Challenge.Attempts c < Challenge.MaxAttempts c ->
  MemoryStore.factors (store w) !! k = Some f -> Factor.IdentityID f = Challenge.IdentityID c ->
  Factor.Method f = MFAMethodTOTP -> Factor.Status f = FactorStatusActive ->
  (forall n, (tick w <= n)%nat -> totp_Validate (clock n) code (Factor.Secret f) = true) ->
  exists c' now w', VerifyTOTP id code w = (Ok c', w') /\
    challenges w' = <[id := c']> (challenges w) /\
    Challenge.Status c' = ChallengeStatusApproved /\ Challenge.ResolvedAt c' = Some now.
Proof.
  intros. destruct (VerifyTOTP_valid id code c w k f) as (r & w' & Hrun & _ & now & -> & Hw); try done.
  by eexists _, now, w'.
Qed.

Lemma VerifyTOTP_approves_witness : exists c' now w',
  VerifyTOTP "4" "424242" demo_ch_world = (Ok c', w') /\
  challenges w' = <["4" := c']> (challenges demo_ch_world) /\
  Challenge.Status c' = ChallengeStatusApproved /\ Challenge.ResolvedAt c' = Some now.
Proof.
  eapply (VerifyTOTP_approves "4" "424242" _ demo_ch_world "1").
  - exact (inv_keyed _ demo_ch_inv).
  - vm_compute. reflexivity.
  - vm_compute. reflexivity.
  - vm_compute. reflexivity.
  - vm_compute. reflexivity.
  - vm_compute. reflexivity.
  - vm_compute. reflexivity.
  - vm_compute. reflexivity.
  - vm_compute. reflexivity.
  - intros n _. vm_compute. reflexivity.
Defined.

(** ** What modelling showed *)

(** A push approval is accepted from any registered device, whoever owns it,
    and on a challenge that does not offer push at all (its number is then 0):
    here the device of [id-2] approves the TOTP-only challenge of [id-1]. *)
Theorem push_accepts_foreign_device : exists (w : World demo_lib) dev c,
  MemoryStore.devices (store w) !! "11" = Some dev /\ Device.IdentityID dev = "id-2" /\
  challenges w !! "4" = Some c /\ Challenge.IdentityID c = "id-1" /\
  allowsMethod c MFAMethodPush = false /\
  exists c' w', VerifyPush demo_svc "4" "11" 0
      (Push.ComputePushSignature (EncodeToString (replicate 32 7)) "4" 0 demo_base) demo_base w = (Ok c', w') /\
    Challenge.Status c' = ChallengeStatusApproved.
Proof.
  exists (Push.RegisterDevice "id-2" "mallory" demo_ch_world).2. eexists _, _.
  split; [vm_compute; reflexivity|]. split; [reflexivity|]. split; [vm_compute; reflexivity|].
  split; [reflexivity|]. split; [reflexivity|]. eexists _, _. split; [vm_compute; reflexivity|reflexivity].
Qed.

(** A wrong push number is not audited and leaves an exhausted challenge
    pending: after the last attempt the status is still "pending", and only
    the next call marks it failed. *)
Theorem number_mismatch_stays_pending : exists c,
  challenges (run_ops demo_svc (replicate 3 (OpVerifyPush "4" "11" 99 "" demo_base)) demo_ch_world) !! "4"
    = Some c /\ Challenge.Status c = ChallengeStatusPending /\
  Challenge.Attempts c = Challenge.MaxAttempts c.
Proof. eexists. split; [vm_compute; reflexivity|]. split; reflexivity. Qed.
