(* ===== verification/Discovery.v ===== *)
(** * core/internal/discovery: behavioural profiles of accounts

    Every authentication event updates the profile of its account; once an
    account has been watched for a week and its behaviour is regular enough it
    is classified as a service account and its baseline is fixed, and events
    outside the baseline are answered with a deny decision. Scores are float64
    computed in the order the code computes them (without fused
    multiply-add); counters wrap at 64 bits. A profile is updated through the
    pointer the store handed out and stored again at the end of the event; no
    other code runs in between, so one event is one write. *)

From S2P Require Import Prelude GoStrings GoTime GoFloat GoCrypto GoJson Types World Instances Storage Mfa.
From Stdlib Require Import SpecFloat.

Definition minObservationDays : Z := 7.
Definition classifyThreshold : spec_float := of_dec false 75 (-2).
Definition baselineMinFrequency : spec_float := of_dec false 5 (-2).

Module Weights.
Record t := mk {
  Temporal : spec_float;
  Source : spec_float;
  Target : spec_float;
  LogonType : spec_float;
  Protocol : spec_float;
  ADAttrs : spec_float
}.
End Weights.

Definition DefaultWeights : Weights.t :=
  Weights.mk (of_dec false 25 (-2)) (of_dec false 20 (-2)) (of_dec false 20 (-2))
    (of_dec false 15 (-2)) (of_dec false 10 (-2)) (of_dec false 10 (-2)).

Definition fzero : spec_float := of_int 0.
Definition fone : spec_float := of_int 1.

(** ** Profiles *)

Definition observationWindowMet (p : BehaviouralProfile.t) : bool :=
  (minObservationDays * 24 * Hour <=? Sub (BehaviouralProfile.ObservationEnd p)
                                          (BehaviouralProfile.ObservationStart p))
  && (10 <=? BehaviouralProfile.TotalAuthCount p).

(** [total += v] over a slice, in 64-bit arithmetic. *)
Definition sum64 (l : list Z) : Z := foldl (fun acc v => int64 (acc + v)) 0 l.

Definition max_count (l : list Z) : Z := foldl (fun m v => if m <? v then v else m) 0 l.

Section Scores.
Context {L : Lib} {E : Env}.

Definition entropy (total : Z) (hist : list Z) : spec_float :=
  foldl (fun acc v =>
    if 0 <? v then
      let prob := fdiv (of_int v) (of_int total) in
      fsub acc (fmul prob (math_Log2 prob))
    else acc) fzero hist.

Definition temporalRegularity (p : BehaviouralProfile.t) : spec_float :=
  let total := sum64 (BehaviouralProfile.TimeOfDayHistogram p) in
  if total =? 0 then fzero
  else
    let entropy := entropy total (BehaviouralProfile.TimeOfDayHistogram p) in
    let maxEntropy := math_Log2 (of_int 24) in
    if feq maxEntropy fzero then fzero
    else fsub fone (fdiv entropy maxEntropy).

Definition sourceConsistency (p : BehaviouralProfile.t) : spec_float :=
  let n := Z.of_nat (size (BehaviouralProfile.SourceIPs p)) in
  if n =? 0 then fzero else fdiv fone (of_int n).

Definition targetConsistency (p : BehaviouralProfile.t) : spec_float :=
  let n := Z.of_nat (size (BehaviouralProfile.TargetSPNs p)) in
  if n =? 0 then fone else fdiv fone (of_int n).

(** The share of the most frequent value, from the counts in walking order. *)
Definition purity (counts : list Z) : spec_float :=
  let total := sum64 counts in
  if total =? 0 then fzero else fdiv (of_int (max_count counts)) (of_int total).

Definition logonTypePurity (p : BehaviouralProfile.t) : M spec_float :=
  kvs ← ask (fun n => range_mapZ n (BehaviouralProfile.LogonTypes p)); mret (purity (kvs.*2)).

Definition protocolPurity (p : BehaviouralProfile.t) : M spec_float :=
  kvs ← ask (fun n => range_map n (BehaviouralProfile.AuthPackages p)); mret (purity (kvs.*2)).

Definition classify (w : Weights.t) (p : BehaviouralProfile.t) : M spec_float :=
  lt ← logonTypePurity p;
  proto ← protocolPurity p;
  mret (fadd (fadd (fadd (fadd
          (fmul (Weights.Temporal w) (temporalRegularity p))
          (fmul (Weights.Source w) (sourceConsistency p)))
          (fmul (Weights.Target w) (targetConsistency p)))
          (fmul (Weights.LogonType w) lt))
          (fmul (Weights.Protocol w) proto)).

(** ** Baselines *)

(** The keys whose count reaches the threshold, in walking order. *)
Definition frequent {K} (threshold : Z) (kvs : list (K * Z)) : list K :=
  (base.filter (fun kv => (threshold <=? kv.2) = true) kvs).*1.

Definition windows (threshold : Z) (hist : list Z) : list TimeWindow.t :=
  (fun hc => TimeWindow.mk (Z.of_nat hc.1 * 60) ((Z.of_nat hc.1 + 1) * 60) []) <$>
  base.filter (fun hc => (threshold <=? hc.2) = true) (zip (seq 0 (length hist)) hist).

Definition threshold_of (p : BehaviouralProfile.t) : Z :=
  ceil_to_int (fmul (of_int (BehaviouralProfile.TotalAuthCount p)) baselineMinFrequency).

Definition buildBaseline (p : BehaviouralProfile.t) : M ServiceAccountBaseline.t :=
  if feq (of_int (BehaviouralProfile.TotalAuthCount p)) fzero then mret ServiceAccountBaseline.empty
  else
    let threshold := threshold_of p in
    ips ← ask (fun n => range_map n (BehaviouralProfile.SourceIPs p));
    spns ← ask (fun n => range_map n (BehaviouralProfile.TargetSPNs p));
    lts ← ask (fun n => range_mapZ n (BehaviouralProfile.LogonTypes p));
    protos ← ask (fun n => range_map n (BehaviouralProfile.AuthPackages p));
    mret (ServiceAccountBaseline.mk (frequent threshold ips) (frequent threshold spns)
            (frequent threshold lts) (windows threshold (BehaviouralProfile.TimeOfDayHistogram p))
            (frequent threshold protos)).

Definition containsStr (l : list string) (s : string) : bool := existsb (fun v => String.eqb v s) l.
Definition containsInt (l : list Z) (n : Z) : bool := existsb (fun v => v =? n) l.

Definition inWindow (minuteOfDay : Z) (tws : list TimeWindow.t) : bool :=
  existsb (fun tw => (TimeWindow.StartMinuteOfDay tw <=? minuteOfDay)
                     && (minuteOfDay <? TimeWindow.EndMinuteOfDay tw)) tws.

Definition nonnil {A} (l : list A) : bool := (0 <? length l)%nat.

Definition deviates (b : ServiceAccountBaseline.t) (ev : ADAuthEvent.t) : bool :=
  if negb (String.eqb (ADAuthEvent.SourceIP ev) "")
     && nonnil (ServiceAccountBaseline.AllowedSourceIPs b)
     && negb (containsStr (ServiceAccountBaseline.AllowedSourceIPs b) (ADAuthEvent.SourceIP ev)) then true
  else if negb (String.eqb (ADAuthEvent.TargetSPN ev) "")
     && nonnil (ServiceAccountBaseline.AllowedTargetSPNs b)
     && negb (containsStr (ServiceAccountBaseline.AllowedTargetSPNs b) (ADAuthEvent.TargetSPN ev)) then true
  else if negb (ADAuthEvent.LogonType ev =? 0)
     && nonnil (ServiceAccountBaseline.AllowedLogonTypes b)
     && negb (containsInt (ServiceAccountBaseline.AllowedLogonTypes b) (ADAuthEvent.LogonType ev)) then true
  else if negb (String.eqb (ADAuthEvent.AuthPackage ev) "")
     && nonnil (ServiceAccountBaseline.AllowedProtocols b)
     && negb (containsStr (ServiceAccountBaseline.AllowedProtocols b) (ADAuthEvent.AuthPackage ev)) then true
  else if nonnil (ServiceAccountBaseline.AllowedTimeWindows b) then
    let minuteOfDay := HourOf (ADAuthEvent.Timestamp ev) * 60 + MinuteOf (ADAuthEvent.Timestamp ev) in
    negb (inWindow minuteOfDay (ServiceAccountBaseline.AllowedTimeWindows b))
  else false.

(** ** Ingestion *)

Definition newProfile (ev : ADAuthEvent.t) : M BehaviouralProfile.t :=
  now ← Now;
  let now := UTC now in
  mret (BehaviouralProfile.mk (ADAuthEvent.AccountSID ev) (ADAuthEvent.AccountName ev) now now 0
          (replicate 24 0) (replicate 7 0) ∅ ∅ ∅ ∅ zeroTime fzero fzero 0 fzero false zeroTime None).

(** [m[k]++] on a counter map, and [a[i]++] on an array. *)
Definition incr (c : option Z) : option Z := Some (int64 (default 0 c + 1)).
Definition bump_at (i : nat) (l : list Z) : list Z := alter (fun c => int64 (c + 1)) i l.

#[global] Arguments bump_at : simpl never.

(** [d.Seconds()]. *)
Definition Seconds (d : Z) : spec_float :=
  fadd (of_int (Z.quot d Second)) (fdiv (of_int (Z.rem d Second)) (of_int Second)).

(** The update, at the time [now] the event is counted at. *)
Definition apply_event (now : Time) (p : BehaviouralProfile.t) (ev : ADAuthEvent.t) : BehaviouralProfile.t :=
  let delta := Seconds (Sub now (BehaviouralProfile.LastEventTime p)) in
  let counted := negb (IsZero (BehaviouralProfile.LastEventTime p)) && flt fzero delta in
  BehaviouralProfile.mk
    (BehaviouralProfile.AccountSID p) (BehaviouralProfile.SamAccountName p)
    (if Before now (BehaviouralProfile.ObservationStart p) then now else BehaviouralProfile.ObservationStart p)
    (if After now (BehaviouralProfile.ObservationEnd p) then now else BehaviouralProfile.ObservationEnd p)
    (int64 (BehaviouralProfile.TotalAuthCount p + 1))
    (bump_at (Z.to_nat (HourOf now)) (BehaviouralProfile.TimeOfDayHistogram p))
    (bump_at (Z.to_nat (WeekdayOf now)) (BehaviouralProfile.DayOfWeekHistogram p))
    (if negb (String.eqb (ADAuthEvent.SourceIP ev) "")
     then partial_alter incr (ADAuthEvent.SourceIP ev) (BehaviouralProfile.SourceIPs p)
     else BehaviouralProfile.SourceIPs p)
    (if negb (String.eqb (ADAuthEvent.TargetSPN ev) "")
     then partial_alter incr (ADAuthEvent.TargetSPN ev) (BehaviouralProfile.TargetSPNs p)
     else BehaviouralProfile.TargetSPNs p)
    (if negb (ADAuthEvent.LogonType ev =? 0)
     then partial_alter incr (ADAuthEvent.LogonType ev) (BehaviouralProfile.LogonTypes p)
     else BehaviouralProfile.LogonTypes p)
    (if negb (String.eqb (ADAuthEvent.AuthPackage ev) "")
     then partial_alter incr (ADAuthEvent.AuthPackage ev) (BehaviouralProfile.AuthPackages p)
     else BehaviouralProfile.AuthPackages p)
    now
    (if counted then fadd (BehaviouralProfile.InterArrivalSum p) delta else BehaviouralProfile.InterArrivalSum p)
    (if counted then fadd (BehaviouralProfile.InterArrivalSumSq p) (fmul delta delta)
     else BehaviouralProfile.InterArrivalSumSq p)
    (if counted then int64 (BehaviouralProfile.InterArrivalCount p + 1) else BehaviouralProfile.InterArrivalCount p)
    (BehaviouralProfile.ClassificationScore p) (BehaviouralProfile.Classified p)
    (BehaviouralProfile.ClassifiedAt p) (BehaviouralProfile.Baseline p).

(** [now := ev.Timestamp; if now.IsZero() { now = time.Now().UTC() }]. *)
Definition eventTime (ev : ADAuthEvent.t) : M Time :=
  if IsZero (ADAuthEvent.Timestamp ev) then t ← Now; mret (UTC t) else mret (ADAuthEvent.Timestamp ev).

Definition updateProfile (p : BehaviouralProfile.t) (ev : ADAuthEvent.t) : M BehaviouralProfile.t :=
  now ← eventTime ev;
  mret (apply_event now p ev).

(** The last four fields. *)
Definition set_class (score : spec_float) (c : bool) (at_ : Time) (b : option ServiceAccountBaseline.t)
    (p : BehaviouralProfile.t) : BehaviouralProfile.t :=
  BehaviouralProfile.mk
    (BehaviouralProfile.AccountSID p) (BehaviouralProfile.SamAccountName p)
    (BehaviouralProfile.ObservationStart p) (BehaviouralProfile.ObservationEnd p)
    (BehaviouralProfile.TotalAuthCount p) (BehaviouralProfile.TimeOfDayHistogram p)
    (BehaviouralProfile.DayOfWeekHistogram p) (BehaviouralProfile.SourceIPs p)
    (BehaviouralProfile.TargetSPNs p) (BehaviouralProfile.LogonTypes p)
    (BehaviouralProfile.AuthPackages p) (BehaviouralProfile.LastEventTime p)
    (BehaviouralProfile.InterArrivalSum p) (BehaviouralProfile.InterArrivalSumSq p)
    (BehaviouralProfile.InterArrivalCount p) score c at_ b.

(** Classification of a profile that is not yet classified. *)
Definition reclassify (w : Weights.t) (p : BehaviouralProfile.t) : M BehaviouralProfile.t :=
  if negb (BehaviouralProfile.Classified p) && observationWindowMet p then
    score ← classify w p;
    if fle classifyThreshold score then
      now ← Now;
      b ← buildBaseline p;
      mret (set_class score true (UTC now) (Some b) p)
    else mret (set_class score (BehaviouralProfile.Classified p) (BehaviouralProfile.ClassifiedAt p)
                 (BehaviouralProfile.Baseline p) p)
  else mret p.

Definition deny_decision (ev : ADAuthEvent.t) : ADEventDecision.t :=
  ADEventDecision.mk (ADAuthEvent.AccountSID ev) (ADAuthEvent.AccountName ev) DecisionDeny 100
    ["service_account_baseline_deviation"].

(** The decision on an event, from its account's profile after the update. *)
Definition decide_event (p : BehaviouralProfile.t) (ev : ADAuthEvent.t) : list ADEventDecision.t :=
  if BehaviouralProfile.Classified p then
    match BehaviouralProfile.Baseline p with
    | Some b => if deviates b ev then [deny_decision ev] else []
    | None => []
    end
  else [].

(** The stored profile of the event's account, or a new one. *)
Definition loadProfile (ev : ADAuthEvent.t) : M BehaviouralProfile.t :=
  r ← BehaviouralProfiles.Get (ADAuthEvent.AccountSID ev);
  match r with Ok p => mret p | Err _ => newProfile ev end.

(** The body of the loop of [Ingest] for an event with an account. *)
Definition ingest_one (w : Weights.t) (ev : ADAuthEvent.t) : M (result (list ADEventDecision.t)) :=
  profile ← loadProfile ev;
  profile ← updateProfile profile ev;
  profile ← reclassify w profile;
  _ ←? BehaviouralProfiles.Upsert profile;
  mret (Ok (decide_event profile ev)).

Fixpoint ingest_loop (w : Weights.t) (decisions : list ADEventDecision.t) (events : list ADAuthEvent.t)
    : M (list ADEventDecision.t * option string) :=
  match events with
  | [] => mret (decisions, None)
  | ev :: events' =>
      if String.eqb (ADAuthEvent.AccountSID ev) "" then ingest_loop w decisions events'
      else
        r ← ingest_one w ev;
        match r with
        | Err e => mret (decisions, Some e)
        | Ok ds => ingest_loop w (decisions ++ ds) events'
        end
  end.

Definition Ingest (w : Weights.t) (events : list ADAuthEvent.t) : M (list ADEventDecision.t * option string) :=
  ingest_loop w [] events.

Definition Profiles : M (result (list BehaviouralProfile.t)) := BehaviouralProfiles.List_.
End Scores.

(** ** What the engine keeps true *)

Definition profiles {L : Lib} (w : World L) : gmap string BehaviouralProfile.t :=
  MemoryStore.behaviouralProfiles (store w).

Definition sum (l : list Z) : Z := foldr Z.add 0 l.

(** A consistent profile that has counted at most [n] events: the histograms
    are complete and add up to the count, and a profile is classified exactly
    when it has a baseline. *)
Record prof_ok (n : Z) (p : BehaviouralProfile.t) : Prop := {
  ok_hours : length (BehaviouralProfile.TimeOfDayHistogram p) = 24%nat;
  ok_days : length (BehaviouralProfile.DayOfWeekHistogram p) = 7%nat;
  ok_hours_pos : Forall (fun c => 0 <= c) (BehaviouralProfile.TimeOfDayHistogram p);
  ok_days_pos : Forall (fun c => 0 <= c) (BehaviouralProfile.DayOfWeekHistogram p);
  ok_hours_sum : sum (BehaviouralProfile.TimeOfDayHistogram p) = BehaviouralProfile.TotalAuthCount p;
  ok_days_sum : sum (BehaviouralProfile.DayOfWeekHistogram p) = BehaviouralProfile.TotalAuthCount p;
  ok_total : 0 <= BehaviouralProfile.TotalAuthCount p <= n;
  ok_class : BehaviouralProfile.Classified p = true <-> BehaviouralProfile.Baseline p <> None
}.

Record profs_ok {L : Lib} (n : Z) (w : World L) : Prop := {
  profs_keyed : keyed (A := BehaviouralProfile.t) w;
  profs_each : forall sid p, profiles w !! sid = Some p -> prof_ok n p
}.

(** Same classification: score, flag, time and baseline. *)
Definition same_class (p p' : BehaviouralProfile.t) : Prop :=
  BehaviouralProfile.ClassificationScore p' = BehaviouralProfile.ClassificationScore p /\
  BehaviouralProfile.Classified p' = BehaviouralProfile.Classified p /\
  BehaviouralProfile.ClassifiedAt p' = BehaviouralProfile.ClassifiedAt p /\
  BehaviouralProfile.Baseline p' = BehaviouralProfile.Baseline p.

(** The event is outside the fixed baseline of a classified profile. *)
Definition flagged (p : BehaviouralProfile.t) (ev : ADAuthEvent.t) : Prop :=
  BehaviouralProfile.Classified p = true /\
  exists b, BehaviouralProfile.Baseline p = Some b /\ deviates b ev = true.

(** How many of the events belong to an account. *)
Definition events_of (sid : string) (events : list ADAuthEvent.t) : nat :=
  length (base.filter (fun ev => ADAuthEvent.AccountSID ev = sid) events).

(** The specification of [deviates] against a built baseline: a value is
    frequent when its count reaches the threshold, and an event is odd in a
    dimension that has frequent values when its own value is not one. *)
Definition odd_in {K} `{Countable K} (thr : Z) (m : gmap K Z) (k : K) : Prop :=
  (exists k' c, m !! k' = Some c /\ thr <= c) /\ ~ (exists c, m !! k = Some c /\ thr <= c).

Definition odd_hour (thr : Z) (hist : list Z) (h : Z) : Prop :=
  (exists i c, hist !! i = Some c /\ thr <= c) /\ ~ (exists c, hist !! Z.to_nat h = Some c /\ thr <= c).

Definition odd_event (p : BehaviouralProfile.t) (ev : ADAuthEvent.t) : Prop :=
  let thr := threshold_of p in
  ADAuthEvent.SourceIP ev <> "" /\ odd_in thr (BehaviouralProfile.SourceIPs p) (ADAuthEvent.SourceIP ev) \/
  ADAuthEvent.TargetSPN ev <> "" /\ odd_in thr (BehaviouralProfile.TargetSPNs p) (ADAuthEvent.TargetSPN ev) \/
  ADAuthEvent.LogonType ev <> 0 /\ odd_in thr (BehaviouralProfile.LogonTypes p) (ADAuthEvent.LogonType ev) \/
  ADAuthEvent.AuthPackage ev <> "" /\ odd_in thr (BehaviouralProfile.AuthPackages p) (ADAuthEvent.AuthPackage ev) \/
  odd_hour thr (BehaviouralProfile.TimeOfDayHistogram p) (HourOf (ADAuthEvent.Timestamp ev)).

(** ** Concrete data *)

Definition demo_ad_event (sid ip : string) (t : Time) : ADAuthEvent.t :=
  ADAuthEvent.mk 4624 t "svc-backup" "CORP" sid 3 "Kerberos" "Kerberos" ip 0 "dc01" "cifs/fs01" "0x0" "" "DC01" "logon".

Definition demo_profile : BehaviouralProfile.t :=
  BehaviouralProfile.mk "S-1" "svc-backup" demo_base demo_base 20
    (<[10%nat := 20]> (replicate 24 0)) (<[1%nat := 20]> (replicate 7 0))
    {["10.0.0.5" := 20]} {["cifs/fs01" := 20]} {[3 := 20]} {["Kerberos" := 20]} demo_base fzero fzero 0
    fone true demo_base
    (Some (ServiceAccountBaseline.mk ["10.0.0.5"] ["cifs/fs01"] [3] [TimeWindow.mk 600 660 []] ["Kerberos"])).

Definition demo_disc_world : World demo_lib :=
  set_store (MemoryStore.set_behaviouralProfiles {["S-1" := demo_profile]} NewMemoryStore) demo_world.

(** ** Facts about baselines *)

Lemma frequent_elem {K} thr (kvs : list (K * Z)) k :
  k ∈ frequent thr kvs <-> exists c, (k, c) ∈ kvs /\ thr <= c.
Proof.
  unfold frequent. rewrite list_elem_of_fmap. split.
  - intros ([k' c] & -> & [Hc Hin]%list_elem_of_filter). exists c. split; [done|]. by apply Z.leb_le.
  - intros (c & Hin & Hc). exists (k, c). split; [done|]. apply list_elem_of_filter. split; [by apply Z.leb_le|done].
Qed.

Lemma nonnil_elem {A} (l : list A) : nonnil l = true <-> exists x, x ∈ l.
Proof.
  unfold nonnil. rewrite Nat.ltb_lt. destruct l as [|x l]; simpl; split.
  - lia.
  - intros [x Hx]. by apply not_elem_of_nil in Hx.
  - intros _. exists x. by left.
  - lia.
Qed.

Lemma zip_seq_elem k (l : list Z) i c :
  (i, c) ∈ zip (seq k (length l)) l <-> exists j, (i = k + j)%nat /\ l !! j = Some c.
Proof.
  revert k. induction l as [|x l IH]; intros k; simpl.
  - split; [by intros ?%not_elem_of_nil|]. by intros (j & _ & ?).
  - rewrite elem_of_cons, IH. split.
    + intros [[= -> ->]|(j & -> & Hj)]; [exists 0%nat; split; [lia|done]|]. exists (S j). split; [lia|done].
    + intros ([|j] & -> & Hj); simpl in Hj; [left; simplify_eq; f_equal; lia|right]. exists j. split; [lia|done].
Qed.

Lemma windows_elem thr hist tw :
  tw ∈ windows thr hist <-> exists h c, hist !! h = Some c /\ thr <= c /\
    tw = TimeWindow.mk (Z.of_nat h * 60) ((Z.of_nat h + 1) * 60) [].
Proof.
  unfold windows. rewrite list_elem_of_fmap. split.
  - intros ([h c] & -> & [Hc Hin]%list_elem_of_filter). apply zip_seq_elem in Hin as (j & -> & Hj).
    exists j, c. split; [done|]. split; [by apply Z.leb_le|done].
  - intros (h & c & Hh & Hc & ->). exists (h, c). split; [done|]. apply list_elem_of_filter.
    split; [by apply Z.leb_le|]. apply zip_seq_elem. by exists h.
Qed.

Lemma containsStr_elem l s : containsStr l s = true <-> s ∈ l.
Proof.
  unfold containsStr. rewrite existsb_exists, list_elem_of_In. split.
  - intros (v & Hin & ->%String.eqb_eq). done.
  - intros Hin. exists s. by rewrite String.eqb_refl.
Qed.

Lemma containsInt_elem l n : containsInt l n = true <-> n ∈ l.
Proof.
  unfold containsInt. rewrite existsb_exists, list_elem_of_In. split.
  - intros (v & Hin & ->%Z.eqb_eq). done.
  - intros Hin. exists n. by rewrite Z.eqb_refl.
Qed.

(** The window test finds the hour of the event. *)
Lemma inWindow_hour thr hist h m : 0 <= h -> 0 <= m < 60 ->
  inWindow (h * 60 + m) (windows thr hist) = true <-> exists c, hist !! Z.to_nat h = Some c /\ thr <= c.
Proof.
  intros Hh Hm. unfold inWindow. rewrite existsb_exists. split.
  - intros (tw & Hin & [H1 H2]%andb_prop). apply list_elem_of_In, windows_elem in Hin as (i & c & Hi & Hc & ->).
    apply Z.leb_le in H1. apply Z.ltb_lt in H2. cbn in H1, H2.
    assert (Z.to_nat h = i) as -> by lia. by exists c.
  - intros (c & Hl & Hc). exists (TimeWindow.mk (h * 60) ((h + 1) * 60) []). split.
    + apply list_elem_of_In, windows_elem. exists (Z.to_nat h), c. rewrite Z2Nat.id by lia. done.
    + cbn. apply andb_true_intro. split; [apply Z.leb_le|apply Z.ltb_lt]; lia.
Qed.

(** One [if ... { return true }] of [deviates]. *)
Lemma odd_dimension {K} (kvs : list (K * Z)) thr (found : bool) (set : bool) (k : K) (P : Prop) :
  (set = true <-> P) -> (found = true <-> k ∈ frequent thr kvs) ->
  set && nonnil (frequent thr kvs) && negb found = true <->
  P /\ (exists k' c, (k', c) ∈ kvs /\ thr <= c) /\ ~ (exists c, (k, c) ∈ kvs /\ thr <= c).
Proof.
  intros Hset Hfound. rewrite !andb_true_iff, Hset, nonnil_elem, negb_true_iff, <- not_true_iff_false, Hfound.
  setoid_rewrite frequent_elem. tauto.
Qed.

Section BaselineFacts.
Context {L : Lib} {E : Env} `{!EnvOk E}.

Lemma range_odd n (m : gmap string Z) thr (k : string) :
  (exists k' c, (k', c) ∈ range_map n m /\ thr <= c) /\ ~ (exists c, (k, c) ∈ range_map n m /\ thr <= c)
  <-> odd_in thr m k.
Proof. unfold odd_in. by setoid_rewrite range_map_perm; setoid_rewrite elem_of_map_to_list. Qed.

Lemma range_oddZ n (m : gmap Z Z) thr (k : Z) :
  (exists k' c, (k', c) ∈ range_mapZ n m /\ thr <= c) /\ ~ (exists c, (k, c) ∈ range_mapZ n m /\ thr <= c)
  <-> odd_in thr m k.
Proof. unfold odd_in. by setoid_rewrite range_mapZ_perm; setoid_rewrite elem_of_map_to_list. Qed.

Lemma neq_str s : negb (String.eqb s "") = true <-> s <> "".
Proof. by rewrite negb_true_iff, String.eqb_neq. Qed.

Lemma neq_int n : negb (n =? 0) = true <-> n <> 0.
Proof. by rewrite negb_true_iff, Z.eqb_neq. Qed.

Lemma odd_str n (m : gmap string Z) thr s :
  negb (String.eqb s "") && nonnil (frequent thr (range_map n m))
    && negb (containsStr (frequent thr (range_map n m)) s) = true
  <-> s <> "" /\ odd_in thr m s.
Proof. rewrite (odd_dimension _ _ _ _ s _ (neq_str s)) by apply containsStr_elem. by rewrite range_odd. Qed.

Lemma odd_int n (m : gmap Z Z) thr k :
  negb (k =? 0) && nonnil (frequent thr (range_mapZ n m))
    && negb (containsInt (frequent thr (range_mapZ n m)) k) = true
  <-> k <> 0 /\ odd_in thr m k.
Proof. rewrite (odd_dimension _ _ _ _ k _ (neq_int k)) by apply containsInt_elem. by rewrite range_oddZ. Qed.

Lemma odd_time thr hist t :
  (if nonnil (windows thr hist) then negb (inWindow (HourOf t * 60 + MinuteOf t) (windows thr hist)) else false) = true
  <-> odd_hour thr hist (HourOf t).
Proof.
  pose proof (HourOf_range t). pose proof (MinuteOf_range t). unfold odd_hour.
  rewrite <- (inWindow_hour thr hist (HourOf t) (MinuteOf t)), not_true_iff_false by lia.
  assert (Hnn : nonnil (windows thr hist) = true <-> exists i c, hist !! i = Some c /\ thr <= c).
  { rewrite nonnil_elem. setoid_rewrite windows_elem. naive_solver. }
  rewrite <- Hnn. destruct (nonnil (windows thr hist)); [|naive_solver].
  rewrite negb_true_iff. tauto.
Qed.

Lemma if_or (a b : bool) : (if a then true else b) = true <-> a = true \/ b = true.
Proof. destruct a; naive_solver. Qed.

(** The built baseline flags exactly the odd events. *)
Lemma buildBaseline_deviates p ev (w : World L) :
  feq (of_int (BehaviouralProfile.TotalAuthCount p)) fzero = false ->
  deviates (buildBaseline p w).1 ev = true <-> odd_event p ev.
Proof.
  intros Htot. unfold buildBaseline. rewrite Htot. m_run. unfold deviates. cbn [fst].
  cbn [ServiceAccountBaseline.AllowedSourceIPs ServiceAccountBaseline.AllowedTargetSPNs
       ServiceAccountBaseline.AllowedLogonTypes ServiceAccountBaseline.AllowedProtocols
       ServiceAccountBaseline.AllowedTimeWindows].
  rewrite !if_or, !odd_str, odd_int, odd_time. reflexivity.
Qed.
End BaselineFacts.

(** ** Facts about profiles *)

Lemma sum_nonneg l : Forall (fun c => 0 <= c) l -> 0 <= sum l.
Proof. induction 1; simpl; lia. Qed.

Lemma sum_elem l i c : Forall (fun c => 0 <= c) l -> l !! i = Some c -> 0 <= c <= sum l.
Proof.
  intros H. revert i. induction H as [|x l Hx Hl IH]; intros [|i]; simpl; try done.
  - intros [= ->]. pose proof (sum_nonneg l Hl). lia.
  - intros Hi. apply IH in Hi. lia.
Qed.

(** Counting one more in a bucket adds one to the total. *)
Lemma bump_at_ok i l : (i < length l)%nat -> Forall (fun c => 0 <= c) l -> sum l + 1 < two63 ->
  length (bump_at i l) = length l /\ Forall (fun c => 0 <= c) (bump_at i l) /\ sum (bump_at i l) = sum l + 1.
Proof.
  intros Hi Hpos Hsum. unfold bump_at. split; [apply length_alter|].
  revert i Hi Hsum. induction Hpos as [|x l Hx Hl IH]; intros [|i] Hi Hsum; simpl in *; try lia.
  - pose proof (sum_nonneg l Hl). rewrite int64_id by (unfold in_int64, two63 in *; lia).
    split; [constructor; [lia|done]|lia].
  - destruct (IH i) as [H1 H2]; [lia|lia|]. split; [by constructor|]. unfold alter in H2. rewrite H2. lia.
Qed.

Lemma apply_event_ok now p ev n : prof_ok n p -> n + 1 < two63 -> prof_ok (n + 1) (apply_event now p ev).
Proof.
  intros [H1 H2 H3 H4 H5 H6 H7 H8] Hn.
  pose proof (HourOf_range now). pose proof (WeekdayOf_range now).
  destruct (bump_at_ok (Z.to_nat (HourOf now)) (BehaviouralProfile.TimeOfDayHistogram p)) as (Ha & Hb & Hc);
    [lia|done|lia|].
  destruct (bump_at_ok (Z.to_nat (WeekdayOf now)) (BehaviouralProfile.DayOfWeekHistogram p)) as (Hd & He & Hf);
    [lia|done|lia|].
  assert (Ht : int64 (BehaviouralProfile.TotalAuthCount p + 1) = BehaviouralProfile.TotalAuthCount p + 1)
    by (apply int64_id; unfold in_int64, two63 in *; lia).
  split; cbn -[bump_at int64 sum]; rewrite ?Ht; try done; try lia; congruence.
Qed.

(** ** Facts about ingestion *)

Lemma prof_ok_mono n m p : prof_ok n p -> n <= m -> prof_ok m p.
Proof. intros [] Hle. split; try done. lia. Qed.

Section IngestFacts.
Context {L : Lib} {E : Env} (wt : Weights.t).

Lemma classify_reads p : reads_only (classify wt p).
Proof. unfold classify, logonTypePurity, protocolPurity. frame. Qed.

Lemma buildBaseline_reads p : reads_only (buildBaseline p).
Proof. unfold buildBaseline. destruct (feq _ _); frame. Qed.

(** Classification touches only the last four fields, and never those of a
    profile that is already classified. *)
Lemma reclassify_run p (w : World L) : exists p' k, reclassify wt p w = (p', set_tick k w) /\
  (exists s c t b, p' = set_class s c t b p /\
     (BehaviouralProfile.Classified p = true <-> BehaviouralProfile.Baseline p <> None ->
      (c = true <-> b <> None))) /\
  (BehaviouralProfile.Classified p = true -> p' = p).
Proof.
  unfold reclassify. destruct (negb (BehaviouralProfile.Classified p) && observationWindowMet p) eqn:Hg.
  - apply andb_prop in Hg as [Hn%negb_true_iff _]. st_unfold.
    destruct (classify_reads p w) as (score & k & -> & _).
    destruct (fle classifyThreshold score).
    + unfold Now, ask. destruct (buildBaseline_reads p (set_tick (S k) w)) as (b & k' & Hb & _).
      cbn [tick set_tick] in *. unfold set_tick in Hb |- *. cbn [tick store bus sessions] in *. rewrite Hb.
      eexists _, k'. split; [reflexivity|]. split; [|congruence].
      eexists _, _, _, _. split; [reflexivity|]. intros _. by split.
    + eexists _, k. split; [reflexivity|]. split; [|congruence].
      eexists _, _, _, _. split; [reflexivity|exact id].
  - exists p, (tick w). rewrite set_tick_id. split; [done|]. split; [|done].
    exists (BehaviouralProfile.ClassificationScore p), (BehaviouralProfile.Classified p),
      (BehaviouralProfile.ClassifiedAt p), (BehaviouralProfile.Baseline p).
    split; [by destruct p|exact id].
Qed.

(** The profile an event finds: the stored one, or a new one. *)
Definition base_profile (ev : ADAuthEvent.t) (old : option BehaviouralProfile.t) (p : BehaviouralProfile.t) : Prop :=
  match old with
  | Some q => p = q
  | None => BehaviouralProfile.AccountSID p = ADAuthEvent.AccountSID ev /\ prof_ok 0 p /\
            BehaviouralProfile.Classified p = false /\ BehaviouralProfile.TotalAuthCount p = 0
  end.

Lemma loadProfile_run ev (w : World L) : exists p0 k0,
  base_profile ev (profiles w !! ADAuthEvent.AccountSID ev) p0 /\ loadProfile ev w = (p0, set_tick k0 w).
Proof.
  unfold loadProfile, BehaviouralProfiles.Get. st_unfold. rewrite tbl_Get_run. unfold rows. cbn [tbl profile_table].
  fold (profiles w). destruct (profiles w !! ADAuthEvent.AccountSID ev) as [q|].
  - exists q, (tick w). by rewrite set_tick_id.
  - eexists _, _. split; [|reflexivity]. split; [done|]. split; [|done].
    by split; cbn; repeat constructor.
Qed.

Lemma eventTime_run ev (w : World L) : exists now k, eventTime ev w = (now, set_tick k w).
Proof.
  unfold eventTime. destruct (IsZero _); [eexists _, _; reflexivity|].
  exists (ADAuthEvent.Timestamp ev), (tick w). by rewrite set_tick_id.
Qed.

Lemma ingest_one_run ev (w : World L) : exists p0 p k,
  base_profile ev (profiles w !! ADAuthEvent.AccountSID ev) p0 /\
  ingest_one wt ev w = (Ok (decide_event p ev),
    set_store (MemoryStore.set_behaviouralProfiles (<[BehaviouralProfile.AccountSID p := p]> (profiles w)) (store w))
      (set_tick k w)) /\
  (exists now s c t b, p = set_class s c t b (apply_event now p0 ev) /\
     (BehaviouralProfile.Classified p0 = true <-> BehaviouralProfile.Baseline p0 <> None -> (c = true <-> b <> None))) /\
  (BehaviouralProfile.Classified p0 = true -> same_class p0 p).
Proof.
  unfold ingest_one, updateProfile. st_unfold.
  destruct (loadProfile_run ev w) as (p0 & k0 & Hb & ->).
  destruct (eventTime_run ev (set_tick k0 w)) as (now & k1 & ->).
  change (set_tick k1 (set_tick k0 w)) with (set_tick k1 w).
  destruct (reclassify_run (apply_event now p0 ev) (set_tick k1 w)) as (p & k2 & -> & Hsc & Hsame).
  exists p0, p, k2. split; [done|]. split; [reflexivity|]. split.
  - destruct Hsc as (s & c & t & b & -> & Hc). by exists now, s, c, t, b.
  - intros Hcl. rewrite (Hsame Hcl). done.
Qed.

(** One event, on consistent profiles. *)
Lemma ingest_one_ok ev n (w : World L) :
  ADAuthEvent.AccountSID ev <> "" -> profs_ok n w -> 0 <= n -> n + 1 < two63 ->
  exists p k, let sid := ADAuthEvent.AccountSID ev in
  let w' := set_store (MemoryStore.set_behaviouralProfiles (<[sid := p]> (profiles w)) (store w)) (set_tick k w) in
  ingest_one wt ev w = (Ok (decide_event p ev), w') /\ profs_ok (n + 1) w' /\
  BehaviouralProfile.TotalAuthCount p
    = default 0 (BehaviouralProfile.TotalAuthCount <$> profiles w !! sid) + 1 /\
  (forall p0, profiles w !! sid = Some p0 -> BehaviouralProfile.Classified p0 = true -> same_class p0 p).
Proof.
  intros Hsid [Hkey Hok] Hn0 Hn. destruct (ingest_one_run ev w) as (p0 & p & k & Hb & Hrun & Hp & Hs).
  assert (H0 : BehaviouralProfile.AccountSID p0 = ADAuthEvent.AccountSID ev /\ prof_ok n p0 /\
    BehaviouralProfile.TotalAuthCount p0
    = default 0 (BehaviouralProfile.TotalAuthCount <$> profiles w !! ADAuthEvent.AccountSID ev)).
  { unfold base_profile in Hb. destruct (profiles w !! ADAuthEvent.AccountSID ev) as [q|] eqn:Hq.
    - subst q. split; [by apply (Hkey _ _ Hq)|]. split; [by eapply Hok|done].
    - destruct Hb as (H1 & H2 & _ & H4). split; [done|]. split; [by eapply prof_ok_mono|done]. }
  destruct H0 as (Hid0 & Hok0 & Ht0). destruct Hp as (now & s & c & t & b & Hp & Hc).
  assert (Hid : BehaviouralProfile.AccountSID p = ADAuthEvent.AccountSID ev) by (by rewrite Hp).
  pose proof (apply_event_ok now p0 ev n Hok0 Hn) as Hok1.
  assert (Hokp : prof_ok (n + 1) p).
  { rewrite Hp. destruct Hok1. split; try done. apply Hc, Hok0. }
  exists p, k. cbv zeta. rewrite <- Hid. split; [exact Hrun|]. split; [split|split].
  - intros sid v Hv. change (rows _ !! sid) with (<[BehaviouralProfile.AccountSID p := p]> (profiles w) !! sid) in Hv.
    apply lookup_insert_Some in Hv as [[<- <-]|[_ Hv]]; [done|by apply Hkey].
  - intros sid v Hv. change (profiles _ !! sid) with (<[BehaviouralProfile.AccountSID p := p]> (profiles w) !! sid) in Hv.
    apply lookup_insert_Some in Hv as [[<- <-]|[_ Hv]]; [done|].
    eapply prof_ok_mono; [by eapply Hok|lia].
  - rewrite Hid, <- Ht0, Hp. cbn -[int64]. apply int64_id. destruct Hok0. unfold in_int64, two63 in *. lia.
  - rewrite Hid. intros q Hq Hcl. unfold base_profile in Hb. rewrite Hq in Hb. subst q. by apply Hs.
Qed.

Lemma same_class_trans p q r : same_class p q -> same_class q r -> same_class p r.
Proof. unfold same_class. intuition congruence. Qed.

Lemma same_class_flagged p q ev : same_class p q -> flagged p ev <-> flagged q ev.
Proof. intros (_ & H1 & _ & H2). unfold flagged. by rewrite H1, H2. Qed.

Lemma decide_event_spec p ev : decide_event p ev = [deny_decision ev] /\ flagged p ev \/
  decide_event p ev = [] /\ ~ flagged p ev.
Proof.
  unfold decide_event, flagged. destruct (BehaviouralProfile.Classified p); [|right; naive_solver].
  destruct (BehaviouralProfile.Baseline p) as [b|]; [|right; naive_solver].
  destruct (deviates b ev) eqn:Hd; [left; eauto|right].
  split; [done|]. intros (_ & b' & [= <-] & Hd'). congruence.
Qed.

(** What a batch does, from [w] to [w'], with the decisions [ds]. *)
Definition batch (events : list ADAuthEvent.t) (n : Z) (w w' : World L) (ds : list ADEventDecision.t) : Prop :=
  profs_ok (n + Z.of_nat (length events)) w' /\
  (forall sid, sid <> "" ->
     default 0 (BehaviouralProfile.TotalAuthCount <$> profiles w' !! sid)
     = default 0 (BehaviouralProfile.TotalAuthCount <$> profiles w !! sid) + Z.of_nat (events_of sid events)) /\
  (forall sid p, profiles w !! sid = Some p ->
     exists p', profiles w' !! sid = Some p' /\ (BehaviouralProfile.Classified p = true -> same_class p p')) /\
  (forall d, d ∈ ds -> exists ev p, ev ∈ events /\ d = deny_decision ev /\
     profiles w' !! ADAuthEvent.AccountSID ev = Some p /\ flagged p ev) /\
  (forall ev p, ev ∈ events -> ADAuthEvent.AccountSID ev <> "" ->
     profiles w !! ADAuthEvent.AccountSID ev = Some p -> flagged p ev -> deny_decision ev ∈ ds).

Lemma batch_nil n (w : World L) : profs_ok n w -> batch [] n w w [].
Proof.
  intros Hok. split; [by rewrite Z.add_0_r|]. split; [intros; unfold events_of; simpl; lia|].
  split; [intros sid p Hp; exists p; done|].
  split; [by intros d Hd%not_elem_of_nil|by intros ? ? Hd%not_elem_of_nil].
Qed.

(** An event without an account is skipped. *)
Lemma batch_skip ev events n (w w' : World L) ds : ADAuthEvent.AccountSID ev = "" ->
  batch events n w w' ds -> batch (ev :: events) n w w' ds.
Proof.
  intros He (H1 & H2 & H3 & H4 & H5). unfold batch, events_of in *. setoid_rewrite filter_cons.
  cbn [length]. split_and!.
  - destruct H1 as [Hk Hp]. split; [done|]. intros sid p Hsp. eapply prof_ok_mono; [by eapply Hp|lia].
  - intros sid Hs. rewrite decide_False by congruence. by apply H2.
  - done.
  - intros d Hd. destruct (H4 d Hd) as (ev' & p & ? & ?). exists ev', p. split; [by right|done].
  - intros ev' p [->|Hin]%elem_of_cons Hne; [done|]. by apply H5.
Qed.

(** One event, then the rest: [p1] is the event's profile after it. *)
Lemma batch_cons ev events n (w w1 w' : World L) p1 ds : ADAuthEvent.AccountSID ev <> "" ->
  profiles w1 = <[ADAuthEvent.AccountSID ev := p1]> (profiles w) ->
  BehaviouralProfile.TotalAuthCount p1
    = default 0 (BehaviouralProfile.TotalAuthCount <$> profiles w !! ADAuthEvent.AccountSID ev) + 1 ->
  (forall p, profiles w !! ADAuthEvent.AccountSID ev = Some p ->
     BehaviouralProfile.Classified p = true -> same_class p p1) ->
  batch events (n + 1) w1 w' ds -> batch (ev :: events) n w w' (decide_event p1 ev ++ ds).
Proof.
  intros He Hw1 Htot Hcl (H1 & H2 & H3 & H4 & H5). unfold batch, events_of in *. setoid_rewrite filter_cons.
  assert (Hp1 : profiles w1 !! ADAuthEvent.AccountSID ev = Some p1) by (rewrite Hw1; apply lookup_insert_eq).
  assert (Hothers : forall sid, sid <> ADAuthEvent.AccountSID ev -> profiles w1 !! sid = profiles w !! sid)
    by (intros sid Hs; rewrite Hw1; by apply lookup_insert_ne).
  cbn [length]. split_and!.
  - by replace (n + Z.of_nat (S (length events))) with (n + 1 + Z.of_nat (length events)) by lia.
  - intros sid Hs. rewrite H2 by done. destruct (decide (ADAuthEvent.AccountSID ev = sid)) as [<-|Hne].
    + rewrite Hp1. cbn [length]. change (default 0 (BehaviouralProfile.TotalAuthCount <$> Some p1))
        with (BehaviouralProfile.TotalAuthCount p1). rewrite Htot. lia.
    + by rewrite Hothers by done.
  - intros sid p Hp. destruct (decide (sid = ADAuthEvent.AccountSID ev)) as [->|Hne].
    + destruct (H3 _ _ Hp1) as (p' & Hp' & Hc'). exists p'. split; [done|]. intros Hclp.
      pose proof (Hcl p Hp Hclp) as Hpp. eapply same_class_trans; [exact Hpp|]. apply Hc'.
      destruct Hpp as (_ & Heq & _). congruence.
    + rewrite <- Hothers in Hp by done. by apply H3.
  - intros d [Hd|Hd]%elem_of_app.
    + destruct (decide_event_spec p1 ev) as [[Hde Hfl]|[Hde _]]; rewrite Hde in Hd;
        [|by apply not_elem_of_nil in Hd]. apply list_elem_of_singleton in Hd as ->.
      destruct (H3 _ _ Hp1) as (p' & Hp' & Hc'). exists ev, p'. split; [by left|]. split; [done|].
      split; [done|]. by apply (same_class_flagged p1 p' ev (Hc' (proj1 Hfl))).
    + destruct (H4 d Hd) as (ev' & p & ? & ?). exists ev', p. split; [by right|done].
  - intros ev' p [->|Hin]%elem_of_cons Hne Hp Hfl; apply elem_of_app.
    + left. pose proof (Hcl p Hp (proj1 Hfl)) as Hpp.
      destruct (decide_event_spec p1 ev) as [[-> _]|[_ Hno]]; [by apply list_elem_of_singleton|].
      destruct Hno. by apply (same_class_flagged p p1 ev Hpp).
    + right. destruct (decide (ADAuthEvent.AccountSID ev' = ADAuthEvent.AccountSID ev)) as [Heq|Hneq].
      * apply (H5 ev' p1); [done|done|by rewrite Heq|]. rewrite Heq in Hp.
        apply (same_class_flagged p p1 ev' (Hcl p Hp (proj1 Hfl))). done.
      * apply (H5 ev' p); [done|done|by rewrite Hothers|done].
Qed.

Lemma ingest_loop_ok events : forall n ds (w : World L),
  profs_ok n w -> 0 <= n -> n + Z.of_nat (length events) < two63 ->
  exists ds' w', ingest_loop wt ds events w = ((ds ++ ds', None), w') /\ batch events n w w' ds'.
Proof.
  induction events as [|ev events IH]; intros n ds w Hok Hn Hlen; cbn [ingest_loop].
  { exists [], w. rewrite app_nil_r. split; [done|by apply batch_nil]. }
  cbn [length] in Hlen. destruct (String.eqb_spec (ADAuthEvent.AccountSID ev) "") as [He|He].
  { destruct (IH n ds w Hok Hn ltac:(lia)) as (ds' & w' & Hrun & Hb).
    exists ds', w'. split; [done|by apply batch_skip]. }
  destruct (ingest_one_ok ev n w He Hok Hn ltac:(lia)) as (p1 & k & Hone & Hok1 & Htot & Hcl).
  set (w1 := set_store _ _) in *. st_unfold. rewrite Hone.
  destruct (IH (n + 1) (ds ++ decide_event p1 ev) w1 Hok1 ltac:(lia) ltac:(lia)) as (ds' & w' & Hrun & Hb).
  exists (decide_event p1 ev ++ ds'), w'. rewrite app_assoc. split; [done|].
  by apply (batch_cons ev events n w w1 w' p1 ds').
Qed.
End IngestFacts.

Lemma demo_profs_ok : profs_ok 20 demo_disc_world.
Proof.
  assert (Hp : forall sid p, profiles demo_disc_world !! sid = Some p -> sid = "S-1" /\ p = demo_profile).
  { intros sid p Hp. change (profiles demo_disc_world) with ({["S-1" := demo_profile]} : gmap string _) in Hp.
    by apply lookup_singleton_Some in Hp as [<- <-]. }
  split.
  - intros sid p H. by destruct (Hp sid p H) as [-> ->].
  - intros sid p H. destruct (Hp sid p H) as [_ ->].
    split; vm_compute; repeat constructor; intros; discriminate.
Qed.

(** ** Properties *)

(** C15: a baseline flags exactly the odd events: an event deviates from the
    baseline built from a profile if and only if, in some dimension (source
    address, target, logon type, protocol, hour of day) that has values seen at
    least as often as the threshold, the event has a value and that value was
    not seen that often; the order in which maps are walked is irrelevant. *)
Theorem baseline_exact {L : Lib} {E : Env} `{!EnvOk E} p ev (w : World L) :
  feq (of_int (BehaviouralProfile.TotalAuthCount p)) fzero = false ->
  deviates (buildBaseline p w).1 ev = true <-> odd_event p ev.
Proof. apply buildBaseline_deviates. Qed.

Lemma baseline_exact_witness :
  feq (of_int (BehaviouralProfile.TotalAuthCount demo_profile)) fzero = false /\
  (deviates (buildBaseline demo_profile demo_disc_world).1 (demo_ad_event "S-1" "10.9.9.9" demo_base) = true
   <-> odd_event demo_profile (demo_ad_event "S-1" "10.9.9.9" demo_base)).
Proof.
  split; [vm_compute; reflexivity|].
  apply (baseline_exact demo_profile (demo_ad_event "S-1" "10.9.9.9" demo_base) demo_disc_world).
  vm_compute. reflexivity.
Defined.

(** ingestion counts every event: a batch is processed without error, each
    account's total grows by the number of its events in the batch, and every
    profile stays consistent: 24 hourly and 7 daily non-negative counters that
    each add up to the total, and a baseline exactly for classified profiles.
    (Counters stay below 2^63.) *)
Theorem Ingest_counts {L : Lib} {E : Env} wt events n (w : World L) :
  profs_ok n w -> 0 <= n -> n + Z.of_nat (length events) < two63 ->
  exists ds w', Ingest wt events w = ((ds, None), w') /\
    profs_ok (n + Z.of_nat (length events)) w' /\
    forall sid, sid <> "" ->
      default 0 (BehaviouralProfile.TotalAuthCount <$> profiles w' !! sid)
      = default 0 (BehaviouralProfile.TotalAuthCount <$> profiles w !! sid) + Z.of_nat (events_of sid events).
Proof.
  intros H1 H2 H3. destruct (ingest_loop_ok wt events n [] w H1 H2 H3) as (ds & w' & Hrun & Hok & Htot & _).
  by exists ds, w'.
Qed.

Lemma Ingest_counts_witness :
  let evs := [demo_ad_event "S-1" "10.0.0.5" demo_base; demo_ad_event "S-2" "10.0.0.6" demo_base] in
  exists ds w', Ingest DefaultWeights evs demo_disc_world = ((ds, None), w') /\ profs_ok 22 w' /\
    forall sid, sid <> "" ->
      default 0 (BehaviouralProfile.TotalAuthCount <$> profiles w' !! sid)
      = default 0 (BehaviouralProfile.TotalAuthCount <$> profiles demo_disc_world !! sid)
        + Z.of_nat (events_of sid evs).
Proof.
  apply (Ingest_counts DefaultWeights
    [demo_ad_event "S-1" "10.0.0.5" demo_base; demo_ad_event "S-2" "10.0.0.6" demo_base] 20 demo_disc_world).
  - exact demo_profs_ok.
  - lia.
  - vm_compute. reflexivity.
Defined.

(** classification is final: ingesting any batch leaves the score, the flag,
    the time and the baseline of an already classified account as they are. *)
Theorem baseline_is_frozen {L : Lib} {E : Env} wt events n (w : World L) sid p :
  profs_ok n w -> 0 <= n -> n + Z.of_nat (length events) < two63 ->
  profiles w !! sid = Some p -> BehaviouralProfile.Classified p = true ->
  exists p', profiles (Ingest wt events w).2 !! sid = Some p' /\ same_class p p'.
Proof.
  intros H1 H2 H3 Hp Hc. destruct (ingest_loop_ok wt events n [] w H1 H2 H3) as (ds & w' & Hrun & _ & _ & Hcl & _).
  unfold Ingest. rewrite Hrun. destruct (Hcl sid p Hp) as (p' & Hp' & Hs). exists p'. auto.
Qed.

Lemma baseline_is_frozen_witness : exists p',
  profiles (Ingest DefaultWeights [demo_ad_event "S-1" "10.9.9.9" demo_base] demo_disc_world).2 !! "S-1" = Some p' /\
  same_class demo_profile p'.
Proof.
  apply (baseline_is_frozen DefaultWeights [demo_ad_event "S-1" "10.9.9.9" demo_base] 20 demo_disc_world "S-1").
  - exact demo_profs_ok.
  - lia.
  - vm_compute. reflexivity.
  - vm_compute. reflexivity.
  - vm_compute. reflexivity.
Defined.

(** C14: decisions are sound and complete: every decision of a batch is a deny at
    score 100 for an event of the batch that lies outside the baseline its
    (classified) account has afterwards, and every event of an account that was
    already classified and lies outside its baseline gets one. *)
Theorem Ingest_decisions {L : Lib} {E : Env} wt events n (w : World L) :
  profs_ok n w -> 0 <= n -> n + Z.of_nat (length events) < two63 ->
  exists ds w', Ingest wt events w = ((ds, None), w') /\
    (forall d, d ∈ ds -> exists ev p, ev ∈ events /\ d = deny_decision ev /\
       profiles w' !! ADAuthEvent.AccountSID ev = Some p /\ flagged p ev) /\
    (forall ev p, ev ∈ events -> ADAuthEvent.AccountSID ev <> "" ->
       profiles w !! ADAuthEvent.AccountSID ev = Some p -> flagged p ev -> deny_decision ev ∈ ds).
Proof.
  intros H1 H2 H3. destruct (ingest_loop_ok wt events n [] w H1 H2 H3) as (ds & w' & Hrun & _ & _ & _ & Hs & Hc).
  by exists ds, w'.
Qed.

Lemma Ingest_decisions_witness :
  let evs := [demo_ad_event "S-1" "10.9.9.9" demo_base] in
  exists ds w', Ingest DefaultWeights evs demo_disc_world = ((ds, None), w') /\
    (forall d, d ∈ ds -> exists ev p, ev ∈ evs /\ d = deny_decision ev /\
       profiles w' !! ADAuthEvent.AccountSID ev = Some p /\ flagged p ev) /\
    (forall ev p, ev ∈ evs -> ADAuthEvent.AccountSID ev <> "" ->
       profiles demo_disc_world !! ADAuthEvent.AccountSID ev = Some p -> flagged p ev -> deny_decision ev ∈ ds).
Proof.
  apply (Ingest_decisions DefaultWeights [demo_ad_event "S-1" "10.9.9.9" demo_base] 20 demo_disc_world).
  - exact demo_profs_ok.
  - lia.
  - vm_compute. reflexivity.
Defined.

(** ** What modelling showed *)

(** An event without a timestamp is counted in the histogram at the time it
    arrives but compared with the baseline at hour 0 of year 1: the event of an
    account that only ever acts at ten o'clock, arriving at ten, is denied. *)
Theorem zero_timestamp_denied :
  HourOf (clock (tick demo_disc_world)) = 10 /\
  (Ingest DefaultWeights [demo_ad_event "S-1" "10.0.0.5" zeroTime] demo_disc_world).1
    = ([deny_decision (demo_ad_event "S-1" "10.0.0.5" zeroTime)], None) /\
  (Ingest DefaultWeights [demo_ad_event "S-1" "10.0.0.5" (clock (tick demo_disc_world))] demo_disc_world).1
    = ([], None).
Proof. vm_compute. repeat split. Qed.
