(* ===== verification/Risk.v ===== *)
(** * core/internal/risk: the rule engine

    [Score] adds the points of the rules a request triggers, in source order,
    and caps the sum at 100. [rules] states the same engine as a table; the
    equivalence is [Score_rules]. *)

From S2P Require Import Prelude GoStrings GoTime GoFloat GoJson Types.

Module Thresholds.
Record t := mk { Low : Z; Elevated : Z; High : Z; VeryHigh : Z }.
End Thresholds.

Definition DefaultThresholds : Thresholds.t := Thresholds.mk 24 49 74 89.

Fixpoint containsGroup (groups : list string) (target : string) : bool :=
  match groups with
  | [] => false
  | g :: groups' => if String.eqb g target then true else containsGroup groups' target
  end.

Definition level (t : Thresholds.t) (score : Z) : string :=
  if score <=? Thresholds.Low t then "low"
  else if score <=? Thresholds.Elevated t then "elevated"
  else if score <=? Thresholds.High t then "high"
  else if score <=? Thresholds.VeryHigh t then "very_high"
  else "critical".

(** The closure [add]: [score += points; reasons = append(reasons, reason)]. *)
Definition add (points : Z) (reason : string) (acc : Z * list string) : Z * list string :=
  (acc.1 + points, acc.2 ++ [reason]).

(** [if cond { f }] and [switch s { case ...: f }] on the accumulator. *)
Definition when (cond : bool) (f : Z * list string -> Z * list string)
    (acc : Z * list string) : Z * list string :=
  if cond then f acc else acc.

Fixpoint switch (s : string) (cases : list (string * (Z * list string -> Z * list string)))
    (acc : Z * list string) : Z * list string :=
  match cases with
  | [] => acc
  | (c, f) :: cases' => if String.eqb s c then f acc else switch s cases' acc
  end.

Definition Score (t : Thresholds.t) (req : AccessRequest.t) : result RiskResult.t :=
  let id := AccessRequest.Identity req in
  let res := AccessRequest.Resource req in
  let src := AccessRequest.Source req in
  let dev := AccessRequest.Device req in
  let ctx := AccessRequest.Context_ req in
  let acc := (0, []) in
  let acc := when (AccessIdentity.Privileged id
                   || containsGroup (AccessIdentity.Groups id) "Admins"
                   || containsGroup (AccessIdentity.Groups id) "Domain Admins")
               (add 25 "privileged_group") acc in
  let acc := switch (AccessResource.Sensitivity_ res)
               [("high", add 20 "resource_sensitivity_high");
                ("critical", add 30 "resource_sensitivity_critical")] acc in
  let acc := when (negb (AccessContext.MFARecent ctx)) (add 15 "no_recent_mfa") acc in
  let acc := when (negb (String.eqb (AccessSource.Geo src) "")
                   && negb (String.eqb (AccessIdentity.UsualGeo id) "")
                   && negb (String.eqb (AccessSource.Geo src) (AccessIdentity.UsualGeo id)))
               (add 30 "geo_mismatch") acc in
  let acc := switch (AccessProtocol.Name (AccessRequest.Protocol req))
               [("ntlm", add 20 "weak_protocol_ntlm");
                ("ldap_simple_bind_cleartext", add 30 "cleartext_ldap_bind")] acc in
  let acc := when (String.eqb (AccessIdentity.Type_ id) "service_account"
                   && AccessContext.Interactive ctx)
               (add 60 "service_account_interactive") acc in
  let acc := when (AccessContext.BaselineDeviation ctx)
               (add 50 "service_account_baseline_deviation") acc in
  let acc := when (90 <? AccessIdentity.LastLogonDays id) (add 20 "stale_account") acc in
  let acc := when (AccessIdentity.PasswordNeverExpires id)
               (add 15 "password_never_expires") acc in
  let acc := when (AccessIdentity.HasSPN id && negb (AccessIdentity.IsGMSA id))
               (add 25 "spn_bearing_unmanaged") acc in
  let acc := when (AccessIdentity.Privileged id && (30 <? AccessIdentity.LastLogonDays id))
               (add 40 "privileged_stale") acc in
  let acc := when (negb (AccessDevice.Managed dev)) (add 15 "unmanaged_device") acc in
  let acc := when (negb (AccessDevice.Compliant dev)) (add 25 "noncompliant_device") acc in
  let acc := switch (AccessSource.Reputation src)
               [("bad", add 40 "bad_ip_reputation");
                ("unknown", add 5 "unknown_ip_reputation")] acc in
  let score := acc.1 in
  let score := if 100 <? score then 100 else score in
  Ok (RiskResult.mk score (level t score) acc.2).

(** ** The rule table *)

Record rule := mkRule { points : Z; reason : string; fires : AccessRequest.t -> bool }.

Definition privileged_group (r : AccessRequest.t) : bool :=
  let id := AccessRequest.Identity r in
  AccessIdentity.Privileged id
  || bool_decide ("Admins" ∈ AccessIdentity.Groups id)
  || bool_decide ("Domain Admins" ∈ AccessIdentity.Groups id).

Definition sens (r : AccessRequest.t) := AccessResource.Sensitivity_ (AccessRequest.Resource r).
Definition proto (r : AccessRequest.t) := AccessProtocol.Name (AccessRequest.Protocol r).
Definition rep (r : AccessRequest.t) := AccessSource.Reputation (AccessRequest.Source r).

Definition rules : list rule := [
  mkRule 25 "privileged_group" privileged_group;
  mkRule 20 "resource_sensitivity_high" (fun r => bool_decide (sens r = "high"));
  mkRule 30 "resource_sensitivity_critical" (fun r => bool_decide (sens r = "critical"));
  mkRule 15 "no_recent_mfa" (fun r => negb (AccessContext.MFARecent (AccessRequest.Context_ r)));
  mkRule 30 "geo_mismatch" (fun r =>
    let g := AccessSource.Geo (AccessRequest.Source r) in
    let u := AccessIdentity.UsualGeo (AccessRequest.Identity r) in
    bool_decide (g <> "" /\ u <> "" /\ g <> u));
  mkRule 20 "weak_protocol_ntlm" (fun r => bool_decide (proto r = "ntlm"));
  mkRule 30 "cleartext_ldap_bind" (fun r => bool_decide (proto r = "ldap_simple_bind_cleartext"));
  mkRule 60 "service_account_interactive" (fun r =>
    bool_decide (AccessIdentity.Type_ (AccessRequest.Identity r) = "service_account")
    && AccessContext.Interactive (AccessRequest.Context_ r));
  mkRule 50 "service_account_baseline_deviation" (fun r =>
    AccessContext.BaselineDeviation (AccessRequest.Context_ r));
  mkRule 20 "stale_account" (fun r => 90 <? AccessIdentity.LastLogonDays (AccessRequest.Identity r));
  mkRule 15 "password_never_expires" (fun r =>
    AccessIdentity.PasswordNeverExpires (AccessRequest.Identity r));
  mkRule 25 "spn_bearing_unmanaged" (fun r =>
    AccessIdentity.HasSPN (AccessRequest.Identity r)
    && negb (AccessIdentity.IsGMSA (AccessRequest.Identity r)));
  mkRule 40 "privileged_stale" (fun r =>
    AccessIdentity.Privileged (AccessRequest.Identity r)
    && (30 <? AccessIdentity.LastLogonDays (AccessRequest.Identity r)));
  mkRule 15 "unmanaged_device" (fun r => negb (AccessDevice.Managed (AccessRequest.Device r)));
  mkRule 25 "noncompliant_device" (fun r => negb (AccessDevice.Compliant (AccessRequest.Device r)));
  mkRule 40 "bad_ip_reputation" (fun r => bool_decide (rep r = "bad"));
  mkRule 5 "unknown_ip_reputation" (fun r => bool_decide (rep r = "unknown"))
].

(** The rules a request triggers. *)
Definition fired (rs : list rule) (req : AccessRequest.t) : list rule :=
  base.filter (fun r => fires r req = true) rs.

Definition total (rs : list rule) : Z := foldr (fun r z => points r + z) 0 rs.

(** How severe a level is. *)
Definition level_rank (l : string) : Z :=
  if String.eqb l "low" then 0
  else if String.eqb l "elevated" then 1
  else if String.eqb l "high" then 2
  else if String.eqb l "very_high" then 3
  else 4.

(** One rule applied to the accumulator. *)
Definition step (req : AccessRequest.t) (acc : Z * list string) (r : rule) : Z * list string :=
  when (fires r req) (add (points r) (reason r)) acc.

(** A routine request of a member of staff, and the same request from a device
    that has fallen out of compliance. *)
Definition demo_request : AccessRequest.t :=
  AccessRequest.mk (AccessIdentity.mk "alice" ["engineering"] "person" false "DE" 3 false false false)
    (AccessResource.mk "ssh" "build-01" "high") (AccessProtocol.mk "pam")
    (AccessSource.mk "10.0.0.7" "DE" "good") (AccessDevice.mk true true)
    (AccessContext.mk false true false).
Definition demo_noncompliant : AccessRequest.t :=
  AccessRequest.mk (AccessRequest.Identity demo_request) (AccessRequest.Resource demo_request)
    (AccessRequest.Protocol demo_request) (AccessRequest.Source demo_request)
    (AccessDevice.mk true false) (AccessRequest.Context_ demo_request).

(** ** Lemmas *)

Lemma containsGroup_spec groups target :
  containsGroup groups target = bool_decide (target ∈ groups).
Proof.
  induction groups as [|g groups IH]; simpl; [done|].
  destruct (String.eqb_spec g target) as [->|Hne].
  - symmetry. apply bool_decide_eq_true. left.
  - rewrite IH. apply bool_decide_ext. rewrite elem_of_cons. naive_solver.
Qed.

Lemma eqb_decide (a b : string) : String.eqb a b = bool_decide (a = b).
Proof. destruct (String.eqb_spec a b); symmetry; by apply bool_decide_eq_true || apply bool_decide_eq_false. Qed.

(** A two-way [switch] is two exclusive rules. *)
Lemma switch_two (s a b : string) f g acc : a <> b ->
  switch s [(a, f); (b, g)] acc = when (bool_decide (s = b)) g (when (bool_decide (s = a)) f acc).
Proof.
  intros Hne. simpl. rewrite !eqb_decide. unfold when.
  repeat case_bool_decide; simplify_eq; done.
Qed.

Lemma foldl_step req rs : forall acc,
  foldl (step req) acc rs = (acc.1 + total (fired rs req), acc.2 ++ (reason <$> fired rs req)).
Proof.
  induction rs as [|r rs IH]; intros [z l]; simpl.
  - by rewrite Z.add_0_r, app_nil_r.
  - rewrite IH. unfold step, when, fired. rewrite filter_cons.
    destruct (fires r req) eqn:F; rewrite ?decide_True, ?decide_False by congruence; simpl.
    + rewrite <- app_assoc. f_equal. lia.
    + done.
Qed.

Lemma geo_decide (g u : string) :
  negb (String.eqb g "") && negb (String.eqb u "") && negb (String.eqb g u)
  = bool_decide (g <> "" /\ u <> "" /\ g <> u).
Proof. rewrite !eqb_decide. repeat case_bool_decide; naive_solver. Qed.

Lemma total_nonneg rs : Forall (fun r => 0 <= points r) rs -> 0 <= total rs.
Proof. induction 1; simpl; lia. Qed.

Lemma rules_points : Forall (fun r => 0 <= points r) rules.
Proof. repeat constructor; simpl; lia. Qed.

Lemma fired_points req : Forall (fun r => 0 <= points r) (fired rules req).
Proof.
  apply Forall_forall. intros r [_ Hr]%list_elem_of_filter.
  pose proof rules_points as Hp. rewrite Forall_forall in Hp. auto.
Qed.

Lemma total_fired_mono rs r1 r2 :
  Forall (fun r => 0 <= points r) rs ->
  Forall (fun r => fires r r1 = true -> fires r r2 = true) rs ->
  total (fired rs r1) <= total (fired rs r2).
Proof.
  unfold fired. induction 1 as [|r rs Hp Hps IH]; intros Hm; [done|].
  apply Forall_cons in Hm as [Hr Hm]. specialize (IH Hm). rewrite !filter_cons.
  repeat case_decide; simpl; try lia. naive_solver.
Qed.

(** The engine is its rule table. *)
Lemma Score_eq t req : Score t req =
  (let sc := Z.min 100 (total (fired rules req)) in
   Ok (RiskResult.mk sc (level t sc) (reason <$> fired rules req))).
Proof.
  pose proof (foldl_step req rules (0, [])) as Hf. cbn [fst snd app] in Hf. rewrite Z.add_0_l in Hf.
  unfold Score. cbv zeta. rewrite !containsGroup_spec, !geo_decide, !switch_two by done.
  rewrite (eqb_decide (AccessIdentity.Type_ _)).
  match goal with |- context [100 <? ?a.1] => change a with (foldl (step req) (0, []) rules) end.
  rewrite Hf. cbn [fst snd]. rewrite Z.min_comm. unfold Z.min.
  destruct (Z.ltb_spec 100 (total (fired rules req))), (Z.compare_spec (total (fired rules req)) 100);
    try done; lia || congruence.
Qed.

(** ** Theorems *)

(** the risk score of a request is the sum of the points of exactly the
    rules of the table it triggers, capped at 100, and the reasons are the
    names of those rules in table order. *)
Theorem Score_rules t req :
  Score t req = Ok (RiskResult.mk (Z.min 100 (total (fired rules req)))
                      (level t (Z.min 100 (total (fired rules req))))
                      (reason <$> fired rules req)).
Proof. apply Score_eq. Qed.

Lemma level_mono t s1 s2 : s1 <= s2 -> level_rank (level t s1) <= level_rank (level t s2).
Proof.
  intros H. unfold level.
  repeat (match goal with |- context [?a <=? ?b] => destruct (Z.leb_spec a b) end; try lia);
    vm_compute; congruence.
Qed.

(** scoring never fails, and the score lies in [0, 100]; with the default
    thresholds the level is critical exactly from 90 on and very_high exactly
    from 75 to 89. *)
Theorem Score_bounds req : exists r, Score DefaultThresholds req = Ok r
  /\ 0 <= RiskResult.Score r <= 100
  /\ (RiskResult.Level r = "critical" <-> 90 <= RiskResult.Score r)
  /\ (RiskResult.Level r = "very_high" <-> 75 <= RiskResult.Score r <= 89).
Proof.
  eexists. split; [apply Score_eq|]. cbn [RiskResult.Score RiskResult.Level].
  pose proof (total_nonneg _ (fired_points req)) as H0.
  split; [lia|]. unfold level. cbn [Thresholds.Low Thresholds.Elevated Thresholds.High
    Thresholds.VeryHigh DefaultThresholds].
  repeat match goal with |- context [?a <=? ?b] => destruct (Z.leb_spec a b) end;
    (split; split; intros; try done; lia).
Qed.

(** the engine is monotone: if every rule the first request triggers is
    also triggered by the second (a worse posture), the second one's score and
    level are at least the first one's, whatever the thresholds. *)
Theorem Score_mono t r1 r2
  (Hworse : Forall (fun r => fires r r1 = true -> fires r r2 = true) rules) :
  exists a b, Score t r1 = Ok a /\ Score t r2 = Ok b
    /\ RiskResult.Score a <= RiskResult.Score b
    /\ level_rank (RiskResult.Level a) <= level_rank (RiskResult.Level b).
Proof.
  do 2 eexists. split; [apply Score_eq|]. split; [apply Score_eq|]. simpl.
  pose proof (total_fired_mono rules r1 r2 rules_points Hworse) as H.
  split; [lia|]. apply level_mono. lia.
Qed.

Lemma Score_mono_witness : exists a b,
  Score DefaultThresholds demo_request = Ok a /\ Score DefaultThresholds demo_noncompliant = Ok b
  /\ RiskResult.Score a <= RiskResult.Score b
  /\ level_rank (RiskResult.Level a) <= level_rank (RiskResult.Level b).
Proof.
  apply (Score_mono DefaultThresholds demo_request demo_noncompliant).
  repeat constructor; vm_compute; congruence.
Defined.

Example demo_scores : Score DefaultThresholds demo_request
    = Ok (RiskResult.mk 35 "elevated" ["resource_sensitivity_high"; "no_recent_mfa"])
  /\ Score DefaultThresholds demo_noncompliant
    = Ok (RiskResult.mk 60 "high" ["resource_sensitivity_high"; "no_recent_mfa"; "noncompliant_device"]).
Proof. split; vm_compute; reflexivity. Qed.
