(* ===== verification/Policy.v ===== *)
(** * core/internal/policy: the built-in policy engine

    A policy's condition document is a tree of [all] / [any] / [not] nodes over
    leaves [path op value]; [evaluateConditions] decodes and evaluates it level
    by level, as the code does ([fuel] bounds the nesting; the depth of the
    document is enough, [evaluateConditions_total]). [Evaluate] collects the
    enabled policies that match and returns the most restrictive effect. *)

From S2P Require Import Prelude GoStrings GoTime GoFloat GoJson Types World Instances Storage.

(** ** The request as a JSON object *)

Definition field (name : string) (v : any) : list (string * any) := [(name, v)].
Definition omitempty (empty : bool) (name : string) (v : any) : list (string * any) :=
  if empty then [] else [(name, v)].
Definition jstr (s : string) : any := AStr (ToValidUTF8 s).
Definition is_empty (s : string) : bool := String.eqb s "".

(** [requestToMap]: the request after a trip through [json.Marshal] and
    [json.Unmarshal]; members marked [omitempty] are absent when zero. *)
Definition requestToMap (req : AccessRequest.t) : result any :=
  let id := AccessRequest.Identity req in
  let res := AccessRequest.Resource req in
  let src := AccessRequest.Source req in
  let dev := AccessRequest.Device req in
  let ctx := AccessRequest.Context_ req in
  Ok (AObj [
    ("identity", AObj (
      field "username" (jstr (AccessIdentity.Username id)) ++
      omitempty (bool_decide (AccessIdentity.Groups id = [])) "groups"
        (AArr (jstr <$> AccessIdentity.Groups id)) ++
      field "type" (jstr (AccessIdentity.Type_ id)) ++
      omitempty (negb (AccessIdentity.Privileged id)) "privileged" (ABool true) ++
      omitempty (is_empty (AccessIdentity.UsualGeo id)) "usual_geo"
        (jstr (AccessIdentity.UsualGeo id)) ++
      omitempty (AccessIdentity.LastLogonDays id =? 0) "last_logon_days"
        (AFloat (of_int (AccessIdentity.LastLogonDays id))) ++
      omitempty (negb (AccessIdentity.PasswordNeverExpires id)) "password_never_expires"
        (ABool true) ++
      omitempty (negb (AccessIdentity.HasSPN id)) "has_spn" (ABool true) ++
      omitempty (negb (AccessIdentity.IsGMSA id)) "is_gmsa" (ABool true)));
    ("resource", AObj (
      field "type" (jstr (AccessResource.Type_ res)) ++
      field "name" (jstr (AccessResource.Name res)) ++
      field "sensitivity" (jstr (AccessResource.Sensitivity_ res))));
    ("protocol", AObj (
      field "name" (jstr (AccessProtocol.Name (AccessRequest.Protocol req)))));
    ("source", AObj (
      omitempty (is_empty (AccessSource.IP src)) "ip" (jstr (AccessSource.IP src)) ++
      omitempty (is_empty (AccessSource.Geo src)) "geo" (jstr (AccessSource.Geo src)) ++
      omitempty (is_empty (AccessSource.Reputation src)) "reputation"
        (jstr (AccessSource.Reputation src))));
    ("device", AObj (
      field "managed" (ABool (AccessDevice.Managed dev)) ++
      field "compliant" (ABool (AccessDevice.Compliant dev))));
    ("context", AObj (
      field "mfa_recent" (ABool (AccessContext.MFARecent ctx)) ++
      field "interactive" (ABool (AccessContext.Interactive ctx)) ++
      field "baseline_deviation" (ABool (AccessContext.BaselineDeviation ctx))))
  ]).

(** The loop of [resolvePath] over the parts of the path. *)
Fixpoint resolve (current : any) (parts : list string) : option any :=
  match parts with
  | [] => Some current
  | part :: parts' =>
      match current with
      | AObj m => match get part m with
                  | Some v => resolve v parts'
                  | None => None
                  end
      | _ => None
      end
  end.

Definition dot : Ascii.ascii := ascii_of 46.

Definition resolvePath (m : any) (path : string) : option any := resolve m (Split dot path).

(** ** Condition nodes *)

Module conditionNode.
Record t := mk {
  All : option (list json);
  Any : option (list json);
  Not : option json;
  Path : string;
  Op : string;
  Value : any
}.
Definition zero : t := mk None None None "" "" ANil.
End conditionNode.

Definition upper_byte (c : Ascii.ascii) : Ascii.ascii :=
  let b := byte_of c in if (97 <=? b) && (b <=? 122) then ascii_of (b - 32) else c.

(** Member names match a struct field regardless of case; no name of
    [conditionNode] has a letter with a non-ASCII fold. *)
Fixpoint foldName (s : string) : string :=
  match s with
  | EmptyString => EmptyString
  | String c s' => String (upper_byte c) (foldName s')
  end.

Definition typeError : string := "json: cannot unmarshal into Go struct field".

(** Decoding one member: the updated node, and whether its type was wrong. *)
Definition decodeMember (n : conditionNode.t) (k : string) (v : json) : conditionNode.t * bool :=
  let '(conditionNode.mk all_ any_ not_ path op val) := n in
  let name := foldName k in
  if String.eqb name "ALL" then
    match v with
    | JNull => (conditionNode.mk None any_ not_ path op val, false)
    | JArr l => (conditionNode.mk (Some l) any_ not_ path op val, false)
    | _ => (n, true)
    end
  else if String.eqb name "ANY" then
    match v with
    | JNull => (conditionNode.mk all_ None not_ path op val, false)
    | JArr l => (conditionNode.mk all_ (Some l) not_ path op val, false)
    | _ => (n, true)
    end
  else if String.eqb name "NOT" then
    match v with
    | JNull => (conditionNode.mk all_ any_ None path op val, false)
    | _ => (conditionNode.mk all_ any_ (Some v) path op val, false)
    end
  else if String.eqb name "PATH" then
    match v with
    | JNull => (n, false)
    | JStr s => (conditionNode.mk all_ any_ not_ s op val, false)
    | _ => (n, true)
    end
  else if String.eqb name "OP" then
    match v with
    | JNull => (n, false)
    | JStr s => (conditionNode.mk all_ any_ not_ path s val, false)
    | _ => (n, true)
    end
  else if String.eqb name "VALUE" then
    (conditionNode.mk all_ any_ not_ path op (to_any v), false)
  else (n, false).

Definition decodeStep (acc : conditionNode.t * bool) (kv : string * json) : conditionNode.t * bool :=
  let '(n, bad) := acc in
  let '(n', b) := decodeMember n kv.1 kv.2 in
  (n', bad || b).

(** [json.Unmarshal(raw, &node)]: a wrong member type is reported after the
    whole object has been read; [null] leaves the node zero. *)
Definition decodeNode (raw : json) : result conditionNode.t :=
  match raw with
  | JNull => Ok conditionNode.zero
  | JObj m =>
      let '(n, bad) := foldl decodeStep (conditionNode.zero, false) m in
      if bad then Err typeError else Ok n
  | _ => Err typeError
  end.

(** ** Leaves *)

Definition compareEq (actual expected : any) : bool := String.eqb (fmt_v actual) (fmt_v expected).

Definition compareIn (actual expected : any) : bool :=
  match expected with
  | AArr v => existsb (fun item => String.eqb (fmt_v item) (fmt_v actual)) v
  | _ => false
  end.

Definition compareContains (actual expected : any) : bool :=
  match actual with
  | AArr v => existsb (fun item => String.eqb (fmt_v item) (fmt_v expected)) v
  | AStr v => Contains v (fmt_v expected)
  | _ => false
  end.

Definition toFloat64 (v : any) : option SpecFloat.spec_float :=
  match v with
  | AFloat f => Some f
  | AInt z => Some (of_int z)
  | _ => None
  end.

Definition compareNumeric (actual expected : any)
    (cmp : SpecFloat.spec_float -> SpecFloat.spec_float -> bool) : bool :=
  match toFloat64 actual, toFloat64 expected with
  | Some a, Some b => cmp a b
  | _, _ => false
  end.

Section Engine.
Context {L : Lib} {E : Env}.

Definition compareRegex (actual expected : any) : bool :=
  match expected with
  | AStr pattern => default false (regexp_MatchString pattern (fmt_v actual))
  | _ => false
  end.

Definition evaluateLeaf (path op : string) (value : any) (reqMap : any) : result bool :=
  let r := resolvePath reqMap path in
  if String.eqb op "exists" then Ok (bool_decide (is_Some r))
  else if String.eqb op "not_exists" then Ok (negb (bool_decide (is_Some r)))
  else match r with
  | None => Ok false
  | Some actual =>
      if String.eqb op "eq" then Ok (compareEq actual value)
      else if String.eqb op "neq" then Ok (negb (compareEq actual value))
      else if String.eqb op "in" then Ok (compareIn actual value)
      else if String.eqb op "not_in" then Ok (negb (compareIn actual value))
      else if String.eqb op "contains" then Ok (compareContains actual value)
      else if String.eqb op "not_contains" then Ok (negb (compareContains actual value))
      else if String.eqb op "gt" then Ok (compareNumeric actual value (fun a b => flt b a))
      else if String.eqb op "gte" then Ok (compareNumeric actual value (fun a b => fle b a))
      else if String.eqb op "lt" then Ok (compareNumeric actual value (fun a b => flt a b))
      else if String.eqb op "lte" then Ok (compareNumeric actual value (fun a b => fle a b))
      else if String.eqb op "regex" then Ok (compareRegex actual value)
      else Err ("unknown operator: " +:+ op)
  end.

(** ** The condition tree; [None] is "out of fuel". *)

(** The loop over [node.All]: stop at the first error or false. *)
Fixpoint evalAll (ev : json -> option (result bool)) (subs : list json) : option (result bool) :=
  match subs with
  | [] => Some (Ok true)
  | sub :: subs' =>
      match ev sub with
      | Some (Ok true) => evalAll ev subs'
      | other => other
      end
  end.

(** The loop over [node.Any]: stop at the first error or true. *)
Fixpoint evalAny (ev : json -> option (result bool)) (subs : list json) : option (result bool) :=
  match subs with
  | [] => Some (Ok false)
  | sub :: subs' =>
      match ev sub with
      | Some (Ok false) => evalAny ev subs'
      | other => other
      end
  end.

Fixpoint evaluateConditions (fuel : nat) (raw : json) (reqMap : any) : option (result bool) :=
  match fuel with
  | O => None
  | S fuel' =>
      match decodeNode raw with
      | Err e => Some (Err e)
      | Ok node =>
          match conditionNode.All node with
          | Some subs => evalAll (fun sub => evaluateConditions fuel' sub reqMap) subs
          | None =>
              match conditionNode.Any node with
              | Some subs => evalAny (fun sub => evaluateConditions fuel' sub reqMap) subs
              | None =>
                  match conditionNode.Not node with
                  | Some sub =>
                      match evaluateConditions fuel' sub reqMap with
                      | Some (Ok b) => Some (Ok (negb b))
                      | other => other
                      end
                  | None =>
                      if negb (String.eqb (conditionNode.Path node) "")
                         && negb (String.eqb (conditionNode.Op node) "")
                      then Some (evaluateLeaf (conditionNode.Path node) (conditionNode.Op node)
                                   (conditionNode.Value node) reqMap)
                      else Some (Ok false)
                  end
              end
          end
      end
  end.

(** The nesting depth of a document. *)
Fixpoint depth (j : json) : nat :=
  match j with
  | JArr l => S (max_list (depth <$> l))
  | JObj m => S (max_list ((fun kv => depth kv.2) <$> m))
  | _ => 1
  end.

(** Whether a policy applies; an undecodable or failing condition does not. *)
Definition matches (raw : option json) (reqMap : any) : bool :=
  match raw with
  | None => false
  | Some j => match evaluateConditions (depth j) j reqMap with
              | Some (Ok b) => b
              | _ => false
              end
  end.

(** ** Evaluation *)

(** [order[effect]]: a missing key gives the zero value. *)
Definition order (d : Decision) : Z :=
  if String.eqb d DecisionDeny then 0
  else if String.eqb d DecisionChallenge then 1
  else if String.eqb d DecisionAlert then 2
  else if String.eqb d DecisionAllow then 3
  else 0.

Definition decisionOf (p : Policy.t) : PolicyDecision.t :=
  PolicyDecision.mk (Policy.Effect p) (Policy.ID p)
    ["policy " +:+ Policy.ID p +:+ " matched"] (Policy.Challenge p).

(** The decision when no policy matches. *)
Definition defaultDecision (req : AccessRequest.t) : PolicyDecision.t :=
  let sens := ToLower (AccessResource.Sensitivity_ (AccessRequest.Resource req)) in
  if String.eqb sens "high" || String.eqb sens "critical"
  then PolicyDecision.mk DecisionDeny "" ["default deny for high/critical sensitivity resource"] None
  else if String.eqb sens "low"
  then PolicyDecision.mk DecisionAllow "" ["default allow for low sensitivity resource"] None
  else PolicyDecision.mk DecisionDeny "" ["no policy matched"] None.

Definition byPriority (p q : Policy.t) : bool := Policy.Priority q <? Policy.Priority p.
Definition byEffect (a b : PolicyDecision.t) : bool :=
  order (PolicyDecision.Effect a) <? order (PolicyDecision.Effect b).

Definition Evaluate (req : AccessRequest.t) : M (result PolicyDecision.t) :=
  policies ←? Policies.List_;
  let enabled := base.filter (fun p => Policy.Enabled p = true) policies in
  enabled ← ask (fun n => sort_Slice n byPriority enabled);
  match requestToMap req with
  | Err e => mret (Err ("converting request to map: " +:+ e))
  | Ok reqMap =>
      let matched := decisionOf <$>
        base.filter (fun p => matches (Policy.Conditions p) reqMap = true) enabled in
      match matched with
      | [] => mret (Ok (defaultDecision req))
      | _ =>
          sorted ← ask (fun n => sort_Slice n byEffect matched);
          mret (match sorted with
                | d :: _ => Ok d
                | [] => Err "index out of range"
                end)
      end
  end.

(** ** The condition language, as policies are written *)

(** Well-formed condition documents: the documented forms, [CEmpty] for a node
    with none of the members. *)
Inductive cond :=
| CAll (cs : list cond)
| CAny (cs : list cond)
| CNot (c : cond)
| CLeaf (path op : string) (value : json)
| CEmpty.

Fixpoint encode (c : cond) : json :=
  match c with
  | CAll cs => JObj [("all", JArr (encode <$> cs))]
  | CAny cs => JObj [("any", JArr (encode <$> cs))]
  | CNot c => JObj [("not", encode c)]
  | CLeaf path op value => JObj [("path", JStr path); ("op", JStr op); ("value", value)]
  | CEmpty => JObj []
  end.

Definition operators : list string :=
  ["exists"; "not_exists"; "eq"; "neq"; "in"; "not_in"; "contains"; "not_contains";
   "gt"; "gte"; "lt"; "lte"; "regex"].

(** Every leaf names a path and one of the operators. *)
Fixpoint wf_cond (c : cond) : bool :=
  match c with
  | CAll cs => forallb wf_cond cs
  | CAny cs => forallb wf_cond cs
  | CNot c => wf_cond c
  | CLeaf path op _ => negb (String.eqb path "") && bool_decide (op ∈ operators)
  | CEmpty => true
  end.

(** The meaning of a condition: Boolean logic over its leaves. *)
Fixpoint holds (reqMap : any) (c : cond) : bool :=
  match c with
  | CAll cs => forallb (holds reqMap) cs
  | CAny cs => existsb (holds reqMap) cs
  | CNot c => negb (holds reqMap c)
  | CLeaf path op value =>
      match evaluateLeaf path op (to_any value) reqMap with Ok b => b | Err _ => false end
  | CEmpty => false
  end.

(** The policies that apply to a request. *)
Definition applicable (req : AccessRequest.t) (w : World L) (p : Policy.t) : Prop :=
  (exists id, MemoryStore.policies (store w) !! id = Some p) /\
  Policy.Enabled p = true /\
  exists reqMap, requestToMap req = Ok reqMap /\ matches (Policy.Conditions p) reqMap = true.
End Engine.

(** The effects, most restrictive first (docs/architecture/policy-engine.md). *)
Definition precedence : list Decision := [DecisionDeny; DecisionChallenge; DecisionAlert; DecisionAllow].

Definition known_effect (d : Decision) : Prop := d ∈ precedence.

#[global] Instance known_effect_dec d : base.Decision (known_effect d).
Proof. unfold known_effect, precedence. apply _. Defined.

(** ** Concrete data *)

Definition demo_policy (id : string) (prio : Z) (effect : Decision) (c : cond) : Policy.t :=
  Policy.mk id "" true prio effect (Some (encode c)) None zeroTime zeroTime.

Definition demo_allow_all : Policy.t :=
  demo_policy "allow-managed" 100 DecisionAllow (CLeaf "device.managed" "eq" (JBool true)).
Definition demo_deny_rdp : Policy.t :=
  demo_policy "deny-rdp" 10 DecisionDeny
    (CAll [CLeaf "protocol.name" "in" (JArr [JStr "rdp"; JStr "ssh"]);
           CNot (CLeaf "context.mfa_recent" "eq" (JBool true))]).

Definition demo_policy_world (ps : list Policy.t) : World demo_lib :=
  set_store (MemoryStore.set_policies
    (list_to_map ((fun p => (Policy.ID p, p)) <$> ps)) NewMemoryStore) demo_world.

Definition demo_policy_request : AccessRequest.t :=
  AccessRequest.mk (AccessIdentity.mk "alice" ["staff"] "person" false "" 0 false false false)
    (AccessResource.mk "server" "db01" "Low") (AccessProtocol.mk "rdp")
    (AccessSource.mk "10.0.0.1" "" "") (AccessDevice.mk true true)
    (AccessContext.mk false true false).

Example demo_evaluate :
  (Evaluate demo_policy_request (demo_policy_world [demo_allow_all; demo_deny_rdp])).1
  = Ok (decisionOf demo_deny_rdp).
Proof. vm_compute. reflexivity. Qed.

(** ** Facts about the condition tree *)

Section ConditionFacts.
Context {L : Lib} {E : Env}.

(** The members of a decoded node come from the document. *)
Definition node_from (m : list (string * json)) (n : conditionNode.t) : Prop :=
  (forall subs, conditionNode.All n = Some subs -> JArr subs ∈ m.*2) /\
  (forall subs, conditionNode.Any n = Some subs -> JArr subs ∈ m.*2) /\
  (forall sub, conditionNode.Not n = Some sub -> sub ∈ m.*2).

Lemma decodeMember_from m n k v n' b :
  node_from m n -> v ∈ m.*2 -> decodeMember n k v = (n', b) -> node_from m n'.
Proof.
  intros (H1 & H2 & H3) Hv. destruct n as [a y o p q u]. unfold decodeMember.
  repeat (destruct (String.eqb _ _)); [destruct v..|]; intros [= <- <-];
    repeat split; simpl in *; intros; simplify_eq; eauto.
Qed.

Lemma decodeNode_from raw n :
  decodeNode raw = Ok n -> raw = JNull /\ n = conditionNode.zero
                           \/ exists m, raw = JObj m /\ node_from m n.
Proof.
  destruct raw as [| | | | |m]; try done; [intros [= <-]; by left|].
  simpl. intros H. right. exists m. split; [done|].
  assert (Hgen : forall l acc r, (forall kv, kv ∈ l -> kv ∈ m) -> node_from m acc.1 ->
                 foldl decodeStep acc l = r -> node_from m r.1).
  { induction l as [|[k v] l IH]; intros [a b] r Hl Ha; simpl; [by intros <-|].
    destruct (decodeMember a k v) as [a' b'] eqn:Hd.
    apply IH; [set_solver|]. eapply decodeMember_from; [exact Ha| |exact Hd].
    apply list_elem_of_fmap. exists (k, v). split; [done|]. apply Hl. by left. }
  destruct (foldl decodeStep (conditionNode.zero, false) m) as [n' b] eqn:Hf.
  destruct b; [done|]. injection H as <-.
  apply (Hgen m (conditionNode.zero, false) (n', false)); [done| |done]. by repeat split.
Qed.

Lemma depth_member m j : j ∈ m.*2 -> (depth j < depth (JObj m))%nat.
Proof.
  intros (kv & -> & Hin)%list_elem_of_fmap. simpl. apply Nat.lt_succ_r.
  apply max_list_elem_of_le. apply list_elem_of_fmap. by exists kv.
Qed.

Lemma depth_elem l j : j ∈ l -> (depth j < depth (JArr l))%nat.
Proof.
  intros Hin. simpl. apply Nat.lt_succ_r, max_list_elem_of_le.
  apply list_elem_of_fmap. by exists j.
Qed.

Lemma depth_pos j : (0 < depth j)%nat.
Proof. destruct j; simpl; lia. Qed.

Lemma evalAll_ext ev ev' subs :
  (forall s, s ∈ subs -> ev s = ev' s) -> evalAll ev subs = evalAll ev' subs.
Proof.
  induction subs as [|s subs IH]; intros H; [done|]. simpl. rewrite H by (by left).
  repeat split_match; auto. apply IH. intros. apply H. by right.
Qed.

Lemma evalAny_ext ev ev' subs :
  (forall s, s ∈ subs -> ev s = ev' s) -> evalAny ev subs = evalAny ev' subs.
Proof.
  induction subs as [|s subs IH]; intros H; [done|]. simpl. rewrite H by (by left).
  repeat split_match; auto. apply IH. intros. apply H. by right.
Qed.

Lemma evalAll_some ev subs : (forall s, s ∈ subs -> is_Some (ev s)) -> is_Some (evalAll ev subs).
Proof.
  induction subs as [|s subs IH]; intros H; [done|]. simpl.
  destruct (H s) as [[[]|] ->]; [by left|..]; try done. apply IH. intros. apply H. by right.
Qed.

Lemma evalAny_some ev subs : (forall s, s ∈ subs -> is_Some (ev s)) -> is_Some (evalAny ev subs).
Proof.
  induction subs as [|s subs IH]; intros H; [done|]. simpl.
  destruct (H s) as [[[]|] ->]; [by left|..]; try done. apply IH. intros. apply H. by right.
Qed.

(** Any two amounts of fuel that reach the depth of the document agree. *)
Lemma evaluateConditions_agree f1 f2 j reqMap :
  (depth j <= f1)%nat -> (depth j <= f2)%nat ->
  is_Some (evaluateConditions f1 j reqMap) /\
  evaluateConditions f1 j reqMap = evaluateConditions f2 j reqMap.
Proof.
  revert f2 j. induction f1 as [|f1 IH]; intros [|f2] j H1 H2; pose proof (depth_pos j) as Hp;
    [lia..|].
  assert (Hsub : forall s, (depth s < depth j)%nat ->
    is_Some (evaluateConditions f1 s reqMap) /\
    evaluateConditions f1 s reqMap = evaluateConditions f2 s reqMap).
  { intros s Hs. apply IH; lia. }
  simpl. destruct (decodeNode j) as [n|e] eqn:Hd; [|by eauto].
  assert (Hlst : forall m, j = JObj m -> forall subs, JArr subs ∈ m.*2 -> forall s, s ∈ subs ->
                 (depth s < depth j)%nat).
  { intros m -> subs Hm s Hs. apply depth_member in Hm. apply depth_elem in Hs. lia. }
  apply decodeNode_from in Hd as [[-> ->]|(m & Hm & HA & HY & HN)]; [by simpl; eauto|].
  destruct (conditionNode.All n) as [subs|] eqn:?.
  { split; [apply evalAll_some|apply evalAll_ext]; intros; apply Hsub; eauto. }
  destruct (conditionNode.Any n) as [subs|] eqn:?.
  { split; [apply evalAny_some|apply evalAny_ext]; intros; apply Hsub; eauto. }
  destruct (conditionNode.Not n) as [sub|] eqn:?.
  { destruct (Hsub sub) as [[r Hr] <-]; [subst j; by apply depth_member, HN|].
    rewrite Hr. split; [|done]. destruct r as [[]|]; by eauto. }
  split; [|done]. destruct (_ && _); by eauto.
Qed.

(** Induction on conditions, through the lists of sub-conditions. *)
Lemma cond_nested_ind (P : cond -> Prop) :
  (forall cs, Forall P cs -> P (CAll cs)) -> (forall cs, Forall P cs -> P (CAny cs)) ->
  (forall c, P c -> P (CNot c)) -> (forall p o v, P (CLeaf p o v)) -> P CEmpty ->
  forall c, P c.
Proof.
  intros HA HY HN HL HE. fix IH 1. intros [cs|cs|c|p o v|].
  - apply HA. induction cs; constructor; [apply IH|done].
  - apply HY. induction cs; constructor; [apply IH|done].
  - apply HN, IH.
  - apply HL.
  - apply HE.
Qed.

Lemma evaluateLeaf_known path op v reqMap : op ∈ operators ->
  is_ok (evaluateLeaf path op v reqMap) = true.
Proof.
  unfold operators, evaluateLeaf. intros Hop.
  repeat match goal with
  | H : op ∈ _ :: _ |- _ => apply elem_of_cons in H as [->|H]
  | H : op ∈ [] |- _ => by apply elem_of_nil in H
  end; simpl; try done; by destruct (resolvePath reqMap path).
Qed.

Lemma evalAll_holds ev g cs :
  Forall (fun c => ev (encode c) = Some (Ok (g c))) cs ->
  evalAll ev (encode <$> cs) = Some (Ok (forallb g cs)).
Proof. induction 1 as [|c cs Hc _ IH]; [done|]. simpl. rewrite Hc. by destruct (g c). Qed.

Lemma evalAny_holds ev g cs :
  Forall (fun c => ev (encode c) = Some (Ok (g c))) cs ->
  evalAny ev (encode <$> cs) = Some (Ok (existsb g cs)).
Proof. induction 1 as [|c cs Hc _ IH]; [done|]. simpl. rewrite Hc. by destruct (g c). Qed.

(** The children of a list node evaluate to their meanings at the fuel that
    is left below it. *)
Lemma children_hold reqMap cs fuel :
  Forall (fun c => forall f, (depth (encode c) <= f)%nat ->
    wf_cond c = true -> evaluateConditions f (encode c) reqMap = Some (Ok (holds reqMap c))) cs ->
  forallb wf_cond cs = true -> (depth (JArr (encode <$> cs)) <= S fuel)%nat ->
  Forall (fun c => evaluateConditions fuel (encode c) reqMap = Some (Ok (holds reqMap c))) cs.
Proof.
  intros HF Hwf Hd. rewrite Forall_forall in HF |- *. intros c Hc.
  rewrite forallb_forall in Hwf. apply HF; [done| |by apply Hwf, list_elem_of_In].
  assert (depth (encode c) < depth (JArr (encode <$> cs)))%nat; [|lia].
  apply depth_elem. apply list_elem_of_fmap. by exists c.
Qed.

Lemma evaluateConditions_holds reqMap c : forall f, (depth (encode c) <= f)%nat ->
  wf_cond c = true -> evaluateConditions f (encode c) reqMap = Some (Ok (holds reqMap c)).
Proof.
  induction c as [cs IH|cs IH|c IH|p o v|] using cond_nested_ind; intros [|f] Hd Hwf;
    try (pose proof (depth_pos (encode CEmpty)); simpl in *; lia).
  - cbn [encode evaluateConditions]. cbn -[evalAll]. apply evalAll_holds.
    apply children_hold; [done|done|]. simpl in *; lia.
  - cbn [encode evaluateConditions]. cbn -[evalAny]. apply evalAny_holds.
    apply children_hold; [done|done|]. simpl in *; lia.
  - cbn [encode evaluateConditions].
    assert (decodeNode (JObj [("not", encode c)]) =
      Ok (conditionNode.mk None None (Some (encode c)) "" "" ANil)) as -> by (by destruct c).
    cbn. rewrite IH; [done| |done]. simpl in Hd. lia.
  - simpl in Hwf. apply andb_prop in Hwf as [Hp Ho]. apply bool_decide_eq_true in Ho.
    simpl. rewrite Hp.
    assert (String.eqb o "" = false) as -> by (unfold operators in Ho; set_unfold; naive_solver).
    simpl. pose proof (evaluateLeaf_known p o (to_any v) reqMap Ho) as Hk.
    by destruct (evaluateLeaf p o (to_any v) reqMap).
  - done.
Qed.
End ConditionFacts.

(** ** Facts about evaluation *)

Lemma strict_weak_key {A} (f : A -> Z) : strict_weak (fun a b => f a <? f b).
Proof. split; intros *; rewrite ?Z.ltb_lt, ?Z.ltb_ge; lia. Qed.

Lemma byEffect_weak : strict_weak byEffect.
Proof. exact (strict_weak_key (fun d => order (PolicyDecision.Effect d))). Qed.

Lemma sorted_head_min {A} (R : A -> A -> Prop) (x : A) l :
  (forall a, R a a) -> StronglySorted R (x :: l) -> forall y, y ∈ x :: l -> R x y.
Proof.
  intros Hr Hs y [->|Hy]%elem_of_cons; [apply Hr|].
  apply StronglySorted_inv in Hs as [_ Hall]. rewrite Forall_forall in Hall. auto.
Qed.

Lemma order_bounds d : 0 <= order d <= 3.
Proof. unfold order. repeat split_match; lia. Qed.

Lemma order_inj d1 d2 : known_effect d1 -> known_effect d2 -> order d1 = order d2 -> d1 = d2.
Proof.
  unfold known_effect, precedence. intros H1 H2.
  repeat match goal with
  | H : _ ∈ _ :: _ |- _ => apply elem_of_cons in H as [->|H]
  | H : _ ∈ [] |- _ => by apply elem_of_nil in H
  end; vm_compute; congruence.
Qed.

(** What comes before an effect in the documented order ranks below it. *)
Lemma stricter_than d : known_effect d -> exists stricter laxer, precedence = stricter ++ d :: laxer /\
  forall d', d' ∈ stricter -> order d' < order d.
Proof.
  unfold known_effect, precedence. intros Hd.
  repeat (apply elem_of_cons in Hd as [->|Hd]); [eexists [], _|eexists [_], _|eexists [_; _], _|eexists [_; _; _], _|by apply elem_of_nil in Hd];
    (split; [reflexivity|]); intros d' Hd'; repeat (apply elem_of_cons in Hd' as [->|Hd']); try (vm_compute; reflexivity); by apply elem_of_nil in Hd'.
Qed.

(** The default allows what is of low sensitivity only. *)
Lemma defaultDecision_exact {E : Env} req : PolicyDecision.PolicyID (defaultDecision req) = "" /\
  PolicyDecision.Effect (defaultDecision req) =
    if String.eqb (ToLower (AccessResource.Sensitivity_ (AccessRequest.Resource req))) "low" then DecisionAllow else DecisionDeny.
Proof.
  unfold defaultDecision.
  destruct (String.eqb_spec (ToLower (AccessResource.Sensitivity_ (AccessRequest.Resource req))) "low") as [->|]; [done|].
  by destruct (_ || _).
Qed.

Section EvaluateFacts.
Context {L : Lib} {E : Env} `{!EnvOk E}.

(** The list the engine builds holds exactly the applicable policies. *)
Lemma matched_applicable req (w : World L) n n' reqMap p :
  requestToMap req = Ok reqMap ->
  p ∈ base.filter (fun p => matches (Policy.Conditions p) reqMap = true)
        (sort_Slice n byPriority (base.filter (fun p => Policy.Enabled p = true)
          ((range_map n' (MemoryStore.policies (store w))).*2)))
  <-> applicable req w p.
Proof.
  intros Hreq. rewrite list_elem_of_filter, sort_Slice_perm, list_elem_of_filter.
  rewrite range_map_perm, list_elem_of_fmap. unfold applicable. split.
  - intros (Hm & He & [id v] & -> & Hin). apply elem_of_map_to_list in Hin. eauto 6.
  - intros ([id Hid] & He & reqMap' & Hreq' & Hm). rewrite Hreq in Hreq'.
    injection Hreq' as <-. split_and!; [done|done|].
    exists (id, p). split; [done|]. by apply elem_of_map_to_list.
Qed.

Lemma Evaluate_run req (w : World L) : exists d k,
  Evaluate req w = (Ok d, set_tick k w) /\
  ((forall p, ~ applicable req w p) /\ d = defaultDecision req \/
   exists p, applicable req w p /\ d = decisionOf p /\
     forall q, applicable req w q -> order (Policy.Effect p) <= order (Policy.Effect q)).
Proof.
  unfold Evaluate, Policies.List_, tbl_List, tbl_range. st_unfold. unfold gets, ask. simpl.
  set (ps := base.filter _ (sort_Slice _ byPriority _)).
  assert (Hps : forall p, p ∈ ps <-> applicable req w p)
    by (intros p; by apply matched_applicable).
  clearbody ps. destruct ps as [|p0 ps]; simpl.
  { eexists _, _. split; [reflexivity|]. left. split; [|done].
    intros p Hp. apply Hps in Hp. by apply not_elem_of_nil in Hp. }
  set (n := S (S (tick w))). set (ds := decisionOf p0 :: _).
  pose proof (sort_Slice_perm _ n byEffect ds) as Hperm.
  pose proof (sort_Slice_sorted _ n byEffect ds byEffect_weak) as Hsort.
  destruct (sort_Slice n byEffect ds) as [|d l] eqn:Hl.
  { apply Permutation_nil in Hperm. unfold ds in Hperm. done. }
  exists d, (S n). split; [reflexivity|]. right.
  assert (Hd : d ∈ ds) by (rewrite <- Hperm; by left).
  change ds with (decisionOf <$> (p0 :: ps)) in Hd, Hperm.
  apply list_elem_of_fmap in Hd as (p & -> & Hp). exists p. split; [by apply Hps|].
  split; [done|]. intros q Hq. apply Hps in Hq.
  assert (Hdq : decisionOf q ∈ decisionOf p :: l)
    by (rewrite Hperm; apply list_elem_of_fmap; by exists q).
  apply Z.ltb_ge. exact (sorted_head_min _ _ _ (sw_irrefl _ byEffect_weak) Hsort _ Hdq).
Qed.
End EvaluateFacts.

(** Conditions see the environment through regular expressions only. *)
Section TwoEnvironments.
Context (E1 E2 : Env) (Hre : forall p s, @regexp_MatchString E1 p s = @regexp_MatchString E2 p s).

Lemma evaluateLeaf_env path op v reqMap :
  @evaluateLeaf E1 path op v reqMap = @evaluateLeaf E2 path op v reqMap.
Proof.
  unfold evaluateLeaf. destruct (resolvePath reqMap path) as [a|]; [|done].
  assert (@compareRegex E1 a v = @compareRegex E2 a v) as ->; [|done].
  destruct v; simpl; by rewrite ?Hre.
Qed.

Lemma evaluateConditions_env fuel j reqMap :
  @evaluateConditions E1 fuel j reqMap = @evaluateConditions E2 fuel j reqMap.
Proof.
  revert j. induction fuel as [|fuel IH]; intros j; [done|]. simpl.
  destruct (decodeNode j) as [n|]; [|done].
  destruct (conditionNode.All n); [apply evalAll_ext; auto|].
  destruct (conditionNode.Any n); [apply evalAny_ext; auto|].
  destruct (conditionNode.Not n); [by rewrite IH|]. by rewrite evaluateLeaf_env.
Qed.

Lemma applicable_env {L : Lib} req (w1 w2 : World L) p : store w1 = store w2 ->
  @applicable L E1 req w1 p <-> @applicable L E2 req w2 p.
Proof.
  intros Hs. unfold applicable. rewrite Hs.
  assert (forall c m, @matches E1 c m = @matches E2 c m) as Hm.
  { intros [j|] m; [|done]. simpl. by rewrite evaluateConditions_env. }
  by setoid_rewrite Hm.
Qed.
End TwoEnvironments.

(** ** Properties *)

(** C38: evaluating a condition document always ends with a verdict or an error:
    the nesting depth of the document bounds the recursion, and with at least
    that much fuel the answer no longer depends on the fuel. *)
Theorem evaluateConditions_total `{Env} (fuel : nat) (j : json) (reqMap : any) :
  (depth j <= fuel)%nat ->
  is_Some (evaluateConditions fuel j reqMap) /\
  evaluateConditions fuel j reqMap = evaluateConditions (depth j) j reqMap.
Proof. intros Hf. by apply evaluateConditions_agree. Qed.

Lemma evaluateConditions_total_witness :
  (depth (encode (CNot CEmpty)) <= 10)%nat /\
  is_Some (evaluateConditions 10 (encode (CNot CEmpty)) ANil) /\
  evaluateConditions 10 (encode (CNot CEmpty)) ANil
  = evaluateConditions (depth (encode (CNot CEmpty))) (encode (CNot CEmpty)) ANil.
Proof. split; [simpl; lia|]. apply (evaluateConditions_total 10 (encode (CNot CEmpty)) ANil). simpl; lia. Defined.

(** C13: the engine implements the condition language: a document made of all /
    any / not / leaf nodes with known operators evaluates, short-circuiting and
    decoding included, to the Boolean meaning of the condition it encodes. *)
Theorem conditions_refine `{Env} (reqMap : any) (c : cond) :
  wf_cond c = true -> matches (Some (encode c)) reqMap = holds reqMap c.
Proof.
  intros Hwf. unfold matches. by rewrite (evaluateConditions_holds reqMap c (depth (encode c))).
Qed.

Lemma conditions_refine_witness :
  wf_cond (CAll [CLeaf "a" "eq" (JBool true); CNot (CAny [])]) = true /\
  matches (Some (encode (CAll [CLeaf "a" "eq" (JBool true); CNot (CAny [])]))) (AObj [("a", ABool true)])
  = holds (AObj [("a", ABool true)]) (CAll [CLeaf "a" "eq" (JBool true); CNot (CAny [])]).
Proof. split; [reflexivity|]. apply conditions_refine. reflexivity. Defined.

Lemma demo_deny_applicable :
  applicable demo_policy_request (demo_policy_world [demo_allow_all; demo_deny_rdp]) demo_deny_rdp.
Proof.
  split; [exists "deny-rdp"; reflexivity|]. split; [reflexivity|].
  eexists. split; [reflexivity|vm_compute; reflexivity].
Qed.

Lemma demo_policies_known q :
  applicable demo_policy_request (demo_policy_world [demo_allow_all; demo_deny_rdp]) q ->
  known_effect (Policy.Effect q).
Proof.
  intros [[id Hid] _]. simpl in Hid.
  apply lookup_insert_Some in Hid as [[_ <-]|[_ Hid]]; [apply (bool_decide_eq_true_1 (known_effect _)); reflexivity|].
  apply lookup_insert_Some in Hid as [[_ <-]|[_ Hid]]; [apply (bool_decide_eq_true_1 (known_effect _)); reflexivity|].
  by rewrite lookup_empty in Hid.
Qed.



(** deny overrides: when a deny policy applies and every applicable policy
    has one of the four known effects, the decision is deny, whatever the
    priorities, the walking order of the map and the sorting of ties. *)
Theorem Evaluate_deny_overrides {L : Lib} {E : Env} `{!EnvOk E} req (w : World L) p :
  applicable req w p -> Policy.Effect p = DecisionDeny ->
  (forall q, applicable req w q -> known_effect (Policy.Effect q)) ->
  exists d w', Evaluate req w = (Ok d, w') /\ PolicyDecision.Effect d = DecisionDeny.
Proof.
  intros Hp Heff Hknown. destruct (Evaluate_run req w) as (d & k & -> & [[Hno _]|(q & Hq & -> & Hmin)]).
  { by destruct (Hno p). }
  eexists _, _. split; [done|]. simpl. pose proof (Hmin p Hp) as Hle.
  pose proof (order_bounds (Policy.Effect q)) as Hb.
  apply order_inj; [by apply Hknown|unfold known_effect, precedence; set_solver|].
  rewrite Heff in Hle. change (order DecisionDeny) with 0 in *. lia.
Qed.

Lemma Evaluate_deny_overrides_witness : exists d w',
  Evaluate demo_policy_request (demo_policy_world [demo_allow_all; demo_deny_rdp]) = (Ok d, w') /\
  PolicyDecision.Effect d = DecisionDeny.
Proof.
  apply (Evaluate_deny_overrides demo_policy_request
           (demo_policy_world [demo_allow_all; demo_deny_rdp]) demo_deny_rdp).
  - exact demo_deny_applicable.
  - reflexivity.
  - exact demo_policies_known.
Defined.

(** the decision is deterministic in the request and the stored policies:
    two runs with different clocks, map orders and placements of ties (but the
    same regular-expression engine and case tables) reach the same effect, when
    the applicable policies have known effects. *)
Theorem Evaluate_deterministic {L : Lib} (E1 E2 : Env) (Ok1 : EnvOk E1) (Ok2 : EnvOk E2)
    req (w1 w2 : World L) :
  (forall p s, @regexp_MatchString E1 p s = @regexp_MatchString E2 p s) ->
  (forall s, @ToLower E1 s = @ToLower E2 s) ->
  store w1 = store w2 ->
  (forall q, @applicable L E1 req w1 q -> known_effect (Policy.Effect q)) ->
  exists d1 d2 k1 k2,
    @Evaluate L E1 req w1 = (Ok d1, set_tick k1 w1) /\
    @Evaluate L E2 req w2 = (Ok d2, set_tick k2 w2) /\
    PolicyDecision.Effect d1 = PolicyDecision.Effect d2.
Proof.
  intros Hre Hlow Hs Hk.
  assert (Happ : forall p, @applicable L E1 req w1 p <-> @applicable L E2 req w2 p)
    by (intros p; by apply applicable_env).
  destruct (@Evaluate_run L E1 Ok1 req w1) as (d1 & k1 & -> & H1).
  destruct (@Evaluate_run L E2 Ok2 req w2) as (d2 & k2 & -> & H2).
  exists d1, d2, k1, k2. split; [done|]. split; [done|].
  destruct H1 as [[Hno1 ->]|(p & Hp & -> & Hmin1)], H2 as [[Hno2 ->]|(q & Hq & -> & Hmin2)].
  - unfold defaultDecision. by rewrite Hlow.
  - exfalso. by apply (Hno1 q), Happ.
  - exfalso. by apply (Hno2 p), Happ.
  - simpl. apply order_inj; [by apply Hk|by apply Hk, Happ|].
    apply Z.le_antisymm; [by apply Hmin1, Happ|by apply Hmin2, Happ].
Qed.

Lemma Evaluate_deterministic_witness : exists d1 d2 k1 k2,
  let w := demo_policy_world [demo_allow_all; demo_deny_rdp] in
  @Evaluate _ demo_env demo_policy_request w = (Ok d1, set_tick k1 w) /\
  @Evaluate _ demo_env_rev demo_policy_request w = (Ok d2, set_tick k2 w) /\
  PolicyDecision.Effect d1 = PolicyDecision.Effect d2.
Proof.
  apply (Evaluate_deterministic demo_env demo_env_rev demo_env_ok demo_env_rev_ok
           demo_policy_request).
  - reflexivity.
  - reflexivity.
  - reflexivity.
  - exact demo_policies_known.
Defined.

(** fail closed: with no applicable policy the answer allows access exactly
    to resources whose sensitivity is "low" in any letter case, and denies every
    other sensitivity, unknown and empty ones included. *)
Theorem Evaluate_fail_closed {L : Lib} {E : Env} `{!EnvOk E} req (w : World L) :
  (forall p, ~ applicable req w p) ->
  exists d w', Evaluate req w = (Ok d, w') /\ PolicyDecision.PolicyID d = "" /\
    PolicyDecision.Effect d =
      if String.eqb (ToLower (AccessResource.Sensitivity_ (AccessRequest.Resource req))) "low"
      then DecisionAllow else DecisionDeny.
Proof.
  intros Hno. destruct (Evaluate_run req w) as (d & k & -> & [[_ ->]|(q & Hq & _)]);
    [|by destruct (Hno q)].
  eexists _, _. split; [done|]. apply defaultDecision_exact.
Qed.

Lemma Evaluate_fail_closed_witness : exists d w',
  Evaluate demo_policy_request (demo_policy_world []) = (Ok d, w') /\
  PolicyDecision.PolicyID d = "" /\ PolicyDecision.Effect d = DecisionAllow.
Proof.
  apply (Evaluate_fail_closed demo_policy_request (demo_policy_world [])).
  intros p [[id Hid] _]. simpl in Hid. by rewrite lookup_empty in Hid.
Defined.

(** an effect the engine does not know ranks with deny, so it can shadow a
    deny policy: with one policy of each, the decision depends on how ties are
    placed, and in one environment the deny is lost. *)
Theorem unknown_effect_shadows_deny :
  exists (E : Env) (w : World demo_lib) req, EnvOk E /\
    applicable req w demo_deny_rdp /\ Policy.Effect demo_deny_rdp = DecisionDeny /\
    exists d w', Evaluate req w = (Ok d, w') /\ PolicyDecision.Effect d = "block".
Proof.
  exists demo_env, (demo_policy_world [demo_policy "z" 50 "block" (CAll []); demo_deny_rdp]),
    demo_policy_request.
  split; [apply demo_env_ok|]. split.
  { split; [exists "deny-rdp"; reflexivity|]. split; [reflexivity|].
    eexists. split; [reflexivity|vm_compute; reflexivity]. }
  split; [reflexivity|]. eexists _, _. split; [vm_compute; reflexivity|reflexivity].
Qed.
