(* ===== verification/Inventory.v ===== *)
(** * core/internal/inventory: the Active Directory inventory scanner

    A scan reads the accounts of a directory, derives a record per entry,
    counts them and reconciles the identity store with them. The directory
    client is third-party ([Lib]); closing a connection is not modelled, as
    nothing depends on it. *)

From S2P Require Import Prelude GoStrings GoTime GoFloat GoCrypto GoJson Types World Instances Storage.

Definition uacAccountDisable : Z := 2.
Definition staleThresholdDays : Z := 90.
Definition fileTimeUnixDelta : Z := 11644473600.

Definition privilegedGroupSuffixes : list string :=
  ["-512"; "-518"; "-519"; "-520"; "-544"; "-548"; "-549"; "-550"; "-551"].

Definition privilegedGroupNames : list string :=
  ["domain admins"; "enterprise admins"; "schema admins"; "group policy creator owners";
   "administrators"; "account operators"; "server operators"; "print operators"; "backup operators"].

Module Config.
Record t := mk {
  LDAPURL : string; BindDN : string; BindPassword : string; BaseDN : string; InsecureSkipVerify : bool
}.
End Config.

(** ** Attribute values *)

(** [time.Unix(secs, nsec).UTC()]. *)
Definition time_Unix (secs nsec : Z) : Time := mkTime (secs * Second + nsec) 0.

Definition parseFileTime (s : string) : Time :=
  let s := TrimSpace s in
  if String.eqb s "" || String.eqb s "0" || String.eqb s "9223372036854775807" then zeroTime
  else
    let '(ft, ok) := ParseInt s in
    if negb ok || (ft <=? 0) then zeroTime
    else
      let secs := int64 (Z.quot ft 10000000 - fileTimeUnixDelta) in
      time_Unix secs (int64 (Z.rem ft 10000000 * 100)).

Definition char_comma : Ascii.ascii := ascii_of 44.
Definition char_dash : Ascii.ascii := ascii_of 45.

Definition ridSuffixOf (sid : string) : string :=
  let i := LastIndex sid char_dash in
  if (i <=? 0) || (i =? Z.of_nat (String.length sid) - 1) then ""
  else
    let rid := drop_bytes (Z.to_nat i) sid in
    if existsb (fun '(c, _) => (c <? 48) || (57 <? c)) (runes (bytes (drop_bytes 1 rid))) then ""
    else rid.

(** The RID an objectSid or primaryGroupID value names, with its dash. *)
Definition ridOf (sid : string) : string :=
  let rid := ridSuffixOf sid in
  if String.eqb rid "" && (String.eqb (TrimLeft sid is_digit) "" && negb (String.eqb sid ""))
  then "-" +:+ TrimLeft sid (Z.eqb 48)
  else rid.

Section Ops.
Context {L : Lib} {E : Env}.

Definition cnOf_loop : list string -> string :=
  fix loop parts :=
    match parts with
    | [] => ""
    | part :: parts' =>
        let part := TrimSpace part in
        if (3 <? Z.of_nat (String.length part)) && EqualFold (take_bytes 3 part) "cn="
        then ToLower (TrimSpace (drop_bytes 3 part))
        else loop parts'
    end.

Definition cnOf (dn : string) : string := cnOf_loop (Split char_comma dn).

Definition extractOU_loop : list string -> string :=
  fix loop parts :=
    match parts with
    | [] => ""
    | p :: parts' =>
        let p := TrimSpace p in
        if HasPrefix (ToUpper p) "OU=" then drop_bytes 3 p else loop parts'
    end.

Definition extractOU (dn : string) : string := extractOU_loop (Split char_comma dn).

(** Signal 1: the groups, by name. *)
Definition groupSignal (memberOf : list string) : bool :=
  existsb (fun group => let cn := cnOf group in
             if String.eqb cn "" then false else existsb (String.eqb cn) privilegedGroupNames) memberOf.

(** Signal 2: well-known RIDs on the account itself. *)
Definition ridSignal (sids : list string) : bool :=
  existsb (fun sid => let rid := ridOf sid in
             if String.eqb rid "" then false else existsb (String.eqb rid) privilegedGroupSuffixes) sids.

Definition isPrivilegedEntry (entry : LdapEntry) (memberOf : list string) : bool :=
  groupSignal memberOf ||
  ridSignal [GetAttributeValue entry "objectSid"; GetAttributeValue entry "primaryGroupID"].

Definition parseEntry (entry : LdapEntry) : ADInventoryRecord.t :=
  let attr := GetAttributeValue entry in
  let uac := (ParseInt (attr "userAccountControl")).1 in
  let enabled := Z.land uac uacAccountDisable =? 0 in
  let objectClass :=
    foldl (fun acc oc => if String.eqb oc "computer" then "computer" else acc) "user"
      (GetAttributeValues entry "objectClass") in
  let spns := GetAttributeValues entry "servicePrincipalName" in
  let memberOf := GetAttributeValues entry "memberOf" in
  let isGMSA := negb (String.eqb (attr "msDS-GroupMSAMembership") "") in
  let isPrivileged := isPrivilegedEntry entry memberOf in
  let dn := if String.eqb (entry_DN entry) "" then attr "distinguishedName" else entry_DN entry in
  let ou := extractOU dn in
  ADInventoryRecord.mk (attr "objectSid") (attr "sAMAccountName") (attr "displayName") objectClass uac spns
    memberOf (parseFileTime (attr "lastLogonTimestamp")) (parseFileTime (attr "pwdLastSet")) enabled ou
    isGMSA isPrivileged.

(** ** Summary *)

Definition count_if (b : bool) (n : Z) : Z := if b then int64 (n + 1) else n.

Definition hasService (rec : ADInventoryRecord.t) : bool :=
  (0 <? length (ADInventoryRecord.SPNs rec))%nat || ADInventoryRecord.IsGMSA rec.

Definition isStale (now : Time) (rec : ADInventoryRecord.t) : bool :=
  negb (IsZero (ADInventoryRecord.LastLogonTimestamp rec)) &&
  (DurationOf staleThresholdDays (24 * Hour) <? Sub now (ADInventoryRecord.LastLogonTimestamp rec)).

Definition summarize_one (now : Time) (s : ADInventorySummary.t) (rec : ADInventoryRecord.t) : ADInventorySummary.t :=
  ADInventorySummary.mk
    (count_if true (ADInventorySummary.TotalAccounts s))
    (count_if (String.eqb (ADInventoryRecord.ObjectClass rec) "user") (ADInventorySummary.UserAccounts s))
    (count_if (String.eqb (ADInventoryRecord.ObjectClass rec) "computer") (ADInventorySummary.ComputerAccounts s))
    (count_if (hasService rec) (ADInventorySummary.ServiceAccounts s))
    (count_if (ADInventoryRecord.IsPrivileged rec) (ADInventorySummary.PrivilegedAccounts s))
    (count_if (isStale now rec) (ADInventorySummary.StaleAccounts s))
    (count_if (negb (ADInventoryRecord.Enabled rec)) (ADInventorySummary.DisabledAccounts s))
    (ADInventorySummary.ScannedAt s).

Definition summarize (records : list ADInventoryRecord.t) (now : Time) : ADInventorySummary.t :=
  foldl (summarize_one now) (ADInventorySummary.mk 0 0 0 0 0 0 0 now) records.

(** ** The directory *)

Definition connect (cfg : Config.t) : M (result LdapConn) :=
  conn ←? (if HasPrefix (Config.LDAPURL cfg) "ldaps://"
           then ask (fun n => ldap_DialURL n (Config.LDAPURL cfg) (Some (Config.InsecureSkipVerify cfg)))
           else ask (fun n => ldap_DialURL n (Config.LDAPURL cfg) None));
  if negb (String.eqb (Config.BindDN cfg) "") then
    r ← ask (fun n => ldap_Bind n conn (Config.BindDN cfg) (Config.BindPassword cfg));
    mret (match r with Err e => Err ("ldap bind: " +:+ e) | Ok _ => Ok conn end)
  else mret (Ok conn).

Definition searchAttrs : list string :=
  ["sAMAccountName"; "displayName"; "objectSid"; "objectClass"; "userAccountControl"; "servicePrincipalName";
   "memberOf"; "lastLogonTimestamp"; "pwdLastSet"; "primaryGroupID"; "msDS-GroupMSAMembership"].

Definition fetchAccounts (cfg : Config.t) (conn : LdapConn) : M (result (list ADInventoryRecord.t)) :=
  entries ←? ask (fun n => ldap_Search n conn (Config.BaseDN cfg)
                     "(|(objectClass=user)(objectClass=computer))" searchAttrs);
  mret (Ok (parseEntry <$> entries)).

Definition fetchRecords (cfg : Config.t) : M (result (list ADInventoryRecord.t)) :=
  conn ← connect cfg;
  match conn with
  | Err e => mret (Err ("ldap connect: " +:+ e))
  | Ok conn =>
      records ← fetchAccounts cfg conn;
      mret (match records with Err e => Err ("fetch accounts: " +:+ e) | Ok rs => Ok rs end)
  end.

(** ** Reconciling the identity store *)

Definition identityType_of (rec : ADInventoryRecord.t) : IdentityType :=
  if String.eqb (ADInventoryRecord.ObjectClass rec) "computer" then IdentityTypeMachine
  else if hasService rec then IdentityTypeServiceAccount else IdentityTypePerson.

(** The seven attributes a scan writes, over the ones already there. *)
Definition scan_attributes (rec : ADInventoryRecord.t) (m : gmap string string) : gmap string string :=
  <["is_gmsa" := FormatBool (ADInventoryRecord.IsGMSA rec)]>
  (<["has_spn" := FormatBool (0 <? length (ADInventoryRecord.SPNs rec))%nat]>
  (<["enabled" := FormatBool (ADInventoryRecord.Enabled rec)]>
  (<["pwd_last_set" := FormatRFC3339 (ADInventoryRecord.PwdLastSet rec)]>
  (<["last_logon" := FormatRFC3339 (ADInventoryRecord.LastLogonTimestamp rec)]>
  (<["ou" := ADInventoryRecord.OU rec]>
  (<["sid" := ADInventoryRecord.SID rec]> m)))))).

(** An existing identity after the assignments of a scan at time [now]. *)
Definition rescan (rec : ADInventoryRecord.t) (now : Time) (i : Identity.t) : Identity.t :=
  Identity.mk (Identity.ID i) (Identity.Username i) (Identity.DisplayName i) (identityType_of rec)
    (ADInventoryRecord.MemberOf rec) (Identity.Email i) (ADInventoryRecord.IsPrivileged rec)
    (Identity.UsualGeo i) (scan_attributes rec (Identity.Attributes i)) (Identity.CreatedAt i) now.

Definition upsertIdentity (rec : ADInventoryRecord.t) : M (result unit) :=
  existing ← Identities.GetByUsername (ADInventoryRecord.SamAccountName rec);
  match existing with
  | Ok existing =>
      now ← Now;
      existing ← assign (rescan rec (UTC now)) existing;
      Identities.Update existing
  | Err _ =>
      id ← NewID;
      created ← Now;
      updated ← Now;
      Identities.Create (Identity.mk id (ADInventoryRecord.SamAccountName rec)
        (ADInventoryRecord.DisplayName rec) (identityType_of rec) (ADInventoryRecord.MemberOf rec) ""
        (ADInventoryRecord.IsPrivileged rec) "" (scan_attributes rec ∅) (UTC created) (UTC updated))
  end.

Fixpoint upsert_loop (records : list ADInventoryRecord.t) : M (option string) :=
  match records with
  | [] => mret None
  | rec :: records' =>
      r ← upsertIdentity rec;
      match r with
      | Err e => mret (Some ("upsert identity " +:+ ADInventoryRecord.SamAccountName rec +:+ ": " +:+ e))
      | Ok _ => upsert_loop records'
      end
  end.

Definition Scan (cfg : Config.t) : M (ADInventorySummary.t * option string) :=
  records ← fetchRecords cfg;
  match records with
  | Err e => mret (ADInventorySummary.mk 0 0 0 0 0 0 0 zeroTime, Some e)
  | Ok records =>
      now ← Now;
      let summary := summarize records (UTC now) in
      err ← upsert_loop records;
      mret (summary, err)
  end.
End Ops.

(** ** Concrete runs *)

Example fileTime_2020 : parseFileTime "132223104000000000" = Date 2020 1 1 0 0 0 0.
Proof. vm_compute. reflexivity. Qed.
Example fileTime_1950 : parseFileTime " 110133216000000005 " = Date 1950 1 1 0 0 0 500.
Proof. vm_compute. reflexivity. Qed.
Example fileTime_never : parseFileTime "9223372036854775807" = zeroTime.
Proof. vm_compute. reflexivity. Qed.
Example cn_ex : cnOf "cn=Domain Admins ,CN=Users,DC=corp" = "domain admins".
Proof. vm_compute. reflexivity. Qed.
Example ou_ex : extractOU "CN=Bob,ou=Staff,DC=corp" = "Staff".
Proof. vm_compute. reflexivity. Qed.

Definition demo_config : Config.t := Config.mk "ldaps://dc" "cn=reader" "pw" "DC=corp" false.

Example scan_ex : (Scan demo_config demo_world).1
  = (ADInventorySummary.mk 2 2 0 1 2 1 1 (UTC (demo_clock 3)), None).
Proof. vm_compute. reflexivity. Qed.

(** ** Facts: strings *)

Lemma chunks_concat rs : forall l, sum_list rs.*2 = length l -> concat (chunks rs l).*2 = l.
Proof.
  induction rs as [|[r n] rs IH]; intros l Hl; cbn in Hl.
  - by destruct l.
  - cbn [chunks]. rewrite fmap_cons. cbn [snd concat]. rewrite IH; [apply take_drop|].
    rewrite length_drop. unfold id in *. lia.
Qed.

Lemma drop_while_none {A} (p : A -> bool) l : Forall (fun x => p x = false) l -> drop_while p l = l.
Proof. by destruct 1 as [|x l Hx]; cbn; [|rewrite Hx]. Qed.

Lemma TrimSpace_id s :
  Forall (fun c => IsSpace c.1 = false) (chunks (runes (bytes s)) (bytes s)) -> TrimSpace s = s.
Proof.
  intros H. unfold TrimSpace. rewrite (drop_while_none _ _ H), drop_while_none by by apply Forall_reverse.
  rewrite reverse_involutive, chunks_concat by apply runes_cover. apply of_bytes_bytes.
Qed.

Lemma runes_fuel_ascii fuel : forall l, (length l <= fuel)%nat -> Forall (fun b => b < 128) l ->
  runes_fuel fuel l = (fun b => (b, 1%nat)) <$> l.
Proof.
  induction fuel as [|fuel IH]; intros [|b l] Hlen Hl; try done; [cbn in Hlen; lia|].
  apply Forall_cons in Hl as [Hb Hl]. cbn [runes_fuel DecodeRune]. rewrite (proj2 (Z.ltb_lt _ _) Hb).
  cbn [drop]. rewrite drop_0, IH; [done| |done]. cbn in Hlen. lia.
Qed.

Lemma runes_ascii l : Forall (fun b => b < 128) l -> runes l = (fun b => (b, 1%nat)) <$> l.
Proof. by apply runes_fuel_ascii. Qed.

Lemma chunks_ascii l : chunks ((fun b => (b, 1%nat)) <$> l) l = (fun b => (b, [b])) <$> l.
Proof. induction l as [|b l IH]; [done|]. cbn. by rewrite take_0, drop_0, IH. Qed.


Lemma TrimSpace_digits s : digits_only s -> TrimSpace s = s.
Proof.
  intros H. apply TrimSpace_id. rewrite runes_ascii, chunks_ascii.
  - apply Forall_fmap. eapply Forall_impl; [exact H|]. cbn. unfold is_digit, IsSpace. lia.
  - eapply Forall_impl; [exact H|]. cbn. unfold is_digit. lia.
Qed.

Lemma DecodeRune_high b l : 128 <= b -> 128 <= (DecodeRune (b :: l)).1.
Proof.
  intros Hb. unfold DecodeRune, cont, RuneError. repeat case_match; cbn in *; lia.
Qed.

(** The runes are all digits exactly when the bytes are. *)
Lemma digit_runes fuel : forall l, (length l <= fuel)%nat ->
  Forall (fun b => is_digit b = true) l <->
  existsb (fun '(c, _) => (c <? 48) || (57 <? c)) (runes_fuel fuel l) = false.
Proof.
  induction fuel as [|fuel IH]; intros [|b l] Hlen; cbn in Hlen; try done; [lia|].
  rewrite Forall_cons. cbn [runes_fuel]. destruct (Z_lt_le_dec b 128) as [Hb|Hb].
  - cbn [DecodeRune]. rewrite (proj2 (Z.ltb_lt _ _) Hb). cbn [existsb drop]. rewrite drop_0, IH by lia.
    unfold is_digit. rewrite orb_false_iff. split; intros [? ?]; (split; [lia|done]).
  - pose proof (DecodeRune_high b l Hb) as Hr. destruct (DecodeRune (b :: l)) as [r w]. cbn [existsb fst] in *.
    unfold is_digit. rewrite orb_false_iff. split; intros [? ?]; lia.
Qed.


Lemma pretty_ne n s : 0 < n < two63 -> (ParseInt s).1 <> n -> pretty n <> s.
Proof. intros Hn Hs <-. by rewrite ParseInt_pretty in Hs. Qed.

(** ** Facts: time stamps *)

Lemma parseFileTime_pretty ft : 0 < ft < two63 - 1 ->
  parseFileTime (pretty ft) = mkTime (ft * 100 - fileTimeUnixDelta * Second) 0.
Proof.
  intros Hft. assert (Hft' : 0 < ft < two63) by lia.
  unfold parseFileTime. rewrite TrimSpace_digits by (apply pretty_digits; lia).
  rewrite ParseInt_pretty by done.
  repeat match goal with |- context [String.eqb (pretty ft) ?s] =>
    destruct (String.eqb_spec (pretty ft) s) as [Heq|_];
      [exfalso; revert Heq; apply pretty_ne; [done|vm_compute; unfold two63 in *; lia]|] end.
  cbn [orb negb]. replace (ft <=? 0) with false by lia.
  rewrite Z.quot_div_nonneg, Z.rem_mod_nonneg by lia.
  pose proof (Z.div_mod ft 10000000 ltac:(lia)). pose proof (Z.mod_pos_bound ft 10000000 ltac:(lia)).
  unfold fileTimeUnixDelta, time_Unix, Second in *.
  rewrite !int64_id by (unfold in_int64, two63 in *; lia). f_equal. lia.
Qed.

(** ** Facts: relative identifiers *)


Lemma LastIndex_app p c q : LastIndex q c = -1 ->
  LastIndex (p +:+ String c q) c = Z.of_nat (String.length p).
Proof.
  intros Hq. induction p as [|d p IH]; rewrite ?str_app_nil, ?str_app_cons; cbn [LastIndex].
  - by rewrite Hq, Ascii.eqb_refl.
  - rewrite IH. cbn [String.length]. replace (0 <=? _) with true by lia. lia.
Qed.

Lemma LastIndex_inv s c : 0 <= LastIndex s c ->
  exists p q, s = p +:+ String c q /\ LastIndex s c = Z.of_nat (String.length p).
Proof.
  induction s as [|d s IH]; cbn; [lia|]. destruct (Z.leb_spec 0 (LastIndex s c)) as [Hi|Hi].
  - destruct (IH Hi) as (p & q & -> & ->). intros _. exists (String d p), q. split; [done|]. cbn. lia.
  - destruct (Ascii.eqb_spec d c) as [->|_]; [|lia]. intros _. by exists "", s.
Qed.

Lemma LastIndex_digits s : digits_only s -> LastIndex s char_dash = -1.
Proof.
  induction s as [|c s IH]; [done|]. intros [Hc Hs]%digits_only_cons. cbn [LastIndex]. rewrite IH by done. cbn [Z.leb Z.compare].
  destruct (Ascii.eqb_spec c char_dash) as [->|_]; [by vm_compute in Hc|done].
Qed.


(** A SID ends in a dash and digits, after something. *)
Lemma ridSuffixOf_spec sid ds : ds <> "" -> digits_only ds ->
  ridSuffixOf sid = "-" +:+ ds <-> exists p, p <> "" /\ sid = p +:+ "-" +:+ ds.
Proof.
  intros Hne Hds. unfold ridSuffixOf. split.
  - destruct (Z.leb_spec (LastIndex sid char_dash) 0) as [|Hi]; [done|].
    destruct (LastIndex_inv sid char_dash ltac:(lia)) as (p & q & -> & Hp). rewrite Hp in *.
    rewrite Nat2Z.id, drop_bytes_app. destruct (_ =? _); [done|]. cbn [orb].
    destruct (existsb _ _); [done|]. intros Heq. exists p.
    split; [by intros ->|]. by rewrite Heq.
  - intros (p & Hp & ->). change ("-" +:+ ds) with (String char_dash ds).
    rewrite LastIndex_app by by apply LastIndex_digits.
    pose proof (str_length_pos p Hp). pose proof (str_length_pos ds Hne).
    replace (Z.of_nat (String.length p) <=? 0) with false by lia.
    rewrite str_length_app. change (String.length (String char_dash ds)) with (S (String.length ds)).
    rewrite (proj2 (Z.eqb_neq _ _)) by lia. cbn [orb].
    rewrite Nat2Z.id, drop_bytes_app. change (drop_bytes 1 (String char_dash ds)) with ds.
    unfold runes. by rewrite (proj1 (digit_runes _ (bytes ds) (le_n _)) Hds).
Qed.

Lemma TrimLeft_digits s : TrimLeft s is_digit = "" <-> digits_only s.
Proof.
  induction s as [|c s IH]; [by split; [intros _; apply Forall_nil|]|].
  cbn [TrimLeft]. rewrite digits_only_cons, <- IH. destruct (is_digit (byte_of c)); naive_solver.
Qed.

Lemma zeros_S k s : zeros (S k) +:+ s = String (ascii_of 48) (zeros k +:+ s).
Proof. reflexivity. Qed.

(** Dropping leading zeros of a number written without any. *)
Lemma TrimLeft_zeros s c ds : byte_of c <> 48 ->
  TrimLeft s (Z.eqb 48) = String c ds <-> exists k, s = zeros k +:+ String c ds.
Proof.
  intros Hc. split.
  - induction s as [|d s IH]; cbn [TrimLeft]; [done|]. destruct (Z.eqb_spec 48 (byte_of d)) as [Hd|Hd].
    + intros (k & ->)%IH. exists (S k). rewrite zeros_S. f_equal. apply (f_equal ascii_of) in Hd.
      by rewrite ascii_of_byte_of in Hd.
    + intros ->. by exists 0%nat.
  - intros (k & ->). induction k as [|k IH].
    + change (zeros 0) with "". rewrite str_app_nil. cbn [TrimLeft].
      by destruct (Z.eqb_spec 48 (byte_of c)) as [?|_]; [congruence|].
    + rewrite zeros_S. exact IH.
Qed.

Lemma digits_only_app s t : digits_only (s +:+ t) <-> digits_only s /\ digits_only t.
Proof.
  induction s as [|c s IH]; [split; [by split; [apply Forall_nil|]|by intros [_ ?]]|].
  rewrite str_app_cons, !digits_only_cons, IH. tauto.
Qed.

Lemma digits_only_zeros k : digits_only (zeros k).
Proof.
  induction k as [|k IH]; [by apply Forall_nil|].
  change (zeros (S k)) with (String (ascii_of 48) (zeros k)). by apply digits_only_cons.
Qed.

(** What it means that an attribute value names the number [n]: it is a SID
    that ends in it, or the number itself, leading zeros allowed. *)
Definition names_rid (v : string) (n : Z) : Prop :=
  (exists p, p <> "" /\ v = p +:+ "-" +:+ pretty n) \/ (exists k, v = zeros k +:+ pretty n).

Lemma ridSuffixOf_digits s : digits_only s -> ridSuffixOf s = "".
Proof. intros Hs. unfold ridSuffixOf. by rewrite LastIndex_digits. Qed.

Lemma ridOf_spec sid n c ds : pretty n = String c ds -> digits_only (pretty n) -> byte_of c <> 48 ->
  ridOf sid = "-" +:+ pretty n <-> names_rid sid n.
Proof.
  intros Hpn Hd Hc. unfold names_rid.
  rewrite <- ridSuffixOf_spec by (done || by rewrite Hpn). unfold ridOf.
  destruct (String.eqb_spec (TrimLeft sid is_digit) "") as [Hs|Hs].
  - apply TrimLeft_digits in Hs as Hs'. rewrite ridSuffixOf_digits by done. cbn [String.eqb andb].
    destruct (String.eqb_spec sid "") as [->|Hsid]; cbn [negb].
    + split; [done|]. intros [?|(k & Hk)]; [done|]. rewrite Hpn in Hk. by destruct k.
    + rewrite Hpn, <- TrimLeft_zeros by done.
      split; [intros Heq%(inj (String.append "-")); by right|]. by intros [?| ->].
  - rewrite andb_false_r. split; [by left|]. intros [?|(k & ->)]; [done|]. destruct Hs.
    apply TrimLeft_digits, digits_only_app. split; [apply digits_only_zeros|done].
Qed.

(** The well-known relative identifiers. *)
Definition privilegedRIDs : list Z := [512; 518; 519; 520; 544; 548; 549; 550; 551].

Lemma existsb_eqb s l : existsb (String.eqb s) l = true <-> s ∈ l.
Proof.
  rewrite existsb_exists. split.
  - intros (x & Hx & ->%String.eqb_eq). by apply list_elem_of_In.
  - intros H. exists s. split; [by apply list_elem_of_In|apply String.eqb_refl].
Qed.

Lemma privilegedRIDs_spec sid :
  ridOf sid ∈ privilegedGroupSuffixes <-> exists n, n ∈ privilegedRIDs /\ names_rid sid n.
Proof.
  assert (Hsuf : privilegedGroupSuffixes = (fun n => "-" +:+ pretty n) <$> privilegedRIDs) by reflexivity.
  assert (Hp : forall n, n ∈ privilegedRIDs ->
    exists c ds, pretty n = String c ds /\ digits_only (pretty n) /\ byte_of c <> 48).
  { apply Forall_forall. unfold privilegedRIDs.
    repeat constructor; eexists _, _; (split; [reflexivity|]); (split; [|by vm_compute]);
      repeat constructor. }
  rewrite Hsuf, list_elem_of_fmap. split.
  - intros (n & Heq & Hn). destruct (Hp n Hn) as (c & ds & Hpn & Hd & Hc). exists n.
    split; [done|]. by apply (ridOf_spec sid n c ds).
  - intros (n & Hn & Hr). destruct (Hp n Hn) as (c & ds & Hpn & Hd & Hc). exists n.
    split; [|done]. by apply (ridOf_spec sid n c ds).
Qed.

Section PrivilegeFacts.
Context {L : Lib} {E : Env}.

Lemma groupSignal_spec groups :
  groupSignal groups = true <-> exists g, g ∈ groups /\ cnOf g ∈ privilegedGroupNames.
Proof.
  unfold groupSignal. rewrite existsb_exists. split; intros (g & Hg & Hcn); exists g;
    (split; [by apply list_elem_of_In|]); destruct (String.eqb_spec (cnOf g) "") as [Hz|]; try done.
  - by apply existsb_eqb.
  - apply existsb_eqb in Hcn. by rewrite Hz in Hcn.
  - by apply existsb_eqb.
Qed.

Lemma ridSignal_spec sids :
  ridSignal sids = true <-> exists v n, v ∈ sids /\ n ∈ privilegedRIDs /\ names_rid v n.
Proof.
  unfold ridSignal. rewrite existsb_exists. split.
  - intros (v & Hv%list_elem_of_In & Hr). destruct (String.eqb (ridOf v) ""); [done|].
    apply existsb_eqb, privilegedRIDs_spec in Hr as (n & Hn). by exists v, n.
  - intros (v & n & Hv%list_elem_of_In & Hn). exists v. split; [done|].
    assert (Hin : ridOf v ∈ privilegedGroupSuffixes) by (apply privilegedRIDs_spec; by exists n).
    apply existsb_eqb in Hin as Hex. by destruct (String.eqb_spec (ridOf v) "") as [Hz|]; [rewrite Hz in Hex|].
Qed.
End PrivilegeFacts.

(** ** Facts: the summary *)

(** How many records satisfy [p]. *)
Definition counted (p : ADInventoryRecord.t -> bool) (l : list ADInventoryRecord.t) : Z :=
  Z.of_nat (length (base.filter (fun r => p r = true) l)).

Lemma counted_le p l : 0 <= counted p l <= Z.of_nat (length l).
Proof. unfold counted. pose proof (length_filter (fun r => p r = true) l). lia. Qed.

Lemma counted_cons p r l : counted p (r :: l) = (if p r then 1 else 0) + counted p l.
Proof.
  unfold counted. rewrite filter_cons. destruct (p r); [|by rewrite decide_False].
  rewrite decide_True by done. cbn [length]. lia.
Qed.

Lemma count_if_step b n k : 0 <= n -> n + k < two63 -> 1 <= k ->
  count_if b n = (if b then 1 else 0) + n.
Proof.
  intros Hn Hk H1. unfold count_if. destruct b; [|lia]. rewrite int64_id; [lia|].
  unfold in_int64, two63 in *. lia.
Qed.

(** Each counter of the summary, from a summary [s] whose counters are at most [n]. *)
Definition summary_ok (now : Time) (l : list ADInventoryRecord.t) (s s' : ADInventorySummary.t) : Prop :=
  s' = ADInventorySummary.mk
    (ADInventorySummary.TotalAccounts s + Z.of_nat (length l))
    (ADInventorySummary.UserAccounts s + counted (fun r => String.eqb (ADInventoryRecord.ObjectClass r) "user") l)
    (ADInventorySummary.ComputerAccounts s
       + counted (fun r => String.eqb (ADInventoryRecord.ObjectClass r) "computer") l)
    (ADInventorySummary.ServiceAccounts s + counted hasService l)
    (ADInventorySummary.PrivilegedAccounts s + counted ADInventoryRecord.IsPrivileged l)
    (ADInventorySummary.StaleAccounts s + counted (isStale now) l)
    (ADInventorySummary.DisabledAccounts s + counted (fun r => negb (ADInventoryRecord.Enabled r)) l)
    (ADInventorySummary.ScannedAt s).

Lemma summarize_fold now l : forall n s,
  0 <= n -> n + Z.of_nat (length l) < two63 ->
  0 <= ADInventorySummary.TotalAccounts s <= n -> 0 <= ADInventorySummary.UserAccounts s <= n ->
  0 <= ADInventorySummary.ComputerAccounts s <= n -> 0 <= ADInventorySummary.ServiceAccounts s <= n ->
  0 <= ADInventorySummary.PrivilegedAccounts s <= n -> 0 <= ADInventorySummary.StaleAccounts s <= n ->
  0 <= ADInventorySummary.DisabledAccounts s <= n ->
  summary_ok now l s (foldl (summarize_one now) s l).
Proof.
  induction l as [|r l IH]; intros n s Hn Hlen H1 H2 H3 H4 H5 H6 H7.
  { cbn. unfold summary_ok, counted. destruct s; cbn. f_equal; lia. }
  cbn [length] in Hlen. cbn [foldl]. unfold summary_ok.
  assert (Hstep : forall b m, 0 <= m <= n -> count_if b m = (if b then 1 else 0) + m).
  { intros b m Hm. apply (count_if_step b m 1); lia. }
  assert (Hone : forall b m, 0 <= m <= n -> 0 <= count_if b m <= n + 1).
  { intros b m Hm. rewrite Hstep by done. destruct b; lia. }
  rewrite (IH (n + 1) (summarize_one now s r)) by (try lia; by apply Hone).
  rewrite !counted_cons. unfold summarize_one.
  cbn [ADInventorySummary.TotalAccounts ADInventorySummary.UserAccounts ADInventorySummary.ComputerAccounts
       ADInventorySummary.ServiceAccounts ADInventorySummary.PrivilegedAccounts ADInventorySummary.StaleAccounts
       ADInventorySummary.DisabledAccounts ADInventorySummary.ScannedAt length].
  rewrite !Hstep by done. f_equal; lia.
Qed.

(** ** Facts: reconciliation *)

Section ScanFacts.
Context {L : Lib} {E : Env}.

Definition identities (w : World L) : gmap string Identity.t := MemoryStore.identities (store w).

(** Identities are stored under their ids, and ids not yet handed out are free. *)
Record id_inv (w : World L) : Prop := {
  id_keyed : keyed (A := Identity.t) w;
  id_fresh : forall n, (tick w <= n)%nat -> identities w !! uuid_New n = None
}.

(** No two identities have the same user name. *)
Definition unique_names (m : gmap string Identity.t) : Prop :=
  forall a b i j, m !! a = Some i -> m !! b = Some j -> Identity.Username i = Identity.Username j -> a = b.

(** The identity shows what the scan saw. *)
Definition reflects (rec : ADInventoryRecord.t) (i : Identity.t) : Prop :=
  Identity.Username i = ADInventoryRecord.SamAccountName rec /\
  Identity.Type_ i = identityType_of rec /\
  Identity.Privileged i = ADInventoryRecord.IsPrivileged rec /\
  Identity.Groups i = ADInventoryRecord.MemberOf rec /\
  exists m, Identity.Attributes i = scan_attributes rec m.

(** What stays of an identity whatever a scan sees. *)
Definition same_account (i i' : Identity.t) : Prop :=
  Identity.ID i' = Identity.ID i /\ Identity.Username i' = Identity.Username i /\
  Identity.Email i' = Identity.Email i /\ Identity.CreatedAt i' = Identity.CreatedAt i.

(** One upsert writes one identity: the one of that name, or a new one. *)
Definition upserted (rec : ADInventoryRecord.t) (w w' : World L) : Prop :=
  exists id i, store w' = MemoryStore.set_identities (<[id := i]> (identities w)) (store w) /\
    (tick w <= tick w')%nat /\ Identity.ID i = id /\ reflects rec i /\
    ((exists i0, identities w !! id = Some i0 /\ same_account i0 i) \/
     (exists n, id = uuid_New n /\ (tick w <= n < tick w')%nat /\
        forall a j, identities w !! a = Some j -> Identity.Username j <> ADInventoryRecord.SamAccountName rec)).

Context `{!EnvOk E} `{!LibOk L}.

Lemma upsert_run rec (w : World L) : id_inv w ->
  exists w', upsertIdentity rec w = (Ok tt, w') /\ upserted rec w w'.
Proof.
  intros [Hk Hf]. unfold upsertIdentity, Identities.GetByUsername, tbl_Find. m_run.
  rewrite tbl_range_run. pose proof (tbl_range_elem (A := Identity.t) w) as Hel. rewrite tbl_range_run in Hel.
  cbn [fst] in Hel. set (vs := (range_map (tick w) (rows w)).*2) in *.
  destruct (find _ vs) as [i0|] eqn:Hfind.
  - apply find_some in Hfind as [Hin Hu]. apply bool_decide_eq_true in Hu.
    apply list_elem_of_In, Hel in Hin as [id Hid]. pose proof (Hk id i0 Hid) as Hkey.
    cbn [key identity_table] in Hkey. subst id.
    set (w1 := set_tick (S (S (tick w))) w).
    pose proof (assign_update (A := Identity.t) (rescan rec (UTC (clock (S (tick w))))) i0 w1 i0 Hid eq_refl) as Hau.
    destruct (assign _ i0 w1) as [u w2] eqn:Ha in Hau. 
    change (set_tick (S (tick (set_tick (S (tick w)) w))) (set_tick (S (tick w)) w)) with w1.
    cbn [tick set_tick]. rewrite Ha. unfold Identities.Update. rewrite Hau.
    eexists. split; [reflexivity|]. eexists (Identity.ID i0), _. split; [reflexivity|].
    split; [cbn; lia|]. split; [done|]. split; [|left; by exists i0].
    split_and!; try done. by eexists.
  - eexists. split; [reflexivity|]. eexists (uuid_New (S (tick w))), _. split; [reflexivity|].
    split; [cbn; lia|]. split; [done|]. split; [split_and!; try done; by eexists|].
    right. exists (S (tick w)). split; [done|]. split; [cbn; lia|]. intros a j Hj Hu.
    assert (Hin : j ∈ vs) by (apply Hel; by exists a). apply list_elem_of_In in Hin.
    pose proof (find_none _ _ Hfind j Hin) as Hn. by apply bool_decide_eq_false in Hn.
Qed.

Lemma same_account_trans i1 i2 i3 : same_account i1 i2 -> same_account i2 i3 -> same_account i1 i3.
Proof. unfold same_account. intuition congruence. Qed.

Lemma upserted_inv rec (w w' : World L) : upserted rec w w' -> id_inv w -> id_inv w'.
Proof.
  intros (id & i & Hs & Ht & Hid & _ & Hcase) [Hk Hf].
  assert (Hw : identities w' = <[id := i]> (identities w)) by (unfold identities at 1; by rewrite Hs).
  split.
  - intros a j. change (rows w' !! a) with (identities w' !! a). rewrite Hw.
    intros [[<- <-]|[_ Hj]]%lookup_insert_Some; [done|by apply Hk].
  - intros n Hn. rewrite Hw, lookup_insert_None. split; [apply Hf; lia|].
    intros ->. destruct Hcase as [(i0 & Hi0 & _)|(m & Hm & Hlt & _)].
    + rewrite Hf in Hi0 by lia. done.
    + apply uuid_inj in Hm. lia.
Qed.

(** Identities of other names stay; no identity goes away or changes its account. *)
Lemma upserted_keeps rec (w w' : World L) a j : upserted rec w w' -> id_inv w ->
  identities w !! a = Some j ->
  exists j', identities w' !! a = Some j' /\ same_account j j' /\
    (Identity.Username j <> ADInventoryRecord.SamAccountName rec -> j' = j).
Proof.
  intros (id & i & Hs & Ht & Hid & Hr & Hcase) [Hk Hf] Hj.
  assert (Hw : identities w' = <[id := i]> (identities w)) by (unfold identities at 1; by rewrite Hs).
  rewrite Hw. destruct (decide (id = a)) as [->|Hne].
  - rewrite lookup_insert_eq. exists i. split; [done|].
    destruct Hcase as [(i0 & Hi0 & Hsame)|(n & -> & Hn & _)]; [|rewrite Hf in Hj by lia; done].
    rewrite Hi0 in Hj. injection Hj as <-. split; [done|]. intros Hu. destruct Hu.
    destruct Hsame as (_ & <- & _). apply Hr.
  - rewrite lookup_insert_ne by done. exists j. by split_and!.
Qed.

Lemma upserted_unique rec (w w' : World L) : upserted rec w w' ->
  unique_names (identities w) -> unique_names (identities w').
Proof.
  intros (id & i & Hs & _ & _ & Hr & Hcase) Hu a b j k.
  assert (Hw : identities w' = <[id := i]> (identities w)) by (unfold identities at 1; by rewrite Hs).
  rewrite Hw. assert (Hclash : forall c l, identities w !! c = Some l -> id <> c ->
    Identity.Username l = Identity.Username i -> False).
  { intros c l Hl Hne Heq. destruct Hcase as [(i0 & Hi0 & _ & Hsame & _)|(n & _ & _ & Hno)].
    - apply Hne. apply (Hu id c i0 l Hi0 Hl). congruence.
    - apply (Hno c l Hl). rewrite Heq. apply Hr. }
  intros [[<- <-]|[Ha Hj]]%lookup_insert_Some [[<- <-]|[Hb Hl]]%lookup_insert_Some Heq; [done| | |].
  - exfalso. by apply (Hclash b k).
  - exfalso. by apply (Hclash a j).
  - by apply (Hu a b j k).
Qed.

(** The loop: every account of the scan is reflected at the end. *)
Lemma upsert_loop_run recs : forall w : World L, id_inv w ->
  exists w', upsert_loop recs w = (None, w') /\ id_inv w' /\
    (exists m, store w' = MemoryStore.set_identities m (store w)) /\
    (unique_names (identities w) -> unique_names (identities w')) /\
    (forall a j, identities w !! a = Some j -> exists j', identities w' !! a = Some j' /\ same_account j j' /\
       (Identity.Username j ∉ ADInventoryRecord.SamAccountName <$> recs -> j' = j)) /\
    (NoDup (ADInventoryRecord.SamAccountName <$> recs) ->
     forall rec, rec ∈ recs -> exists a i, identities w' !! a = Some i /\ reflects rec i).
Proof.
  induction recs as [|rec recs IH]; intros w Hinv.
  { exists w. split; [done|]. split; [done|]. split; [exists (identities w); unfold identities; by destruct (store w)|].
    split; [done|]. split; [|by intros _ ? ?%elem_of_nil]. intros a j Hj. by exists j. }
  destruct (upsert_run rec w Hinv) as (w1 & Hrun & Hup).
  pose proof (upserted_inv _ _ _ Hup Hinv) as Hinv1.
  destruct (IH w1 Hinv1) as (w' & Hloop & Hinv' & [m Hst] & Hun & Hkeep & Hrefl).
  exists w'. cbn [upsert_loop]. st_unfold. rewrite Hrun. split; [done|]. split; [done|].
  pose proof Hup as (id & i & Hs & Hrest).
  split; [exists m; by rewrite Hst, Hs|]. split; [intros H; by apply Hun, (upserted_unique _ _ _ Hup)|].
  rewrite fmap_cons. split.
  - intros a j Hj. destruct (upserted_keeps _ _ _ a j Hup Hinv Hj) as (j1 & Hj1 & Hs1 & He1).
    destruct (Hkeep a j1 Hj1) as (j2 & Hj2 & Hs2 & He2). exists j2. split; [done|].
    split; [by eapply same_account_trans|]. rewrite not_elem_of_cons. intros [Hne Hnin].
    specialize (He1 Hne). subst j1. by apply He2.
  - intros [Hnin Hnd]%NoDup_cons r [->|Hr]%elem_of_cons; [|by apply Hrefl].
    destruct Hrest as (_ & _ & Hri & _). destruct (Hkeep id i) as (j & Hj & _ & He).
    + unfold identities. rewrite Hs. cbn. by rewrite lookup_insert_eq.
    + exists id, j. split; [done|]. rewrite He; [done|]. destruct Hri as (-> & _). done.
Qed.
End ScanFacts.

(** ** Concrete data *)

Definition demo_identity : Identity.t :=
  Identity.mk "u1" "bob" "Bob" IdentityTypePerson [] "bob@corp" false "" ∅ zeroTime zeroTime.

Definition demo_inventory_world : World demo_lib :=
  set_store (MemoryStore.set_identities {["u1" := demo_identity]} NewMemoryStore) demo_world.

Definition demo_records : list ADInventoryRecord.t :=
  (parseEntry (L := demo_lib) : _ -> _) <$> (demo_directory : list (@LdapEntry demo_lib)).

Lemma demo_id_inv : id_inv demo_inventory_world.
Proof.
  split.
  - intros a j Hj. change ((({["u1" := demo_identity]} : gmap string Identity.t) !! a) = Some j) in Hj.
    by apply lookup_singleton_Some in Hj as [<- <-].
  - intros n _. change ((({["u1" := demo_identity]} : gmap string Identity.t) !! uuid_New n) = None).
    apply lookup_singleton_None. cbn [uuid_New demo_lib]. intros Heq.
    assert (Hd : Forall (fun b => is_digit b = true) (bytes (pretty n))).
    { change (pretty n) with (pretty (N.of_nat n)). unfold pretty, pretty_N.
      destruct (decide _); [by repeat constructor|]. apply pretty_go_digits, Forall_nil. done. }
    rewrite <- Heq in Hd. by apply Forall_inv in Hd.
Qed.

(** ** Properties *)

(** time stamps are exact: for every positive tick count below the "never"
    value, the decimal text of a Windows FILETIME is read as that number of
    100-nanosecond steps after 1601-01-01 UTC, with no 64-bit overflow on the
    way; dates before 1970 included. *)
Theorem parseFileTime_exact ft : 0 < ft < two63 - 1 ->
  parseFileTime (pretty ft) = mkTime (ft * 100 - fileTimeUnixDelta * Second) 0.
Proof. apply parseFileTime_pretty. Qed.

Lemma parseFileTime_exact_witness :
  parseFileTime (pretty 132223104000000000) = mkTime (132223104000000000 * 100 - fileTimeUnixDelta * Second) 0.
Proof. apply (parseFileTime_exact 132223104000000000). unfold two63. lia. Defined.

(** C17: an account is marked privileged exactly when one of its groups has the
    common name of a built-in privileged group, or its objectSid or
    primaryGroupID names one of the nine well-known relative identifiers: as
    the last component of a SID, or as a bare number, leading zeros allowed. *)
Theorem privileged_exact {L : Lib} {E : Env} (entry : LdapEntry) (memberOf : list string) :
  isPrivilegedEntry entry memberOf = true <->
  (exists g, g ∈ memberOf /\ cnOf g ∈ privilegedGroupNames) \/
  (exists a n, a ∈ ["objectSid"; "primaryGroupID"] /\ n ∈ privilegedRIDs /\
     names_rid (GetAttributeValue entry a) n).
Proof.
  unfold isPrivilegedEntry. rewrite orb_true_iff, groupSignal_spec, ridSignal_spec.
  apply or_iff_compat_l. split.
  - intros (v & n & Hv & Hn). rewrite !elem_of_cons in Hv.
    destruct Hv as [->|[->|Hv]]; [exists "objectSid", n|exists "primaryGroupID", n|by apply elem_of_nil in Hv];
      (split; [set_solver|done]).
  - intros (a & n & Ha & Hn). exists (GetAttributeValue entry a), n. split; [|done]. set_solver.
Qed.

(** the summary counts right: for every list of records, each counter is
    the number of records with that property (stale meaning a known last logon
    more than 90 days before the scan), and the total is their number. *)
Theorem summarize_counts now (records : list ADInventoryRecord.t) :
  Z.of_nat (length records) < two63 ->
  summarize records now = ADInventorySummary.mk (Z.of_nat (length records))
    (counted (fun r => String.eqb (ADInventoryRecord.ObjectClass r) "user") records)
    (counted (fun r => String.eqb (ADInventoryRecord.ObjectClass r) "computer") records)
    (counted hasService records) (counted ADInventoryRecord.IsPrivileged records)
    (counted (isStale now) records) (counted (fun r => negb (ADInventoryRecord.Enabled r)) records) now.
Proof. intros Hlen. by apply (summarize_fold now records 0). Qed.

Lemma summarize_counts_witness : Z.of_nat (length demo_records) < two63 /\
  ADInventorySummary.PrivilegedAccounts (summarize demo_records demo_base)
  = counted ADInventoryRecord.IsPrivileged demo_records.
Proof.
  assert (Hlen : Z.of_nat (length demo_records) < two63) by reflexivity.
  split; [exact Hlen|]. by rewrite (summarize_counts demo_base demo_records Hlen).
Defined.

(** C16: a scan reconciles the identity store: once the directory has answered,
    the scan reports the summary and no error; every identity keeps its id,
    name, e-mail and creation time, identities of accounts not in the directory
    are untouched, user names stay unique, nothing else in the store changes,
    and, with distinct account names, every account is reflected by a stored
    identity (type, privilege, groups and attributes). *)
Theorem Scan_reconciles {L : Lib} {E : Env} `{!EnvOk E} `{!LibOk L} cfg records (w w1 : World L) :
  id_inv w1 -> fetchRecords cfg w = (Ok records, w1) ->
  exists w', Scan cfg w = ((summarize records (UTC (clock (tick w1))), None), w') /\ id_inv w' /\
    (exists m, store w' = MemoryStore.set_identities m (store w1)) /\
    (unique_names (identities w1) -> unique_names (identities w')) /\
    (forall a j, identities w1 !! a = Some j -> exists j', identities w' !! a = Some j' /\ same_account j j' /\
       (Identity.Username j ∉ ADInventoryRecord.SamAccountName <$> records -> j' = j)) /\
    (NoDup (ADInventoryRecord.SamAccountName <$> records) ->
     forall rec, rec ∈ records -> exists a i, identities w' !! a = Some i /\ reflects rec i).
Proof.
  intros [Hk Hf] Hfetch. assert (Hinv : id_inv (set_tick (S (tick w1)) w1)).
  { split; [exact Hk|]. intros n Hn. apply Hf. cbn in Hn. lia. }
  destruct (upsert_loop_run records _ Hinv) as (w' & Hloop & Hrest). exists w'.
  split; [|exact Hrest]. unfold Scan. m_run. rewrite Hfetch. cbn [tick set_tick].
  by rewrite Hloop.
Qed.

Lemma Scan_reconciles_witness : exists records w1,
  fetchRecords demo_config demo_inventory_world = (Ok records, w1) /\
  exists w', Scan demo_config demo_inventory_world = ((summarize records (UTC (clock (tick w1))), None), w').
Proof.
  eexists _, _. split; [vm_compute; reflexivity|].
  edestruct (Scan_reconciles demo_config) as (w' & Hs & _); [| |by exists w'].
  - destruct demo_id_inv as [Hk Hf]. split; [exact Hk|]. intros n Hn. apply Hf. cbn in *. lia.
  - vm_compute. reflexivity.
Defined.
