(* ===== verification/Api.v ===== *)
(** * core/internal/api: the HTTP handlers

    Each handler is one function from a request to a response, in the order of
    the code's statements: decode, look up, act, audit, publish, answer. A
    request body is the outcome of [decodeJSON] into the handler's own struct. *)

From S2P Require Import Prelude GoStrings GoTime GoFloat GoCrypto GoJson Types World Instances Storage.
From S2P Require Import AuditLog Bus Auth Mfa Orchestrator Discovery Risk Policy Inventory.

(** ** Bodies and payloads *)

Module VerifyBody.
Record t := mk {
  Method : string; Code : string; DeviceID : string; Number : Z; Signature : string; Timestamp : Time
}.
End VerifyBody.

Module ActivateBody.
Record t := mk { FactorID : string; Code : string }.
End ActivateBody.

Module DeviceBody.
Record t := mk { IdentityID : string; Name : string }.
End DeviceBody.

Module ApproveBody.
Record t := mk { ChallengeID : string; Number : Z; Signature : string; Timestamp : Time }.
End ApproveBody.

Module TestPolicyBody.
Record t := mk { Policy : Policy.t; Request : AccessRequest.t }.
End TestPolicyBody.

Module AdapterBody.
Record t := mk { Name : string; Type_ : string; Enabled : bool }.
End AdapterBody.

(** The values the handlers pass to [writeJSON]. *)
Inductive payload {L : Lib} : Type :=
| PDecision (d : AccessDecision.t)
| PChallenge (c : option Challenge.t)
| PChallenges (cs : list Challenge.t)
| PIdentity (i : Identity.t)
| PIdentities (l : list Identity.t)
| PDevice (d : Device.t)
| PDevices (l : list Device.t)
| PDeviceSecret (d : Device.t) (secret : string)
| PPolicy (p : Policy.t)
| PPolicies (l : list Policy.t)
| PPolicyDecision (d : PolicyDecision.t)
| PAdapter (a : Adapter.t)
| PAdapters (l : list Adapter.t)
| PAdapterToken (a : Adapter.t) (token : string)
| PEvents (l : list AuditEvent.t)
| PProfiles (l : list BehaviouralProfile.t)
| PBatch (r : ADAuthEventBatchResponse.t)
| PSummary (s : ADInventorySummary.t)
| PCreation (factorID : string) (status : FactorStatus) (creation : CredentialCreation)
| PAssertion (assertion : CredentialAssertion)
| PRaw (json : string)
| PMap (m : list (string * any)).
Arguments payload : clear implicits.

(** ** The handler *)

Module Handler.
(** [webauthn]: whether the WebAuthn service is configured (non-nil);
    [inventory]: the scanner's configuration, [None] for a nil scanner. *)
Record t := mk {
  risk : Thresholds.t;
  challenge : Service.t;
  discovery : Weights.t;
  webauthn : bool;
  inventory : option Inventory.Config.t
}.
End Handler.

Section Handlers.
Context {L : Lib} {E : Env} (h : Handler.t).

Definition api_handler (B : Type) : Type := handler B (payload L).

Definition badBody : Response (payload L) := writeError StatusBadRequest "invalid request body".

(** [if h.bus != nil { h.bus.Emit(...) }]. *)
Definition publish (eventType action subject : string) (refs data : list (string * any)) : M unit :=
  b ← gets bus;
  match b with
  | None => mret tt
  | Some e => _ ← Bus.Emit e eventType action subject refs data; mret tt
  end.

(** The override of the policy's effect by the risk level. *)
Definition override (level : string) (effect : Decision) (reasons : list string) : Decision * list string :=
  if String.eqb level "critical" then (DecisionDeny, reasons ++ ["risk_level_critical_override"])
  else if String.eqb level "very_high" && negb (String.eqb effect DecisionDeny)
  then (DecisionChallenge, reasons ++ ["risk_level_very_high_challenge"])
  else (effect, reasons).

Definition challengeMethods (p : PolicyDecision.t) : list MFAMethod :=
  match PolicyDecision.Challenge p with
  | Some spec => if (0 <? length (ChallengeSpec.Methods spec))%nat then ChallengeSpec.Methods spec
                 else [MFAMethodTOTP]
  | None => [MFAMethodTOTP]
  end.

(** The [switch decision]: the final decision, reasons and challenge. *)
Definition resolve_decision (req : AccessRequest.t) (requestID : string) (p : PolicyDecision.t)
    (decision : Decision) (reasons : list string)
    : M (result (Decision * list string * option ChallengeInfo.t)) :=
  if String.eqb decision DecisionChallenge then
    let username := AccessIdentity.Username (AccessRequest.Identity req) in
    identity ← Identities.GetByUsername username;
    let identityID := match identity with Ok i => Identity.ID i | Err _ => username end in
    ch ←? Orchestrator.Create (Handler.challenge h) identityID requestID (challengeMethods p);
    mret (Ok (decision, reasons,
              Some (ChallengeInfo.mk (Challenge.ID ch) (Challenge.Methods ch) (Challenge.ExpiresAt ch))))
  else if String.eqb decision DecisionAlert then
    mret (Ok (DecisionAllow, reasons ++ ["alert_logged"], None))
  else mret (Ok (decision, reasons, None)).

Definition handleAccessEvaluate : api_handler AccessRequest.t := fun r =>
  match Request.Body r with
  | None => mret badBody
  | Some req =>
      match Score (Handler.risk h) req with
      | Err _ => mret (writeError StatusInternalServerError "risk scoring failed")
      | Ok riskResult =>
          pd ← Evaluate req;
          match pd with
          | Err _ => mret (writeError StatusInternalServerError "policy evaluation failed")
          | Ok policyDecision =>
              requestID ← NewID;
              let '(decision, reasons) :=
                override (RiskResult.Level riskResult) (PolicyDecision.Effect policyDecision)
                  (PolicyDecision.Reasons policyDecision ++ RiskResult.Reasons riskResult) in
              res ← resolve_decision req requestID policyDecision decision reasons;
              match res with
              | Err _ => mret (writeError StatusInternalServerError "failed to create challenge")
              | Ok (decision, reasons, challengeInfo) =>
                  let username := AccessIdentity.Username (AccessRequest.Identity req) in
                  let resource := AccessResource.Name (AccessRequest.Resource req) in
                  _ ← AuditLog.Emit "access.evaluate" (AuditActor.mk ActorUser username)
                        (AuditTarget.mk TargetResource resource)
                        decision (RiskResult.Score riskResult) reasons [];
                  _ ← publish "access.decided" "evaluate" requestID
                        [("request_id", AStr requestID); ("identity", AStr username);
                         ("resource", AStr resource)]
                        [("decision", AStr decision); ("risk_score", AInt (RiskResult.Score riskResult));
                         ("reasons", AStrs (Some reasons))];
                  mret (writeJSON StatusOK (PDecision
                    (AccessDecision.mk requestID decision (RiskResult.Score riskResult) reasons challengeInfo)))
              end
          end
      end
  end.

Definition publishVerified (ch : Challenge.t) (method : string) : M unit :=
  publish "challenge.verified" "verify" (Challenge.ID ch)
    [("request_id", AStr (Challenge.RequestID ch)); ("identity_id", AStr (Challenge.IdentityID ch))]
    [("method", AStr method); ("status", AStr (ChallengeStatus_string (Challenge.Status ch)))].

Definition handleChallengeVerify : api_handler VerifyBody.t := fun r =>
  let id := Request.PathValue r "id" in
  match Request.Body r with
  | None => mret badBody
  | Some body =>
      let finish (res : result Challenge.t) : M (Response (payload L)) :=
        match res with
        | Err e => mret (writeError StatusBadRequest e)
        | Ok ch =>
            _ ← publishVerified ch (VerifyBody.Method body);
            mret (writeJSON StatusOK (PChallenge (Some ch)))
        end in
      if String.eqb (VerifyBody.Method body) "totp" then
        res ← VerifyTOTP id (VerifyBody.Code body); finish res
      else if String.eqb (VerifyBody.Method body) "push" then
        res ← VerifyPush (Handler.challenge h) id (VerifyBody.DeviceID body) (VerifyBody.Number body)
                (VerifyBody.Signature body) (VerifyBody.Timestamp body);
        finish res
      else mret (writeError StatusBadRequest "unsupported method")
  end.

Definition handleListChallenges : api_handler unit := fun r =>
  l ← Orchestrator.List_;
  mret (match l with
        | Err _ => writeError StatusInternalServerError "failed to list challenges"
        | Ok l => writeJSON StatusOK (PChallenges l)
        end).

(** ** Identities *)

Definition handleListIdentities : api_handler unit := fun r =>
  l ← Identities.List_;
  mret (match l with
        | Err _ => writeError StatusInternalServerError "failed to list identities"
        | Ok l => writeJSON StatusOK (PIdentities l)
        end).

(** The decoded identity with the fields the server sets. *)
Definition stamp_identity (id : string) (created updated : Time) (i : Identity.t) : Identity.t :=
  Identity.mk id (Identity.Username i) (Identity.DisplayName i) (Identity.Type_ i) (Identity.Groups i)
    (Identity.Email i) (Identity.Privileged i) (Identity.UsualGeo i) (Identity.Attributes i) created updated.

Definition handleCreateIdentity : api_handler Identity.t := fun r =>
  match Request.Body r with
  | None => mret badBody
  | Some identity =>
      id ← NewID;
      now ← Now;
      let identity := stamp_identity id (UTC now) (UTC now) identity in
      e ← Identities.Create identity;
      mret (match e with
            | Err _ => writeError StatusInternalServerError "failed to create identity"
            | Ok _ => writeJSON StatusCreated (PIdentity identity)
            end)
  end.

Definition handleGetIdentity : api_handler unit := fun r =>
  i ← Identities.Get (Request.PathValue r "id");
  mret (match i with
        | Err _ => writeError StatusNotFound "identity not found"
        | Ok i => writeJSON StatusOK (PIdentity i)
        end).

Definition handleUpdateIdentity : api_handler Identity.t := fun r =>
  existing ← Identities.Get (Request.PathValue r "id");
  match existing with
  | Err _ => mret (writeError StatusNotFound "identity not found")
  | Ok existing =>
      match Request.Body r with
      | None => mret badBody
      | Some update =>
          now ← Now;
          let update := stamp_identity (Identity.ID existing) (Identity.CreatedAt existing) (UTC now) update in
          e ← Identities.Update update;
          mret (match e with
                | Err _ => writeError StatusInternalServerError "failed to update identity"
                | Ok _ => writeJSON StatusOK (PIdentity update)
                end)
      end
  end.

Definition handleDeleteIdentity : api_handler unit := fun r =>
  e ← Identities.Delete (Request.PathValue r "id");
  mret (match e with
        | Err _ => writeError StatusInternalServerError "failed to delete identity"
        | Ok _ => WriteHeader StatusNoContent
        end).

(** ** Factors *)

Definition handleTOTPEnroll : api_handler unit := fun r =>
  res ← Totp.Enroll (Request.PathValue r "id") "OIAF";
  mret (match res with
        | Err _ => writeError StatusInternalServerError "failed to enroll totp"
        | Ok (factor, secret, uri) => writeJSON StatusCreated (PMap
            [("factor_id", AStr (Factor.ID factor)); ("secret", AStr secret); ("otpauth_uri", AStr uri);
             ("status", AStr (FactorStatus_string (Factor.Status factor)))])
        end).

Definition handleTOTPActivate : api_handler ActivateBody.t := fun r =>
  match Request.Body r with
  | None => mret badBody
  | Some body =>
      e ← Totp.Activate (Request.PathValue r "id") (ActivateBody.FactorID body) (ActivateBody.Code body);
      mret (match e with
            | Err e => writeError StatusBadRequest e
            | Ok _ => writeJSON StatusOK (PMap [("status", AStr "active")])
            end)
  end.

Definition notConfigured : Response (payload L) :=
  writeError StatusServiceUnavailable "webauthn factor not configured".

(** The raw body of a WebAuthn request; [None] when reading it fails. *)
Definition raw_body (r : Request.t string) : result string :=
  match Request.Body r with Some b => Ok b | None => Err "unexpected EOF" end.

Definition handleWebAuthnBeginRegistration : api_handler unit := fun r =>
  if negb (Handler.webauthn h) then mret notConfigured
  else
    res ← WebAuthn.BeginRegistration (Request.PathValue r "id");
    mret (match res with
          | Err e => writeError StatusInternalServerError ("failed to begin webauthn registration: " +:+ e)
          | Ok (factor, creation) =>
              writeJSON StatusCreated (PCreation (Factor.ID factor) (Factor.Status factor) creation)
          end).

Definition handleWebAuthnFinishRegistration : api_handler string := fun r =>
  if negb (Handler.webauthn h) then mret notConfigured
  else
    let factorID := Request.PathValue r "factor_id" in
    if String.eqb factorID "" then mret (writeError StatusBadRequest "factor_id is required")
    else
      res ← WebAuthn.FinishRegistration (Request.PathValue r "id") factorID (raw_body r);
      mret (match res with
            | Err e => writeError StatusBadRequest e
            | Ok factor => writeJSON StatusOK (PMap
                [("factor_id", AStr (Factor.ID factor));
                 ("status", AStr (FactorStatus_string (Factor.Status factor)))])
            end).

Definition handleWebAuthnBeginVerification : api_handler unit := fun r =>
  if negb (Handler.webauthn h) then mret notConfigured
  else
    res ← WebAuthn.BeginIdentityVerification (Request.PathValue r "id");
    mret (match res with
          | Err e => writeError StatusBadRequest e
          | Ok assertion => writeJSON StatusOK (PAssertion assertion)
          end).

Definition handleWebAuthnFinishVerification : api_handler string := fun r =>
  if negb (Handler.webauthn h) then mret notConfigured
  else
    res ← WebAuthn.FinishIdentityVerification (Request.PathValue r "id") (raw_body r);
    mret (match res.2 with
          | Some e => writeError StatusBadRequest e
          | None => writeJSON StatusOK (PMap [("verified", ABool res.1)])
          end).

Definition handleChallengeWebAuthnBegin : api_handler unit := fun r =>
  if negb (Handler.webauthn h) then mret notConfigured
  else
    res ← BeginWebAuthn (Handler.challenge h) (Request.PathValue r "id");
    mret (match res with
          | Err e => writeError StatusBadRequest e
          | Ok optionsJSON => writeJSON StatusOK (PRaw optionsJSON)
          end).

Definition handleChallengeWebAuthnFinish : api_handler string := fun r =>
  if negb (Handler.webauthn h) then mret notConfigured
  else
    res ← FinishWebAuthn (Handler.challenge h) (Request.PathValue r "id") (raw_body r);
    match res.2 with
    | Some e => mret (writeError StatusBadRequest e)
    | None =>
        _ ← match res.1 with Some ch => publishVerified ch "webauthn" | None => mret tt end;
        mret (writeJSON StatusOK (PChallenge res.1))
    end.

(** ** Devices *)

Definition handleCreateDevice : api_handler DeviceBody.t := fun r =>
  match Request.Body r with
  | None => mret badBody
  | Some body =>
      res ← Push.RegisterDevice (DeviceBody.IdentityID body) (DeviceBody.Name body);
      mret (match res with
            | Err _ => writeError StatusInternalServerError "failed to register device"
            | Ok (device, secret) => writeJSON StatusCreated (PDeviceSecret device secret)
            end)
  end.

Definition handleListDevices : api_handler unit := fun r =>
  l ← Devices.List_;
  mret (match l with
        | Err _ => writeError StatusInternalServerError "failed to list devices"
        | Ok l => writeJSON StatusOK (PDevices l)
        end).

Definition handleGetDevice : api_handler unit := fun r =>
  d ← Devices.Get (Request.PathValue r "id");
  mret (match d with
        | Err _ => writeError StatusNotFound "device not found"
        | Ok d => writeJSON StatusOK (PDevice d)
        end).

Definition handleDeleteDevice : api_handler unit := fun r =>
  e ← Devices.Delete (Request.PathValue r "id");
  mret (match e with
        | Err _ => writeError StatusInternalServerError "failed to delete device"
        | Ok _ => WriteHeader StatusNoContent
        end).

Definition handleApproveChallenge : api_handler ApproveBody.t := fun r =>
  match Request.Body r with
  | None => mret badBody
  | Some body =>
      res ← VerifyPush (Handler.challenge h) (ApproveBody.ChallengeID body) (Request.PathValue r "id")
              (ApproveBody.Number body) (ApproveBody.Signature body) (ApproveBody.Timestamp body);
      mret (match res with
            | Err e => writeError StatusBadRequest e
            | Ok ch => writeJSON StatusOK (PChallenge (Some ch))
            end)
  end.

(** ** Policies *)

Definition handleListPolicies : api_handler unit := fun r =>
  l ← Policies.List_;
  mret (match l with
        | Err _ => writeError StatusInternalServerError "failed to list policies"
        | Ok l => writeJSON StatusOK (PPolicies l)
        end).

Definition stamp_policy (id : string) (created updated : Time) (p : Policy.t) : Policy.t :=
  Policy.mk id (Policy.Description p) (Policy.Enabled p) (Policy.Priority p) (Policy.Effect p)
    (Policy.Conditions p) (Policy.Challenge p) created updated.

Definition handleCreatePolicy : api_handler Policy.t := fun r =>
  match Request.Body r with
  | None => mret badBody
  | Some p =>
      id ← NewID;
      now ← Now;
      let p := stamp_policy id (UTC now) (UTC now) p in
      e ← Policies.Create p;
      mret (match e with
            | Err _ => writeError StatusInternalServerError "failed to create policy"
            | Ok _ => writeJSON StatusCreated (PPolicy p)
            end)
  end.

Definition handleGetPolicy : api_handler unit := fun r =>
  p ← Policies.Get (Request.PathValue r "id");
  mret (match p with
        | Err _ => writeError StatusNotFound "policy not found"
        | Ok p => writeJSON StatusOK (PPolicy p)
        end).

Definition handleUpdatePolicy : api_handler Policy.t := fun r =>
  existing ← Policies.Get (Request.PathValue r "id");
  match existing with
  | Err _ => mret (writeError StatusNotFound "policy not found")
  | Ok existing =>
      match Request.Body r with
      | None => mret badBody
      | Some update =>
          now ← Now;
          let update := stamp_policy (Policy.ID existing) (Policy.CreatedAt existing) (UTC now) update in
          e ← Policies.Update update;
          mret (match e with
                | Err _ => writeError StatusInternalServerError "failed to update policy"
                | Ok _ => writeJSON StatusOK (PPolicy update)
                end)
      end
  end.

Definition handleDeletePolicy : api_handler unit := fun r =>
  e ← Policies.Delete (Request.PathValue r "id");
  mret (match e with
        | Err _ => writeError StatusInternalServerError "failed to delete policy"
        | Ok _ => WriteHeader StatusNoContent
        end).

Definition handleTestPolicy : api_handler TestPolicyBody.t := fun r =>
  match Request.Body r with
  | None => mret badBody
  | Some body =>
      d ← Evaluate (TestPolicyBody.Request body);
      mret (match d with
            | Err _ => writeError StatusInternalServerError "policy evaluation failed"
            | Ok d => writeJSON StatusOK (PPolicyDecision d)
            end)
  end.

(** ** Adapters *)

Definition handleListAdapters : api_handler unit := fun r =>
  l ← Adapters.List_;
  mret (match l with
        | Err _ => writeError StatusInternalServerError "failed to list adapters"
        | Ok l => writeJSON StatusOK (PAdapters l)
        end).

Definition handleCreateAdapter : api_handler AdapterBody.t := fun r =>
  match Request.Body r with
  | None => mret badBody
  | Some body =>
      token ← GenerateToken;
      match token with
      | Err _ => mret (writeError StatusInternalServerError "failed to generate token")
      | Ok token =>
          hash ← HashToken token;
          match hash with
          | Err _ => mret (writeError StatusInternalServerError "failed to hash token")
          | Ok hash =>
              id ← NewID;
              now ← Now;
              let adapter := Adapter.mk id (AdapterBody.Name body) (AdapterBody.Type_ body) hash
                               (AdapterBody.Enabled body) (UTC now) in
              e ← Adapters.Create adapter;
              mret (match e with
                    | Err _ => writeError StatusInternalServerError "failed to create adapter"
                    | Ok _ => writeJSON StatusCreated (PAdapterToken adapter token)
                    end)
          end
      end
  end.

Definition handleGetAdapter : api_handler unit := fun r =>
  a ← Adapters.Get (Request.PathValue r "id");
  mret (match a with
        | Err _ => writeError StatusNotFound "adapter not found"
        | Ok a => writeJSON StatusOK (PAdapter a)
        end).

Definition handleDeleteAdapter : api_handler unit := fun r =>
  e ← Adapters.Delete (Request.PathValue r "id");
  mret (match e with
        | Err _ => writeError StatusInternalServerError "failed to delete adapter"
        | Ok _ => WriteHeader StatusNoContent
        end).

Definition handleRotateAdapterToken : api_handler unit := fun r =>
  adapter ← Adapters.Get (Request.PathValue r "id");
  match adapter with
  | Err _ => mret (writeError StatusNotFound "adapter not found")
  | Ok adapter =>
      token ← GenerateToken;
      match token with
      | Err _ => mret (writeError StatusInternalServerError "failed to generate token")
      | Ok token =>
          hash ← HashToken token;
          match hash with
          | Err _ => mret (writeError StatusInternalServerError "failed to hash token")
          | Ok hash =>
              adapter ← assign (Adapter.set_TokenHash hash) adapter;
              e ← Adapters.Create adapter;
              mret (match e with
                    | Err _ => writeError StatusInternalServerError "failed to update adapter"
                    | Ok _ => writeJSON StatusOK (PAdapterToken adapter token)
                    end)
          end
      end
  end.

(** ** Audit and Active Directory *)

(** A numeric query parameter: ignored when absent or malformed. *)
Definition query_int (v : string) : Z := if String.eqb v "" then 0 else default 0 (Atoi v).

Definition handleListAuditEvents : api_handler unit := fun r =>
  let q := Request.Query r in
  let filter := AuditFilter.mk (q "identity_id") (q "resource_type") (q "decision")
                  (query_int (q "risk_score_min")) (q "type") (q "since") (q "until")
                  (query_int (q "limit")) in
  l ← AuditLog.List_ filter;
  mret (match l with
        | Err _ => writeError StatusInternalServerError "failed to list audit events"
        | Ok l => writeJSON StatusOK (PEvents l)
        end).

Definition handleVerifyAudit : api_handler unit := fun r =>
  v ← AuditLog.Verify;
  mret (match v with
        | Err _ => writeError StatusInternalServerError "verification failed"
        | Ok (valid, count) => writeJSON StatusOK (PMap [("valid", ABool valid); ("count", AInt count)])
        end).

(** The audit record of one ingested event, and of one decision. *)
Definition audit_event (ev : ADAuthEvent.t) : M (result unit) :=
  AuditLog.Emit "ad.auth_event" (AuditActor.mk ActorUser (ADAuthEvent.AccountName ev))
    (AuditTarget.mk TargetIdentity (ADAuthEvent.AccountSID ev)) DecisionAllow 0 []
    [("event_id", AInt (ADAuthEvent.EventID ev)); ("logon_type", AInt (ADAuthEvent.LogonType ev));
     ("auth_package", AStr (ADAuthEvent.AuthPackage ev)); ("source_ip", AStr (ADAuthEvent.SourceIP ev));
     ("target_spn", AStr (ADAuthEvent.TargetSPN ev)); ("dc_name", AStr (ADAuthEvent.DCName ev));
     ("event_type", AStr (ADAuthEvent.EventType ev))].

Definition audit_deviation (d : ADEventDecision.t) : M (result unit) :=
  AuditLog.Emit "ad.baseline_deviation" (AuditActor.mk ActorUser (ADEventDecision.AccountName d))
    (AuditTarget.mk TargetIdentity (ADEventDecision.AccountSID d)) (ADEventDecision.Decision_ d)
    (ADEventDecision.RiskScore d) (ADEventDecision.Reasons d) [].

Fixpoint for_each {A B} (f : A -> M B) (l : list A) : M unit :=
  match l with
  | [] => mret tt
  | x :: l' => _ ← f x; for_each f l'
  end.

Definition handleADEvents : api_handler (list ADAuthEvent.t) := fun r =>
  match Request.Body r with
  | None => mret badBody
  | Some events =>
      res ← Ingest (Handler.discovery h) events;
      match res.2 with
      | Some _ => mret (writeError StatusInternalServerError "event ingestion failed")
      | None =>
          _ ← for_each audit_event events;
          _ ← for_each audit_deviation res.1;
          mret (writeJSON StatusAccepted
                  (PBatch (ADAuthEventBatchResponse.mk (Z.of_nat (length events)) res.1)))
      end
  end.

Definition handleADProfiles : api_handler unit := fun r =>
  l ← Profiles;
  mret (match l with
        | Err _ => writeError StatusInternalServerError "failed to list profiles"
        | Ok l => writeJSON StatusOK (PProfiles l)
        end).

Definition handleADInventoryScan : api_handler unit := fun r =>
  match Handler.inventory h with
  | None => mret (writeError StatusServiceUnavailable "inventory scanner not configured")
  | Some cfg =>
      res ← Inventory.Scan cfg;
      match res with
      | (_, Some e) => mret (writeError StatusInternalServerError ("inventory scan failed: " +:+ e))
      | (summary, None) =>
          _ ← AuditLog.Emit "ad.inventory_scan" (AuditActor.mk ActorSystem "oiaf")
                (AuditTarget.mk TargetIdentity "ad-inventory") DecisionAllow 0 []
                [("total_accounts", AInt (ADInventorySummary.TotalAccounts summary));
                 ("service_accounts", AInt (ADInventorySummary.ServiceAccounts summary));
                 ("privileged_accounts", AInt (ADInventorySummary.PrivilegedAccounts summary));
                 ("stale_accounts", AInt (ADInventorySummary.StaleAccounts summary))];
          mret (writeJSON StatusOK (PSummary summary))
      end
  end.

(** ** Routes *)

Inductive endpoint :=
| AccessEvaluate | ChallengeVerify | ChallengeWebAuthnBegin | ChallengeWebAuthnFinish | ListChallenges
| ListIdentities | CreateIdentity | GetIdentity | UpdateIdentity | DeleteIdentity
| TOTPEnroll | TOTPActivate
| WebAuthnBeginRegistration | WebAuthnFinishRegistration | WebAuthnBeginVerification | WebAuthnFinishVerification
| CreateDevice | ListDevices | GetDevice | DeleteDevice | ApproveChallenge
| ListPolicies | CreatePolicy | TestPolicy | GetPolicy | UpdatePolicy | DeletePolicy
| ListAdapters | CreateAdapter | GetAdapter | DeleteAdapter | RotateAdapterToken
| ListAuditEvents | VerifyAudit | ADEvents | ADProfiles | ADInventoryScan.

(** The struct an endpoint decodes its body into. *)
Definition body_of (e : endpoint) : Type :=
  match e with
  | AccessEvaluate => AccessRequest.t
  | ChallengeVerify => VerifyBody.t
  | CreateIdentity | UpdateIdentity => Identity.t
  | TOTPActivate => ActivateBody.t
  | WebAuthnFinishRegistration | WebAuthnFinishVerification | ChallengeWebAuthnFinish => string
  | CreateDevice => DeviceBody.t
  | ApproveChallenge => ApproveBody.t
  | CreatePolicy | UpdatePolicy => Policy.t
  | TestPolicy => TestPolicyBody.t
  | CreateAdapter => AdapterBody.t
  | ADEvents => list ADAuthEvent.t
  | _ => unit
  end.

Definition handler_of (e : endpoint) : api_handler (body_of e) :=
  match e with
  | AccessEvaluate => handleAccessEvaluate
  | ChallengeVerify => handleChallengeVerify
  | ChallengeWebAuthnBegin => handleChallengeWebAuthnBegin
  | ChallengeWebAuthnFinish => handleChallengeWebAuthnFinish
  | ListChallenges => handleListChallenges
  | ListIdentities => handleListIdentities
  | CreateIdentity => handleCreateIdentity
  | GetIdentity => handleGetIdentity
  | UpdateIdentity => handleUpdateIdentity
  | DeleteIdentity => handleDeleteIdentity
  | TOTPEnroll => handleTOTPEnroll
  | TOTPActivate => handleTOTPActivate
  | WebAuthnBeginRegistration => handleWebAuthnBeginRegistration
  | WebAuthnFinishRegistration => handleWebAuthnFinishRegistration
  | WebAuthnBeginVerification => handleWebAuthnBeginVerification
  | WebAuthnFinishVerification => handleWebAuthnFinishVerification
  | CreateDevice => handleCreateDevice
  | ListDevices => handleListDevices
  | GetDevice => handleGetDevice
  | DeleteDevice => handleDeleteDevice
  | ApproveChallenge => handleApproveChallenge
  | ListPolicies => handleListPolicies
  | CreatePolicy => handleCreatePolicy
  | TestPolicy => handleTestPolicy
  | GetPolicy => handleGetPolicy
  | UpdatePolicy => handleUpdatePolicy
  | DeletePolicy => handleDeletePolicy
  | ListAdapters => handleListAdapters
  | CreateAdapter => handleCreateAdapter
  | GetAdapter => handleGetAdapter
  | DeleteAdapter => handleDeleteAdapter
  | RotateAdapterToken => handleRotateAdapterToken
  | ListAuditEvents => handleListAuditEvents
  | VerifyAudit => handleVerifyAudit
  | ADEvents => handleADEvents
  | ADProfiles => handleADProfiles
  | ADInventoryScan => handleADInventoryScan
  end.

(** [RegisterRoutes]: every handler is wrapped in the authentication middleware. *)
Definition route (e : endpoint) : api_handler (body_of e) := Middleware (handler_of e).
End Handlers.

(** ** Code that only ever appends to the audit log and leaves tokens alone *)

(** A sub-store other than the token store. *)
Class KeepsTokens (A : Type) (T : Table A) : Prop :=
  keeps_tokens : forall m s, MemoryStore.authTokens (set_tbl m s) = MemoryStore.authTokens s.

#[global] Instance identity_keeps : KeepsTokens Identity.t identity_table. Proof. done. Qed.
#[global] Instance device_keeps : KeepsTokens Device.t device_table. Proof. done. Qed.
#[global] Instance adapter_keeps : KeepsTokens Adapter.t adapter_table. Proof. done. Qed.
#[global] Instance policy_keeps : KeepsTokens Policy.t policy_table. Proof. done. Qed.
#[global] Instance challenge_keeps : KeepsTokens Challenge.t challenge_table. Proof. done. Qed.
#[global] Instance factor_keeps : KeepsTokens Factor.t factor_table. Proof. done. Qed.
#[global] Instance profile_keeps : KeepsTokens BehaviouralProfile.t profile_table. Proof. done. Qed.

(** The log grew, is still a valid chain if it was one, and the tokens are the same. *)
Record append_only {L : Lib} (w w' : World L) : Prop := {
  ao_audit : audit_ok (store w) -> audit_ok (store w');
  ao_log : exists new, MemoryStore.auditEvents (store w') = MemoryStore.auditEvents (store w) ++ new;
  ao_tokens : MemoryStore.authTokens (store w') = MemoryStore.authTokens (store w)
}.

Definition safe {L : Lib} {A} (m : M A) : Prop := forall w : World L, append_only w (m w).2.

(** The decision the code arrives at, from the risk level and the policy's effect. *)
Definition final_decision (level : string) (effect : Decision) : Decision :=
  if String.eqb level "critical" then DecisionDeny
  else if String.eqb effect DecisionDeny then DecisionDeny
  else if String.eqb level "very_high" then DecisionChallenge
  else if String.eqb effect DecisionAlert then DecisionAllow
  else effect.

(** What a successful evaluation leaves behind: a stored pending challenge
    exactly for a challenge decision, and one audit record of the decision at
    the end of the log. *)
Definition evaluated {L : Lib} {E : Env} (h : Handler.t) (req : AccessRequest.t) (rr : RiskResult.t)
    (pd : PolicyDecision.t) (w w' : World L) (dec : AccessDecision.t) : Prop :=
  AccessDecision.Decision_ dec = final_decision (RiskResult.Level rr) (PolicyDecision.Effect pd) /\
  AccessDecision.RiskScore dec = RiskResult.Score rr /\
  match AccessDecision.Challenge dec with
  | None => AccessDecision.Decision_ dec <> DecisionChallenge /\ challenges w' = challenges w
  | Some ci => AccessDecision.Decision_ dec = DecisionChallenge /\
      exists c, challenges w' = <[ChallengeInfo.ID ci := c]> (challenges w) /\
        Challenge.Status c = ChallengeStatusPending /\ Challenge.Attempts c = 0 /\
        Challenge.RequestID c = AccessDecision.RequestID dec /\ Challenge.Methods c = challengeMethods pd /\
        Challenge.MaxAttempts c = Service.maxAttempts (Handler.challenge h)
  end /\
  exists new e, MemoryStore.auditEvents (store w') = MemoryStore.auditEvents (store w) ++ new ++ [e] /\
    AuditEvent.Type_ e = "access.evaluate" /\
    AuditEvent.Decision_ e = AccessDecision.Decision_ dec /\
    AuditEvent.RiskScore e = AccessDecision.RiskScore dec /\
    AuditEvent.Reasons e = AccessDecision.Reasons dec.

(** ** Concrete data *)

Definition demo_handler : Handler.t := Handler.mk DefaultThresholds demo_svc DefaultWeights true (Some demo_config).

Definition demo_eval_request : Request.t AccessRequest.t :=
  Request.mk _ "" None (fun _ => "") (fun _ => "") (Some demo_policy_request).

Definition demo_challenge_policy : Policy.t :=
  Policy.mk "mfa" "" true 5 DecisionChallenge (Some (encode (CAll [])))
    (Some (ChallengeSpec.mk [MFAMethodPush])) zeroTime zeroTime.

(** ** Facts *)

Section SafeFacts.
Context {L : Lib} {E : Env}.

#[global] Instance append_only_preorder : PreOrder (append_only (L := L)).
Proof.
  split.
  - intros w. split; auto. exists []. by rewrite app_nil_r.
  - intros w1 w2 w3 [a1 [n1 l1] t1] [a2 [n2 l2] t2]. split; [auto| |congruence].
    exists (n1 ++ n2). by rewrite l2, l1, app_assoc.
Qed.

Lemma same_store_append_only (w w' : World L) : store w' = store w -> append_only w w'.
Proof. intros Hs. split; rewrite Hs; auto. exists []. by rewrite app_nil_r. Qed.

Lemma frame_append_only (w w' : World L) : Orchestrator.frame w w' -> append_only w w'.
Proof. intros []. by split. Qed.

Lemma safe_ret {A} (a : A) : safe (L := L) (mret a).
Proof. intros w. by apply same_store_append_only. Qed.

Lemma safe_ask {A} (f : nat -> A) : safe (L := L) (ask f).
Proof. intros w. by apply same_store_append_only. Qed.

Lemma safe_gets {A} (f : World L -> A) : safe (gets f).
Proof. intros w. by apply same_store_append_only. Qed.

Lemma safe_set_bus b : safe (L := L) (modify (set_bus b)).
Proof. intros w. by apply same_store_append_only. Qed.

Lemma safe_set_sessions (f : World L -> _) : safe (modify (fun w => set_sessions (f w) w)).
Proof. intros w. by apply same_store_append_only. Qed.

Lemma safe_bind {A B} (m : M A) (k : A -> M B) :
  safe (L := L) m -> (forall a, safe (k a)) -> safe (x ← m; k x).
Proof.
  intros Hm Hk w. specialize (Hm w). st_unfold. destruct (m w) as [a w1]. cbn in *.
  etransitivity; [exact Hm|apply Hk].
Qed.

Lemma safe_try {A B} (m : M (result A)) (k : A -> M (result B)) :
  safe (L := L) m -> (forall a, safe (k a)) -> safe (st_try m k).
Proof.
  intros Hm Hk w. specialize (Hm w). unfold st_try. destruct (m w) as [[a|e] w1]; cbn in *; [|done].
  etransitivity; [exact Hm|apply Hk].
Qed.

Section OneTable.
Context {A : Type} {T : Table A} {TOk : TableOk A T} {TK : KeepsTokens A T}.

Lemma set_tbl_append_only (m : gmap string A) (w : World L) :
  append_only w (set_store (set_tbl m (store w)) w).
Proof.
  destruct (audit_set_tbl m (store w)) as [He Hh]. split; cbn.
  - unfold audit_ok. by rewrite He, Hh.
  - exists []. by rewrite app_nil_r, He.
  - apply TK.
Qed.

Lemma safe_Create (v : A) : safe (L := L) (tbl_Create v).
Proof. intros w. rewrite tbl_Create_run. apply set_tbl_append_only. Qed.
Lemma safe_Update (v : A) : safe (L := L) (tbl_Update v).
Proof. intros w. rewrite tbl_Update_run. destruct (rows w !! key v); [apply set_tbl_append_only|done]. Qed.
Lemma safe_Delete id : safe (L := L) (tbl_Delete (A := A) id).
Proof. intros w. rewrite tbl_Delete_run. apply set_tbl_append_only. Qed.
Lemma safe_assign f (v : A) : safe (L := L) (assign f v).
Proof. intros w. rewrite assign_run. apply set_tbl_append_only. Qed.
End OneTable.

Lemma safe_Get {A} `{Table A} id : safe (L := L) (tbl_Get (A := A) id).
Proof. intros w. by rewrite tbl_Get_run. Qed.
Lemma safe_List {A} `{Table A} : safe (L := L) (tbl_List (A := A)).
Proof. intros w. by apply same_store_append_only. Qed.
Lemma safe_Find {A} `{Table A} p what : safe (L := L) (tbl_Find (A := A) p what).
Proof. intros w. by apply same_store_append_only. Qed.
Lemma safe_ListBy {A} `{Table A} p : safe (L := L) (tbl_ListBy (A := A) p).
Proof. intros w. by apply same_store_append_only. Qed.

Lemma safe_Emit ty a t d s rs md : safe (L := L) (AuditLog.Emit ty a t d s rs md).
Proof.
  intros w. destruct (AuditLog.Emit_run ty a t d s rs md w) as (e & -> & _). cbn [snd].
  split; cbn; [apply append_event_ok| |done]. eexists. apply append_event_events.
Qed.

Lemma safe_audit_List f : safe (L := L) (AuditLog.List_ f).
Proof. intros w. by apply same_store_append_only. Qed.
Lemma safe_audit_Verify : safe (L := L) AuditLog.Verify.
Proof. intros w. by apply same_store_append_only. Qed.

Lemma safe_for_each {A B} (f : A -> M B) l : (forall x, safe (L := L) (f x)) -> safe (for_each f l).
Proof. intros Hf. induction l as [|x l IH]; cbn; [apply safe_ret|]. apply safe_bind; auto. Qed.

Lemma safe_reads {A} (m : M A) : reads_only m -> safe (L := L) m.
Proof. intros Hm w. destruct (Hm w) as (a & k & -> & _). by apply same_store_append_only. Qed.
End SafeFacts.

#[export] Hint Resolve safe_ret safe_ask safe_gets safe_set_bus safe_set_sessions safe_Get safe_List safe_Find safe_ListBy safe_Emit safe_audit_List
  safe_audit_Verify : oiaf.

(** Decompose code into the primitives above. *)
Ltac safely :=
  repeat match goal with
  | |- forall _, _ => intros ?
  | |- safe (mbind _ _) => apply safe_bind
  | |- safe (st_try _ _) => apply safe_try
  | |- safe (if ?b then _ else _) => destruct b
  | |- safe (match ?x with _ => _ end) => destruct x
  | |- safe (for_each _ _) => apply safe_for_each
  | |- safe (tbl_Create _) => apply safe_Create
  | |- safe (tbl_Update _) => apply safe_Update
  | |- safe (tbl_Delete _) => apply safe_Delete
  | |- safe (assign _ _) => apply safe_assign
  | |- safe _ => solve [eauto with oiaf]
  end.

Section SafeCode.
Context {L : Lib} {E : Env}.

Lemma safe_BusEmit e ty a s refs data : safe (L := L) (Bus.Emit e ty a s refs data).
Proof. unfold Bus.Emit, Bus.newID, Now. safely. Qed.

Lemma safe_publish ty a s refs data : safe (L := L) (publish ty a s refs data).
Proof. unfold publish. safely. apply safe_BusEmit. Qed.

Lemma safe_Evaluate req : safe (L := L) (Evaluate req).
Proof. unfold Evaluate, Policies.List_. safely. Qed.

Lemma safe_ChallengeCreate svc i r ms : safe (L := L) (Orchestrator.Create svc i r ms).
Proof. unfold Create, drawNumber, Push.GenerateNumber, NewID, Now, Challenges.Create, emit. safely. Qed.

Lemma safe_preVerify id : safe (L := L) (preVerify id).
Proof. unfold preVerify, Challenges.Get, Challenges.Update, Now, set_field. safely. Qed.

Lemma safe_approve now reason c : safe (L := L) (approve now reason c).
Proof. unfold approve, set_field, Challenges.Update, emit. safely. Qed.

Lemma safe_fail c : safe (L := L) (fail_if_exhausted c).
Proof. unfold fail_if_exhausted, set_field. safely. Qed.

Lemma safe_FinishVerification id s b : safe (L := L) (WebAuthn.FinishVerification id s b).
Proof.
  intros w. destruct (FinishVerification_frame id s b w) as (a & k & fs & -> & _).
  transitivity (set_tick k w); [by apply same_store_append_only|].
  exact (set_tbl_append_only (A := Factor.t) fs (set_tick k w)).
Qed.
End SafeCode.

#[export] Hint Resolve safe_BusEmit safe_publish safe_Evaluate safe_ChallengeCreate safe_preVerify
  safe_approve safe_fail safe_FinishVerification safe_reads Totp_Verify_reads VerifyApproval_reads
  user_reads BeginVerification_reads : oiaf.

Section SafeHandlers.
Context {L : Lib} {E : Env}.

Lemma safe_VerifyTOTP id code : safe (L := L) (VerifyTOTP id code).
Proof. unfold VerifyTOTP, set_field, Challenges.Update, emit, Now. safely. Qed.

Lemma safe_VerifyPush svc id d n sig ts : safe (L := L) (VerifyPush svc id d n sig ts).
Proof. unfold VerifyPush, set_field, Challenges.Update, Now. safely. Qed.

Lemma safe_BeginWebAuthn svc id : safe (L := L) (BeginWebAuthn svc id).
Proof. unfold BeginWebAuthn, set_field, Challenges.Get, Challenges.Update, Now. safely. Qed.

Lemma safe_FinishWebAuthn svc id b : safe (L := L) (FinishWebAuthn svc id b).
Proof. unfold FinishWebAuthn, set_field, Challenges.Update, emit, Now. safely. Qed.

Lemma safe_Enroll id iss : safe (L := L) (Totp.Enroll id iss).
Proof. unfold Totp.Enroll, NewID, Now, Factors.Create. safely. Qed.

Lemma safe_Activate id f code : safe (L := L) (Totp.Activate id f code).
Proof. unfold Totp.Activate, Totp.validate, Now, Factors.Get, Factors.Update. safely. Qed.

Lemma safe_RegisterDevice id n : safe (L := L) (Push.RegisterDevice id n).
Proof. unfold Push.RegisterDevice, NewID, Now, Devices.Create. safely. Qed.

Lemma safe_BeginRegistration id : safe (L := L) (WebAuthn.BeginRegistration id).
Proof. unfold WebAuthn.BeginRegistration, NewID, Now, Factors.Create. safely. Qed.

Lemma safe_FinishRegistration id f b : safe (L := L) (WebAuthn.FinishRegistration id f b).
Proof.
  unfold WebAuthn.FinishRegistration, WebAuthn.ceremony_expired, Now, Factors.Get, Factors.Update. safely.
Qed.

Lemma safe_BeginIdentity id : safe (L := L) (WebAuthn.BeginIdentityVerification id).
Proof. unfold WebAuthn.BeginIdentityVerification, Now. safely. Qed.

Lemma safe_FinishIdentity id b : safe (L := L) (WebAuthn.FinishIdentityVerification id b).
Proof. unfold WebAuthn.FinishIdentityVerification, Now. safely. Qed.

Lemma safe_ingest wt evs : forall ds, safe (L := L) (ingest_loop wt ds evs).
Proof.
  induction evs as [|ev evs IH]; intros ds; cbn [ingest_loop]; [safely|].
  destruct (String.eqb _ _); [apply IH|]. apply safe_bind; [|intros [d|e]; [apply IH|safely]].
  unfold ingest_one, loadProfile, updateProfile, eventTime, newProfile, reclassify, Now,
    BehaviouralProfiles.Get, BehaviouralProfiles.Upsert.
  pose proof (classify_reads (L := L) (E := E) wt). pose proof (buildBaseline_reads (L := L) (E := E)).
  safely.
Qed.

Lemma safe_Scan cfg : safe (L := L) (Inventory.Scan cfg).
Proof.
  assert (Hloop : forall recs, safe (L := L) (upsert_loop recs)).
  { induction recs as [|rec recs IH]; cbn [upsert_loop]; [safely|].
    unfold upsertIdentity, Identities.GetByUsername, Identities.Update, Identities.Create, Now, NewID. safely. }
  unfold Inventory.Scan, fetchRecords, connect, fetchAccounts, Now. safely.
Qed.
End SafeHandlers.

#[export] Hint Resolve safe_VerifyTOTP safe_VerifyPush safe_BeginWebAuthn safe_FinishWebAuthn safe_Enroll
  safe_Activate safe_RegisterDevice safe_BeginRegistration safe_FinishRegistration safe_BeginIdentity
  safe_FinishIdentity safe_ingest safe_Scan : oiaf.

Section Endpoints.
Context {L : Lib} {E : Env} (h : Handler.t).

(** Every handler only appends to the log and leaves tokens alone. *)
Lemma safe_handler (e : endpoint) (r : Request.t (body_of e)) : safe (L := L) (handler_of h e r).
Proof.
  destruct e; cbn [handler_of]; cbn [body_of] in r;
  unfold handleAccessEvaluate, handleChallengeVerify, handleChallengeWebAuthnBegin,
    handleChallengeWebAuthnFinish, handleListChallenges, handleListIdentities, handleCreateIdentity,
    handleGetIdentity, handleUpdateIdentity, handleDeleteIdentity, handleTOTPEnroll, handleTOTPActivate,
    handleWebAuthnBeginRegistration, handleWebAuthnFinishRegistration, handleWebAuthnBeginVerification,
    handleWebAuthnFinishVerification, handleCreateDevice, handleListDevices, handleGetDevice,
    handleDeleteDevice, handleApproveChallenge, handleListPolicies, handleCreatePolicy, handleTestPolicy,
    handleGetPolicy, handleUpdatePolicy, handleDeletePolicy, handleListAdapters, handleCreateAdapter,
    handleGetAdapter, handleDeleteAdapter, handleRotateAdapterToken, handleListAuditEvents,
    handleVerifyAudit, handleADEvents, handleADProfiles, handleADInventoryScan, resolve_decision, publishVerified, audit_event,
    audit_deviation, GenerateToken, HashToken, Ingest, Profiles, Orchestrator.List_, NewID, Now,
    Identities.Create, Identities.Update, Identities.Delete, Devices.Delete, Policies.Create,
    Policies.Update, Policies.Delete, Adapters.Create, Adapters.Delete;
  cbv zeta; safely.
Qed.
End Endpoints.

(** ** Facts about access evaluation *)

Section Evaluation.
Context {L : Lib} {E : Env} (h : Handler.t).

Lemma publish_store ty a sj refs data (w : World L) :
  exists w', publish ty a sj refs data w = (tt, w') /\ store w' = store w.
Proof.
  unfold publish. m_run. destruct (bus w) as [e|]; [|by exists w]. st_unfold.
  destruct (Bus.Enabled e) eqn:Hen.
  - destruct (Bus.busEmit_run e ty a sj refs data w Hen) as (ev & err & k & sent & -> & _). by eexists.
  - unfold Bus.Emit. rewrite Hen. by exists w.
Qed.

Lemma override_final level effect reasons :
  let '(d, _) := override level effect reasons in
  (d = DecisionDeny \/ d = DecisionChallenge \/ d = effect) /\
  (if String.eqb d DecisionAlert then DecisionAllow else d) = final_decision level effect.
Proof.
  unfold override, final_decision.
  destruct (String.eqb level "critical"); [split; auto|].
  destruct (String.eqb_spec effect DecisionDeny) as [->|Hd]; cbn [negb].
  - rewrite andb_false_r. auto.
  - rewrite andb_true_r. destruct (String.eqb level "very_high"); [split; auto|]. split; [auto|done].
Qed.

Context `{!EnvOk E}.

(** The three ways a decision is completed. *)
Lemma resolve_run req rid pd d rs (w : World L) : exists res w1,
  resolve_decision h req rid pd d rs w = (res, w1) /\ Orchestrator.frame w w1 /\
  match res with
  | Err _ => d = DecisionChallenge /\ challenges w1 = challenges w
  | Ok (d', rs', ci) =>
      d' = (if String.eqb d DecisionAlert then DecisionAllow else d) /\
      match ci with
      | None => d <> DecisionChallenge /\ challenges w1 = challenges w
      | Some ci => d' = DecisionChallenge /\
          exists c, challenges w1 = <[ChallengeInfo.ID ci := c]> (challenges w) /\
            Challenge.Status c = ChallengeStatusPending /\ Challenge.Attempts c = 0 /\
            Challenge.RequestID c = rid /\ Challenge.Methods c = challengeMethods pd /\
            Challenge.MaxAttempts c = Service.maxAttempts (Handler.challenge h)
      end
  end.
Proof.
  unfold resolve_decision. destruct (String.eqb_spec d DecisionChallenge) as [->|Hd].
  - st_unfold. unfold Identities.GetByUsername, tbl_Find, tbl_range. m_run.
    set (w0 := set_tick (S (tick w)) w).
    match goal with |- context [Create ?s ?i ?r ?ms w0] =>
      destruct (Create_run s i r ms w0) as (res & w1 & Hrun & Hf & Hres); rewrite Hrun end.
    assert (Hf0 : Orchestrator.frame w w1).
    { etransitivity; [|exact Hf]. apply frame_set_tick. lia. }
    destruct res as [c|e].
    + eexists _, w1. split; [reflexivity|]. split; [done|]. split; [done|]. split; [done|].
      destruct Hres as (Hw & _ & _ & _ & Hr & Hm & Hp & Ha & Hx & _). by exists c.
    + eexists _, w1. split; [reflexivity|]. split; [done|]. done.
  - destruct (String.eqb_spec d DecisionAlert) as [->|Ha].
    + eexists _, w. split; [reflexivity|]. split; [done|]. done.
    + eexists _, w. split; [reflexivity|]. split; [done|].
      destruct (String.eqb_spec d DecisionAlert); done.
Qed.

Lemma evaluate_run (r : Request.t AccessRequest.t) req rr (w : World L) :
  Request.Body r = Some req -> Score (Handler.risk h) req = Ok rr ->
  exists pd resp w', (Evaluate req w).1 = Ok pd /\ handleAccessEvaluate h r w = (resp, w') /\
    ((resp = writeError StatusInternalServerError "failed to create challenge" /\
      final_decision (RiskResult.Level rr) (PolicyDecision.Effect pd) = DecisionChallenge) \/
     exists dec, resp = writeJSON StatusOK (PDecision dec) /\ evaluated h req rr pd w w' dec).
Proof.
  intros Hb Hs. unfold handleAccessEvaluate. rewrite Hb, Hs. st_unfold.
  destruct (Evaluate_run req w) as (pd & k & Hev & _). rewrite Hev. exists pd. unfold NewID, ask.
  pose proof (override_final (RiskResult.Level rr) (PolicyDecision.Effect pd)
    (PolicyDecision.Reasons pd ++ RiskResult.Reasons rr)) as Hov.
  destruct (override _ _ _) as [d rs]. destruct Hov as [_ Hfin].
  set (w0 := set_tick (S (tick (set_tick k w))) (set_tick k w)).
  set (rid := uuid_New (tick (set_tick k w))).
  destruct (resolve_run req rid pd d rs w0) as (res & w1 & Hres & Hf & Hspec). rewrite Hres.
  destruct res as [[[d' rs'] ci]|e].
  2: { destruct Hspec as [-> _]. eexists _, w1. split; [done|]. split; [reflexivity|]. left. split; [done|].
       by rewrite <- Hfin. }
  destruct Hspec as [Hd' Hci].
  match goal with |- context [AuditLog.Emit ?ty ?a ?t ?dd ?s ?rr ?m w1] =>
    destruct (AuditLog.Emit_run ty a t dd s rr m w1) as (e & -> & H1 & _ & _ & H4 & H5 & H6 & _) end.
  match goal with |- context [publish ?ty ?a ?s ?refs ?data ?w2] =>
    destruct (publish_store ty a s refs data w2) as (w3 & -> & Hst) end.
  eexists _, w3. split; [done|]. split; [reflexivity|]. right. eexists. split; [reflexivity|].
  assert (Hch : challenges w3 = challenges w1) by (unfold challenges; by rewrite Hst).
  split; [cbn; by rewrite Hd', Hfin|]. split; [done|]. split.
  - cbn. destruct ci as [ci|].
    + destruct Hci as (Hd & c & Hw1 & Hrest). split; [done|]. exists c. by rewrite Hch.
    + destruct Hci as [Hd Hw1]. split; [|by rewrite Hch].
      rewrite Hd'. by destruct (String.eqb d DecisionAlert).
  - destruct (frame_log _ _ Hf) as [new Hnew].
    exists new, (link (MemoryStore.auditLastHash (store w1)) e). rewrite Hst. cbn [store set_store].
    rewrite append_event_events. change (store (set_tick _ w1)) with (store w1). rewrite Hnew, <- app_assoc.
    by split_and!.
Qed.
End Evaluation.

Section Routes.
Context {L : Lib} {E : Env} `{!EnvOk E}.

Lemma Validate_reads s : reads_only (L := L) (Validate s).
Proof.
  intros w. rewrite Validate_run.
  destruct (validate_loop_state s ((range_map (tick w) (MemoryStore.authTokens (store w))).*2)
    (set_tick (S (tick w)) w)) as (r & k & -> & Hk). exists r, k. cbn in *. split; [done|lia].
Qed.

Lemma safe_route h (e : endpoint) (r : Request.t (body_of e)) : safe (L := L) (route h e r).
Proof.
  unfold route, Middleware. cbv zeta. destruct (String.eqb _ ""); [safely|].
  destruct (String.eqb _ (Request.Authorization r)); [safely|].
  apply safe_bind; [apply safe_reads, Validate_reads|]. intros [tok|e']; [|safely].
  apply safe_handler.
Qed.
End Routes.

(** ** Properties *)

(** C1: an access evaluation is the composition of risk, policy, challenge and
    audit: on a decoded request the handler always answers; the answer is 200
    with the decision that the risk level and the policy's effect determine
    (deny at critical risk or on a policy deny, otherwise challenge at very
    high risk, otherwise the policy's effect with alert turned into allow), a
    fresh pending challenge is stored and returned exactly for a challenge
    decision, and the log ends with one access.evaluate record carrying the
    same decision, score and reasons; the only other outcome is 500 when a
    needed challenge could not be created. *)
Theorem evaluate_decides {L : Lib} {E : Env} `{!EnvOk E} h (r : Request.t AccessRequest.t) req rr (w : World L) :
  Request.Body r = Some req -> Score (Handler.risk h) req = Ok rr ->
  exists pd resp w', (Evaluate req w).1 = Ok pd /\ handleAccessEvaluate h r w = (resp, w') /\
    ((resp = writeError StatusInternalServerError "failed to create challenge" /\
      final_decision (RiskResult.Level rr) (PolicyDecision.Effect pd) = DecisionChallenge) \/
     exists dec, resp = writeJSON StatusOK (PDecision dec) /\ evaluated h req rr pd w w' dec).
Proof. intros Hb Hs. by apply evaluate_run. Qed.

Lemma evaluate_decides_witness : exists rr,
  Score DefaultThresholds demo_policy_request = Ok rr /\
  exists pd resp w', (Evaluate demo_policy_request (demo_policy_world [demo_challenge_policy])).1 = Ok pd /\
    handleAccessEvaluate demo_handler demo_eval_request (demo_policy_world [demo_challenge_policy]) = (resp, w') /\
    ((resp = writeError StatusInternalServerError "failed to create challenge" /\
      final_decision (RiskResult.Level rr) (PolicyDecision.Effect pd) = DecisionChallenge) \/
     exists dec, resp = writeJSON StatusOK (PDecision dec) /\
       evaluated demo_handler demo_policy_request rr pd (demo_policy_world [demo_challenge_policy]) w' dec).
Proof.
  eexists. split; [vm_compute; reflexivity|].
  apply (evaluate_decides demo_handler demo_eval_request demo_policy_request).
  - reflexivity.
  - vm_compute. reflexivity.
Defined.

(** a denial cannot be talked down: when the risk level is critical, or the
    policy engine says deny, the answer to an access request is 200 with a deny
    decision and no challenge, and no stored challenge is created or changed. *)
Theorem denial_is_final {L : Lib} {E : Env} `{!EnvOk E} h (r : Request.t AccessRequest.t) req rr pd (w : World L) :
  Request.Body r = Some req -> Score (Handler.risk h) req = Ok rr -> (Evaluate req w).1 = Ok pd ->
  RiskResult.Level rr = "critical" \/ PolicyDecision.Effect pd = DecisionDeny ->
  exists dec w', handleAccessEvaluate h r w = (writeJSON StatusOK (PDecision dec), w') /\
    AccessDecision.Decision_ dec = DecisionDeny /\ AccessDecision.Challenge dec = None /\
    challenges w' = challenges w.
Proof.
  intros Hb Hs He Hor. destruct (evaluate_run h r req rr w Hb Hs) as (pd' & resp & w' & He' & Hrun & Hres).
  rewrite He in He'. injection He' as <-.
  assert (Hfin : final_decision (RiskResult.Level rr) (PolicyDecision.Effect pd) = DecisionDeny).
  { unfold final_decision. destruct Hor as [-> | ->]; [done|]. by destruct (String.eqb _ "critical"). }
  rewrite Hfin in Hres. destruct Hres as [[_ Hbad]|(dec & -> & Hdec & _ & Hch & _)]; [done|].
  rewrite Hfin in Hdec. exists dec, w'. split; [done|]. split; [done|].
  rewrite Hdec in Hch. destruct (AccessDecision.Challenge dec) as [ci|]; [by destruct Hch|].
  by destruct Hch.
Qed.

Lemma denial_is_final_witness : exists dec w',
  handleAccessEvaluate demo_handler demo_eval_request (demo_policy_world [demo_allow_all; demo_deny_rdp])
    = (writeJSON StatusOK (PDecision dec), w') /\
  AccessDecision.Decision_ dec = DecisionDeny /\ AccessDecision.Challenge dec = None /\
  challenges w' = challenges (demo_policy_world [demo_allow_all; demo_deny_rdp]).
Proof.
  eapply (denial_is_final demo_handler demo_eval_request demo_policy_request).
  - reflexivity.
  - vm_compute. reflexivity.
  - vm_compute. reflexivity.
  - right. reflexivity.
Defined.

(** no endpoint acts for an unauthenticated caller: on every route, a
    request without an acceptable bearer token gets 401 and leaves the store,
    the bus and the ceremony sessions untouched; otherwise the route's handler
    runs with an accepted token in the request's context. *)
Theorem routes_authenticated {L : Lib} {E : Env} `{!EnvOk E} h (e : endpoint) (r : Request.t (body_of e)) (w : World L) :
  (exists k msg, route h e r w = (writeError StatusUnauthorized msg, set_tick k w)) \/
  (exists tok k, accepted w (TrimPrefix (Request.Authorization r) "Bearer ") tok /\
     route h e r w = handler_of h e (Request.set_token tok r) (set_tick k w)).
Proof.
  unfold route. destruct (Middleware_cases (handler_of h e) r w) as [H|(tok & k & _ & Hacc & Hrun)]; [by left|].
  right. by exists tok, k.
Qed.

Lemma routes_authenticated_witness :
  let r := Request.mk unit "Bearer wrong" None (fun _ => "1") (fun _ => "") (Some tt) in
  (exists k msg, route demo_handler DeletePolicy r demo_token_world
     = (writeError StatusUnauthorized msg, set_tick k demo_token_world)) \/
  (exists tok k, accepted demo_token_world (TrimPrefix "Bearer wrong" "Bearer ") tok /\
     route demo_handler DeletePolicy r demo_token_world
     = handler_of demo_handler DeletePolicy (Request.set_token tok r) (set_tick k demo_token_world)).
Proof.
  apply (routes_authenticated demo_handler DeletePolicy
    (Request.mk unit "Bearer wrong" None (fun _ => "1") (fun _ => "") (Some tt)) demo_token_world).
Defined.



(** ** What modelling showed *)

(** "Test a policy" never looks at the submitted policy. *)
Theorem test_policy_ignores_policy {L : Lib} {E : Env} p p' req auth tok pv q (w : World L) :
  handleTestPolicy (Request.mk _ auth tok pv q (Some (TestPolicyBody.mk p req))) w
  = handleTestPolicy (Request.mk _ auth tok pv q (Some (TestPolicyBody.mk p' req))) w.
Proof. reflexivity. Qed.

(** The token an adapter is given is not one the middleware accepts. *)
Theorem adapter_token_rejected : exists a token,
  let r := Request.mk _ "" None (fun _ => "") (fun _ => "") (Some (AdapterBody.mk "okta" "okta" true)) in
  (handleCreateAdapter r demo_world).1 = writeJSON StatusCreated (PAdapterToken a token) /\
  Adapter.TokenHash a = token /\
  (Middleware demo_next (Auth.demo_request ("Bearer " +:+ token)) (handleCreateAdapter r demo_world).2).1
    = writeError StatusUnauthorized "invalid token".
Proof. eexists _, _. split; [vm_compute; reflexivity|]. split; vm_compute; reflexivity. Qed.

(** A challenge that was approved while its counter could not be stored is
    answered with 400. *)
Theorem approved_but_refused {L : Lib} {E : Env} h (r : Request.t string) (w w' : World L) ch err :
  Handler.webauthn h = true ->
  FinishWebAuthn (Handler.challenge h) (Request.PathValue r "id") (raw_body r) w = ((Some ch, Some err), w') ->
  handleChallengeWebAuthnFinish h r w = (writeError StatusBadRequest err, w').
Proof.
  intros Hw Hf. unfold handleChallengeWebAuthnFinish. rewrite Hw. cbn [negb].
  unfold mbind, st_bind. rewrite Hf. reflexivity.
Qed.
