(* ===== verification/Okta.v ===== *)
(** * adapters/okta: events, detection memory and risk signals

    The adapter is a process of its own: its state is the persisted cursor and
    detection memory ([State]), what it has handed to its sink ([sent]), and the
    disk its state file is on.
    The pointer [Identity] returns is the entry of the state's map, if the entry
    survives the eviction that adding it may cause; [Commit] writes through it. *)

From S2P Require Import Prelude GoStrings GoTime GoFloat GoCrypto GoJson GoOs Types World Instances.
From Stdlib Require Import SpecFloat.

(** ** Log events (client.go) *)

Module Outcome.
Record t := mk { Result : string; Reason : string }.
End Outcome.

Module Actor.
Record t := mk { ID : string; Type_ : string; DisplayName : string; AlternateID : string }.
End Actor.

Module UserAgent.
Record t := mk { RawUserAgent : string; Browser : string; OS : string }.
End UserAgent.

Module Geo.
Record t := mk { Lat : spec_float; Lon : spec_float }.
End Geo.

Module Geographic.
Record t := mk { City : string; State : string; Country : string; Geolocation : option Geo.t }.
End Geographic.

Module EventClient.
Record t := mk {
  IPAddress : string;
  UserAgent : UserAgent.t;
  Zone : string;
  Device : string;
  ID : string;
  Geographic : Geographic.t
}.
End EventClient.

Module AuthCtx.
Record t := mk {
  AuthenticationProvider : string;
  CredentialProvider : string;
  CredentialType : string;
  Context_ : string;
  ExternalSessionID : string
}.
End AuthCtx.

Module SecurityCtx.
Record t := mk {
  ASNumber : Z; ASOrg : string; ISP : string; Domain : string; IsProxy : bool; Anonymizer : string
}.
End SecurityCtx.

Module Target.
Record t := mk { ID : string; Type_ : string; AlternateID : string; DisplayName : string }.
End Target.

Module LogEvent.
Record t := mk {
  UUID : string;
  Published : Time;
  EventType : string;
  DisplayMsg : string;
  Outcome_ : Outcome.t;
  Actor_ : Actor.t;
  Client : EventClient.t;
  AuthContext : AuthCtx.t;
  SecurityCtx_ : SecurityCtx.t;
  DebugData : gmap string string;
  Targets : list Target.t
}.
End LogEvent.

Definition ActorLogin (e : LogEvent.t) : string :=
  let a := LogEvent.Actor_ e in
  if negb (String.eqb (Actor.AlternateID a) "") then Actor.AlternateID a else Actor.DisplayName a.

Definition DeviceFingerprint (e : LogEvent.t) : string :=
  let c := LogEvent.Client e in
  let raw := UserAgent.RawUserAgent (EventClient.UserAgent c) in
  if String.eqb (EventClient.Device c) "" && String.eqb raw "" then ""
  else EventClient.Device c +:+ "|" +:+ raw.

Definition GeoLabel (e : LogEvent.t) : string :=
  let g := EventClient.Geographic (LogEvent.Client e) in
  let given s := negb (String.eqb s "") in
  if given (Geographic.City g) && given (Geographic.Country g)
  then Geographic.City g +:+ ", " +:+ Geographic.Country g
  else if given (Geographic.City g) then Geographic.City g
  else if given (Geographic.Country g) then Geographic.Country g
  else if given (Geographic.State g) then Geographic.State g
  else "".

(** ** State (state.go) *)

Definition maxRecentUUIDs : nat := 4096.
Definition maxTrackedIdentities : nat := 4096.
Definition maxDevicesPerIdentity : nat := 32.
Definition maxGeosPerIdentity : nat := 16.
Definition maxMFAFailsPerIdentity : nat := 32.

Module IdentityState.
Record t := mk {
  LastSeen : Time;
  LastGeo : string;
  Geos : list string;
  LastLat : spec_float;
  LastLon : spec_float;
  HasGeo : bool;
  Devices : list string;
  MFAFails : list Time;
  Admin : bool
}.
Definition zero : t := mk zeroTime "" [] (S754_zero false) (S754_zero false) false [] [] false.
End IdentityState.

Module State.
Record t := mk {
  Cursor : Time;
  LastUUID : string;
  RecentUUIDs : list string;
  Identities : gmap string IdentityState.t;
  SavedAt : Time;
  processed : gset string
}.
Definition set_Identities m s := mk (Cursor s) (LastUUID s) (RecentUUIDs s) m (SavedAt s) (processed s).
Definition set_recent l p s := mk (Cursor s) (LastUUID s) l (Identities s) (SavedAt s) p.
Definition set_cursor c u s := mk c u (RecentUUIDs s) (Identities s) (SavedAt s) (processed s).
Definition set_SavedAt t s := mk (Cursor s) (LastUUID s) (RecentUUIDs s) (Identities s) t (processed s).
End State.

Definition NewState : State.t := State.mk zeroTime "" [] ∅ zeroTime ∅.

(** [reindex]: the index of a state just read from its file. *)
Definition reindex (s : State.t) : State.t :=
  State.set_recent (State.RecentUUIDs s) (list_to_set (State.RecentUUIDs s)) s.

Definition AlreadyProcessed (uuid : string) (s : State.t) : bool :=
  if String.eqb uuid "" then false else bool_decide (uuid ∈ State.processed s).

Definition MarkProcessed (uuid : string) (s : State.t) : State.t :=
  if String.eqb uuid "" || AlreadyProcessed uuid s then s
  else
    let recent := State.RecentUUIDs s ++ [uuid] in
    let index := {[uuid]} ∪ State.processed s in
    if (maxRecentUUIDs <? length recent)%nat then
      let n := (length recent - maxRecentUUIDs)%nat in
      State.set_recent (drop n recent) (index ∖ list_to_set (take n recent)) s
    else State.set_recent recent index s.

(** ** Signals (signals.go) *)

Definition SignalImpossibleTravel : string := "impossible_travel".
Definition SignalNewGeo : string := "new_geo".
Definition SignalNewDevice : string := "new_device".
Definition SignalMFAFail : string := "mfa_fail".
Definition SignalMFADeny : string := "mfa_deny".
Definition SignalMFAFatigue : string := "mfa_fatigue".
Definition SignalLegacyAuth : string := "legacy_auth".
Definition SignalAdminAction : string := "admin_action".
Definition SignalAuthFailure : string := "auth_failure".

Module Signal.
Record t := mk {
  Type_ : string; Login : string; Time_ : Time; IP : string; Geo_ : string; Details : gmap string string
}.
End Signal.

Module SignalParams.
Record t := mk { FatigueThreshold : Z; FatigueWindow : Z; MaxTravelSpeedKmh : spec_float }.
End SignalParams.

Definition legacyCredentialTypes : list string := ["password"; "basic_auth"].

Definition adminEventTypePrefixes : list string :=
  ["user.account."; "user.mfa.factor."; "user.role."; "system.role."; "group.user_membership.";
   "group.privilege."; "policy.lifecycle."; "policy.rule."; "application.user_management.";
   "user.session.clear"; "zone."].

Definition mfaEventTypePrefixes : list string := ["user.mfa."; "system.mfa."; "user.authentication.mfa."].

Definition appendBounded (l : list string) (v : string) (max : nat) : list string :=
  let out := base.filter (fun s => s <> v) l ++ [v] in
  if (max <? length out)%nat then drop (length out - max) out else out.

Definition pruneMFATimes (times : list Time) (now : Time) (window : Z) : list Time :=
  let cutoff := Add now (- window) in
  base.filter (fun t => Before t cutoff = false) times.

Definition isMFAEvent (ev : LogEvent.t) : bool :=
  existsb (fun p => HasPrefix (LogEvent.EventType ev) p) mfaEventTypePrefixes.

Definition isAdminEvent (ev : LogEvent.t) : bool :=
  existsb (fun p => HasPrefix (LogEvent.EventType ev) p) adminEventTypePrefixes.

Definition isAuthEvent (ev : LogEvent.t) : bool :=
  HasPrefix (LogEvent.EventType ev) "user.session." ||
  HasPrefix (LogEvent.EventType ev) "user.authentication." ||
  HasPrefix (LogEvent.EventType ev) "policy.evaluate_sign_on".

Definition containsString (l : list string) (v : string) : bool := existsb (fun s => String.eqb s v) l.

(** Some value of the map satisfies [p]: the order of the walk cannot matter. *)
Definition any_value (p : string -> bool) (m : gmap string string) : bool :=
  existsb p (map_to_list m).*2.

(** ** The adapter's process *)

Record Adapter := mkAdapter { st : State.t; atick : nat; sent : list Signal.t; disk : Disk }.

Definition OM (A : Type) : Type := ST Adapter A.

Definition set_st (s : State.t) (a : Adapter) : Adapter := mkAdapter s (atick a) (sent a) (disk a).
Definition oask {A} (f : nat -> A) : OM A := fun a => (f (atick a), mkAdapter (st a) (S (atick a)) (sent a) (disk a)).
(** A call of the operating system. *)
Definition ocall {A} (f : nat -> Disk -> A * Disk) : OM A := fun a =>
  let '(r, d) := f (atick a) (disk a) in (r, mkAdapter (st a) (S (atick a)) (sent a) d).
Definition oget : OM State.t := fun a => (st a, a).
Definition oput (f : State.t -> State.t) : OM unit := fun a => (tt, set_st (f (st a)) a).

Section Detection.
Context {E : Env}.

(** [evictIdentities]: drop the least recently seen entries over the cap. *)
Definition evictIdentities : OM unit :=
  s ← oget;
  if (size (State.Identities s) <=? maxTrackedIdentities)%nat then mret tt
  else
    all ← oask (fun n => range_map n (State.Identities s));
    sorted ← oask (fun n => sort_Slice n
      (fun a b => Before (IdentityState.LastSeen a.2) (IdentityState.LastSeen b.2)) all);
    let dropped := (take (length sorted - maxTrackedIdentities) sorted).*1 in
    oput (fun s => State.set_Identities (foldl (fun m login => delete login m) (State.Identities s) dropped) s).

Definition Identity (login : string) : OM IdentityState.t :=
  s ← oget;
  match State.Identities s !! login with
  | Some id => mret id
  | None =>
      _ ← oput (fun s => State.set_Identities (<[login := IdentityState.zero]> (State.Identities s)) s);
      _ ← evictIdentities;
      mret IdentityState.zero
  end.

Definition isLegacyAuth (ev : LogEvent.t) : bool :=
  bool_decide (ToLower (AuthCtx.CredentialType (LogEvent.AuthContext ev)) ∈ legacyCredentialTypes) ||
  any_value (fun v =>
    let lv := ToLower v in
    Contains lv "grant_type=password" || HasPrefix lv "basic " || Contains lv "/imap" ||
    Contains lv "/pop" || Contains lv "/smtp") (LogEvent.DebugData ev).

(** [haversineKm], in the order the source computes (no fused multiply-add). *)
Definition haversineKm (lat1 lon1 lat2 lon2 : spec_float) : spec_float :=
  let pi := of_dec false 3141592653589793 (-15) in
  let rad d := fdiv (fmul d pi) (of_int 180) in
  let half x := fdiv x (of_int 2) in
  let dLat := rad (fsub lat2 lat1) in
  let dLon := rad (fsub lon2 lon1) in
  let a := fadd (fmul (math_Sin (half dLat)) (math_Sin (half dLat)))
                (fmul (fmul (fmul (math_Cos (rad lat1)) (math_Cos (rad lat2))) (math_Sin (half dLon)))
                      (math_Sin (half dLon))) in
  fmul (of_int 12742) (math_Asin (fsqrt a)).

Section Detector.
Context (params : SignalParams.t).

Definition base (ev : LogEvent.t) (ty : string) (details : list (string * string)) : Signal.t :=
  Signal.mk ty (ActorLogin ev) (LogEvent.Published ev) (EventClient.IPAddress (LogEvent.Client ev))
    (GeoLabel ev) (list_to_map details).

Definition signal_if (b : bool) (s : Signal.t) : list Signal.t := if b then [s] else [].

(** Impossible travel. *)
Definition travelSignal (ev : LogEvent.t) (id : IdentityState.t) : list Signal.t :=
  match Geographic.Geolocation (EventClient.Geographic (LogEvent.Client ev)) with
  | Some loc =>
      if IdentityState.HasGeo id then
        let km := haversineKm (IdentityState.LastLat id) (IdentityState.LastLon id) (Geo.Lat loc) (Geo.Lon loc) in
        let hrs := Hours (Sub (LogEvent.Published ev) (IdentityState.LastSeen id)) in
        let speed := fdiv km hrs in
        signal_if (flt (of_int 0) hrs && flt (SignalParams.MaxTravelSpeedKmh params) speed)
          (base ev SignalImpossibleTravel
             [("from_geo", IdentityState.LastGeo id); ("to_geo", GeoLabel ev);
              ("distance_km", FormatFloat1 km); ("speed_kmh", FormatFloat1 speed)])
      else []
  | None => []
  end.

Definition newGeoSignal (ev : LogEvent.t) (id : IdentityState.t) : list Signal.t :=
  let geo := GeoLabel ev in
  signal_if (negb (String.eqb geo "") && (0 <? length (IdentityState.Geos id))%nat
             && negb (containsString (IdentityState.Geos id) geo))
    (base ev SignalNewGeo [("geo", geo); ("known_geos", Join ";" (IdentityState.Geos id))]).

Definition geoSignals (ev : LogEvent.t) (id : IdentityState.t) : list Signal.t :=
  if After (LogEvent.Published ev) (IdentityState.LastSeen id) || IsZero (IdentityState.LastSeen id)
  then travelSignal ev id ++ newGeoSignal ev id else [].

Definition deviceSignal (ev : LogEvent.t) (id : IdentityState.t) : list Signal.t :=
  let fp := DeviceFingerprint ev in
  signal_if (negb (String.eqb fp "") && (0 <? length (IdentityState.Devices id))%nat
             && negb (containsString (IdentityState.Devices id) fp))
    (base ev SignalNewDevice
       [("user_agent", UserAgent.RawUserAgent (EventClient.UserAgent (LogEvent.Client ev)))]).

Definition legacySignal (ev : LogEvent.t) : list Signal.t :=
  signal_if (isLegacyAuth ev)
    (base ev SignalLegacyAuth
       [("event_type", LogEvent.EventType ev);
        ("credential_type", AuthCtx.CredentialType (LogEvent.AuthContext ev))]).

Definition isFailure (ev : LogEvent.t) : bool :=
  String.eqb (ToUpper (Outcome.Result (LogEvent.Outcome_ ev))) "FAILURE".

Definition isDeny (ev : LogEvent.t) : bool := EqualFold (LogEvent.EventType ev) "user.mfa.okta_verify.deny".

(** The failures in the window that ends at the event, the event included. *)
Definition recentFails (ev : LogEvent.t) (id : IdentityState.t) : list Time :=
  pruneMFATimes (IdentityState.MFAFails id ++ [LogEvent.Published ev]) (LogEvent.Published ev)
    (SignalParams.FatigueWindow params).

Definition mfaSignals (ev : LogEvent.t) (id : IdentityState.t) : list Signal.t :=
  if isMFAEvent ev then
    (if isDeny ev then [base ev SignalMFADeny [("event_type", LogEvent.EventType ev)]]
     else signal_if (isFailure ev)
       (base ev SignalMFAFail
          [("event_type", LogEvent.EventType ev); ("reason", Outcome.Reason (LogEvent.Outcome_ ev))])) ++
    (if isDeny ev || isFailure ev then
       let fails := Z.of_nat (length (recentFails ev id)) in
       signal_if (SignalParams.FatigueThreshold params <=? fails)
         (base ev SignalMFAFatigue
            [("fail_count", pretty fails); ("window", DurationString (SignalParams.FatigueWindow params))])
     else [])
  else [].

Definition adminTarget (login : string) (ts : list Target.t) : string :=
  match find (fun t => negb (String.eqb (Target.AlternateID t) "") && negb (String.eqb (Target.AlternateID t) login)) ts with
  | Some t => Target.AlternateID t
  | None => ""
  end.

Definition adminSignal (ev : LogEvent.t) : list Signal.t :=
  signal_if (isAdminEvent ev)
    (base ev SignalAdminAction
       [("event_type", LogEvent.EventType ev); ("target", adminTarget (ActorLogin ev) (LogEvent.Targets ev));
        ("outcome", Outcome.Result (LogEvent.Outcome_ ev))]).

Definition authFailureSignal (ev : LogEvent.t) : list Signal.t :=
  signal_if (isFailure ev && isAuthEvent ev && negb (isMFAEvent ev))
    (base ev SignalAuthFailure
       [("event_type", LogEvent.EventType ev); ("reason", Outcome.Reason (LogEvent.Outcome_ ev))]).

Definition signals_of (ev : LogEvent.t) (id : IdentityState.t) : list Signal.t :=
  geoSignals ev id ++ deviceSignal ev id ++ legacySignal ev ++ mfaSignals ev id ++
  adminSignal ev ++ authFailureSignal ev.

Definition Detect (ev : LogEvent.t) : OM (list Signal.t) :=
  if String.eqb (ActorLogin ev) "" then mret []
  else id ← Identity (ActorLogin ev); mret (signals_of ev id).

(** The assignments of [Commit], in order, on the identity's memory. *)
Definition commit_identity (ev : LogEvent.t) (id : IdentityState.t) : IdentityState.t :=
  let geo := GeoLabel ev in
  let fp := DeviceFingerprint ev in
  let loc := Geographic.Geolocation (EventClient.Geographic (LogEvent.Client ev)) in
  let fails := recentFails ev id in
  IdentityState.mk (LogEvent.Published ev)
    (if String.eqb geo "" then IdentityState.LastGeo id else geo)
    (if String.eqb geo "" then IdentityState.Geos id
     else appendBounded (IdentityState.Geos id) geo maxGeosPerIdentity)
    (match loc with Some l => Geo.Lat l | None => IdentityState.LastLat id end)
    (match loc with Some l => Geo.Lon l | None => IdentityState.LastLon id end)
    (match loc with Some _ => true | None => IdentityState.HasGeo id end)
    (if String.eqb fp "" then IdentityState.Devices id
     else appendBounded (IdentityState.Devices id) fp maxDevicesPerIdentity)
    (if isMFAEvent ev && (isFailure ev || isDeny ev) then
       (if (maxMFAFailsPerIdentity <? length fails)%nat
        then drop (length fails - maxMFAFailsPerIdentity) fails else fails)
     else IdentityState.MFAFails id)
    (isAdminEvent ev || IdentityState.Admin id).

Definition Commit (ev : LogEvent.t) : OM unit :=
  if String.eqb (ActorLogin ev) "" then mret tt
  else
    id ← Identity (ActorLogin ev);
    if Before (LogEvent.Published ev) (IdentityState.LastSeen id) then mret tt
    else oput (fun s => State.set_Identities
           (alter (fun _ => commit_identity ev id) (ActorLogin ev) (State.Identities s)) s).
End Detector.
End Detection.

(** ** Invariants *)

(** The memory of one identity is bounded and has no repetitions. *)
Record id_ok (id : IdentityState.t) : Prop := {
  ok_geos : NoDup (IdentityState.Geos id) /\ (length (IdentityState.Geos id) <= maxGeosPerIdentity)%nat;
  ok_devices : NoDup (IdentityState.Devices id) /\ (length (IdentityState.Devices id) <= maxDevicesPerIdentity)%nat;
  ok_fails : (length (IdentityState.MFAFails id) <= maxMFAFailsPerIdentity)%nat
}.

(** The dedupe window is bounded and its index is exact; the memory is bounded. *)
Record state_ok (s : State.t) : Prop := {
  ok_recent : NoDup (State.RecentUUIDs s) /\ (length (State.RecentUUIDs s) <= maxRecentUUIDs)%nat;
  ok_index : forall u, u ∈ State.processed s <-> u ∈ State.RecentUUIDs s;
  ok_size : (size (State.Identities s) <= maxTrackedIdentities)%nat;
  ok_ids : forall login id, State.Identities s !! login = Some id -> id_ok id
}.

(** ** Facts: bounded lists *)

Lemma drop_suffix {A} (l : list A) n : NoDup l -> NoDup (drop n l).
Proof. intros H. rewrite <- (take_drop n l) in H. by apply NoDup_app in H as (_ & _ & H). Qed.

Lemma appendBounded_nodup l v max : NoDup l -> NoDup (appendBounded l v max).
Proof.
  intros Hl. unfold appendBounded.
  assert (Hout : NoDup (base.filter (fun s => s <> v) l ++ [v])).
  { apply NoDup_app. split; [by apply NoDup_filter|]. split; [|apply NoDup_singleton].
    intros x [Hx _]%list_elem_of_filter. by intros ->%list_elem_of_singleton. }
  destruct (_ <? _)%nat; [by apply drop_suffix|done].
Qed.

Lemma appendBounded_length l v max : (length (appendBounded l v max) <= max)%nat.
Proof.
  unfold appendBounded. destruct (Nat.ltb_spec max (length (base.filter (fun s => s <> v) l ++ [v]))); [|done].
  rewrite length_drop. lia.
Qed.

Lemma zero_ok : id_ok IdentityState.zero.
Proof. split; cbn; [split; [apply NoDup_nil_2|lia]|split; [apply NoDup_nil_2|lia]|lia]. Qed.

Lemma NewState_ok : state_ok NewState.
Proof.
  split; cbn; [split; [apply NoDup_nil_2|unfold maxRecentUUIDs; lia]|set_solver| |by intros ? ? ?].
  rewrite map_size_empty. lia.
Qed.

Lemma take_drop_disjoint {A} (l : list A) n x : NoDup l -> x ∈ l -> x ∉ take n l <-> x ∈ drop n l.
Proof.
  intros Hl Hx. rewrite <- (take_drop n l) in Hl, Hx.
  apply NoDup_app in Hl as (_ & Hd & _). apply elem_of_app in Hx as [Hx|Hx].
  - split; [done|]. intros Hx'. by destruct (Hd x Hx).
  - split; [done|]. intros _ Hx'. by destruct (Hd x Hx').
Qed.

(** Marking keeps the window bounded and its index exact. *)
Lemma MarkProcessed_ok u s : state_ok s -> state_ok (MarkProcessed u s).
Proof.
  intros Hs. pose proof Hs as [[Hnd Hlen] Hix Hsz Hids]. unfold MarkProcessed, AlreadyProcessed.
  destruct (String.eqb u ""); [done|]. cbn [orb]. destruct (bool_decide_reflect (u ∈ State.processed s)); [done|].
  assert (Hnd' : NoDup (State.RecentUUIDs s ++ [u])).
  { apply NoDup_app. split; [done|]. split; [|apply NoDup_singleton].
    intros x Hx ->%list_elem_of_singleton. by apply Hix in Hx. }
  assert (Hix' : forall x, x ∈ ({[u]} ∪ State.processed s : gset string) <-> x ∈ State.RecentUUIDs s ++ [u]).
  { intros x. rewrite elem_of_union, elem_of_singleton, Hix, elem_of_app, list_elem_of_singleton. tauto. }
  destruct (Nat.ltb_spec maxRecentUUIDs (length (State.RecentUUIDs s ++ [u]))) as [Hlt|Hge]; split; cbn; try done.
  - split; [by apply drop_suffix|]. rewrite length_drop. lia.
  - intros x. rewrite elem_of_difference, Hix', elem_of_list_to_set.
    set (l := State.RecentUUIDs s ++ [u]) in *. set (cut := (length l - maxRecentUUIDs)%nat). split.
    + intros [Hx Hn]. by apply take_drop_disjoint.
    + intros Hx. assert (Hin : x ∈ l) by (rewrite <- (take_drop cut l); apply elem_of_app; by right).
      split; [done|]. by apply take_drop_disjoint.
Qed.

(** ** Facts: eviction *)

Lemma delete_keys_size {A} (ks : list string) : forall m : gmap string A,
  NoDup ks -> (forall k, k ∈ ks -> is_Some (m !! k)) ->
  size (foldl (fun m k => delete k m) m ks) = (size m - length ks)%nat.
Proof.
  induction ks as [|k ks IH]; intros m Hnd Hin; cbn [foldl length]; [lia|].
  apply NoDup_cons in Hnd as [Hk Hnd]. rewrite IH; [|done|].
  - rewrite map_size_delete_Some by (apply Hin; set_solver). lia.
  - intros k' Hk'. rewrite lookup_delete_ne by (intros ->; done). apply Hin. set_solver.
Qed.

Lemma delete_keys_lookup {A} (ks : list string) : forall (m : gmap string A) k,
  foldl (fun m k => delete k m) m ks !! k = if decide (k ∈ ks) then None else m !! k.
Proof.
  induction ks as [|k' ks IH]; intros m k; cbn [foldl]; [done|]. rewrite IH.
  destruct (decide (k ∈ ks)) as [Hk|Hk]; [by rewrite decide_True by set_solver|].
  destruct (decide (k = k')) as [->|Hne].
  - rewrite lookup_delete_eq. by rewrite decide_True by set_solver.
  - rewrite lookup_delete_ne by done. by rewrite decide_False by set_solver.
Qed.

Section StateFacts.
Context {E : Env} `{!EnvOk E}.

(** The entries [Identity] leaves: old ones, and the new one if it survives. *)
Lemma evict_run (a : Adapter) : exists k m,
  evictIdentities a = (tt, mkAdapter (State.set_Identities m (st a)) k (sent a) (disk a)) /\
  (size m <= maxTrackedIdentities)%nat /\ m ⊆ State.Identities (st a) /\
  (size (State.Identities (st a)) <= maxTrackedIdentities -> m = State.Identities (st a))%nat.
Proof.
  unfold evictIdentities, oget, oask, oput, set_st. st_unfold. cbn [st atick sent disk].
  destruct (Nat.leb_spec (size (State.Identities (st a))) maxTrackedIdentities) as [Hle|Hgt].
  - exists (atick a), (State.Identities (st a)). destruct a as [[] ? ? ?]. cbn in *. split_and!; done.
  - cbn [st atick sent disk]. set (m := State.Identities (st a)) in *.
    set (all := range_map (atick a) m). set (sorted := sort_Slice _ _ all).
    assert (Hp : sorted ≡ₚ map_to_list m) by (unfold sorted, all; by rewrite sort_Slice_perm, range_map_perm).
    set (ks := (take (length sorted - maxTrackedIdentities) sorted).*1).
    assert (Hlen : length sorted = size m) by (rewrite Hp; apply length_map_to_list).
    assert (Hnd : NoDup ks).
    { unfold ks. rewrite fmap_take. assert (H : NoDup (sorted.*1)) by (rewrite Hp; apply NoDup_fst_map_to_list).
      rewrite <- (take_drop (length sorted - maxTrackedIdentities) (sorted.*1)) in H.
      by apply NoDup_app in H as (H & _). }
    assert (Hin : forall k, k ∈ ks -> is_Some (m !! k)).
    { intros k Hk. unfold ks in Hk. apply list_elem_of_fmap in Hk as ([k' v] & -> & Hkv).
      apply elem_of_take in Hkv as (i & Hi & _). apply list_elem_of_lookup_2 in Hi. rewrite Hp in Hi.
      apply elem_of_map_to_list in Hi. by exists v. }
    eexists _, (foldl (fun m k => delete k m) m ks). split; [reflexivity|]. split_and!; [| |lia].
    + rewrite delete_keys_size by done. unfold ks. rewrite length_fmap, length_take. lia.
    + apply map_subseteq_spec. intros k v. rewrite delete_keys_lookup. by destruct (decide (k ∈ ks)).
Qed.

Lemma Identity_run login (a : Adapter) : exists k m,
  Identity login a = (default IdentityState.zero (State.Identities (st a) !! login),
                      mkAdapter (State.set_Identities m (st a)) k (sent a) (disk a)) /\
  ((size (State.Identities (st a)) <= maxTrackedIdentities -> size m <= maxTrackedIdentities)%nat) /\
  m ⊆ <[login := default IdentityState.zero (State.Identities (st a) !! login)]> (State.Identities (st a)).
Proof.
  unfold Identity, oget, oput, set_st. st_unfold.
  destruct (State.Identities (st a) !! login) as [id|] eqn:Hid; cbn [default].
  - exists (atick a), (State.Identities (st a)). destruct a as [[] ? ? ?]. cbn in *. split_and!; [done|done|].
    by rewrite insert_id.
  - match goal with |- context [evictIdentities ?b] => destruct (evict_run b) as (k & m & -> & Hsz & Hsub & _) end.
    exists k, m. cbn in *. split_and!; [done|done|exact Hsub].
Qed.

(** A state seen through [Identity] stays well-formed. *)
Lemma Identity_ok login (a : Adapter) : state_ok (st a) ->
  state_ok (st (Identity login a).2) /\ id_ok (Identity login a).1 /\ sent (Identity login a).2 = sent a.
Proof.
  intros [Hr Hi Hsz Hids]. destruct (Identity_run login a) as (k & m & -> & Hm & Hsub). cbn [fst snd st sent].
  assert (Hd : id_ok (default IdentityState.zero (State.Identities (st a) !! login))).
  { destruct (State.Identities (st a) !! login) as [id|] eqn:Hid; [by eapply Hids|apply zero_ok]. }
  split; [|done]. split; cbn; [done|done|by apply Hm|]. intros l id Hl.
  eapply lookup_weaken in Hl; [|exact Hsub]. apply lookup_insert_Some in Hl as [[_ <-]|[_ Hl]]; [done|by eapply Hids].
Qed.

Context (params : SignalParams.t).

Lemma Detect_ok ev (a : Adapter) : state_ok (st a) ->
  state_ok (st (Detect params ev a).2) /\ sent (Detect params ev a).2 = sent a.
Proof.
  intros Hs. unfold Detect. destruct (String.eqb (ActorLogin ev) ""); [done|]. st_unfold.
  pose proof (Identity_ok (ActorLogin ev) a Hs) as (H1 & _ & H2).
  by destruct (Identity (ActorLogin ev) a) as [id a1].
Qed.

Lemma commit_identity_ok ev id : id_ok id -> id_ok (commit_identity params ev id).
Proof.
  intros [[Hg Hgl] [Hd Hdl] Hf]. split;
    cbn [commit_identity IdentityState.Geos IdentityState.Devices IdentityState.MFAFails].
  - destruct (String.eqb (GeoLabel ev) ""); [done|]. split; [by apply appendBounded_nodup|apply appendBounded_length].
  - destruct (String.eqb (DeviceFingerprint ev) ""); [done|].
    split; [by apply appendBounded_nodup|apply appendBounded_length].
  - destruct (isMFAEvent ev && (isFailure ev || isDeny ev)); [|done].
    destruct (Nat.ltb_spec maxMFAFailsPerIdentity (length (recentFails params ev id))); rewrite ?length_drop; lia.
Qed.

Lemma Commit_ok ev (a : Adapter) : state_ok (st a) ->
  state_ok (st (Commit params ev a).2) /\ sent (Commit params ev a).2 = sent a.
Proof.
  intros Hs. unfold Commit. destruct (String.eqb (ActorLogin ev) ""); [done|]. st_unfold.
  pose proof (Identity_ok (ActorLogin ev) a Hs) as (H1 & Hid & H2).
  destruct (Identity (ActorLogin ev) a) as [id a1]. cbn [fst snd] in *.
  destruct (Before _ _); [done|]. split; [|done]. destruct H1 as [Hr Hi Hsz Hids]. split; cbn; [done|done| |].
  - by rewrite <- (size_dom (D := gset string)), dom_alter_L, size_dom.
  - intros l v Hv. apply lookup_alter_Some in Hv as [(_ & w & _ & ->)|[_ Hv]];
      [by apply commit_identity_ok|by eapply Hids].
Qed.
End StateFacts.

(** ** Facts: the window of failed verifications *)

Definition time_le (a b : Time) : Prop := Before b a = false.

Lemma time_le_expired a b c : time_le a b -> Before b c = true -> Before a c = true.
Proof. unfold time_le, Before. lia. Qed.

(** On times in order, pruning drops a prefix. *)
Lemma prune_drop l now w : StronglySorted time_le l -> exists j,
  pruneMFATimes l now w = drop j l /\ (j <= length l)%nat /\
  Forall (fun t => Before t (Add now (- w)) = true) (take j l).
Proof.
  unfold pruneMFATimes. set (c := Add now (- w)). induction 1 as [|x l Hs IH Hall].
  { exists 0%nat. split_and!; [done|done|constructor]. }
  rewrite filter_cons. destruct (Before x c) eqn:Hx.
  - rewrite decide_False by congruence. destruct IH as (j & -> & Hj & Ht). exists (S j). cbn.
    split_and!; [done|lia|by constructor].
  - rewrite decide_True by done. exists 0%nat. cbn. split_and!; [|lia|constructor].
    f_equal. clear IH. induction Hall as [|y l Hy Hall IHl]; [done|].
    apply StronglySorted_inv in Hs as [Hs _]. rewrite filter_cons, decide_True, IHl; [done|done|].
    unfold time_le, Before in *. lia.
Qed.

Lemma StronglySorted_split {A} (R : A -> A -> Prop) l1 l2 : StronglySorted R (l1 ++ l2) ->
  StronglySorted R l1 /\ StronglySorted R l2 /\ forall x y, x ∈ l1 -> y ∈ l2 -> R x y.
Proof.
  induction l1 as [|x l1 IH]; cbn; intros H.
  - split_and!; [constructor|done|]. by intros x y Hx%not_elem_of_nil.
  - apply StronglySorted_inv in H as [H Hall]. destruct (IH H) as (H1 & H2 & H3).
    apply Forall_app in Hall as [Ha1 Ha2]. split_and!; [by constructor|done|].
    intros y z [->|Hy]%elem_of_cons Hz; [by eapply Forall_forall in Ha2|by apply H3].
Qed.

Lemma StronglySorted_sublist {A} (R : A -> A -> Prop) l1 l2 :
  l1 `sublist_of` l2 -> StronglySorted R l2 -> StronglySorted R l1.
Proof.
  induction 1 as [|x l1 l2 Hsub IH|x l1 l2 Hsub IH]; intros Hs; [constructor| |].
  - apply StronglySorted_inv in Hs as [Hs Hall]. constructor; [by apply IH|].
    apply Forall_forall. intros y Hy. eapply Forall_forall; [exact Hall|]. by eapply elem_of_sublist.
  - apply StronglySorted_inv in Hs as [Hs _]. by apply IH.
Qed.

(** [M] is what is remembered of the failures [F]: a suffix; either the most
    recent 32, or nothing that can still be in a window was dropped. *)
Definition remembers (w : Z) (F M : list Time) : Prop :=
  exists D, F = D ++ M /\ (length M = maxMFAFailsPerIdentity \/
    forall x t, x ∈ D -> Forall (fun y => time_le y t) F -> Before x (Add t (- w)) = true).

(** Everything dropped from a full memory is older than what was kept. *)
Lemma full_expired (D M : list Time) t w j :
  StronglySorted time_le (D ++ M ++ [t]) -> M <> [] -> (1 <= j)%nat ->
  Forall (fun x => Before x (Add t (- w)) = true) (take j (M ++ [t])) ->
  forall x, x ∈ D -> Before x (Add t (- w)) = true.
Proof.
  intros (_ & _ & Hlt)%StronglySorted_split HM Hj Hf x Hx. destruct M as [|m M]; [done|].
  destruct j as [|j]; [lia|]. cbn in Hf. apply Forall_cons in Hf as [Hm _].
  eapply time_le_expired; [|exact Hm]. apply Hlt; [done|]. set_solver.
Qed.

Lemma sorted_before (D M : list Time) t :
  StronglySorted time_le (D ++ M ++ [t]) -> Forall (fun y => time_le y t) (D ++ M).
Proof.
  rewrite app_assoc. intros (_ & _ & Hle)%StronglySorted_split. apply Forall_forall.
  intros y Hy. apply Hle; [done|set_solver].
Qed.

Definition cap_fails (l : list Time) : list Time :=
  if (maxMFAFailsPerIdentity <? length l)%nat then drop (length l - maxMFAFailsPerIdentity) l else l.

Lemma remembers_step w F M t : remembers w F M -> StronglySorted time_le (F ++ [t]) ->
  remembers w (F ++ [t]) (cap_fails (pruneMFATimes (M ++ [t]) t w)).
Proof.
  intros (D & -> & HD) Hs. rewrite <- app_assoc in *.
  pose proof (StronglySorted_split _ _ _ Hs) as (_ & Hsl & _).
  destruct (prune_drop (M ++ [t]) t w Hsl) as (j & -> & Hj & Hexp).
  assert (Hlen : length (M ++ [t]) = S (length M)) by (rewrite length_app; cbn; lia).
  unfold cap_fails. rewrite length_drop.
  destruct (Nat.ltb_spec maxMFAFailsPerIdentity (length (M ++ [t]) - j)) as [Hcap|Hcap].
  - rewrite drop_drop. set (i := (j + _)%nat). exists (D ++ take i (M ++ [t])).
    rewrite <- app_assoc, take_drop. split; [done|]. left. rewrite length_drop. lia.
  - exists (D ++ take j (M ++ [t])). rewrite <- app_assoc, take_drop. split; [done|]. rewrite length_drop.
    destruct (decide (length (M ++ [t]) - j = maxMFAFailsPerIdentity)%nat) as [|Hne]; [by left|]. right.
    intros x t' Hx Ht'. assert (Htt : time_le t t').
    { apply (proj1 (Forall_forall _ _) Ht' t). set_solver. }
    cut (Before x (Add t (- w)) = true).
    { unfold time_le, Before, Add in *. cbn in *. lia. }
    apply elem_of_app in Hx as [Hx|Hx]; [|by eapply Forall_forall in Hexp].
    destruct HD as [HM|HD]; [|apply HD; [done|by eapply sorted_before]].
    apply (full_expired D M t w j); try done; [by intros ->|lia].
Qed.

(** Up to 33, the remembered failures and all failures agree on the count. *)
Lemma remembers_count w F M t k : remembers w F M -> StronglySorted time_le (F ++ [t]) ->
  (k <= S maxMFAFailsPerIdentity)%nat ->
  (k <= length (pruneMFATimes (M ++ [t]) t w))%nat <-> (k <= length (pruneMFATimes (F ++ [t]) t w))%nat.
Proof.
  intros (D & -> & HD) Hs Hk. rewrite <- app_assoc in *.
  pose proof (StronglySorted_split _ _ _ Hs) as (_ & Hsl & _).
  destruct (prune_drop (M ++ [t]) t w Hsl) as (j & Hpr & Hj & Hexp).
  assert (Happ : length (pruneMFATimes (D ++ M ++ [t]) t w)
    = (length (pruneMFATimes D t w) + length (pruneMFATimes (M ++ [t]) t w))%nat).
  { unfold pruneMFATimes. by rewrite filter_app, length_app. }
  assert (Hno : (forall x, x ∈ D -> Before x (Add t (- w)) = true) -> length (pruneMFATimes D t w) = 0%nat).
  { intros Hall. destruct (pruneMFATimes D t w) as [|y l] eqn:Hl; [done|]. exfalso.
    assert (Hy : y ∈ pruneMFATimes D t w) by (rewrite Hl; set_solver).
    apply list_elem_of_filter in Hy as [Hy HyD]. specialize (Hall y HyD). congruence. }
  rewrite Happ. destruct HD as [HM|HD].
  - destruct j as [|j].
    + rewrite Hpr, drop_0, length_app. cbn [length]. lia.
    + rewrite Hno; [done|]. apply (full_expired D M t w (S j)); try done; [by intros ->|lia].
  - rewrite Hno; [done|]. intros x Hx. apply HD; [done|by eapply sorted_before].
Qed.

(** ** Facts: a login's memory *)

Section Memory.
Context {E : Env} (params : SignalParams.t).

Definition failing (ev : LogEvent.t) : bool := isMFAEvent ev && (isFailure ev || isDeny ev).

(** The times of the failed verifications among some events. *)
Definition fails_of (evs : list LogEvent.t) : list Time :=
  LogEvent.Published <$> base.filter (fun ev => failing ev = true) evs.

(** What [Commit] leaves of a tracked identity after some events. *)
Definition commit_entry (id : IdentityState.t) (ev : LogEvent.t) : IdentityState.t :=
  if Before (LogEvent.Published ev) (IdentityState.LastSeen id) then id else commit_identity params ev id.

Definition remembered (evs : list LogEvent.t) : IdentityState.t := foldl commit_entry IdentityState.zero evs.

Lemma remembered_spec evs : StronglySorted time_le (zeroTime :: (LogEvent.Published <$> evs)) ->
  IdentityState.LastSeen (remembered evs) = default zeroTime (last (LogEvent.Published <$> evs)) /\
  remembers (SignalParams.FatigueWindow params) (fails_of evs) (IdentityState.MFAFails (remembered evs)).
Proof.
  induction evs as [|ev evs IH] using rev_ind; intros Hs.
  { split; [done|]. exists []. split; [done|]. right. by intros x t Hx%not_elem_of_nil. }
  rewrite fmap_app in Hs. cbn [fmap list_fmap] in Hs. rewrite app_comm_cons in Hs.
  apply StronglySorted_split in Hs as HH. destruct HH as (Hs1 & _ & Hle).
  destruct (IH Hs1) as [Hlast Hmem]. unfold remembered. rewrite foldl_app. cbn [foldl].
  fold (remembered evs). unfold commit_entry.
  assert (Hb : Before (LogEvent.Published ev) (IdentityState.LastSeen (remembered evs)) = false).
  { rewrite Hlast. apply Hle; [|set_solver]. destruct (last _) as [t|] eqn:Ht; cbn; [|set_solver].
    apply last_Some_elem_of in Ht. set_solver. }
  rewrite Hb. rewrite fmap_app, last_app. split; [done|].
  unfold fails_of. rewrite filter_app, fmap_app. fold (fails_of evs).
  cbn [commit_identity IdentityState.MFAFails]. fold (failing ev). rewrite filter_cons.
  destruct (failing ev) eqn:Hf.
  - rewrite decide_True by done. change (LogEvent.Published <$> ev :: base.filter _ []) with [LogEvent.Published ev].
    apply remembers_step; [done|].
    assert (Hsub : fails_of evs ++ [LogEvent.Published ev] `sublist_of` (zeroTime :: (LogEvent.Published <$> evs)) ++ [LogEvent.Published ev]).
    { apply sublist_app; [|done]. apply sublist_cons. unfold fails_of. apply fmap_sublist, sublist_filter. }
    by apply (StronglySorted_sublist _ _ _ Hsub).
  - rewrite decide_False by congruence. cbn [fmap list_fmap]. rewrite app_nil_r. exact Hmem.
Qed.
End Memory.

Section Fatigue.
Context {E : Env} (params : SignalParams.t).

Lemma signal_if_type b s ty : (exists x, x ∈ signal_if b s /\ Signal.Type_ x = ty) <-> b = true /\ Signal.Type_ s = ty.
Proof.
  destruct b; cbn; split.
  - intros (x & ->%list_elem_of_singleton & Hx). done.
  - intros [_ Hs]. exists s. split; [by apply list_elem_of_singleton|done].
  - by intros (x & Hx%not_elem_of_nil & _).
  - by intros [? _].
Qed.

Definition raises (l : list Signal.t) (ty : string) : Prop := exists x, x ∈ l /\ Signal.Type_ x = ty.

Lemma raises_app l1 l2 ty : raises (l1 ++ l2) ty <-> raises l1 ty \/ raises l2 ty.
Proof. unfold raises. setoid_rewrite elem_of_app. naive_solver. Qed.

Lemma raises_if b s ty : raises (signal_if b s) ty <-> b = true /\ Signal.Type_ s = ty.
Proof. apply signal_if_type. Qed.

Lemma raises_nil ty : ~ raises [] ty.
Proof. by intros (x & Hx%not_elem_of_nil & _). Qed.

Lemma geo_no_fatigue ev id : ~ raises (geoSignals params ev id) SignalMFAFatigue.
Proof.
  unfold geoSignals, travelSignal, newGeoSignal. destruct (_ || _); [|apply raises_nil].
  rewrite raises_app, raises_if. intros [Ht|[_ Hty]]; [|done].
  destruct (Geographic.Geolocation _); [|by apply raises_nil in Ht].
  destruct (IdentityState.HasGeo id); [|by apply raises_nil in Ht]. by apply raises_if in Ht as [_ ?].
Qed.

(** Among all signals of an event, fatigue comes from the failure count alone. *)
Lemma raises_fatigue ev id : failing ev = true ->
  raises (signals_of params ev id) SignalMFAFatigue <->
  SignalParams.FatigueThreshold params <= Z.of_nat (length (recentFails params ev id)).
Proof.
  intros [Hm Hf]%andb_true_iff. rewrite orb_comm in Hf. pose proof (geo_no_fatigue ev id) as Hgeo.
  unfold signals_of, deviceSignal, legacySignal, adminSignal, authFailureSignal, mfaSignals. rewrite Hm, Hf.
  rewrite !raises_app, !raises_if, Z.leb_le. cbn [Signal.Type_ base]. split.
  - intros [?|[[_ ?]|[[_ ?]|[[Hd|[Hle _]]|[[_ ?]|[_ ?]]]]]]; try done.
    destruct (isDeny ev); [by destruct Hd as (x & ->%list_elem_of_singleton & ?)|].
    by apply raises_if in Hd as [_ ?].
  - intros Hle. right; right; right; left. right. done.
Qed.

(** [Commit] on a tracked identity changes that entry only. *)
Lemma Commit_tracked ev id (a : Adapter) : ActorLogin ev <> "" ->
  State.Identities (st a) !! ActorLogin ev = Some id ->
  State.Identities (st (Commit params ev a).2)
  = <[ActorLogin ev := commit_entry params id ev]> (State.Identities (st a)).
Proof.
  intros Hl Hid. unfold Commit, Identity, commit_entry, oget, oput. destruct (String.eqb_spec (ActorLogin ev) ""); [done|].
  st_unfold. rewrite Hid. destruct (Before _ _); cbn.
  - by rewrite insert_id.
  - apply map_eq. intros l. destruct (decide (ActorLogin ev = l)) as [<-|Hne].
    + by rewrite lookup_alter_eq, Hid, lookup_insert_eq.
    + by rewrite lookup_alter_ne, lookup_insert_ne by done.
Qed.

Lemma Detect_tracked ev id (a : Adapter) : ActorLogin ev <> "" ->
  State.Identities (st a) !! ActorLogin ev = Some id -> Detect params ev a = (signals_of params ev id, a).
Proof.
  intros Hl Hid. unfold Detect, Identity, oget. destruct (String.eqb_spec (ActorLogin ev) ""); [done|].
  st_unfold. by rewrite Hid.
Qed.
End Fatigue.

(** ** Concrete data *)

Definition demo_log_event (uuid login ty result : string) (t : Time) : LogEvent.t :=
  LogEvent.mk uuid t ty "" (Outcome.mk result "") (Actor.mk "" "User" "" login)
    (EventClient.mk "203.0.113.7" (UserAgent.mk "curl" "" "") "" "Computer" "" (Geographic.mk "Bern" "" "CH" None))
    (AuthCtx.mk "" "" "" "" "") (SecurityCtx.mk 0 "" "" "" false "") ∅ [].

Definition demo_params : SignalParams.t := SignalParams.mk 3 (10 * Minute) (of_int 900).

(** The [n]-th failed push of bob, one per minute. *)
Definition demo_fail (n : Z) : LogEvent.t :=
  demo_log_event ("e" +:+ pretty n) "bob" "user.mfa.okta_verify.deny" "FAILURE" (Add demo_base (n * Minute)).

Definition demo_adapter : Adapter := mkAdapter NewState 0 [] (mkDisk ∅ false).

Definition demo_tracked : Adapter :=
  mkAdapter (State.set_Identities {["bob" := remembered demo_params [demo_fail 0; demo_fail 1]]} NewState) 0 [] (mkDisk ∅ false).

(** ** Properties *)

(** C36: MFA fatigue is detected exactly: for a login whose events arrived in
    order, a failed or denied verification raises the fatigue signal if and
    only if the failures within the window that ends at it reach the threshold,
    for every threshold up to 33, although at most 32 failures are remembered;
    and committing the event keeps the memory in that shape. *)
Theorem fatigue_exact {E : Env} params evs ev (a : Adapter) :
  StronglySorted time_le (zeroTime :: (LogEvent.Published <$> evs ++ [ev])) ->
  SignalParams.FatigueThreshold params <= 33 -> failing ev = true -> ActorLogin ev <> "" ->
  State.Identities (st a) !! ActorLogin ev = Some (remembered params evs) ->
  (raises (Detect params ev a).1 SignalMFAFatigue <->
   SignalParams.FatigueThreshold params
   <= Z.of_nat (length (pruneMFATimes (fails_of (evs ++ [ev])) (LogEvent.Published ev)
                          (SignalParams.FatigueWindow params)))) /\
  State.Identities (st (Commit params ev a).2) !! ActorLogin ev = Some (remembered params (evs ++ [ev])).
Proof.
  intros Hs Hthr Hf Hl Hid. split.
  2: { rewrite (Commit_tracked params ev _ a Hl Hid), lookup_insert_eq. unfold remembered. by rewrite foldl_app. }
  rewrite (Detect_tracked params ev _ a Hl Hid). cbn [fst]. rewrite raises_fatigue by done.
  rewrite fmap_app in Hs. cbn [fmap list_fmap] in Hs. rewrite app_comm_cons in Hs.
  pose proof (StronglySorted_split _ _ _ Hs) as (Hs1 & _ & _).
  destruct (remembered_spec params evs Hs1) as [_ Hmem].
  assert (Hsub : fails_of evs ++ [LogEvent.Published ev]
    `sublist_of` (zeroTime :: (LogEvent.Published <$> evs)) ++ [LogEvent.Published ev]).
  { apply sublist_app; [|done]. apply sublist_cons. unfold fails_of. apply fmap_sublist, sublist_filter. }
  pose proof (remembers_count _ _ _ _ (Z.to_nat (SignalParams.FatigueThreshold params)) Hmem
    (StronglySorted_sublist _ _ _ Hsub Hs) ltac:(unfold maxMFAFailsPerIdentity; lia)) as Hcount.
  unfold recentFails. unfold fails_of at 1. rewrite filter_app, fmap_app, filter_cons, decide_True by done.
  fold (fails_of evs). change (LogEvent.Published <$> ev :: base.filter _ []) with [LogEvent.Published ev]. lia.
Qed.

Lemma fatigue_exact_witness :
  raises (Detect demo_params (demo_fail 2) demo_tracked).1 SignalMFAFatigue <->
  3 <= Z.of_nat (length (pruneMFATimes (fails_of ([demo_fail 0; demo_fail 1] ++ [demo_fail 2]))
                          (LogEvent.Published (demo_fail 2)) (10 * Minute))).
Proof.
  apply (fatigue_exact demo_params [demo_fail 0; demo_fail 1] (demo_fail 2) demo_tracked).
  - repeat constructor; vm_compute; reflexivity.
  - cbn. lia.
  - vm_compute. reflexivity.
  - done.
  - reflexivity.
Defined.

(** ** What modelling showed *)

(** At the cap, an unseen login is evicted by its own insertion: its entry is
    the least recently seen one, so nothing is ever learned about it. *)
Theorem new_login_never_tracked {E : Env} `{!EnvOk E} login (a : Adapter) :
  size (State.Identities (st a)) = maxTrackedIdentities -> State.Identities (st a) !! login = None ->
  (forall l id, State.Identities (st a) !! l = Some id -> After (IdentityState.LastSeen id) zeroTime = true) ->
  State.Identities (st (Identity login a).2) = State.Identities (st a).
Proof.
  intros Hsz Hl Hseen. unfold Identity, oget, oput, set_st. st_unfold. rewrite Hl.
  unfold evictIdentities, oget, oask, oput, set_st. st_unfold. cbn [st atick sent State.Identities State.set_Identities].
  set (m := State.Identities (st a)) in *. set (m' := <[login := IdentityState.zero]> m).
  assert (Hsz' : size m' = S maxTrackedIdentities) by (unfold m'; by rewrite map_size_insert_None, Hsz).
  rewrite Hsz'. destruct (Nat.leb_spec (S maxTrackedIdentities) maxTrackedIdentities); [lia|].
  cbn [st State.Identities State.set_Identities]. set (less := fun a b : string * IdentityState.t => _).
  set (sorted := sort_Slice _ less _).
  assert (Hp : sorted ≡ₚ map_to_list m') by (unfold sorted; by rewrite sort_Slice_perm, range_map_perm).
  assert (Hss : StronglySorted (fun a b => less b a = false) sorted).
  { apply sort_Slice_sorted. unfold less, Before. split; intros; lia. }
  assert (Hlen : length sorted = S maxTrackedIdentities) by (rewrite Hp, length_map_to_list; done).
  destruct sorted as [|[l0 v0] rest] eqn:Hsorted; [done|]. rewrite Hlen.
  replace (S maxTrackedIdentities - maxTrackedIdentities)%nat with 1%nat by lia. cbn [take fmap list_fmap foldl fst].
  assert (Hl0 : l0 = login).
  { destruct (decide (l0 = login)) as [|Hne]; [done|]. exfalso.
    assert (Hin0 : (l0, v0) ∈ map_to_list m') by (rewrite <- Hp; set_solver).
    apply elem_of_map_to_list in Hin0. unfold m' in Hin0. rewrite lookup_insert_ne in Hin0 by done.
    assert (Hin : (login, IdentityState.zero) ∈ (l0, v0) :: rest).
    { rewrite Hp. apply elem_of_map_to_list. apply lookup_insert_eq. }
    apply elem_of_cons in Hin as [[= Heq _]|Hin]; [by symmetry in Heq|].
    apply StronglySorted_inv in Hss as [_ Hall]. eapply Forall_forall in Hall; [|exact Hin].
    specialize (Hseen l0 v0 Hin0). unfold less, Before, After in *. cbn in *. lia. }
  subst l0. unfold m'. by rewrite delete_insert_id.
Qed.
