(* ===== verification/OktaState.v ===== *)
(** * adapters/okta: the state file (state.go)

    [State] and [IdentityState] as JSON documents, with the fields' tags, and the
    file they live in: [Save] is the sequence of calls that replaces the file,
    [LoadState] reads it back. *)

From S2P Require Import Prelude GoStrings GoTime GoFloat GoCrypto GoRunes GoJson GoHttp GoParse GoOs GoJsonRead GoFloatRead Types World GoTimeRead Instances Okta.
From Stdlib Require Import SpecFloat.

(** ** Encoding *)

(** [Time.MarshalJSON]. *)
Definition m_time (t : Time) : result jval :=
  if (YearOf t <? 0) || (9999 <? YearOf t)
  then Err "json: error calling MarshalJSON for type time.Time: Time.MarshalJSON: year outside of range [0,9999]"
  else if 24 <=? Z.abs (Z.quot (zone t) 60) / 60
  then Err "json: error calling MarshalJSON for type time.Time: Time.MarshalJSON: timezone hour outside of range [0,23]"
  else Ok (e_time t).

Definition m_float (x : float64) : result jval := lit ← json_float x; mret (VNum (bytes lit)).

(** Both zeros are empty for [omitempty]. *)
Definition is_zero (x : float64) : bool := match x with S754_zero _ => true | _ => false end.
Definition is_nil {A} (l : list A) : bool := match l with [] => true | _ => false end.
Definition m_unless (empty : bool) (v : result jval) : result jval := if empty then mret VNull else v.

Definition m_IdentityState (id : IdentityState.t) : result jval :=
  seen ← m_time (IdentityState.LastSeen id);
  lat ← m_unless (is_zero (IdentityState.LastLat id)) (m_float (IdentityState.LastLat id));
  lon ← m_unless (is_zero (IdentityState.LastLon id)) (m_float (IdentityState.LastLon id));
  fails ← sequence (m_time <$> IdentityState.MFAFails id);
  mret (e_members (
    omit false "last_seen" seen ++
    omit (String.eqb (IdentityState.LastGeo id) "") "last_geo" (e_string (IdentityState.LastGeo id)) ++
    omit (is_nil (IdentityState.Geos id)) "geos" (e_strings (IdentityState.Geos id)) ++
    omit (is_zero (IdentityState.LastLat id)) "last_lat" lat ++
    omit (is_zero (IdentityState.LastLon id)) "last_lon" lon ++
    omit (negb (IdentityState.HasGeo id)) "has_geo" (VBool (IdentityState.HasGeo id)) ++
    omit (is_nil (IdentityState.Devices id)) "devices" (e_strings (IdentityState.Devices id)) ++
    omit (is_nil (IdentityState.MFAFails id)) "mfa_fails" (VArr fails) ++
    omit (negb (IdentityState.Admin id)) "admin" (VBool (IdentityState.Admin id)) ++ [])).

Definition m_State (s : State.t) : result jval :=
  cursor ← m_time (State.Cursor s);
  ids ← sequence ((fun kv => v ← m_IdentityState kv.2; mret (kv.1, v)) <$> sort_keys (map_to_list (State.Identities s)));
  saved ← m_time (State.SavedAt s);
  mret (e_members (
    omit false "cursor" cursor ++
    omit (String.eqb (State.LastUUID s) "") "last_uuid" (e_string (State.LastUUID s)) ++
    omit (is_nil (State.RecentUUIDs s)) "recent_uuids" (e_strings (State.RecentUUIDs s)) ++
    omit (is_nil ids) "identities" (e_members ids) ++
    omit false "saved_at" saved ++ [])).

(** [json.MarshalIndent(s, "", "  ")]. *)
Definition MarshalIndent_State (s : State.t) : result string := v ← m_State s; mret (indented v).

(** ** Decoding *)

Definition IdentityState_fields {E : Env} : list (field IdentityState.t) :=
  [at_field "last_seen" IdentityState.LastSeen (fun x '(IdentityState.mk _ b c d e f g h i) => IdentityState.mk x b c d e f g h i) d_time;
   at_field "last_geo" IdentityState.LastGeo (fun x '(IdentityState.mk a _ c d e f g h i) => IdentityState.mk a x c d e f g h i) d_string;
   at_field "geos" IdentityState.Geos (fun x '(IdentityState.mk a b _ d e f g h i) => IdentityState.mk a b x d e f g h i) (d_slice "" d_string);
   at_field "last_lat" IdentityState.LastLat (fun x '(IdentityState.mk a b c _ e f g h i) => IdentityState.mk a b c x e f g h i) d_float;
   at_field "last_lon" IdentityState.LastLon (fun x '(IdentityState.mk a b c d _ f g h i) => IdentityState.mk a b c d x f g h i) d_float;
   at_field "has_geo" IdentityState.HasGeo (fun x '(IdentityState.mk a b c d e _ g h i) => IdentityState.mk a b c d e x g h i) d_bool;
   at_field "devices" IdentityState.Devices (fun x '(IdentityState.mk a b c d e f _ h i) => IdentityState.mk a b c d e f x h i) (d_slice "" d_string);
   at_field "mfa_fails" IdentityState.MFAFails (fun x '(IdentityState.mk a b c d e f g _ i) => IdentityState.mk a b c d e f g x i) (d_slice zeroTime d_time);
   at_field "admin" IdentityState.Admin (fun x '(IdentityState.mk a b c d e f g h _) => IdentityState.mk a b c d e f g h x) d_bool].

(** What the decoder makes of a file: a member of [identities] may be [null]. *)
Module StateFile.
Record t := mk {
  Cursor : Time;
  LastUUID : string;
  RecentUUIDs : list string;
  Identities : gmap string (option IdentityState.t);
  SavedAt : Time
}.
Definition zero : t := mk zeroTime "" [] ∅ zeroTime.
End StateFile.

Definition State_fields {E : Env} : list (field StateFile.t) :=
  [at_field "cursor" StateFile.Cursor (fun x '(StateFile.mk _ b c d e) => StateFile.mk x b c d e) d_time;
   at_field "last_uuid" StateFile.LastUUID (fun x '(StateFile.mk a _ c d e) => StateFile.mk a x c d e) d_string;
   at_field "recent_uuids" StateFile.RecentUUIDs (fun x '(StateFile.mk a b _ d e) => StateFile.mk a b x d e) (d_slice "" d_string);
   at_field "identities" StateFile.Identities (fun x '(StateFile.mk a b c _ e) => StateFile.mk a b c x e)
     (d_map None (d_ptr IdentityState.zero (d_struct IdentityState_fields)));
   at_field "saved_at" StateFile.SavedAt (fun x '(StateFile.mk a b c d _) => StateFile.mk a b c d x) d_time].

(** The loaded state; one with a nil identity is a state whose first use of that
    identity dereferences a nil pointer. *)
Inductive loaded := Loaded (s : State.t) | NilIdentity (s : StateFile.t).

Definition of_StateFile (s : StateFile.t) : loaded :=
  if bool_decide (map_Forall (fun _ id => is_Some id) (StateFile.Identities s))
  then Loaded (reindex (State.mk (StateFile.Cursor s) (StateFile.LastUUID s) (StateFile.RecentUUIDs s)
                 (omap (fun id => id) (StateFile.Identities s)) (StateFile.SavedAt s) ∅))
  else NilIdentity s.

Section File.
Context {E : Env} {Sys : OS} (path : string).

Definition LoadState (n : nat) (d : Disk) : result loaded :=
  match ReadFile path n d with
  | RNotExist => Ok (Loaded NewState)
  | RError e => Err ("read state file: " +:+ e)
  | RData data =>
      match Unmarshal (d_struct State_fields) data StateFile.zero with
      | None => Err ("parse state file " +:+ path)
      | Some s => Ok (of_StateFile s)
      end
  end.

(** ** Save *)

Definition write_temp (tmpName data : string) : OM (option string) :=
  w ← ocall (Write tmpName data);
  match w with
  | Some e => _ ← ocall Close; mret (Some ("write temp state file: " +:+ e))
  | None =>
      c ← ocall (Chmod tmpName 384);
      match c with
      | Some e => _ ← ocall Close; mret (Some ("chmod temp state file: " +:+ e))
      | None =>
          c ← ocall Close;
          match c with
          | Some e => mret (Some ("close temp state file: " +:+ e))
          | None =>
              r ← ocall (Rename tmpName path);
              match r with
              | Some e => mret (Some ("rename state file: " +:+ e))
              | None => mret None
              end
          end
      end
  end.

Definition make_dir (dir : string) : OM (option string) :=
  if negb (String.eqb dir "") && negb (String.eqb dir ".") then ocall MkdirAll else mret None.

(** [Save] from the marshalled data on. *)
Definition save_data (data : string) : OM (option string) :=
  let dir := Dir path in
  made ← make_dir dir;
  match made with
  | Some e => mret (Some ("create state dir: " +:+ e))
  | None =>
      tmp ← ocall (CreateTemp dir ".okta-state-" ".json");
      match tmp with
      | Err e => mret (Some ("create temp state file: " +:+ e))
      | Ok tmpName =>
          r ← write_temp tmpName data;
          _ ← ocall (Remove tmpName);     (* deferred *)
          mret r
      end
  end.

Definition Save : OM (option string) :=
  now ← oask clock;
  _ ← oput (State.set_SavedAt (UTC now));
  s ← oget;
  match MarshalIndent_State s with
  | Err e => mret (Some ("marshal state: " +:+ e))
  | Ok data => save_data data
  end.
End File.

(** ** What survives the trip *)

(** Values a JSON document keeps: texts in UTF-8, times of four-digit years in
    zones of whole minutes, finite numbers. *)
Record id_persistable (id : IdentityState.t) : Prop := {
  ip_seen : printable (IdentityState.LastSeen id);
  ip_geo : valid_utf8 (IdentityState.LastGeo id);
  ip_geos : Forall valid_utf8 (IdentityState.Geos id);
  ip_lat : json_finite (IdentityState.LastLat id);
  ip_lon : json_finite (IdentityState.LastLon id);
  ip_devices : Forall valid_utf8 (IdentityState.Devices id);
  ip_fails : Forall printable (IdentityState.MFAFails id)
}.

Record persistable (s : State.t) : Prop := {
  sp_cursor : printable (State.Cursor s);
  sp_uuid : valid_utf8 (State.LastUUID s);
  sp_recent : Forall valid_utf8 (State.RecentUUIDs s);
  sp_ids : map_Forall (fun login id => valid_utf8 login /\ id_persistable id) (State.Identities s);
  sp_saved : printable (State.SavedAt s)
}.

(** A negative zero is left out like a zero. *)
Definition plus_zero (x : float64) : float64 := if is_zero x then S754_zero false else x.

Definition norm_id (id : IdentityState.t) : IdentityState.t :=
  IdentityState.mk (IdentityState.LastSeen id) (IdentityState.LastGeo id) (IdentityState.Geos id)
    (plus_zero (IdentityState.LastLat id)) (plus_zero (IdentityState.LastLon id)) (IdentityState.HasGeo id)
    (IdentityState.Devices id) (IdentityState.MFAFails id) (IdentityState.Admin id).

(** The state the file gives back. *)
Definition persisted (s : State.t) : State.t :=
  State.mk (State.Cursor s) (State.LastUUID s) (State.RecentUUIDs s) (norm_id <$> State.Identities s) (State.SavedAt s)
    (list_to_set (State.RecentUUIDs s)).

(** ** Facts: documents *)

Lemma m_time_ok t : printable t -> m_time t = Ok (e_time t).
Proof.
  intros (Hy & Hz & _). unfold m_time. replace ((YearOf t <? 0) || (9999 <? YearOf t)) with false by lia.
  destruct (Z.leb_spec 24 (Z.abs (Z.quot (zone t) 60) / 60)); [|done]. exfalso.
  Z.to_euclidean_division_equations. lia.
Qed.

Lemma m_float_ok x : json_finite x -> is_zero x = false -> m_float x = Ok (e_float x).
Proof.
  intros [Hv Hx] Hz. unfold m_float, e_float. destruct (json_float_reads x Hv) as (lit & -> & _); [by destruct x..|]. done.
Qed.

Lemma m_times_ok l : Forall printable l -> sequence (m_time <$> l) = Ok (e_time <$> l).
Proof. induction 1 as [|t l Ht _ IH]; [done|]. cbn. by rewrite m_time_ok, IH. Qed.

Lemma m_unless_ok x : json_finite x ->
  m_unless (is_zero x) (m_float x) = Ok (if is_zero x then VNull else e_float x).
Proof. intros Hx. destruct (is_zero x) eqn:Hz; [done|]. cbn. by apply m_float_ok. Qed.

Lemma is_nil_spec {A} (l : list A) : is_nil l = true -> l = [].
Proof. by destruct l. Qed.

Lemma e_times_ok n l : doc_ok (S n) (VArr (e_time <$> l)).
Proof. constructor. apply Forall_fmap, Forall_forall. intros t _. apply e_time_ok. Qed.

(** ** Facts: round trips *)

Section RoundTrip.
Context {E : Env}.

Lemma d_times_e_times l old : Forall printable l -> d_slice zeroTime d_time (VArr (e_time <$> l)) old = Some l.
Proof.
  intros Hl. rewrite (d_slice_map _ _ _ (fun t => t)), list_fmap_id; [done|].
  intros t o Ht. apply d_time_e_time. by eapply Forall_forall in Hl.
Qed.

(** One member: the next state of the decoded record is [a']. *)
Ltac member a' := erewrite (d_omit _ _ _ _ _ _ _ a'); [|reflexivity|..].

Ltac at_member := cbn -[d_map e_members d_time e_time d_string e_string d_slice e_strings d_float e_float].

Lemma m_IdentityState_ok id : id_persistable id -> exists m, m_IdentityState id = Ok (VObj m) /\ doc_ok 2 (VObj m) /\
  d_struct IdentityState_fields (VObj m) IdentityState.zero = Some (norm_id id).
Proof.
  intros [Hs Hg Hgs Hla Hlo Hd Hf]. unfold m_IdentityState.
  rewrite m_time_ok, !m_unless_ok, m_times_ok by done. cbn [mbind result_bind mret result_ret]. eexists. split; [reflexivity|]. split.
  - apply e_members_ok. repeat (apply Forall_app; split); try (apply omit_ok; intros Hz); try rewrite Hz;
      first [apply e_time_ok | apply e_strings_ok | by apply (e_float_reads _ (S754_zero false)) | apply e_string_ok | apply e_times_ok | constructor].
  - destruct id as [seen geo geos lat lon has devs fails adm]. cbn [IdentityState.LastSeen IdentityState.LastGeo IdentityState.Geos
      IdentityState.LastLat IdentityState.LastLon IdentityState.HasGeo IdentityState.Devices IdentityState.MFAFails IdentityState.Admin] in *.
    unfold e_members, d_struct.
    member (IdentityState.mk seen "" [] (S754_zero false) (S754_zero false) false [] [] false).
    2: done. 2: { intros _. at_member. by rewrite d_time_e_time. }
    member (IdentityState.mk seen geo [] (S754_zero false) (S754_zero false) false [] [] false).
    2: by intros ->%String.eqb_eq. 2: { intros _. at_member. by rewrite d_string_e_string, Hg. }
    member (IdentityState.mk seen geo geos (S754_zero false) (S754_zero false) false [] [] false).
    2: by intros ->%is_nil_spec. 2: { intros _. at_member. by rewrite d_strings_e_strings. }
    member (IdentityState.mk seen geo geos (plus_zero lat) (S754_zero false) false [] [] false).
    2: by unfold plus_zero; intros ->. 2: { unfold plus_zero. intros ->. at_member.
      by rewrite (proj1 (e_float_reads lat _ 0 Hla)). }
    member (IdentityState.mk seen geo geos (plus_zero lat) (plus_zero lon) false [] [] false).
    2: by unfold plus_zero; intros ->. 2: { unfold plus_zero. intros ->. at_member.
      by rewrite (proj1 (e_float_reads lon _ 0 Hlo)). }
    member (IdentityState.mk seen geo geos (plus_zero lat) (plus_zero lon) has [] [] false).
    2: by destruct has. 2: by destruct has.
    member (IdentityState.mk seen geo geos (plus_zero lat) (plus_zero lon) has devs [] false).
    2: by intros ->%is_nil_spec. 2: { intros _. at_member. by rewrite d_strings_e_strings. }
    member (IdentityState.mk seen geo geos (plus_zero lat) (plus_zero lon) has devs fails false).
    2: by intros ->%is_nil_spec. 2: { intros _. at_member. by rewrite d_times_e_times. }
    member (IdentityState.mk seen geo geos (plus_zero lat) (plus_zero lon) has devs fails adm).
    2: by destruct adm. 2: by destruct adm.
    done.
Qed.
(** The identities in a list of entries. *)
Lemma m_identities_ok (l : list (string * IdentityState.t)) :
  Forall (fun kv => valid_utf8 kv.1 /\ id_persistable kv.2) l -> exists ids,
  sequence ((fun kv => v ← m_IdentityState kv.2; mret (kv.1, v)) <$> l) = Ok ids /\ (is_nil ids = is_nil l) /\
  Forall (fun kv => doc_ok 2 kv.2) ids /\
  forall m : gmap string (option IdentityState.t),
    d_map None (d_ptr IdentityState.zero (d_struct IdentityState_fields)) (e_members ids) m
    = Some (foldl (fun acc kv => <[kv.1 := Some (norm_id kv.2)]> acc) m l).
Proof.
  induction 1 as [|[k id] l [Hk Hid] _ (ids & Hs & _ & Hok & Hd)]; [by exists []|]. cbn [fst snd] in *.
  destruct (m_IdentityState_ok id Hid) as (v & Hv & Hdoc & Hback). exists ((k, VObj v) :: ids). cbn [fmap list_fmap sequence].
  cbn [fst snd]. rewrite Hv. cbn [mbind result_bind mret result_ret]. rewrite Hs. split_and!; [done|done|by constructor|].
  intros m. unfold d_map, e_members in *. change (member_texts ((k, VObj v) :: ids)) with ((escaped k, VObj v) :: member_texts ids).
  cbn [d_members fst snd foldl]. rewrite unquote_escaped, Hk. unfold d_ptr. cbn [default]. rewrite Hback. apply Hd.
Qed.

Lemma foldl_insert_lookup {A B} (f : A -> B) (l : list (string * A)) : NoDup l.*1 -> forall m : gmap string B,
  foldl (fun acc kv => <[kv.1 := f kv.2]> acc) m l = (f <$> list_to_map l) ∪ m.
Proof.
  induction l as [|[k x] l IH]; intros Hnd m; cbn [foldl list_to_map foldr fst snd].
  { by rewrite fmap_empty, (left_id_L ∅ (∪)). }
  cbn [fmap list_fmap fst] in Hnd. apply NoDup_cons in Hnd as [Hk Hnd]. rewrite IH by done.
  rewrite fmap_insert, <- insert_union_r, insert_union_l; [done|]. rewrite lookup_fmap, not_elem_of_list_to_map_1; done.
Qed.

Lemma m_State_ok s : persistable s -> exists v, m_State s = Ok v /\ doc_ok 4 v /\
  exists f, d_struct State_fields v StateFile.zero = Some f /\ of_StateFile f = Loaded (persisted s).
Proof.
  intros [Hc Hu Hr Hi Hsv]. unfold m_State. rewrite !m_time_ok by done. set (l := sort_keys (map_to_list (State.Identities s))).
  assert (Hp : l ≡ₚ map_to_list (State.Identities s)) by apply sort_keys_perm.
  destruct (m_identities_ok l) as (ids & -> & Hnil & Hdoc & Hd).
  { rewrite Hp. apply map_Forall_to_list in Hi. eapply Forall_impl; [exact Hi|]. by intros [k id]. }
  cbn [mbind result_bind mret result_ret]. eexists. split; [reflexivity|]. split.
  - apply e_members_ok. repeat (apply Forall_app; split); try (apply omit_ok; intros Hz);
      first [apply e_time_ok | apply e_strings_ok | apply e_string_ok | by apply e_members_ok; eauto using Forall_impl, doc_ok_le | constructor].
  - assert (Hnd : NoDup l.*1) by (rewrite Hp; apply NoDup_fst_map_to_list).
    assert (Hl : list_to_map l = State.Identities s).
    { rewrite <- (list_to_map_to_list (State.Identities s)). by apply list_to_map_proper. }
    exists (StateFile.mk (State.Cursor s) (State.LastUUID s) (State.RecentUUIDs s)
              ((fun id => Some (norm_id id)) <$> State.Identities s) (State.SavedAt s)).
    destruct s as [cur u rec idm sv pr]. cbn [State.Cursor State.LastUUID State.RecentUUIDs State.Identities State.SavedAt] in *.
    split.
    + unfold e_members, d_struct. member (StateFile.mk cur "" [] ∅ zeroTime).
      2: done. 2: { intros _. at_member. by rewrite d_time_e_time. }
      member (StateFile.mk cur u [] ∅ zeroTime).
      2: by intros ->%String.eqb_eq. 2: { intros _. at_member. by rewrite d_string_e_string, Hu. }
      member (StateFile.mk cur u rec ∅ zeroTime).
      2: by intros ->%is_nil_spec. 2: { intros _. at_member. by rewrite d_strings_e_strings. }
      member (StateFile.mk cur u rec ((fun id => Some (norm_id id)) <$> idm) zeroTime).
      2: { rewrite Hnil. intros ->%is_nil_spec. cbn in Hl. subst idm. by rewrite fmap_empty. }
      2: { intros _. at_member. rewrite Hd. cbn. rewrite (foldl_insert_lookup (fun id => Some (norm_id id))), Hl by done.
           by rewrite (right_id_L ∅ (∪)). }
      member (StateFile.mk cur u rec ((fun id => Some (norm_id id)) <$> idm) sv).
      2: done. 2: { intros _. at_member. by rewrite d_time_e_time. }
      done.
    + unfold of_StateFile. rewrite bool_decide_eq_true_2.
      * unfold persisted, reindex, State.set_recent. cbn. do 2 f_equal. apply map_eq. intros k.
        rewrite lookup_omap, !lookup_fmap. by destruct (idm !! k).
      * apply map_Forall_fmap. intros k id _. by eexists.
Qed.
End RoundTrip.

(** ** Facts: the calls of [Save] *)

Section SaveFacts.
Context {E : Env} {Sys : OS} (path : string).

Lemma ocall_run {A} (f : nat -> Disk -> A * Disk) (a : Adapter) :
  ocall f a = ((f (atick a) (disk a)).1, mkAdapter (st a) (S (atick a)) (sent a) (f (atick a) (disk a)).2).
Proof. unfold ocall. by destruct (f (atick a) (disk a)). Qed.

(** Nothing but the temporary file differs from [m0]. *)
Definition only_temp (tmp : string) (m0 : gmap Path File) (d : Disk) : Prop := delete (resolve tmp) (files d) = m0.

Lemma only_temp_alter tmp m0 f d : only_temp tmp m0 d -> only_temp tmp m0 (set_files (alter f (resolve tmp)) d).
Proof.
  unfold only_temp. intros <-. cbn [files set_files]. apply map_eq. intros k.
  destruct (decide (k = resolve tmp)) as [->|Hk]; [by rewrite !lookup_delete_eq|].
  by rewrite !lookup_delete_ne, lookup_alter_ne by done.
Qed.

(** Writing: all of the data is in the file, or the call fails. *)
Lemma Write_run tmp data n d m0 f : only_temp tmp m0 d -> files d !! resolve tmp = Some f ->
  let r := Write tmp data n d in only_temp tmp m0 r.2 /\
  (r.1 = None -> files r.2 !! resolve tmp = Some (mkFile data (mode f))).
Proof.
  intros Hm Hf. unfold Write. destruct (halted d); [done|]. destruct (os_killed n); [split; [|done]; by apply (only_temp_alter _ _ _ d)|].
  destruct (os_error n); (split; [by apply only_temp_alter|]); [done|]. intros _. cbn [fst snd files set_files].
  by rewrite lookup_alter_eq, Hf.
Qed.

Lemma syscall_same n d : files (syscall (fun m => m) n d).2 = files d.
Proof. destruct (syscall_cases (fun m => m) n d) as [(e & _ & ->)|(_ & _ & ->)]; [done|]. by destruct d. Qed.

(** The temporary file replaces the state file, or nothing but it has changed. *)
Lemma write_temp_run tmp data (a : Adapter) m0 f : resolve tmp <> resolve path ->
  only_temp tmp m0 (disk a) -> files (disk a) !! resolve tmp = Some f -> exists r k d,
  write_temp path tmp data a = (r, mkAdapter (st a) k (sent a) d) /\
  match r with
  | None => halted d = false /\ files d = <[resolve path := mkFile data 384]> m0
  | Some _ => only_temp tmp m0 d
  end.
Proof.
  intros Hne Hm Hf. unfold write_temp. st_unfold. rewrite ocall_run.
  pose proof (Write_run tmp data (atick a) (disk a) m0 f Hm Hf) as [Hm1 Hf1].
  destruct (Write tmp data (atick a) (disk a)) as [[e|] d1]; cbn [fst snd] in *; rewrite ocall_run; cbn [atick disk st sent].
  { eexists _, _, _. split; [reflexivity|]. unfold only_temp, Close. by rewrite syscall_same. }
  specialize (Hf1 eq_refl). unfold Chmod. destruct (syscall_cases (alter (fun f => mkFile (contents f) 384) (resolve tmp)) (S (atick a)) d1)
    as [(e & -> & Hd2)|(-> & _ & Hd2)]; rewrite ocall_run; cbn [atick disk st sent].
  { eexists _, _, _. split; [reflexivity|]. unfold only_temp, Close. by rewrite syscall_same, Hd2. }
  rewrite Hd2. set (d2 := set_files _ d1) in *. assert (Hm2 : only_temp tmp m0 d2) by (by apply only_temp_alter).
  assert (Hf2 : files d2 !! resolve tmp = Some (mkFile data 384)) by (cbn; by rewrite lookup_alter_eq, Hf1).
  pose proof (syscall_same (S (S (atick a))) d2) as Hc. unfold Close.
  destruct (syscall (fun m => m) (S (S (atick a))) d2) as [[e|] d3]; cbn [fst snd] in *.
  { eexists _, _, _. split; [reflexivity|]. unfold only_temp. by rewrite Hc. }
  rewrite ocall_run. cbn [atick disk st sent]. unfold Rename.
  match goal with |- context [syscall ?f ?n d3] => destruct (syscall_cases f n d3) as [(e & -> & Hd4)|(-> & Hh & Hd4)] end.
  { eexists _, _, _. split; [reflexivity|]. unfold only_temp. by rewrite Hd4, Hc. }
  rewrite Hd4. eexists _, _, _. split; [reflexivity|]. split; [done|]. cbn [files set_files]. by rewrite Hc, Hf2, Hm2.
Qed.
Lemma make_dir_run dir (a : Adapter) : exists r k d,
  make_dir dir a = (r, mkAdapter (st a) k (sent a) d) /\ files d = files (disk a).
Proof.
  unfold make_dir. destruct (_ && _).
  - rewrite ocall_run. eexists _, _, _. split; [reflexivity|]. apply syscall_same.
  - eexists _, (atick a), (disk a). split; [|done]. by destruct a.
Qed.

(** The path of a temporary file of the state file. *)
Definition temp_path (r : Z) : Path := resolve (temp_name (Dir path) ".okta-state-" ".json" r).

(** A path that ends in an ordinary element other than those of temporary files. *)
Definition state_path : Prop :=
  let b := Base_of path in b <> "" /\ b <> "." /\ b <> ".." /\ HasPrefix b ".okta-state-" = false.

Lemma temp_path_ne r : state_path -> temp_path r <> resolve path.
Proof.
  intros (H1 & H2 & H3 & Hp). unfold temp_path, resolve. intros [= _ Heq].
  pose proof (parts_last path H1 H2 H3) as Hl. rewrite <- Heq in Hl.
  pose proof (temp_name_base (Dir path) ".okta-state-" ".json" r eq_refl eq_refl) as Hb.
  rewrite parts_last in Hl; rewrite Hb in *; [|done..]. injection Hl as Hl. by rewrite <- Hl, HasPrefix_app in Hp.
Qed.

(** Files as before, but for a temporary file that was not removed. *)
Definition leftover (m0 m : gmap Path File) : Prop :=
  m = m0 \/ exists r f, m0 !! temp_path r = None /\ m = <[temp_path r := f]> m0.

Lemma only_temp_leftover r m0 d : m0 !! temp_path r = None ->
  only_temp (temp_name (Dir path) ".okta-state-" ".json" r) m0 d -> leftover m0 (files d).
Proof.
  unfold only_temp, leftover. fold (temp_path r). intros Hn Hd. destruct (files d !! temp_path r) as [f|] eqn:Hf.
  - right. exists r, f. split; [done|]. by rewrite <- Hd, insert_delete_id.
  - left. by rewrite <- Hd, delete_id.
Qed.

(** What a call of [Save] leaves behind. *)
Record save_outcome (a : Adapter) (r : option string) (a' : Adapter) : Prop := {
  so_st : st a' = State.set_SavedAt (UTC (clock (atick a))) (st a);
  so_sent : sent a' = sent a;
  so_files : match r with
             | None => exists data, MarshalIndent_State (st a') = Ok data /\
                 files (disk a') = <[resolve path := mkFile data 384]> (files (disk a))
             | Some _ => leftover (files (disk a)) (files (disk a'))
             end
}.

Lemma Save_run (a : Adapter) : state_path -> save_outcome a (Save path a).1 (Save path a).2.
Proof.
  intros Hpath. unfold Save, save_data, oask, oput, oget, set_st. st_unfold. cbn [st atick sent disk].
  set (s := State.set_SavedAt _ (st a)). destruct (MarshalIndent_State s) as [data|e] eqn:Hdata; [|split; [done|done|by left]].
  set (a1 := mkAdapter s (S (atick a)) (sent a) (disk a)).
  destruct (make_dir_run (Dir path) a1) as (r & k & d & -> & Hd). cbn [st sent disk a1] in *.
  destruct r as [e|]; [split; [done|done|by left]|]. rewrite ocall_run. cbn [atick disk st sent]. unfold CreateTemp.
  destruct (free_name _ _ _ k _ 0 (files d)) as [tmp|] eqn:Hfree; [|split; [done|done|by left]].
  apply free_name_spec in Hfree as [Hno [rnd ->]]. fold (temp_path rnd) in *. rewrite Hd in Hno.
  destruct (syscall_cases <[temp_path rnd := mkFile "" (Z.ldiff 384 os_umask)]> k d) as [(e & He & Hd1)|(He & _ & Hd1)];
    destruct (syscall <[temp_path rnd := _]> k d) as [r1 d1]; cbn [fst snd] in *; subst r1.
  { split; [done|done|]. left. cbn. by rewrite Hd1. }
  cbn [fst snd]. match goal with |- context [write_temp path ?t data ?b] =>
    destruct (write_temp_run t data b (files (disk a)) (mkFile "" (Z.ldiff 384 os_umask)) (temp_path_ne rnd Hpath))
      as (r & k2 & d2 & -> & Hr) end; cbn [disk st sent].
  { unfold only_temp. fold (temp_path rnd). rewrite Hd1. cbn [files set_files]. by rewrite Hd, delete_insert_id. }
  { fold (temp_path rnd). rewrite Hd1. cbn [files set_files]. by rewrite lookup_insert_eq. }
  rewrite ocall_run. cbn [atick disk st sent fst snd]. unfold Remove. fold (temp_path rnd).
  split; [done|done|]. cbn [snd disk st]. destruct r as [e|].
  - destruct (syscall_cases (delete (temp_path rnd)) k2 d2) as [(e2 & _ & ->)|(_ & _ & ->)].
    + by eapply only_temp_leftover.
    + left. by rewrite <- Hr.
  - destruct Hr as [_ Hr]. exists data. split; [done|].
    destruct (syscall_cases (delete (temp_path rnd)) k2 d2) as [(e2 & _ & ->)|(_ & _ & ->)]; [done|].
    cbn [files set_files]. rewrite Hr, delete_insert_ne by (intros Heq; by apply (temp_path_ne rnd Hpath)). by rewrite delete_id.
Qed.
End SaveFacts.

(** ** Facts: what [Save] leaves alone *)

Section Frame.
Context {E : Env} {Sys : OS}.

(** State and deliveries are as before. *)
Definition keeps {A} (m : OM A) : Prop := forall a, st (m a).2 = st a /\ sent (m a).2 = sent a.

Lemma keeps_ret {A} (x : A) : keeps (mret x).
Proof. done. Qed.
Lemma keeps_ocall {A} (f : nat -> Disk -> A * Disk) : keeps (ocall f).
Proof. intros a. by rewrite ocall_run. Qed.
Lemma keeps_bind {A B} (m : OM A) (k : A -> OM B) : keeps m -> (forall x, keeps (k x)) -> keeps (x ← m; k x).
Proof.
  intros Hm Hk a. st_unfold. destruct (Hm a) as [H1 H2]. destruct (m a) as [x a1]. cbn [snd] in *.
  destruct (Hk x a1) as [H3 H4]. by rewrite H3, H4.
Qed.
End Frame.

Create HintDb frame.
#[export] Hint Resolve keeps_ret keeps_ocall keeps_bind : frame.

(** A function that saves the state: it may stamp it, and does not touch what was
    delivered. *)
Class StateFn (f : OM (option string)) : Prop :=
  stateFn_run : forall a, exists r t k d, f a = (r, mkAdapter (State.set_SavedAt t (st a)) k (sent a) d).

Section SaveFrame.
Context {E : Env} {Sys : OS} (path : string).

Lemma write_temp_keeps tmp data : keeps (write_temp path tmp data).
Proof. unfold write_temp. repeat (first [apply keeps_bind|apply keeps_ocall|apply keeps_ret|intros []|intros ?]). Qed.

Lemma make_dir_keeps dir : keeps (make_dir dir).
Proof. unfold make_dir. destruct (_ && _); auto with frame. Qed.

Lemma save_data_keeps data : keeps (save_data path data).
Proof.
  unfold save_data. apply keeps_bind; [apply make_dir_keeps|]. intros [e|]; [auto with frame|].
  apply keeps_bind; [auto with frame|]. intros [tmp|e]; [|auto with frame].
  apply keeps_bind; [apply write_temp_keeps|]. auto with frame.
Qed.

Lemma Save_stamps (a : Adapter) :
  st (Save path a).2 = State.set_SavedAt (UTC (clock (atick a))) (st a) /\ sent (Save path a).2 = sent a.
Proof.
  unfold Save, oask, oput, oget, set_st. st_unfold. cbn [st atick sent disk].
  destruct (MarshalIndent_State _) as [data|e]; [|done].
  match goal with |- context [save_data path data ?b] => destruct (save_data_keeps data b) as [-> ->] end. done.
Qed.

#[export] Instance Save_StateFn : StateFn (Save path).
Proof.
  intros a. destruct (Save_stamps a) as [H1 H2]. destruct (Save path a) as [r [s k l d]]. cbn in *. subst. by eexists _, _, _, _.
Qed.
End SaveFrame.

(** ** Concrete data *)

(** Calls that all succeed, and calls the [n]-th of which fails. *)
Definition calm : OS := {|
  os_error := fun _ => None; os_killed := fun _ => false; os_written := fun _ => 0%nat;
  os_random := fun n k => Z.of_nat (n + k); os_umask := 18 |}.
Definition failing_at (n : nat) : OS := {|
  os_error := fun m => if (m =? n)%nat then Some "no space left on device" else None;
  os_killed := fun _ => false; os_written := fun _ => 7%nat;
  os_random := fun n k => Z.of_nat (n + k); os_umask := 18 |}.
Definition killed_at (n : nat) : OS := {|
  os_error := fun _ => None; os_killed := fun m => (m =? n)%nat; os_written := fun _ => 7%nat;
  os_random := fun n k => Z.of_nat (n + k); os_umask := 18 |}.

Definition demo_path : string := ".oiaf/okta-state.json".

Definition demo_memory : IdentityState.t :=
  IdentityState.mk demo_base "Bern, CH" ["Bern, CH"] (of_dec false 4694 (-2)) (S754_zero true) true ["d|<ua>"] [demo_base] false.

Definition demo_saved : Adapter :=
  mkAdapter (State.mk demo_base "e1" ["e0"; "e1"] {["bob" := demo_memory]} zeroTime {["e0"; "e1"]}) 0 [] (mkDisk ∅ false).

(** Whether the state file is there, and how many files there are. *)
Definition disk_summary (a : Adapter) : bool * nat :=
  let m := files (disk a) in (match m !! resolve demo_path with Some _ => true | None => false end, size m).

Example demo_partial :
  disk_summary (Save (Sys := calm) demo_path demo_saved).2 = (true, 1%nat) /\
  disk_summary (Save (Sys := failing_at 3) demo_path demo_saved).2 = (false, 0%nat) /\
  disk_summary (Save (Sys := killed_at 3) demo_path demo_saved).2 = (false, 1%nat) /\
  disk_summary (Save (Sys := killed_at 7) demo_path demo_saved).2 = (true, 1%nat).
Proof. split_and!; vm_compute; reflexivity. Qed.

Lemma LoadState_document {E : Env} {Sys : OS} path n d s f m : os_error n = None ->
  files d !! resolve path = Some (mkFile (indented f) m) -> doc_ok 4 f -> d_struct State_fields f StateFile.zero = Some s ->
  LoadState path n d = Ok (of_StateFile s).
Proof.
  intros Hn Hf Hdoc Hs. unfold LoadState, ReadFile. rewrite Hn, Hf. cbn [contents]. unfold Unmarshal.
  rewrite (scan_indented f (depth_ok 4 f Hdoc ltac:(lia))). by rewrite Hs.
Qed.

Lemma LoadState_saved {E : Env} {Sys : OS} path n d s data m : persistable s -> os_error n = None ->
  MarshalIndent_State s = Ok data -> files d !! resolve path = Some (mkFile data m) ->
  LoadState path n d = Ok (Loaded (persisted s)).
Proof.
  intros Hp Hn Hd Hf. destruct (m_State_ok s Hp) as (v & Hv & Hdoc & f & Hs & Hof).
  assert (data = indented v) as ->. { unfold MarshalIndent_State in Hd. rewrite Hv in Hd. by injection Hd. }
  rewrite (LoadState_document path n d f v m Hn Hf Hdoc Hs). by rewrite Hof.
Qed.

(** ** Properties *)

(** C20: a saved state is the state the next run starts from: when [Save] reports
    success, [LoadState] of the file gives back the cursor, the last id, the
    dedupe window and its index, and the memory of every identity (a coordinate
    of negative zero as zero), for all states of UTF-8 texts, printable times and
    finite coordinates. *)
Theorem save_load {E : Env} {Sys : OS} path n (a : Adapter) :
  let r := Save path a in
  state_path path -> persistable (State.set_SavedAt (UTC (clock (atick a))) (st a)) ->
  r.1 = None -> os_error n = None ->
  LoadState path n (disk r.2) = Ok (Loaded (persisted (st r.2))).
Proof.
  cbv zeta. intros Hpath Hp Hr Hn. destruct (Save_run path a Hpath) as [Hst _ Hf]. rewrite Hr in Hf. rewrite <- Hst in Hp.
  destruct Hf as (data & Hd & Hfiles). apply (LoadState_saved path n _ _ data 384); [done..|]. by rewrite Hfiles, lookup_insert_eq.
Qed.

(** C21: the state file is replaced whole or not at all: whichever call of [Save]
    fails, writes only a part, or is the last before the process dies, the file
    at the path holds its old contents, and exactly that if [Save] reports an
    error; if [Save] reports success it holds the complete new document, readable
    and writable by the owner only. No other file that existed is touched. *)
Theorem save_atomic {E : Env} {Sys : OS} path (a : Adapter) :
  state_path path ->
  let r := Save path a in
  (forall k f, files (disk a) !! k = Some f -> k <> resolve path -> files (disk r.2) !! k = Some f) /\
  match r.1 with
  | Some _ => files (disk r.2) !! resolve path = files (disk a) !! resolve path
  | None => exists data, MarshalIndent_State (st r.2) = Ok data /\
              files (disk r.2) !! resolve path = Some (mkFile data 384)
  end.
Proof.
  intros Hpath. cbv zeta. destruct (Save_run path a Hpath) as [_ _ Hf]. destruct (Save path a).1 as [e|].
  - destruct Hf as [->|(rnd & f & Hno & ->)]; [done|]. split.
    + intros k f' Hk _. rewrite lookup_insert_ne; [done|]. intros <-. congruence.
    + apply lookup_insert_ne. by apply temp_path_ne.
  - destruct Hf as (data & Hd & ->). split.
    + intros k f Hk Hne. by rewrite lookup_insert_ne.
    + exists data. by rewrite lookup_insert_eq.
Qed.

Lemma demo_state_path : state_path demo_path.
Proof. repeat split; by vm_compute. Qed.

Lemma demo_printable t : (0 <=? YearOf t) && (YearOf t <=? 9999) && (zone t =? 0) = true -> printable t.
Proof. unfold printable. intros H. split_and!; [lia..| |]; replace (zone t) with 0 by lia; done. Qed.

Lemma demo_persistable : persistable (State.set_SavedAt (UTC (clock 0)) (st demo_saved)).
Proof.
  split; [by apply demo_printable; vm_compute|by vm_compute|by repeat constructor; vm_compute| |by apply demo_printable; vm_compute].
  apply map_Forall_singleton. split; [by vm_compute|].
  split; [by apply demo_printable; vm_compute|by vm_compute|by apply Forall_singleton; vm_compute|by vm_compute|by vm_compute
         |by apply Forall_singleton; vm_compute|by apply Forall_singleton, demo_printable; vm_compute].
Qed.

Lemma save_load_witness : LoadState (Sys := calm) demo_path 9 (disk (Save (Sys := calm) demo_path demo_saved).2)
  = Ok (Loaded (persisted (st (Save (Sys := calm) demo_path demo_saved).2))).
Proof. apply (save_load (Sys := calm) demo_path 9 demo_saved demo_state_path demo_persistable); vm_compute; reflexivity. Defined.

Lemma save_atomic_witness :
  files (disk (Save (Sys := killed_at 5) demo_path demo_saved).2) !! resolve demo_path = None.
Proof.
  destruct (save_atomic (Sys := killed_at 5) demo_path demo_saved demo_state_path) as [_ H].
  assert (Hr : (Save (Sys := killed_at 5) demo_path demo_saved).1 = Some "close temp state file: killed") by (vm_compute; reflexivity).
  rewrite Hr in H. rewrite H. reflexivity.
Defined.
