(* ===== verification/OktaDecode.v ===== *)
(** * adapters/okta: decoding log events (client.go, fixture.go)

    The structs' fields by their tags, [DebugDataMap.UnmarshalJSON] on the text it
    is given, a page of the live source and the file of the fixture source. *)

From S2P Require Import Prelude GoStrings GoTime GoFloat GoCrypto GoRunes GoJson GoHttp GoParse GoOs GoJsonRead GoFloatRead Types World GoTimeRead Instances Okta OktaState.
From Stdlib Require Import SpecFloat.

(** ** Values of the source's types *)

Definition zero_Outcome : Outcome.t := Outcome.mk "" "".
Definition zero_Actor : Actor.t := Actor.mk "" "" "" "".
Definition zero_UserAgent : UserAgent.t := UserAgent.mk "" "" "".
Definition zero_Geo : Geo.t := Geo.mk (S754_zero false) (S754_zero false).
Definition zero_Geographic : Geographic.t := Geographic.mk "" "" "" None.
Definition zero_EventClient : EventClient.t := EventClient.mk "" zero_UserAgent "" "" "" zero_Geographic.
Definition zero_AuthCtx : AuthCtx.t := AuthCtx.mk "" "" "" "" "".
Definition zero_SecurityCtx : SecurityCtx.t := SecurityCtx.mk 0 "" "" "" false "".
Definition zero_Target : Target.t := Target.mk "" "" "" "".
Definition zero_LogEvent : LogEvent.t :=
  LogEvent.mk "" zeroTime "" "" zero_Outcome zero_Actor zero_EventClient zero_AuthCtx zero_SecurityCtx ∅ [].

(** ** The structs *)

Definition d_Outcome : decoder Outcome.t := d_struct
  [at_field "result" Outcome.Result (fun x '(Outcome.mk _ b) => Outcome.mk x b) d_string;
   at_field "reason" Outcome.Reason (fun x '(Outcome.mk a _) => Outcome.mk a x) d_string].

Definition d_Actor : decoder Actor.t := d_struct
  [at_field "id" Actor.ID (fun x '(Actor.mk _ b c d) => Actor.mk x b c d) d_string;
   at_field "type" Actor.Type_ (fun x '(Actor.mk a _ c d) => Actor.mk a x c d) d_string;
   at_field "displayName" Actor.DisplayName (fun x '(Actor.mk a b _ d) => Actor.mk a b x d) d_string;
   at_field "alternateId" Actor.AlternateID (fun x '(Actor.mk a b c _) => Actor.mk a b c x) d_string].

Definition d_UserAgent : decoder UserAgent.t := d_struct
  [at_field "rawUserAgent" UserAgent.RawUserAgent (fun x '(UserAgent.mk _ b c) => UserAgent.mk x b c) d_string;
   at_field "browser" UserAgent.Browser (fun x '(UserAgent.mk a _ c) => UserAgent.mk a x c) d_string;
   at_field "os" UserAgent.OS (fun x '(UserAgent.mk a b _) => UserAgent.mk a b x) d_string].

Definition d_Geo : decoder Geo.t := d_struct
  [at_field "lat" Geo.Lat (fun x '(Geo.mk _ b) => Geo.mk x b) d_float;
   at_field "lon" Geo.Lon (fun x '(Geo.mk a _) => Geo.mk a x) d_float].

Definition d_Geographic : decoder Geographic.t := d_struct
  [at_field "city" Geographic.City (fun x '(Geographic.mk _ b c d) => Geographic.mk x b c d) d_string;
   at_field "state" Geographic.State (fun x '(Geographic.mk a _ c d) => Geographic.mk a x c d) d_string;
   at_field "country" Geographic.Country (fun x '(Geographic.mk a b _ d) => Geographic.mk a b x d) d_string;
   at_field "geolocation" Geographic.Geolocation (fun x '(Geographic.mk a b c _) => Geographic.mk a b c x) (d_ptr zero_Geo d_Geo)].

Definition d_EventClient : decoder EventClient.t := d_struct
  [at_field "ipAddress" EventClient.IPAddress (fun x '(EventClient.mk _ b c d e f) => EventClient.mk x b c d e f) d_string;
   at_field "userAgent" EventClient.UserAgent (fun x '(EventClient.mk a _ c d e f) => EventClient.mk a x c d e f) d_UserAgent;
   at_field "zone" EventClient.Zone (fun x '(EventClient.mk a b _ d e f) => EventClient.mk a b x d e f) d_string;
   at_field "device" EventClient.Device (fun x '(EventClient.mk a b c _ e f) => EventClient.mk a b c x e f) d_string;
   at_field "id" EventClient.ID (fun x '(EventClient.mk a b c d _ f) => EventClient.mk a b c d x f) d_string;
   at_field "geographicalContext" EventClient.Geographic (fun x '(EventClient.mk a b c d e _) => EventClient.mk a b c d e x) d_Geographic].

Definition d_AuthCtx : decoder AuthCtx.t := d_struct
  [at_field "authenticationProvider" AuthCtx.AuthenticationProvider (fun x '(AuthCtx.mk _ b c d e) => AuthCtx.mk x b c d e) d_string;
   at_field "credentialProvider" AuthCtx.CredentialProvider (fun x '(AuthCtx.mk a _ c d e) => AuthCtx.mk a x c d e) d_string;
   at_field "credentialType" AuthCtx.CredentialType (fun x '(AuthCtx.mk a b _ d e) => AuthCtx.mk a b x d e) d_string;
   at_field "context" AuthCtx.Context_ (fun x '(AuthCtx.mk a b c _ e) => AuthCtx.mk a b c x e) d_string;
   at_field "externalSessionId" AuthCtx.ExternalSessionID (fun x '(AuthCtx.mk a b c d _) => AuthCtx.mk a b c d x) d_string].

Definition d_SecurityCtx : decoder SecurityCtx.t := d_struct
  [at_field "asNumber" SecurityCtx.ASNumber (fun x '(SecurityCtx.mk _ b c d e f) => SecurityCtx.mk x b c d e f) d_int;
   at_field "asOrganization" SecurityCtx.ASOrg (fun x '(SecurityCtx.mk a _ c d e f) => SecurityCtx.mk a x c d e f) d_string;
   at_field "isp" SecurityCtx.ISP (fun x '(SecurityCtx.mk a b _ d e f) => SecurityCtx.mk a b x d e f) d_string;
   at_field "domain" SecurityCtx.Domain (fun x '(SecurityCtx.mk a b c _ e f) => SecurityCtx.mk a b c x e f) d_string;
   at_field "isProxy" SecurityCtx.IsProxy (fun x '(SecurityCtx.mk a b c d _ f) => SecurityCtx.mk a b c d x f) d_bool;
   at_field "anonymizer" SecurityCtx.Anonymizer (fun x '(SecurityCtx.mk a b c d e _) => SecurityCtx.mk a b c d e x) d_string].

Definition d_Target : decoder Target.t := d_struct
  [at_field "id" Target.ID (fun x '(Target.mk _ b c d) => Target.mk x b c d) d_string;
   at_field "type" Target.Type_ (fun x '(Target.mk a _ c d) => Target.mk a x c d) d_string;
   at_field "alternateId" Target.AlternateID (fun x '(Target.mk a b _ d) => Target.mk a b x d) d_string;
   at_field "displayName" Target.DisplayName (fun x '(Target.mk a b c _) => Target.mk a b c x) d_string].

(** ** Debug data *)

(** The text of one value of [debugData] as a string. *)
Definition debug_text (raw : list Z) : string :=
  if bool_decide (raw = lit_null) then ""
  else match t_of d_string raw "" with Some s => s | None => of_bytes raw end.

(** [DebugDataMap.UnmarshalJSON]. *)
Definition t_DebugDataMap : text_decoder (gmap string string) := fun data m =>
  if bool_decide (data = lit_null) then Some m
  else match raw_members data with
       | None => Some ∅
       | Some raw => Some (foldl (fun out kv => <[unquote kv.1 := debug_text kv.2]> out) ∅ raw)
       end.

(** [DebugCtx], whose only field is the map. *)
Definition t_DebugCtx : text_decoder (gmap string string) :=
  t_struct [t_at "debugData" (fun m => m) (fun x _ => x) t_DebugDataMap].

Section Events.
Context {E : Env}.

Definition LogEvent_fields : list (t_field LogEvent.t) :=
  [t_at "uuid" LogEvent.UUID (fun x '(LogEvent.mk _ b c d e f g h i j k) => LogEvent.mk x b c d e f g h i j k) (t_of d_string);
   t_at "published" LogEvent.Published (fun x '(LogEvent.mk a _ c d e f g h i j k) => LogEvent.mk a x c d e f g h i j k) (t_of d_time);
   t_at "eventType" LogEvent.EventType (fun x '(LogEvent.mk a b _ d e f g h i j k) => LogEvent.mk a b x d e f g h i j k) (t_of d_string);
   t_at "displayMessage" LogEvent.DisplayMsg (fun x '(LogEvent.mk a b c _ e f g h i j k) => LogEvent.mk a b c x e f g h i j k) (t_of d_string);
   t_at "outcome" LogEvent.Outcome_ (fun x '(LogEvent.mk a b c d _ f g h i j k) => LogEvent.mk a b c d x f g h i j k) (t_of d_Outcome);
   t_at "actor" LogEvent.Actor_ (fun x '(LogEvent.mk a b c d e _ g h i j k) => LogEvent.mk a b c d e x g h i j k) (t_of d_Actor);
   t_at "client" LogEvent.Client (fun x '(LogEvent.mk a b c d e f _ h i j k) => LogEvent.mk a b c d e f x h i j k) (t_of d_EventClient);
   t_at "authenticationContext" LogEvent.AuthContext (fun x '(LogEvent.mk a b c d e f g _ i j k) => LogEvent.mk a b c d e f g x i j k) (t_of d_AuthCtx);
   t_at "securityContext" LogEvent.SecurityCtx_ (fun x '(LogEvent.mk a b c d e f g h _ j k) => LogEvent.mk a b c d e f g h x j k) (t_of d_SecurityCtx);
   t_at "debugContext" LogEvent.DebugData (fun x '(LogEvent.mk a b c d e f g h i _ k) => LogEvent.mk a b c d e f g h i x k) t_DebugCtx;
   t_at "target" LogEvent.Targets (fun x '(LogEvent.mk a b c d e f g h i j _) => LogEvent.mk a b c d e f g h i j x) (t_of (d_slice zero_Target d_Target))].

Definition t_LogEvent : text_decoder LogEvent.t := t_struct LogEvent_fields.
Definition t_events : text_decoder (list LogEvent.t) := t_slice zero_LogEvent t_LogEvent.

(** A page ([json.NewDecoder(...).Decode(&events)]); [err] is the decoder's message. *)
Definition decode_events (err : string -> string) (body : string) : result (list LogEvent.t) :=
  match t_Decode t_events body [] with Some evs => Ok evs | None => Err (err body) end.

(** [sort.SliceStable] by publication. *)
Fixpoint insert_event (ev : LogEvent.t) (l : list LogEvent.t) : list LogEvent.t :=
  match l with
  | [] => [ev]
  | e :: l' => if Before (LogEvent.Published e) (LogEvent.Published ev) then e :: insert_event ev l' else ev :: l
  end.
Definition sort_events (l : list LogEvent.t) : list LogEvent.t := foldr insert_event [] l.

(** [NewFixtureSource]: an array of events, or an object with one. *)
Definition NewFixtureSource {Sys : OS} (err : string -> string) (path : string) (n : nat) (d : Disk) : result (list LogEvent.t) :=
  match ReadFile path n d with
  | RError e => Err ("read fixture file: " +:+ e)
  | RNotExist => Err ("read fixture file: open " +:+ path +:+ ": no such file or directory")
  | RData data =>
      match t_Unmarshal t_events data [] with
      | Some events => Ok (sort_events events)
      | None =>
          match t_Unmarshal (t_struct [t_at "events" (fun l => l) (fun x _ => x) t_events]) data [] with
          | Some events => Ok (sort_events events)
          | None => Err ("parse fixture file: " +:+ err data)
          end
      end
  end.
End Events.

(** ** Specification *)

(** What a decoded event has in common with a state that can be saved. *)
Definition actor_ok (a : Actor.t) : Prop := valid_utf8 (Actor.AlternateID a) /\ valid_utf8 (Actor.DisplayName a).
Definition loc_ok (g : Geo.t) : Prop := json_finite (Geo.Lat g) /\ json_finite (Geo.Lon g).
Definition place_ok (g : Geographic.t) : Prop :=
  valid_utf8 (Geographic.City g) /\ valid_utf8 (Geographic.State g) /\ valid_utf8 (Geographic.Country g) /\
  match Geographic.Geolocation g with Some l => loc_ok l | None => True end.
Definition client_ok (c : EventClient.t) : Prop :=
  valid_utf8 (UserAgent.RawUserAgent (EventClient.UserAgent c)) /\ valid_utf8 (EventClient.Device c) /\
  place_ok (EventClient.Geographic c).

Record wire_ok (ev : LogEvent.t) : Prop := {
  w_uuid : valid_utf8 (LogEvent.UUID ev);
  w_published : printable (LogEvent.Published ev);
  w_actor : actor_ok (LogEvent.Actor_ ev);
  w_client : client_ok (LogEvent.Client ev)
}.

(** How a value of [debugData] is to be rendered: a string as its value, anything
    else in its compact JSON form. *)
Definition rendered (v : jval) : string :=
  match v with VNull => "" | VStr raw => unquote raw | v => compact v end.

(** A value without parts, which has only one form. *)
Definition scalar (v : jval) : bool := match v with VArr _ | VObj _ => false | _ => true end.

(** The text a value of [debugData] is kept as, from the document and its layout. *)
Definition debug_value (nl : nat -> list Z) (sp : list Z) (d : nat) (v : jval) : string :=
  match v with VNull => "" | VStr raw => unquote raw | _ => of_bytes (print nl sp d v) end.

(** ** Facts: decoded events *)

Section DecodeFacts.
Context {E : Env}.

(** A field whose type the property speaks about, or else one it ignores. *)
Ltac p_field known := first
  [solve [eapply preserves_field; [known|intros []; cbn; tauto|intros ? []; cbn; tauto]]
  |solve [eapply preserves_field; [apply preserves_any|done|intros ? []; cbn; tauto]]].
Ltac p_struct known := apply preserves_struct; repeat (apply Forall_cons_2; [p_field known|]); apply Forall_nil_2.

Lemma preserves_actor : preserves actor_ok d_Actor.
Proof. unfold actor_ok. p_struct ltac:(apply preserves_string). Qed.

Lemma preserves_loc : preserves loc_ok d_Geo.
Proof. unfold loc_ok. p_struct ltac:(apply preserves_float). Qed.

Lemma preserves_agent : preserves (fun u => valid_utf8 (UserAgent.RawUserAgent u)) d_UserAgent.
Proof. p_struct ltac:(apply preserves_string). Qed.

Lemma preserves_place : preserves place_ok d_Geographic.
Proof.
  unfold place_ok. p_struct ltac:(first [apply preserves_string|apply (preserves_ptr loc_ok); [done|apply preserves_loc]]).
Qed.

Lemma preserves_client : preserves client_ok d_EventClient.
Proof.
  unfold client_ok. p_struct ltac:(first [apply preserves_string|apply preserves_place|apply preserves_agent]).
Qed.

Lemma zero_wire : wire_ok zero_LogEvent.
Proof.
  split; [done| |done|]; [|done]. split; [by vm_compute|]. done.
Qed.

Lemma t_LogEvent_wire : parses_printable -> t_preserves wire_ok t_LogEvent.
Proof.
  intros Hp. apply t_preserves_struct.
  repeat (apply Forall_cons_2; [first
    [solve [eapply t_preserves_field; [apply preserves_text; first [apply preserves_string|by apply preserves_time|apply preserves_actor|apply preserves_client]
                                      |by intros [] []|by intros ? [] ? []]]
    |solve [eapply t_preserves_field; [apply t_preserves_any|done|by intros ? [] ? []]]]|]).
  apply Forall_nil_2.
Qed.

(** Every event of a page, and of a fixture file, is such. *)
Lemma decode_events_wire err body evs : parses_printable -> decode_events err body = Ok evs -> Forall wire_ok evs.
Proof.
  intros Hp. unfold decode_events, t_Decode. destruct (raw_value (bytes body)) as [[raw r]|] eqn:Hr; [|done].
  destruct (raw_value_sound _ _ _ (bytes_range body) Hr) as [Hraw _].
  destruct (t_events raw []) as [l|] eqn:Hl; [|done]. intros [= <-].
  eapply (t_preserves_slice wire_ok _ _ zero_wire (t_LogEvent_wire Hp)); [exact Hraw|constructor|exact Hl].
Qed.
End DecodeFacts.

(** ** Facts: debug data *)

Section DebugFacts.
Context (nl : nat -> list Z) (sp : list Z) (Hnl : forall d, ws_only (nl d)) (Hsp : ws_only sp).

Lemma print_null d v : doc_ok maxNestingDepth v -> print nl sp d v = lit_null -> v = VNull.
Proof.
  intros Hv Hn. pose proof (scan_print nl sp Hnl Hsp d v Hv) as Hs. rewrite Hn in Hs.
  change lit_null with (print nl sp d VNull) in Hs. rewrite (scan_print nl sp Hnl Hsp d VNull) in Hs by constructor. by injection Hs.
Qed.

Lemma debug_text_print d v : doc_ok maxNestingDepth v -> debug_text (print nl sp d v) = debug_value nl sp d v.
Proof.
  intros Hv. unfold debug_text. case_bool_decide as Hn; [by rewrite (print_null d v Hv Hn)|].
  unfold t_of. rewrite (scan_print nl sp Hnl Hsp d v Hv). by destruct v.
Qed.
End DebugFacts.

Lemma debug_value_rendered nl sp d v : scalar v = true \/ ((forall k, nl k = []) /\ sp = []) -> debug_value nl sp d v = rendered v.
Proof.
  intros [Hs|[Hnl ->]]; [by destruct v|].
  destruct v as [|b|lit|raw|l|m]; try done; unfold debug_value, rendered, compact; f_equal; by apply print_compact.
Qed.

(** The map a layout is read to. *)
Lemma debug_data_run nl sp d v old : (forall k, ws_only (nl k)) -> ws_only sp -> doc_ok maxNestingDepth v ->
  t_DebugDataMap (print nl sp d v) old = Some (match v with
    | VNull => old
    | VObj m => foldl (fun out kv => <[unquote kv.1 := debug_value nl sp (S d) kv.2]> out) ∅ m
    | _ => ∅
    end).
Proof.
  intros Hnl Hsp Hv. unfold t_DebugDataMap. case_bool_decide as Hn; [by rewrite (print_null nl sp Hnl Hsp d v Hv Hn)|].
  destruct v as [|b|lit|raw|l|m].
  - by destruct Hn.
  - by destruct b.
  - cbn [print]. inversion Hv as [| |n lit' Hl| | |]; subst. destruct (num_ok_head _ Hl) as (b & l & -> & Hb). cbn [raw_members].
    destruct (Z.eqb_spec b 123) as [->|]; [destruct Hb; done|done].
  - done.
  - cbn [print]. by destruct l.
  - rewrite (raw_members_print nl sp Hnl Hsp d m Hv). f_equal. assert (Hm : Forall (fun kv => doc_ok maxNestingDepth kv.2) m).
    { remember maxNestingDepth as N eqn:HN. clear HN. inversion Hv as [| | | | |n m' Hm]; subst. eapply Forall_impl; [exact Hm|].
      intros kv [_ ?]. eapply doc_ok_le; [done|lia]. }
    clear Hv Hn. generalize (∅ : gmap string string). induction Hm as [|[k v] m Hv _ IH]; intros out; [done|]. cbn [fmap list_fmap foldl fst snd].
    rewrite (debug_text_print nl sp Hnl Hsp (S d) v Hv). apply IH.
Qed.

(** ** Facts: order *)

Definition published_le (x y : LogEvent.t) : Prop := time_le (LogEvent.Published x) (LogEvent.Published y).

Lemma insert_event_perm ev l : insert_event ev l ≡ₚ ev :: l.
Proof. induction l as [|e l IH]; cbn; [done|]. destruct (Before _ _); [|done]. rewrite IH. apply Permutation_swap. Qed.

Lemma sort_events_perm l : sort_events l ≡ₚ l.
Proof. induction l as [|ev l IH]; cbn; [done|]. by rewrite insert_event_perm, IH. Qed.

Lemma insert_event_sorted ev l : StronglySorted published_le l -> StronglySorted published_le (insert_event ev l).
Proof.
  induction 1 as [|e l Hs IH Hall]; cbn; [by repeat constructor|]. destruct (Before _ _) eqn:Hb.
  - constructor; [done|]. rewrite insert_event_perm. constructor; [|done].
    unfold published_le, time_le, Before in *. lia.
  - constructor; [by constructor|]. constructor; [done|]. eapply Forall_impl; [exact Hall|].
    intros x Hx. unfold published_le, time_le, Before in *. lia.
Qed.

Lemma sort_events_sorted l : StronglySorted published_le (sort_events l).
Proof. induction l as [|ev l IH]; cbn; [constructor|]. by apply insert_event_sorted. Qed.

(** ** Concrete data *)

(** A text with double quotes for single ones. *)
Definition q (s : string) : string := of_bytes ((fun b => if b =? 39 then 34 else b) <$> bytes s).

Definition demo_page : string := q "[{'uuid':'e1','published':'2026-01-05T10:00:00.000Z','eventType':'user.session.start',
  'actor':{'alternateId':'bob'}, 'client': {'geographicalContext': {'geolocation': {'lat': 46.9, 'lon': -7}}},
  'debugContext':{'debugData':{'n': 42,'o': {'a': [1, true]},'s':'\u003cx\u003e','z':null}}}, null] trailing".

Example demo_page_reads : match decode_events (fun _ => "syntax") demo_page with
  | Ok [ev; ev2] => (LogEvent.UUID ev, ActorLogin ev, LogEvent.Published ev, (fun k => LogEvent.DebugData ev !! k) <$> ["n"; "o"; "s"; "z"; "x"],
      LogEvent.UUID ev2) = ("e1", "bob", demo_base, [Some "42"; Some (q "{'a': [1, true]}"); Some "<x>"; Some ""; None], "")
  | _ => False
  end.
Proof. vm_compute. reflexivity. Qed.

(** ** Properties *)


