(* ===== verification/OktaPoller.v ===== *)
(** * adapters/okta: event sources, sinks and the poll loop

    [EventSource] and [Sink] are the source's interfaces. An error of a fetch is
    [ErrAuth] or another one, the only distinction the loop makes. The poller
    saves the state through the function it is given ([stateFn]). *)

From S2P Require Import Prelude GoStrings GoTime GoFloat GoCrypto GoJson GoOs Types World Instances Okta OktaState.

Inductive fetch_error := ErrAuth (msg : string) | OtherError (msg : string).

(** What is returned for an interface: the outside world answers by [nat]. *)
Class EventSource := {
  Fetch : nat -> Time -> Time -> Z -> Z -> list LogEvent.t * option fetch_error
}.

Class Sink := {
  sink_Emit : nat -> State.t -> Signal.t -> result unit
}.

(** ** Sources (fixture.go) *)

Definition fixture_Fetch (events : list LogEvent.t) (since until : Time) : list LogEvent.t :=
  base.filter (fun ev =>
    (negb (IsZero since) && negb (After (LogEvent.Published ev) since)) = false /\
    (negb (IsZero until) && After (LogEvent.Published ev) until) = false) events.

#[global] Instance fixtureSource (events : list LogEvent.t) : EventSource | 100 :=
  {| Fetch := fun _ since until _ _ => (fixture_Fetch events since until, None) |}.

(** ** Sinks (sink.go) *)

(** [signalToAccessRequest] with a non-nil state. *)
Definition signalToAccessRequest (sig : Signal.t) (s : State.t) : list (string * any) :=
  let known := State.Identities s !! Signal.Login sig in
  let privileged := match known with Some id => IdentityState.Admin id | None => false end in
  let sensitivity :=
    if bool_decide (Signal.Type_ sig ∈ [SignalAdminAction; SignalMFAFail; SignalMFADeny; SignalMFAFatigue;
                                        SignalImpossibleTravel; SignalNewDevice; SignalLegacyAuth])
    then "high" else "medium" in
  let usual_geo := match known with
                   | Some id => if String.eqb (IdentityState.LastGeo id) "" then []
                                else [("usual_geo", AStr (IdentityState.LastGeo id))]
                   | None => []
                   end in
  let given k v := if String.eqb v "" then [] else [(k, AStr v)] in
  [("identity", AObj ([("username", AStr (Signal.Login sig)); ("type", AStr "person");
                       ("privileged", ABool privileged)] ++ usual_geo));
   ("resource", AObj [("type", AStr "okta_signin"); ("name", AStr ("okta:" +:+ Signal.Type_ sig));
                      ("sensitivity", AStr sensitivity)]);
   ("protocol", AObj [("name", AStr "okta_sso")]);
   ("source", AObj (given "ip" (Signal.IP sig) ++ given "geo" (Signal.Geo_ sig)));
   ("device", AObj [("managed", ABool false); ("compliant", ABool (String.eqb (Signal.Type_ sig) SignalAuthFailure))]);
   ("context", AObj [("mfa_recent", ABool false); ("interactive", ABool true)])].

(** [EvaluateSink.Emit]; [evaluate] is the SDK's [EvaluateAccess]. What the
    core answers is only logged. *)
Definition EvaluateSink_Emit (evaluate : nat -> string -> result string) (n : nat) (s : State.t)
    (sig : Signal.t) : result unit :=
  match Marshal (AObj (signalToAccessRequest sig s)) with
  | Err e => Err ("marshal access request: " +:+ e)
  | Ok body =>
      match evaluate n body with
      | Err e => Err ("evaluate signal " +:+ Signal.Type_ sig +:+ " for " +:+ Signal.Login sig +:+ ": " +:+ e)
      | Ok _ => Ok tt
      end
  end.

#[global] Instance EvaluateSink (evaluate : nat -> string -> result string) : Sink | 100 :=
  {| sink_Emit := EvaluateSink_Emit evaluate |}.

Definition LogSink : Sink := {| sink_Emit := fun _ _ _ => Ok tt |}.

(** ** The poller (poller.go) *)

Module PollConfig.
(** The fields of the adapter's configuration the poller reads. *)
Record t := mk { Limit : Z; MaxPages : Z; Once : bool }.
End PollConfig.

Section Poller.
Context {E : Env} {Src : EventSource} {Snk : Sink}.
(** [ctx_done]: whether the context is cancelled while waiting. *)
Context (stateFn : OM (option string)) (ctx_done : nat -> bool).
Context (params : SignalParams.t) (cfg : PollConfig.t).

Definition record_sent (sig : Signal.t) : OM unit :=
  fun a => (tt, mkAdapter (st a) (atick a) (sent a ++ [sig]) (disk a)).

(** [p.sink.Emit(ctx, sig)]; an accepted signal is in [sent]. *)
Definition emit_signal (sig : Signal.t) : OM (result unit) :=
  s ← oget;
  r ← oask (fun n => sink_Emit n s sig);
  match r with
  | Ok _ => _ ← record_sent sig; mret (Ok tt)
  | Err e => mret (Err e)
  end.

(** The loop over an event's signals: how many were emitted, and whether one failed. *)
Fixpoint emit_loop (emitted : Z) (sigs : list Signal.t) : OM (Z * bool) :=
  match sigs with
  | [] => mret (emitted, false)
  | sig :: sigs' =>
      r ← emit_signal sig;
      match r with
      | Err _ => mret (emitted, true)
      | Ok _ => emit_loop (int64 (emitted + 1)) sigs'
      end
  end.

(** After delivery: memory, dedupe window and cursor. *)
Definition advance (ev : LogEvent.t) : OM unit :=
  _ ← Commit params ev;
  _ ← oput (MarkProcessed (LogEvent.UUID ev));
  oput (fun s => if After (LogEvent.Published ev) (State.Cursor s)
                 then State.set_cursor (LogEvent.Published ev) (LogEvent.UUID ev) s else s).

Fixpoint poll_loop (processed emitted : Z) (events : list LogEvent.t) : OM (Z * Z) :=
  match events with
  | [] => mret (processed, emitted)
  | ev :: events' =>
      s ← oget;
      if AlreadyProcessed (LogEvent.UUID ev) s then poll_loop processed emitted events'
      else
        sigs ← Detect params ev;
        r ← emit_loop emitted sigs;
        if (r.2 : bool) then mret (processed, r.1)
        else _ ← advance ev; poll_loop (int64 (processed + 1)) r.1 events'
  end.

Definition PollOnce : OM (Z * Z * option fetch_error) :=
  s ← oget;
  f ← oask (fun n => Fetch n (State.Cursor s) zeroTime (PollConfig.Limit cfg) (PollConfig.MaxPages cfg));
  match f with
  | (_, Some e) => mret (0, 0, Some e)
  | (events, None) =>
      r ← poll_loop 0 0 events;
      saved ← stateFn;
      mret (r.1, r.2, match saved with Some e => Some (OtherError ("save state: " +:+ e)) | None => None end)
  end.

(** [Run], for at most [cycles] poll cycles; [None] when it is still running. *)
Fixpoint Run (cycles : nat) : OM (option (option fetch_error)) :=
  match cycles with
  | 0%nat => mret None
  | S cycles' =>
      r ← PollOnce;
      match r.2 with
      | Some (ErrAuth e) => mret (Some (Some (ErrAuth e)))
      | _ =>
          if PollConfig.Once cfg then mret (Some None)
          else
            stop ← oask ctx_done;
            if (stop : bool) then mret (Some None) else Run cycles'
      end
  end.
End Poller.

(** ** Specification *)

(** What the live client asks for (client.go, [FetchLogs]): events after a
    millisecond before the cursor. The fixture source asks for less. *)
Definition live_window (cursor : Time) (ev : LogEvent.t) : bool :=
  IsZero cursor || After (LogEvent.Published ev) (Add cursor (-1000000)).

(** [delivers evs a new a']: from [a], the events [evs] are handled in order;
    an event seen before raises nothing, every other one raises its signals,
    all of which are in [new], before memory and cursor move on. *)
Inductive delivers {E : Env} (params : SignalParams.t)
  : list LogEvent.t -> State.t -> list Signal.t -> State.t -> Prop :=
| delivers_nil s : delivers params [] s [] s
| delivers_seen ev evs s new s' :
    AlreadyProcessed (LogEvent.UUID ev) s = true ->
    delivers params evs s new s' -> delivers params (ev :: evs) s new s'
| delivers_event ev evs a sigs a1 a2 new s' :
    AlreadyProcessed (LogEvent.UUID ev) (st a) = false ->
    Detect params ev a = (sigs, a1) -> st a2 = st a1 ->
    delivers params evs (st (advance params ev a2).2) new s' ->
    delivers params (ev :: evs) (st a) (sigs ++ new) s'.

(** [u] survives [k] more entries in the dedupe window. *)
Definition survives (k : nat) (u : string) (s : State.t) : Prop :=
  u ∈ drop (length (State.RecentUUIDs s) + k - maxRecentUUIDs) (State.RecentUUIDs s).

(** ** Facts *)

Section PollFacts.
Context {E : Env} `{!EnvOk E} {Snk : Sink} (params : SignalParams.t).

Lemma emit_signal_run sig (a : Adapter) : exists r k,
  emit_signal sig a = (r, mkAdapter (st a) k (sent a ++ (if is_ok r then [sig] else [])) (disk a)) /\
  (is_ok r = false -> exists n e, sink_Emit n (st a) sig = Err e).
Proof.
  unfold emit_signal, oget, oask, record_sent. st_unfold. cbn [st atick sent disk].
  destruct (sink_Emit (atick a) (st a) sig) as [[]|e] eqn:Hr.
  - eexists (Ok tt), _. split; [reflexivity|done].
  - eexists (Err e), _. rewrite app_nil_r. split; [reflexivity|]. intros _. by eexists _, _.
Qed.

(** Signals go out in order; the loop stops at the first one refused. *)
Lemma emit_loop_run sigs : forall n (a : Adapter), exists r k out,
  emit_loop n sigs a = (r, mkAdapter (st a) k (sent a ++ out) (disk a)) /\
  (if r.2 then exists sig rest m e, sigs = out ++ sig :: rest /\ sink_Emit m (st a) sig = Err e else out = sigs).
Proof.
  induction sigs as [|sig sigs IH]; intros n a; cbn [emit_loop].
  { exists (n, false), (atick a), []. rewrite app_nil_r. split; [|done]. by destruct a. }
  st_unfold. destruct (emit_signal_run sig a) as (r & k & -> & Hr). destruct r as [[]|e]; cbn [is_ok] in *.
  - match goal with |- context [emit_loop ?n' sigs ?b] => destruct (IH n' b) as (r' & k' & out & -> & Hout) end.
    exists r', k', (sig :: out). cbn [sent st disk] in *. rewrite <- app_assoc. split; [done|].
    destruct r' as [z []]; cbn [snd] in *; [|by rewrite Hout]. destruct Hout as (sg & rest & m & e & -> & He). by exists sg, rest, m, e.
  - eexists (n, true), k, []. split; [done|]. destruct (Hr eq_refl) as (m & e' & He). by exists sig, sigs, m, e'.
Qed.

Lemma Identity_others login (a : Adapter) : exists m, st (Identity login a).2 = State.set_Identities m (st a).
Proof. destruct (Identity_run login a) as (k & m & -> & _). by exists m. Qed.

Lemma Detect_others ev (a : Adapter) : exists m, st (Detect params ev a).2 = State.set_Identities m (st a).
Proof.
  unfold Detect. destruct (String.eqb (ActorLogin ev) "").
  - exists (State.Identities (st a)). by destruct a as [[] ? ? ?].
  - st_unfold. destruct (Identity_others (ActorLogin ev) a) as [m Hm].
    destruct (Identity (ActorLogin ev) a) as [id a1]. by exists m.
Qed.

Lemma Commit_others ev (a : Adapter) : exists m, st (Commit params ev a).2 = State.set_Identities m (st a).
Proof.
  unfold Commit. destruct (String.eqb (ActorLogin ev) "").
  - exists (State.Identities (st a)). by destruct a as [[] ? ? ?].
  - st_unfold. destruct (Identity_others (ActorLogin ev) a) as [m Hm].
    destruct (Identity (ActorLogin ev) a) as [id a1]. cbn [snd] in Hm. destruct (Before _ _); [by exists m|].
    unfold oput, set_st. cbn. rewrite Hm. by eexists.
Qed.

(** [advance] marks the event and moves the cursor forward to it. *)
Lemma advance_run ev (a : Adapter) : exists m,
  let s1 := MarkProcessed (LogEvent.UUID ev) (State.set_Identities m (st a)) in
  st (advance params ev a).2
  = if After (LogEvent.Published ev) (State.Cursor (st a))
    then State.set_cursor (LogEvent.Published ev) (LogEvent.UUID ev) s1 else s1.
Proof.
  unfold advance. st_unfold. destruct (Commit_others ev a) as [m Hm].
  destruct (Commit params ev a) as [[] a1]. cbn [snd] in Hm. exists m. unfold oput, set_st. cbn [snd st].
  rewrite Hm. assert (Hc : forall u s, State.Cursor (MarkProcessed u s) = State.Cursor s).
  { intros u s. unfold MarkProcessed. destruct (_ || _); [done|]. by destruct (_ <? _)%nat. }
  by rewrite Hc.
Qed.

Lemma advance_sent ev (a : Adapter) : sent (advance params ev a).2 = sent (Commit params ev a).2.
Proof. unfold advance. st_unfold. by destruct (Commit params ev a) as [[] a1]. Qed.

Lemma advance_ok ev (a : Adapter) : state_ok (st a) ->
  state_ok (st (advance params ev a).2) /\ sent (advance params ev a).2 = sent a.
Proof.
  intros Hs. rewrite advance_sent. destruct (Commit_ok params ev a Hs) as [Hc Hsent]. split; [|done].
  unfold advance. st_unfold. destruct (Commit params ev a) as [[] a1]. unfold oput, set_st. cbn [snd st] in *.
  apply (MarkProcessed_ok (LogEvent.UUID ev)) in Hc. destruct (After _ _); [|done]. by destruct Hc.
Qed.

(** What the loop does with a batch: a prefix is delivered in full; if it stops
    early, it stops at an event one of whose signals was refused. *)
Definition poll_outcome (events : list LogEvent.t) (a a' : Adapter) : Prop :=
  exists done_ rest new part s1,
    events = done_ ++ rest /\ sent a' = sent a ++ new ++ part /\ delivers params done_ (st a) new s1 /\
    match rest with
    | [] => part = [] /\ st a' = s1
    | ev :: _ => exists a1 a2 sig tail m e, st a1 = s1 /\ Detect params ev a1 = (part ++ sig :: tail, a2) /\
        st a' = st a2 /\ sink_Emit m (st a2) sig = Err e
    end.

Lemma poll_loop_run events : forall p n (a : Adapter), state_ok (st a) ->
  exists r a', poll_loop params p n events a = (r, a') /\ state_ok (st a') /\ poll_outcome events a a'.
Proof.
  induction events as [|ev events IH]; intros p n a Hok; cbn [poll_loop].
  { eexists _, a. split; [reflexivity|]. split; [done|]. exists [], [], [], [], (st a). cbn [app].
    rewrite app_nil_r. split_and!; try done. constructor. }
  unfold oget. st_unfold. destruct (AlreadyProcessed (LogEvent.UUID ev) (st a)) eqn:Hseen.
  { destruct (IH p n a Hok) as (r & a' & -> & Hok' & dn & rest & new & part & s1 & -> & Hsent & Hd & Hm).
    exists r, a'. split; [done|]. split; [done|]. exists (ev :: dn), rest, new, part, s1.
    split_and!; try done. by apply delivers_seen. }
  pose proof (Detect_ok params ev a Hok) as [Hok1 Hsent1].
  destruct (Detect params ev a) as [sigs a1] eqn:Hdet. cbn [snd] in *.
  destruct (emit_loop_run sigs n a1) as (r & k & out & -> & Hout). destruct r as [z []]; cbn [snd fst] in *.
  - destruct Hout as (sig & tail & m & e & -> & He).
    eexists _, _. split; [reflexivity|]. split; [done|]. exists [], (ev :: events), [], out, (st a).
    split_and!; [done|by rewrite Hsent1|constructor|]. by exists a, a1, sig, tail, m, e.
  - subst out. set (a2 := mkAdapter (st a1) k (sent a1 ++ sigs) (disk a1)) in *.
    pose proof (advance_ok ev a2 Hok1) as [Hok3 Hsent3].
    destruct (advance params ev a2) as [[] a3] eqn:Hadv. cbn [snd] in *.
    destruct (IH (int64 (p + 1)) z a3 Hok3) as (r & a' & -> & Hok' & dn & rest & new & part & s1 & -> & Hsent & Hd & Hm).
    exists r, a'. split; [done|]. split; [done|]. exists (ev :: dn), rest, (sigs ++ new), part, s1.
    split_and!; try done.
    + rewrite Hsent, Hsent3. cbn [sent a2]. by rewrite Hsent1, <- !app_assoc.
    + eapply (delivers_event params ev dn a sigs a1 a2); try done. by rewrite Hadv.
Qed.

(** ** Facts: the cursor *)

Lemma delivers_cursor evs s new s' : delivers params evs s new s' ->
  State.Cursor s' = State.Cursor s \/ exists ev, ev ∈ evs /\ State.Cursor s' = LogEvent.Published ev.
Proof.
  induction 1 as [s|ev evs s new s' Hseen _ IH|ev evs a sigs a1 a2 new s' Hseen Hdet Hst _ IH]; [by left| |].
  - destruct IH as [IH|(e & He & IH)]; [by left|right; exists e; split; [by right|done]].
  - destruct IH as [IH|(e & He & IH)]; [|right; exists e; split; [by right|done]].
    destruct (Detect_others ev a) as [m Hm]. rewrite Hdet in Hm. cbn [snd] in Hm.
    destruct (advance_run ev a2) as [m2 Hadv]. cbn zeta in Hadv.
    rewrite Hadv, Hst, Hm in IH. clear Hadv.
    assert (Hc : forall u s, State.Cursor (MarkProcessed u s) = State.Cursor s).
    { intros u s0. unfold MarkProcessed. destruct (_ || _); [done|]. by destruct (_ <? _)%nat. }
    destruct (After _ _); [right; exists ev; split; [by left|done]|]. left. by rewrite IH, Hc.
Qed.

(** An event that comes after the delivered ones is still in the next window. *)
Lemma delivers_window dn rest s new s' ev :
  StronglySorted (fun x y => time_le (LogEvent.Published x) (LogEvent.Published y)) (dn ++ rest) ->
  delivers params dn s new s' -> ev ∈ rest -> live_window (State.Cursor s) ev = true ->
  live_window (State.Cursor s') ev = true.
Proof.
  intros (_ & _ & Hle)%StronglySorted_split Hd Hev Hin. destruct (delivers_cursor _ _ _ _ Hd) as [->|(e & He & ->)]; [done|].
  specialize (Hle e ev He Hev). unfold live_window, time_le, Before, After, Add in *. cbn [nanos] in *.
  apply orb_true_iff. right. lia.
Qed.

(** ** Facts: the dedupe window *)

Lemma MarkProcessed_set_Identities u m s :
  MarkProcessed u (State.set_Identities m s) = State.set_Identities m (MarkProcessed u s).
Proof.
  unfold MarkProcessed, AlreadyProcessed. cbn [State.processed State.RecentUUIDs State.set_Identities].
  destruct (_ || _); [done|]. by destruct (_ <? _)%nat.
Qed.

Lemma elem_of_drop_le {A} (l : list A) x i j : (j <= i)%nat -> x ∈ drop i l -> x ∈ drop j l.
Proof.
  intros Hij. replace i with (j + (i - j))%nat by lia. rewrite <- drop_drop.
  intros Hx. rewrite <- (take_drop (i - j) (drop j l)). apply elem_of_app. by right.
Qed.

Lemma elem_of_drop_app {A} (l : list A) x y i : x ∈ drop i l -> x ∈ drop i (l ++ [y]).
Proof.
  intros Hx. destruct (decide (i <= length l)%nat) as [Hi|Hi].
  - rewrite drop_app_le by done. apply elem_of_app. by left.
  - rewrite drop_ge in Hx by lia. by apply not_elem_of_nil in Hx.
Qed.

Lemma MarkProcessed_survives u v k s : state_ok s -> survives (S k) u s -> survives k u (MarkProcessed v s).
Proof.
  intros [[_ Hlen] _ _ _] Hu. unfold survives in *. unfold MarkProcessed.
  destruct (_ || _); [by eapply elem_of_drop_le; [|exact Hu]; lia|].
  destruct (Nat.ltb_spec maxRecentUUIDs (length (State.RecentUUIDs s ++ [v]))) as [Hlt|Hge];
    cbn [State.RecentUUIDs State.set_recent]; rewrite length_app in *; cbn [length] in *.
  - rewrite drop_drop, length_drop, length_app. cbn [length]. apply elem_of_drop_app.
    eapply elem_of_drop_le; [|exact Hu]. lia.
  - apply elem_of_drop_app. eapply elem_of_drop_le; [|exact Hu]. lia.
Qed.

Lemma MarkProcessed_self u k s : state_ok s -> u <> "" -> AlreadyProcessed u s = false ->
  (k < maxRecentUUIDs)%nat -> survives k u (MarkProcessed u s).
Proof.
  intros [[_ Hlen] _ _ _] Hu Hnew Hk. unfold survives, MarkProcessed. rewrite Hnew, orb_false_r.
  destruct (String.eqb_spec u ""); [done|]. cbn [orb].
  assert (Hlast : forall i, (i <= length (State.RecentUUIDs s))%nat -> u ∈ drop i (State.RecentUUIDs s ++ [u])).
  { intros i Hi. rewrite drop_app_le by done. apply elem_of_app. right. by apply list_elem_of_singleton. }
  destruct (Nat.ltb_spec maxRecentUUIDs (length (State.RecentUUIDs s ++ [u]))) as [Hlt|Hge];
    cbn [State.RecentUUIDs State.set_recent]; rewrite length_app in *; cbn [length] in *.
  - rewrite drop_drop, length_drop, length_app. cbn [length]. apply Hlast. lia.
  - apply Hlast. lia.
Qed.

Lemma MarkProcessed_already u v s : state_ok s -> AlreadyProcessed u (MarkProcessed v s) = true ->
  u = v \/ AlreadyProcessed u s = true.
Proof.
  intros Hs. unfold AlreadyProcessed. destruct (String.eqb u ""); [done|]. rewrite !bool_decide_eq_true.
  unfold MarkProcessed. destruct (_ || _); [by right|]. destruct (_ <? _)%nat; cbn; set_solver.
Qed.

Lemma survives_recent u k s : state_ok s -> u <> "" -> survives k u s -> AlreadyProcessed u s = true.
Proof.
  intros Hs Hu Hsv. unfold AlreadyProcessed. destruct (String.eqb_spec u ""); [done|].
  apply bool_decide_eq_true, (ok_index s Hs). by apply (elem_of_drop_le _ _ _ 0%nat (Nat.le_0_l _)) in Hsv.
Qed.

(** One handled event, seen by the dedupe window. *)
Lemma event_window ev (a a1 a2 : Adapter) sigs : state_ok (st a) ->
  Detect params ev a = (sigs, a1) -> st a2 = st a1 ->
  let s1 := st (advance params ev a2).2 in
  state_ok s1 /\ State.RecentUUIDs s1 = State.RecentUUIDs (MarkProcessed (LogEvent.UUID ev) (st a)) /\
  State.processed s1 = State.processed (MarkProcessed (LogEvent.UUID ev) (st a)).
Proof.
  intros Hok Hdet Hst. cbv zeta. pose proof (Detect_ok params ev a Hok) as [Hok1 _].
  destruct (Detect_others ev a) as [m Hm]. rewrite Hdet in Hok1, Hm. cbn [snd] in *. rewrite <- Hst in Hok1.
  split; [by apply advance_ok|]. destruct (advance_run ev a2) as [m2 Hadv]. cbn zeta in Hadv. rewrite Hadv, Hst, Hm.
  change (State.set_Identities m2 (State.set_Identities m (st a))) with (State.set_Identities m2 (st a)).
  rewrite MarkProcessed_set_Identities.
  destruct (After _ (State.Cursor (State.set_Identities m (st a)))); (split; reflexivity).
Qed.

Lemma AlreadyProcessed_ext u s s' : State.processed s = State.processed s' ->
  AlreadyProcessed u s = AlreadyProcessed u s'.
Proof. unfold AlreadyProcessed. by intros ->. Qed.

Lemma survives_ext k u s s' : State.RecentUUIDs s = State.RecentUUIDs s' -> survives k u s <-> survives k u s'.
Proof. unfold survives. by intros ->. Qed.

(** Delivered events stay known: those of a batch that fits in the window,
    together with what was known and recent enough before. *)
Lemma delivers_survives evs s new s' : delivers params evs s new s' -> state_ok s ->
  state_ok s' /\
  (forall u k, survives (length evs + k) u s -> survives k u s') /\
  ((length evs <= maxRecentUUIDs)%nat -> (forall ev, ev ∈ evs -> LogEvent.UUID ev <> "") ->
   (forall ev, ev ∈ evs -> AlreadyProcessed (LogEvent.UUID ev) s = true -> survives (length evs) (LogEvent.UUID ev) s) ->
   forall ev, ev ∈ evs -> survives 0 (LogEvent.UUID ev) s').
Proof.
  induction 1 as [s|ev evs s new s' Hseen _ IH|ev evs a sigs a1 a2 new s' Hseen Hdet Hst _ IH]; intros Hok.
  { split; [done|]. split; [done|]. by intros _ _ _ ev Hev%not_elem_of_nil. }
  - destruct (IH Hok) as (Hok' & Hsv & Hall). split; [done|]. cbn [length]. split.
    + intros u k Hu. apply Hsv. eapply elem_of_drop_le; [|exact Hu]. lia.
    + intros Hlen Hne Hrec. assert (Hstep : forall u, survives (S (length evs)) u s -> survives (length evs) u s).
      { intros u Hu. eapply elem_of_drop_le; [|exact Hu]. lia. }
      intros e [->|He]%elem_of_cons.
      * apply Hsv. rewrite Nat.add_0_r. apply Hstep, Hrec; [by left|done].
      * apply Hall; [lia|intros; apply Hne; by right| |done]. intros x Hx Hxs. apply Hstep, Hrec; [by right|done].
  - destruct (event_window ev a a1 a2 sigs Hok Hdet Hst) as (Hok1 & Hr & Hp).
    destruct (IH Hok1) as (Hok' & Hsv & Hall). split; [done|]. cbn [length].
    set (u0 := LogEvent.UUID ev) in *. set (s1 := st (advance params ev a2).2) in *.
    assert (Hstep : forall u k, survives (S k) u (st a) -> survives k u s1).
    { intros u k Hu. apply (survives_ext _ _ _ _ Hr). by apply MarkProcessed_survives. }
    split; [intros u k Hu; by apply Hsv, Hstep|]. intros Hlen Hne Hrec.
    assert (Hself : survives (length evs) u0 s1).
    { apply (survives_ext _ _ _ _ Hr). apply MarkProcessed_self; [done|apply Hne; by left|done|lia]. }
    intros e [->|He]%elem_of_cons; [apply Hsv; by rewrite Nat.add_0_r|].
    apply Hall; [lia|intros; apply Hne; by right| |done]. intros x Hx Hxs.
    rewrite (AlreadyProcessed_ext _ _ _ Hp) in Hxs.
    apply MarkProcessed_already in Hxs as [->|Hxs]; [done| |done]. apply Hstep, Hrec; [by right|done].
Qed.

(** A batch of known events raises nothing and changes nothing. *)
Lemma poll_loop_known events : forall p n (a : Adapter),
  (forall ev, ev ∈ events -> AlreadyProcessed (LogEvent.UUID ev) (st a) = true) ->
  poll_loop params p n events a = ((p, n), a).
Proof.
  induction events as [|ev events IH]; intros p n a Hall; [done|]. cbn [poll_loop]. unfold oget. st_unfold.
  rewrite Hall by by left. apply IH. intros e He. apply Hall. by right.
Qed.
End PollFacts.

Section CycleFacts.
Context {E : Env} {Src : EventSource} {Snk : Sink}.
Context (stateFn : OM (option string)) `{!StateFn stateFn} (params : SignalParams.t) (cfg : PollConfig.t).

(** Saving changes the time stamp only. *)
Lemma PollOnce_run events (a : Adapter) :
  Fetch (atick a) (State.Cursor (st a)) zeroTime (PollConfig.Limit cfg) (PollConfig.MaxPages cfg) = (events, None) ->
  exists err t k d, let r := poll_loop params 0 0 events (mkAdapter (st a) (S (atick a)) (sent a) (disk a)) in
    PollOnce stateFn params cfg a
    = ((r.1.1, r.1.2, err), mkAdapter (State.set_SavedAt t (st r.2)) k (sent r.2) d).
Proof.
  intros Hf. unfold PollOnce, oget, oask. st_unfold. rewrite Hf.
  destruct (poll_loop _ _ _ _ _) as [[p n] a1]. cbn [fst snd].
  destruct (stateFn_run a1) as (r & t & k & d & ->). by eexists _, _, _, _.
Qed.
(** A cycle over the events [events], which [beyond] would have followed: a prefix
    is delivered; if the cycle stops early, the sink refused a signal of the next
    event; and all the others stay in the window of the live query. *)
Lemma cycle_run `{!EnvOk E} events beyond (a : Adapter) :
  state_ok (st a) ->
  Fetch (atick a) (State.Cursor (st a)) zeroTime (PollConfig.Limit cfg) (PollConfig.MaxPages cfg) = (events, None) ->
  StronglySorted (fun x y => time_le (LogEvent.Published x) (LogEvent.Published y)) (events ++ beyond) ->
  (forall ev, ev ∈ events ++ beyond -> live_window (State.Cursor (st a)) ev = true) ->
  let a' := (PollOnce stateFn params cfg a).2 in
  exists done_ rest new part s1, events = done_ ++ rest /\ sent a' = sent a ++ new ++ part /\
    delivers params done_ (st a) new s1 /\
    (forall ev, ev ∈ rest ++ beyond -> live_window (State.Cursor (st a')) ev = true) /\
    match rest with
    | [] => part = []
    | ev :: _ => exists a1 a2 sig tail m e, Detect params ev a1 = (part ++ sig :: tail, a2) /\
        sink_Emit m (st a2) sig = Err e
    end.
Proof.
  intros Hok Hf Hs Hin. cbv zeta. destruct (PollOnce_run events a Hf) as (err & t & k & d & ->).
  destruct (poll_loop_run params events 0 0 (mkAdapter (st a) (S (atick a)) (sent a) (disk a)) Hok)
    as (r & a1 & -> & _ & dn & rest & new & part & s1 & -> & Hsent & Hd & Hm).
  cbn [snd fst st sent State.Cursor State.set_SavedAt] in *. exists dn, rest, new, part, s1.
  assert (Hcur : State.Cursor (st a1) = State.Cursor s1).
  { destruct rest as [|ev rest]; [by destruct Hm as [_ ->]|].
    destruct Hm as (a3 & a4 & sig & tail & m & e & Ha3 & Hdet & -> & _).
    destruct (Detect_others params ev a3) as [mm Hmm]. rewrite Hdet in Hmm. cbn [snd] in Hmm. by rewrite Hmm, <- Ha3. }
  rewrite <- app_assoc in *. split_and!; try done.
  - intros ev Hev. rewrite Hcur. eapply delivers_window; [exact Hs|exact Hd|done|].
    apply Hin, elem_of_app. by right.
  - destruct rest as [|ev rest]; [by destruct Hm|].
    destruct Hm as (a3 & a4 & sig & tail & m & e & _ & Hdet & _ & He). by exists a3, a4, sig, tail, m, e.
Qed.
End CycleFacts.

(** ** Concrete data *)

Definition demo_events : list LogEvent.t := [demo_fail 0; demo_fail 1; demo_fail 2].
Definition demo_poll_cfg : PollConfig.t := PollConfig.mk 100 5 true.
Definition demo_save : OM (option string) := Save (Sys := calm) demo_path.
#[export] Instance demo_save_fn : StateFn demo_save := Save_StateFn (Sys := calm) demo_path.
Definition demo_source : EventSource := {| Fetch := fun _ _ _ _ _ => (demo_events, None) |}.

(** A sink that refuses the third signal of a run. *)
Definition demo_flaky : Sink := {| sink_Emit := fun n _ _ => if (n =? 3)%nat then Err "503" else Ok tt |}.

Example demo_poll : ((PollOnce (Src := demo_source) (Snk := LogSink) demo_save demo_params demo_poll_cfg demo_adapter).1,
    length (sent (PollOnce (Src := demo_source) (Snk := LogSink) demo_save demo_params demo_poll_cfg demo_adapter).2))
  = (3, 4, None, 4%nat).
Proof. vm_compute. reflexivity. Qed.

(** ** Properties *)

(** C35: delivered events are not delivered twice: when a cycle with a working
    sink has handled a batch of at most 4096 events with ids (any of them known
    before being recent enough to survive the batch), a following cycle that
    fetches only events of that batch again counts none, raises no signal and
    leaves the sink alone. *)
Theorem no_redelivery {E : Env} `{!EnvOk E} {Src : EventSource} {Snk : Sink} stateFn `{!StateFn stateFn} params cfg
    events again (a : Adapter) :
  (forall n s sig, sink_Emit n s sig = Ok tt) -> state_ok (st a) ->
  Fetch (atick a) (State.Cursor (st a)) zeroTime (PollConfig.Limit cfg) (PollConfig.MaxPages cfg) = (events, None) ->
  (length events <= maxRecentUUIDs)%nat -> (forall ev, ev ∈ events -> LogEvent.UUID ev <> "") ->
  (forall ev, ev ∈ events -> AlreadyProcessed (LogEvent.UUID ev) (st a) = true ->
     survives (length events) (LogEvent.UUID ev) (st a)) ->
  let a' := (PollOnce stateFn params cfg a).2 in
  Fetch (atick a') (State.Cursor (st a')) zeroTime (PollConfig.Limit cfg) (PollConfig.MaxPages cfg) = (again, None) ->
  (forall ev, ev ∈ again -> LogEvent.UUID ev ∈ LogEvent.UUID <$> events) ->
  (PollOnce stateFn params cfg a').1.1 = (0, 0) /\ sent (PollOnce stateFn params cfg a').2 = sent a'.
Proof.
  intros Hsink Hok Hf Hlen Hne Hrec. cbv zeta. destruct (PollOnce_run stateFn params cfg events a Hf) as (err & t & k & d & ->).
  destruct (poll_loop_run params events 0 0 (mkAdapter (st a) (S (atick a)) (sent a) (disk a)) Hok)
    as (r & a1 & -> & Hok1 & dn & rest & new & part & s1 & Heq & Hsent & Hd & Hm). cbn [snd fst st sent] in *.
  destruct rest as [|ev rest]; [|destruct Hm as (? & ? & sig & ? & m & e & _ & _ & _ & He); by rewrite Hsink in He].
  destruct Hm as [-> Hst]. rewrite app_nil_r in Heq. subst dn s1.
  destruct (delivers_survives params _ _ _ _ Hd Hok) as (_ & _ & Hall). specialize (Hall Hlen Hne Hrec).
  intros Hf2 Hagain. destruct (PollOnce_run stateFn params cfg again _ Hf2) as (err2 & t2 & k2 & d2 & ->).
  rewrite poll_loop_known; [done|]. intros e He. apply Hagain in He. apply list_elem_of_fmap in He as (e0 & -> & He0).
  cbn [st]. apply (survives_recent _ 0); [by destruct Hok1|by apply Hne|]. by apply Hall.
Qed.

Lemma no_redelivery_witness :
  let a' := (PollOnce (Src := demo_source) (Snk := LogSink) demo_save demo_params demo_poll_cfg demo_adapter).2 in
  (PollOnce (Src := demo_source) (Snk := LogSink) demo_save demo_params demo_poll_cfg a').1.1 = (0, 0).
Proof.
  apply (no_redelivery (Src := demo_source) (Snk := LogSink) demo_save demo_params demo_poll_cfg
           demo_events demo_events demo_adapter).
  - reflexivity.
  - exact NewState_ok.
  - reflexivity.
  - unfold maxRecentUUIDs. cbn. lia.
  - intros ev Hev. unfold demo_events in Hev. rewrite !elem_of_cons in Hev.
    by destruct Hev as [->|[->|[->|Hev]]]; [..|apply not_elem_of_nil in Hev].
  - intros ev Hev. unfold AlreadyProcessed. cbn. by destruct (String.eqb _ _).
  - reflexivity.
  - intros ev Hev. apply list_elem_of_fmap. by exists ev.
Defined.

(** the adapter's memory stays bounded and consistent: whatever is fetched
    and however the sink and the disk behave, a cycle keeps the dedupe window
    free of repetitions, at most 4096 long and exactly indexed, tracks at most
    4096 identities, and keeps the places, devices and failures of each within
    their limits. *)
Theorem poll_bounded {E : Env} `{!EnvOk E} {Src : EventSource} {Snk : Sink} stateFn `{!StateFn stateFn} params cfg (a : Adapter) :
  state_ok (st a) -> state_ok (st (PollOnce stateFn params cfg a).2).
Proof.
  intros Hok.
  destruct (Fetch (atick a) (State.Cursor (st a)) zeroTime (PollConfig.Limit cfg) (PollConfig.MaxPages cfg))
    as [events [e|]] eqn:Hf.
  - unfold PollOnce, oget, oask. st_unfold. rewrite Hf. done.
  - destruct (PollOnce_run stateFn params cfg events a Hf) as (err & t & k & d & ->). cbn [snd st].
    destruct (poll_loop_run params events 0 0 (mkAdapter (st a) (S (atick a)) (sent a) (disk a)) Hok) as (r & a1 & -> & Hok1 & _).
    by destruct Hok1.
Qed.

Lemma poll_bounded_witness : state_ok (st demo_adapter) /\
  state_ok (st (PollOnce (Src := demo_source) (Snk := demo_flaky) demo_save demo_params demo_poll_cfg demo_adapter).2).
Proof.
  split; [exact NewState_ok|].
  apply (poll_bounded (Src := demo_source) (Snk := demo_flaky) demo_save demo_params demo_poll_cfg demo_adapter NewState_ok).
Defined.

(** ** What modelling showed *)

(** The fixture source queries strictly after the cursor: after a refused
    signal, an event with the same time stamp as the last delivered one is
    never fetched again. *)
Theorem fixture_skips_ties :
  let e1 := demo_log_event "e1" "bob" "user.session.start" "FAILURE" demo_base in
  let e2 := demo_log_event "e2" "eve" "user.session.start" "FAILURE" demo_base in
  let snk : Sink := {| sink_Emit := fun _ _ sig => if String.eqb (Signal.Login sig) "eve" then Err "503" else Ok tt |} in
  let a' := (PollOnce (Src := fixtureSource [e1; e2]) (Snk := snk) demo_save demo_params demo_poll_cfg demo_adapter).2 in
  length (sent a') = 1%nat /\ fixture_Fetch [e1; e2] (State.Cursor (st a')) zeroTime = [].
Proof. split; vm_compute; reflexivity. Qed.
