(* ===== verification/OktaRestart.v ===== *)
(** * adapters/okta: the adapter across restarts

    The lives of an adapter process: it starts from its state file, runs poll
    cycles, each of which ends by saving the state, and ends at any point, cleanly
    or not; then it starts again. What survives is the disk and what the sink has
    accepted. *)

From S2P Require Import Prelude GoStrings GoTime GoFloat GoCrypto GoRunes GoJson GoHttp GoParse GoOs GoJsonRead GoFloatRead Types World GoTimeRead Instances Okta OktaState OktaDecode OktaPoller.
From Stdlib Require Import SpecFloat.

(** ** Facts: states that can be saved *)

Lemma Forall_kept {A} (P Q : A -> Prop) `{!forall x, base.Decision (Q x)} (l : list A) : Forall P l -> Forall P (base.filter Q l).
Proof. rewrite !Forall_forall. intros Hl x [_ Hx]%list_elem_of_filter. by apply Hl. Qed.

Section Persist.
Context {E : Env} `{!EnvOk E} (params : SignalParams.t).

Lemma zeroTime_printable : printable zeroTime.
Proof. by split; [by vm_compute|]. Qed.

Lemma zero_id_persistable : id_persistable IdentityState.zero.
Proof. split; [apply zeroTime_printable|by vm_compute|constructor|by vm_compute|by vm_compute|constructor|constructor]. Qed.

Lemma NewState_persistable : persistable NewState.
Proof. split; [apply zeroTime_printable|by vm_compute|constructor|apply map_Forall_empty|apply zeroTime_printable]. Qed.

Lemma GeoLabel_valid ev : wire_ok ev -> valid_utf8 (GeoLabel ev).
Proof.
  intros [_ _ _ (_ & _ & Hc & Hs & Hco & _)]. unfold GeoLabel. cbn zeta.
  repeat case_match; auto using valid_utf8_app; [|done]. repeat apply valid_utf8_app; done.
Qed.

Lemma fingerprint_valid ev : wire_ok ev -> valid_utf8 (DeviceFingerprint ev).
Proof.
  intros [_ _ _ (Hu & Hd & _)]. unfold DeviceFingerprint. cbn zeta. case_match; [done|]. by repeat apply valid_utf8_app.
Qed.

Lemma login_valid ev : wire_ok ev -> valid_utf8 (ActorLogin ev).
Proof. intros [_ _ [Ha Hd] _]. unfold ActorLogin. cbn zeta. by case_match. Qed.

Lemma appendBounded_valid l v max : Forall valid_utf8 l -> valid_utf8 v -> Forall valid_utf8 (appendBounded l v max).
Proof.
  intros Hl Hv. unfold appendBounded. assert (Forall valid_utf8 (base.filter (fun s => s <> v) l ++ [v])).
  { apply Forall_app. split; [by apply Forall_kept|by constructor]. }
  case_match; [by apply Forall_drop|done].
Qed.

Lemma commit_identity_persistable ev id : wire_ok ev -> id_persistable id -> id_persistable (commit_identity params ev id).
Proof.
  intros Hev [Hs Hg Hgs Hla Hlo Hd Hf]. pose proof (GeoLabel_valid ev Hev) as Hgeo. pose proof (fingerprint_valid ev Hev) as Hfp.
  destruct Hev as [_ Hp _ (_ & _ & _ & _ & _ & Hloc)].
  assert (Hfails : Forall printable (recentFails params ev id)).
  { unfold recentFails, pruneMFATimes. apply Forall_kept, Forall_app. split; [done|by constructor]. }
  split; cbn [commit_identity IdentityState.LastSeen IdentityState.LastGeo IdentityState.Geos IdentityState.LastLat IdentityState.LastLon
    IdentityState.Devices IdentityState.MFAFails]; [done|..].
  - by destruct (String.eqb (GeoLabel ev) "").
  - destruct (String.eqb (GeoLabel ev) ""); [done|]. by apply appendBounded_valid.
  - destruct (Geographic.Geolocation _); [apply Hloc|done].
  - destruct (Geographic.Geolocation _); [apply Hloc|done].
  - destruct (String.eqb (DeviceFingerprint ev) ""); [done|]. by apply appendBounded_valid.
  - destruct (isMFAEvent ev && _); [|done]. destruct (_ <? _)%nat; [by apply Forall_drop|done].
Qed.

Definition ids_persistable (m : gmap string IdentityState.t) : Prop :=
  map_Forall (fun login id => valid_utf8 login /\ id_persistable id) m.

Lemma set_Identities_persistable m s : persistable s -> ids_persistable m -> persistable (State.set_Identities m s).
Proof. intros [H1 H2 H3 _ H5] Hm. by split. Qed.

Lemma Identity_persistable login (a : Adapter) : valid_utf8 login -> persistable (st a) ->
  persistable (st (Identity login a).2) /\ id_persistable (Identity login a).1.
Proof.
  intros Hl Hp. destruct (Identity_run login a) as (k & m & -> & _ & Hsub). cbn [fst snd st].
  assert (Hid : id_persistable (default IdentityState.zero (State.Identities (st a) !! login))).
  { destruct (State.Identities (st a) !! login) as [id|] eqn:Hid; [|apply zero_id_persistable]. by apply (sp_ids _ Hp login id Hid). }
  split; [|done]. apply set_Identities_persistable; [done|]. intros l x Hx.
  eapply lookup_weaken in Hx; [|exact Hsub]. apply lookup_insert_Some in Hx as [[<- <-]|[_ Hx]]; [done|by apply (sp_ids _ Hp l x Hx)].
Qed.

Lemma Detect_persistable ev (a : Adapter) : wire_ok ev -> persistable (st a) -> persistable (st (Detect params ev a).2).
Proof.
  intros Hev Hp. unfold Detect. case_match; [done|]. st_unfold.
  destruct (Identity_persistable (ActorLogin ev) a (login_valid ev Hev) Hp) as [H1 _]. by destruct (Identity (ActorLogin ev) a).
Qed.

Lemma Commit_persistable ev (a : Adapter) : wire_ok ev -> persistable (st a) -> persistable (st (Commit params ev a).2).
Proof.
  intros Hev Hp. unfold Commit. case_match; [done|]. st_unfold.
  destruct (Identity_persistable (ActorLogin ev) a (login_valid ev Hev) Hp) as [H1 H2]. destruct (Identity (ActorLogin ev) a) as [id a1].
  cbn [fst snd] in *. case_match; [done|]. cbn. apply set_Identities_persistable; [done|]. intros l x Hx.
  apply lookup_alter_Some in Hx as [(<- & w & _ & ->)|[_ Hx]]; [|by apply (sp_ids _ H1 l x Hx)].
  split; [by apply login_valid|by apply commit_identity_persistable].
Qed.

Lemma MarkProcessed_persistable u s : valid_utf8 u -> persistable s -> persistable (MarkProcessed u s).
Proof.
  intros Hu Hp. unfold MarkProcessed. case_match; [done|]. destruct Hp as [H1 H2 H3 H4 H5].
  assert (Forall valid_utf8 (State.RecentUUIDs s ++ [u])) by (apply Forall_app; split; [done|by constructor]).
  case_match; split; cbn; try done. by apply Forall_drop.
Qed.

Lemma advance_persistable ev (a : Adapter) : wire_ok ev -> persistable (st a) -> persistable (st (advance params ev a).2).
Proof.
  intros Hev Hp. unfold advance. st_unfold. pose proof (Commit_persistable ev a Hev Hp) as Hc.
  destruct (Commit params ev a) as [[] a1]. unfold oput, set_st. cbn [snd st] in *.
  apply (MarkProcessed_persistable (LogEvent.UUID ev)) in Hc; [|apply Hev]. case_match; [|done].
  destruct Hc as [H1 H2 H3 H4 H5]. by split; cbn; [apply Hev|apply Hev|..].
Qed.

Lemma delivers_persistable evs s new s' : delivers params evs s new s' -> Forall wire_ok evs -> persistable s -> persistable s'.
Proof.
  induction 1 as [s|ev evs s new s' Hseen _ IH|ev evs a sigs a1 a2 new s' Hseen Hdet Hst _ IH]; intros Hw Hp; [done|..];
    apply Forall_cons in Hw as [Hev Hw]; [by apply IH|]. apply IH; [done|]. apply advance_persistable; [done|].
  rewrite Hst. pose proof (Detect_persistable ev a Hev Hp) as Hd. by rewrite Hdet in Hd.
Qed.
End Persist.

(** ** Lives *)

(** What can happen to the process. *)
Inductive step_kind := Start | Cycle | Exit | Kill | Wait.

Section Lives.
Context {E : Env} {Sys : OS} {Src : EventSource} {Snk : Sink}.
Context (params : SignalParams.t) (cfg : PollConfig.t) (path : string).

(** Whether the process is running, with its memory, the sink and the disk. A clean
    exit saves the state; a process that is killed may have had some more signals
    accepted. *)
Inductive life : step_kind -> bool * Adapter -> bool * Adapter -> Prop :=
| life_start a s k : LoadState path (atick a) (disk a) = Ok (Loaded s) ->
    life Start (false, a) (true, mkAdapter s k (sent a) (mkDisk (files (disk a)) false))
| life_cycle a : halted (disk a) = false -> life Cycle (true, a) (true, (PollOnce (Save path) params cfg a).2)
| life_exit a : halted (disk a) = false -> life Exit (true, a) (false, (Save path a).2)
| life_kill a s k more : life Kill (true, a) (false, mkAdapter s k (sent a ++ more) (disk a))
| life_wait up a k : life Wait (up, a) (up, mkAdapter (st a) k (sent a) (disk a)).

Definition life_step (w w' : bool * Adapter) : Prop := exists k, life k w w'.

(** A sequence of such steps, by their kinds. *)
Inductive lives : list step_kind -> bool * Adapter -> bool * Adapter -> Prop :=
| lives_nil w : lives [] w w
| lives_cons k ks w w1 w2 : life k w w1 -> lives ks w1 w2 -> lives (k :: ks) w w2.

(** The log the source serves from: oldest first, every event with an id of its own;
    the [n]-th query sees its first [upto n] events, and is given those of the
    live client's window from the first one on, possibly not to the last. *)
Definition serves_log (log : list LogEvent.t) (upto : nat -> nat) : Prop :=
  Forall wire_ok log /\ StronglySorted published_le log /\ NoDup (LogEvent.UUID <$> log) /\
  forall n c evs, Fetch n c zeroTime (PollConfig.Limit cfg) (PollConfig.MaxPages cfg) = (evs, None) ->
  exists later, base.filter (fun ev => live_window c ev = true) (take (upto n) log) = evs ++ later /\ (evs = [] -> later = []).

(** Among the events [evs], handled in order from the memory [s], [ev] came up as
    new, and its signals are in their place among the [new] ones. *)
Definition delivered_in (evs : list LogEvent.t) (s : State.t) (new : list Signal.t) (ev : LogEvent.t) : Prop :=
  exists before rest c new1 sigs c' tail, evs = before ++ ev :: rest /\ delivers params before s new1 (st c) /\
    AlreadyProcessed (LogEvent.UUID ev) (st c) = false /\ Detect params ev c = (sigs, c') /\ new = new1 ++ sigs ++ tail.

(** On the way from [a0] to [w] there was a poll cycle that fetched [ev] and had all
    its signals accepted by the sink. *)
Definition handled (a0 : Adapter) (w : bool * Adapter) (ev : LogEvent.t) : Prop := exists b evs new part,
  rtc life_step (false, a0) (true, b) /\ halted (disk b) = false /\
  Fetch (atick b) (State.Cursor (st b)) zeroTime (PollConfig.Limit cfg) (PollConfig.MaxPages cfg) = (evs, None) /\
  delivered_in evs (st b) new ev /\
  sent (PollOnce (Save path) params cfg b).2 = sent b ++ new ++ part /\
  rtc life_step (true, (PollOnce (Save path) params cfg b).2) w.

(** A state to start from: what it takes for processed has been handled, and
    every event of the log has been handled or will be asked for. *)
Record safe (log : list LogEvent.t) (a0 : Adapter) (w : bool * Adapter) (s : State.t) : Prop := {
  safe_ok : state_ok s;
  safe_persistable : persistable s;
  safe_recent : forall u, u ∈ State.RecentUUIDs s -> exists ev, ev ∈ log /\ LogEvent.UUID ev = u /\ handled a0 w ev;
  safe_log : forall ev, ev ∈ log -> live_window (State.Cursor s) ev = true \/ handled a0 w ev
}.

Definition disk_safe (log : list LogEvent.t) (a0 : Adapter) (w : bool * Adapter) (d : Disk) : Prop :=
  match files d !! resolve path with
  | None => True
  | Some f => exists s, safe log a0 w s /\ MarshalIndent_State s = Ok (contents f)
  end.

Definition life_ok (log : list LogEvent.t) (a0 : Adapter) (w : bool * Adapter) : Prop :=
  rtc life_step (false, a0) w /\ disk_safe log a0 w (disk w.2) /\ (w.1 = true -> safe log a0 w (st w.2)).
End Lives.

(** ** Facts: lives *)

Section LifeFacts.
Context {E : Env} `{!EnvOk E} {Sys : OS} {Src : EventSource} {Snk : Sink}.
Context (params : SignalParams.t) (cfg : PollConfig.t) (path : string) (log : list LogEvent.t) (a0 : Adapter).

Notation life_step := (life_step params cfg path).
Notation handled := (handled params cfg path a0).
Notation safe := (safe params cfg path log a0).
Notation disk_safe := (disk_safe params cfg path log a0).
Notation delivered_in := (delivered_in params).

Lemma lives_rtc ks w w' : lives params cfg path ks w w' -> rtc life_step w w'.
Proof. induction 1 as [|k ks w w1 w2 Hl _ IH]; [apply rtc_refl|]. eapply rtc_l; [by exists k|done]. Qed.

Lemma lives_app ks ks' w w1 w2 : lives params cfg path ks w w1 -> lives params cfg path ks' w1 w2 -> lives params cfg path (ks ++ ks') w w2.
Proof. induction 1 as [|k ks w w3 w4 Hl _ IH]; [done|]. intros H. econstructor; [exact Hl|by apply IH]. Qed.

Lemma lives_one k w w' : life params cfg path k w w' -> lives params cfg path [k] w w'.
Proof. intros H. econstructor; [exact H|constructor]. Qed.

Lemma handled_mono w w' ev : rtc life_step w w' -> handled w ev -> handled w' ev.
Proof. intros Hw (b & evs & new & part & H1 & H2 & H3 & H4 & H5 & H6). exists b, evs, new, part. split_and!; [done..|]. by etransitivity. Qed.

Lemma safe_mono w w' s : rtc life_step w w' -> safe w s -> safe w' s.
Proof.
  intros Hw [H1 H2 H3 H4]. split; [done|done| |].
  - intros u Hu. destruct (H3 u Hu) as (ev & ? & ? & Hh). exists ev. split_and!; [done..|by eapply handled_mono].
  - intros ev Hev. destruct (H4 ev Hev) as [?|?]; [by left|right; by eapply handled_mono].
Qed.

Lemma disk_safe_mono w w' d : rtc life_step w w' -> disk_safe w d -> disk_safe w' d.
Proof.
  unfold OktaRestart.disk_safe. intros Hw. destruct (files d !! resolve path) as [f|]; [|done]. intros (s & Hs & Hd). exists s.
  split; [by eapply safe_mono|done].
Qed.

Lemma safe_stamp w s t : printable t -> safe w s -> safe w (State.set_SavedAt t s).
Proof. intros Ht [[] [] H3 H4]. split; [by split|by split|done|done]. Qed.

Lemma NewState_safe w : safe w NewState.
Proof.
  split; [apply NewState_ok|apply NewState_persistable| |]; [by intros u Hu%not_elem_of_nil|]. intros ev _. by left.
Qed.

Lemma plus_zero_finite x : json_finite x -> json_finite (plus_zero x).
Proof. unfold plus_zero. by destruct (is_zero x). Qed.

Lemma persisted_safe w s : safe w s -> safe w (persisted s).
Proof.
  intros [[Hr Hi Hsz Hids] [H1 H2 H3 H4 H5] Hrec Hlog]. split; [split|split|done|done]; cbn; try done.
  - intros u. by rewrite elem_of_list_to_set.
  - by rewrite map_size_fmap.
  - intros l id Hl. apply lookup_fmap_Some in Hl as (id' & <- & Hl). by destruct (Hids l id' Hl).
  - intros l id Hl. apply lookup_fmap_Some in Hl as (id' & <- & Hl). destruct (H4 l id' Hl) as [? []].
    split; [done|]. split; cbn; auto using plus_zero_finite.
Qed.

(** A start never fails for what the file holds. *)
Lemma load_safe w n d : disk_safe w d -> os_error n = None ->
  exists s, LoadState path n d = Ok (Loaded s) /\ safe w s.
Proof.
  unfold OktaRestart.disk_safe. intros Hd Hn. destruct (files d !! resolve path) as [[data m]|] eqn:Hf.
  - destruct Hd as (s & Hs & Hm). exists (persisted s). split; [|by apply persisted_safe].
    eapply LoadState_saved; [apply Hs|done|exact Hm|exact Hf].
  - exists NewState. split; [|apply NewState_safe]. unfold LoadState, ReadFile. by rewrite Hn, Hf.
Qed.

Lemma LoadState_ok_read n d x : LoadState path n d = Ok x -> os_error n = None.
Proof. unfold LoadState, ReadFile. by destruct (os_error n). Qed.

(** *** What a batch delivers *)

Lemma delivered_later ev0 evs s new ev sigs0 s1 :
  (forall before new1 s2, delivers params before s1 new1 s2 -> delivers params (ev0 :: before) s (sigs0 ++ new1) s2) ->
  delivered_in evs s1 new ev -> delivered_in (ev0 :: evs) s (sigs0 ++ new) ev.
Proof.
  intros Hstep (before & rest & c & new1 & sigs & c' & tail & -> & Hd & Hn & Hdet & ->).
  exists (ev0 :: before), rest, c, (sigs0 ++ new1), sigs, c', tail. split_and!; [done|by apply Hstep|done|done|by rewrite <- app_assoc].
Qed.

Lemma delivered_grow evs more s new ev : delivered_in evs s new ev -> delivered_in (evs ++ more) s new ev.
Proof.
  intros (before & rest & c & new1 & sigs & c' & tail & -> & H). exists before, (rest ++ more), c, new1, sigs, c', tail.
  by rewrite <- app_assoc.
Qed.

(** An event of a batch was known before it, or shares its id with one that the
    batch delivered; and so do the ids remembered after it. *)
Lemma delivers_each evs s new s' : delivers params evs s new s' -> state_ok s ->
  let known u := u ∈ State.RecentUUIDs s \/ exists ev, delivered_in evs s new ev /\ LogEvent.UUID ev = u in
  (forall ev, ev ∈ evs -> delivered_in evs s new ev \/ known (LogEvent.UUID ev)) /\ (forall u, u ∈ State.RecentUUIDs s' -> known u).
Proof.
  induction 1 as [s|ev evs s new s' Hseen _ IH|ev evs a sigs a1 a2 new s' Hseen Hdet Hst _ IH]; intros Hok; cbv zeta in *.
  - split; [by intros ev Hev%not_elem_of_nil|by left].
  - destruct (IH Hok) as [H1 H2].
    assert (Hlift : forall e, delivered_in evs s new e -> delivered_in (ev :: evs) s new e).
    { intros e He. apply (delivered_later ev evs s new e [] s); [|done]. intros b n1 s2 Hb. by apply delivers_seen. }
    assert (Hk : forall u, (u ∈ State.RecentUUIDs s \/ exists e, delivered_in evs s new e /\ LogEvent.UUID e = u) ->
      u ∈ State.RecentUUIDs s \/ exists e, delivered_in (ev :: evs) s new e /\ LogEvent.UUID e = u) by (intros u [?|(e & ? & ?)]; eauto).
    split; [|auto]. intros e [->|He]%elem_of_cons.
    + right. left. unfold AlreadyProcessed in Hseen. destruct (String.eqb _ _); [done|]. apply bool_decide_eq_true in Hseen.
      by apply (ok_index s Hok).
    + destruct (H1 e He) as [?|?]; auto.
  - destruct (event_window params ev a a1 a2 sigs Hok Hdet Hst) as (Hok1 & Hr & _). destruct (IH Hok1) as [H1 H2].
    assert (Hself : delivered_in (ev :: evs) (st a) (sigs ++ new) ev).
    { exists [], evs, a, [], sigs, a1, new. split_and!; try done. constructor. }
    assert (Hlift : forall e, delivered_in evs (st (advance params ev a2).2) new e -> delivered_in (ev :: evs) (st a) (sigs ++ new) e).
    { intros e He. apply (delivered_later ev evs (st a) new e sigs _) in He; [done|]. intros b n1 s2 Hb. by eapply delivers_event. }
    assert (Hrec : forall u, u ∈ State.RecentUUIDs (st (advance params ev a2).2) -> u ∈ State.RecentUUIDs (st a) \/ u = LogEvent.UUID ev).
    { intros u. rewrite Hr. unfold MarkProcessed. destruct (_ || _); [by left|].
      assert (Hx : u ∈ State.RecentUUIDs (st a) ++ [LogEvent.UUID ev] -> u ∈ State.RecentUUIDs (st a) \/ u = LogEvent.UUID ev).
      { intros [Hu| ->%list_elem_of_singleton]%elem_of_app; auto. }
      destruct (_ <? _)%nat; cbn; [|done]. intros Hu. apply Hx. by apply (elem_of_drop_le _ _ _ 0%nat (Nat.le_0_l _)) in Hu. }
    assert (Hk : forall u, (u ∈ State.RecentUUIDs (st (advance params ev a2).2) \/
        exists e, delivered_in evs (st (advance params ev a2).2) new e /\ LogEvent.UUID e = u) ->
      u ∈ State.RecentUUIDs (st a) \/ exists e, delivered_in (ev :: evs) (st a) (sigs ++ new) e /\ LogEvent.UUID e = u).
    { intros u [[?| ->]%Hrec|(e & ? & ?)]; eauto. }
    split; [|auto]. intros e [->|He]%elem_of_cons; [by left|]. destruct (H1 e He) as [?|?]; auto.
Qed.

Lemma log_unique ev ev' : NoDup (LogEvent.UUID <$> log) -> ev ∈ log -> ev' ∈ log -> LogEvent.UUID ev = LogEvent.UUID ev' -> ev = ev'.
Proof.
  intros Hn [i Hi]%list_elem_of_lookup [j Hj]%list_elem_of_lookup Hu.
  assert (i = j) as <-; [|congruence]. eapply NoDup_lookup; [exact Hn| |]; rewrite list_lookup_fmap; [by rewrite Hi|rewrite Hj; cbn; by rewrite Hu].
Qed.

(** ** Facts: a cycle *)

Lemma Identity_disk login (a : Adapter) : disk (Identity login a).2 = disk a.
Proof. by destruct (Identity_run login a) as (k & m & -> & _). Qed.

Lemma Detect_disk ev (a : Adapter) : disk (Detect params ev a).2 = disk a.
Proof.
  unfold Detect. destruct (String.eqb _ _); [done|]. st_unfold. pose proof (Identity_disk (ActorLogin ev) a) as H.
  by destruct (Identity (ActorLogin ev) a).
Qed.

Lemma advance_disk ev (a : Adapter) : disk (advance params ev a).2 = disk a.
Proof.
  unfold advance, Commit. destruct (String.eqb _ _); [done|]. st_unfold. pose proof (Identity_disk (ActorLogin ev) a) as H.
  destruct (Identity (ActorLogin ev) a) as [id a1]. by destruct (Before _ _).
Qed.

Lemma poll_loop_disk events : forall p n (a : Adapter), disk (poll_loop params p n events a).2 = disk a.
Proof.
  induction events as [|ev events IH]; intros p n a; [done|]. cbn [poll_loop]. unfold oget. st_unfold.
  destruct (AlreadyProcessed _ _); [apply IH|]. pose proof (Detect_disk ev a) as Hd. destruct (Detect params ev a) as [sigs a1]. cbn [snd] in Hd.
  destruct (emit_loop_run sigs n a1) as (r & k & out & -> & _). destruct (r.2 : bool); [done|].
  match goal with |- context [advance params ev ?b] => pose proof (advance_disk ev b) as Ha; destruct (advance params ev b) as [[] a3] end.
  cbn [snd disk] in *. rewrite IH. congruence.
Qed.

(** What a query returns, and how the rest of the log lies to it. *)
Lemma serves_batch upto n c evs : serves_log cfg log upto ->
  Fetch n c zeroTime (PollConfig.Limit cfg) (PollConfig.MaxPages cfg) = (evs, None) ->
  Forall wire_ok evs /\ StronglySorted published_le evs /\ (forall ev, ev ∈ evs -> ev ∈ log /\ live_window c ev = true) /\
  forall ev, ev ∈ log -> live_window c ev = true -> ev ∈ evs \/ forall e, e ∈ evs -> published_le e ev.
Proof.
  intros (Hw & Hs & _ & Hf) Hfe. destruct (Hf _ _ _ Hfe) as (later & Heq & _).
  rewrite <- (take_drop (upto n) log) in Hw, Hs. pose proof (StronglySorted_split _ _ _ Hs) as (Hs1 & _ & Hle).
  assert (Hs2 : StronglySorted published_le (evs ++ later)).
  { rewrite <- Heq. eapply StronglySorted_sublist; [|exact Hs1]. apply sublist_filter. }
  pose proof (StronglySorted_split _ _ _ Hs2) as (Hs3 & _ & Hle2).
  assert (Hin : forall ev, ev ∈ evs ++ later -> live_window c ev = true /\ ev ∈ take (upto n) log) by (intros ev; rewrite <- Heq; by intros ?%list_elem_of_filter).
  split_and!; [|done| |].
  - apply Forall_forall. intros ev Hev. apply Forall_app in Hw as [Hw _]. rewrite Forall_forall in Hw. apply Hw, Hin, elem_of_app. by left.
  - intros ev Hev. destruct (Hin ev) as [? Hl]; [apply elem_of_app; by left|]. split; [|done].
    rewrite <- (take_drop (upto n) log). apply elem_of_app. by left.
  - intros ev Hev Hwin. rewrite <- (take_drop (upto n) log) in Hev. apply elem_of_app in Hev as [Hev|Hev].
    + assert (Hx : ev ∈ evs ++ later) by (rewrite <- Heq; by apply list_elem_of_filter).
      apply elem_of_app in Hx as [?|Hx]; [by left|right]. intros e He. by apply Hle2.
    + right. intros e He. apply Hle; [|done]. apply Hin, elem_of_app. by left.
Qed.

(** The batch of a cycle: delivered events are handled, the others stay in the window. *)
Lemma poll_loop_safe events (a : Adapter) w : safe w (st a) -> NoDup (LogEvent.UUID <$> log) ->
  Forall wire_ok events -> StronglySorted published_le events ->
  (forall ev, ev ∈ events -> ev ∈ log /\ live_window (State.Cursor (st a)) ev = true) ->
  (forall ev, ev ∈ log -> live_window (State.Cursor (st a)) ev = true -> ev ∈ events \/ forall e, e ∈ events -> published_le e ev) ->
  let a1 := (poll_loop params 0 0 events a).2 in
  (forall new part ev, sent a1 = sent a ++ new ++ part -> delivered_in events (st a) new ev -> handled w ev) -> safe w (st a1).
Proof.
  intros Hsafe Hnd Hwire Hsorted Hin Hlog. destruct (poll_loop_run params events 0 0 a (safe_ok _ _ _ _ _ _ _ Hsafe))
    as (r & a1 & -> & Hok1 & dn & rest & new & part & s1 & Heq & Hsent & Hd & Hm). cbv zeta. cbn [snd]. intros Hdeliv.
  destruct (delivers_each _ _ _ _ Hd (safe_ok _ _ _ _ _ _ _ Hsafe)) as [Hdn Hrec]. cbv zeta in *.
  assert (Hin_log : forall ev, ev ∈ dn -> ev ∈ log) by (intros ev Hev; apply Hin; rewrite Heq; apply elem_of_app; by left).
  assert (Hdel : forall ev, delivered_in dn (st a) new ev -> ev ∈ log /\ handled w ev).
  { intros ev Hev. split; [|apply (Hdeliv new part ev Hsent); rewrite Heq; by apply delivered_grow].
    apply Hin_log. destruct Hev as (before & rest' & ? & ? & ? & ? & ? & -> & _). apply elem_of_app. right. by left. }
  assert (Hknown : forall u, (u ∈ State.RecentUUIDs (st a) \/ exists ev, delivered_in dn (st a) new ev /\ LogEvent.UUID ev = u) ->
    exists ev, ev ∈ log /\ LogEvent.UUID ev = u /\ handled w ev).
  { intros u [Hu|(ev & Hev & Hu)]; [by apply (safe_recent _ _ _ _ _ _ _ Hsafe)|]. apply Hdel in Hev as [? ?]. by exists ev. }
  assert (Hdone : forall ev, ev ∈ dn -> handled w ev).
  { intros ev Hev. destruct (Hdn ev Hev) as [?|Hk]; [by apply Hdel|]. destruct (Hknown _ Hk) as (ev' & Hl & Hu & Hh).
    by rewrite (log_unique ev ev' Hnd (Hin_log ev Hev) Hl (eq_sym Hu)). }
  assert (Hp1 : persistable s1).
  { eapply delivers_persistable; [exact Hd| |apply Hsafe]. subst events. by apply Forall_app in Hwire as [? _]. }
  assert (Hst : persistable (st a1) /\ State.RecentUUIDs (st a1) = State.RecentUUIDs s1 /\ State.Cursor (st a1) = State.Cursor s1).
  { destruct rest as [|ev rest]; [by destruct Hm as [_ ->]|].
    destruct Hm as (a3 & a4 & sig & tl & m & e & Ha3 & Hdet & -> & _).
    pose proof (Detect_persistable params ev a3) as Hdp. destruct (Detect_others params ev a3) as [mm Hmm].
    rewrite Hdet in Hdp, Hmm. cbn [snd] in *. rewrite Ha3 in *. split; [|by rewrite Hmm].
    apply Hdp; [|done]. subst events. apply Forall_app in Hwire as [_ Hw]. by apply Forall_cons in Hw as [? _]. }
  destruct Hst as (Hp & Hr & Hc). split; [done|done| |]; [intros u Hu; rewrite Hr in Hu; by apply Hknown, Hrec|]. intros ev Hev. rewrite Hc.
  destruct (safe_log _ _ _ _ _ _ _ Hsafe ev Hev) as [Hw|?]; [|by right]. destruct (Hlog ev Hev Hw) as [He|Hle].
  - rewrite Heq in He. apply elem_of_app in He as [He|He]; [right; by apply Hdone|]. left.
    eapply delivers_window; [|exact Hd|exact He|done]. by rewrite <- Heq.
  - left. destruct (delivers_cursor _ _ _ _ _ Hd) as [->|(e & He & ->)]; [done|].
    assert (Hle' : published_le e ev) by (apply Hle; rewrite Heq; apply elem_of_app; by left).
    unfold live_window, published_le, time_le, Before, After, Add in *. cbn [nanos] in *. apply orb_true_iff. right. lia.
Qed.

Context (Hpath : state_path path) (Hclock : forall n, printable (UTC (clock n))) (upto : nat -> nat) (Hsrc : serves_log cfg log upto).

(** Saving a safe state leaves a safe disk. *)
Lemma Save_safe w (a : Adapter) : disk_safe w (disk a) -> safe w (st a) ->
  let a1 := (Save path a).2 in sent a1 = sent a /\ disk_safe w (disk a1) /\ safe w (st a1).
Proof.
  intros Hd Hs. destruct (Save_run path a Hpath) as [Hst Hsent Hf]. cbv zeta. rewrite Hsent.
  assert (Hs1 : safe w (st (Save path a).2)) by (rewrite Hst; by apply safe_stamp).
  split_and!; [done| |done]. unfold OktaRestart.disk_safe in *. destruct (Save path a).1 as [e|].
  - destruct Hf as [->|(r & f & Hno & ->)]; [done|]. rewrite lookup_insert_ne by (by apply temp_path_ne). done.
  - destruct Hf as (data & Hm & ->). rewrite lookup_insert_eq. by eexists.
Qed.

Lemma PollOnce_safe (a : Adapter) : life_ok params cfg path log a0 (true, a) -> halted (disk a) = false ->
  let w := (true, (PollOnce (Save path) params cfg a).2) in disk_safe w (disk w.2) /\ safe w (st w.2).
Proof.
  intros (Hreach & Hd & Hs) Hh w. specialize (Hs eq_refl). cbn [snd] in Hd, Hs.
  assert (Hstep : rtc life_step (true, a) w) by (apply rtc_once; exists Cycle; by apply life_cycle).
  apply (safe_mono _ w _ Hstep) in Hs. apply (disk_safe_mono _ w _ Hstep) in Hd.
  destruct (Fetch (atick a) (State.Cursor (st a)) zeroTime (PollConfig.Limit cfg) (PollConfig.MaxPages cfg)) as [events [e|]] eqn:Hf.
  { assert (Hw : st w.2 = st a /\ disk w.2 = disk a) by (unfold w, PollOnce, oget, oask; st_unfold; by rewrite Hf).
    destruct Hw as [-> ->]. done. }
  destruct (serves_batch _ _ _ _ Hsrc Hf) as (Hw & Hso & Hin & Hlog). set (b := mkAdapter (st a) (S (atick a)) (sent a) (disk a)).
  pose proof (poll_loop_disk events 0 0 b) as Hdisk. set (a1 := (poll_loop params 0 0 events b).2) in *.
  assert (Hw2 : w.2 = (Save path a1).2).
  { unfold w, a1, b, PollOnce, oget, oask. st_unfold. rewrite Hf. destruct (poll_loop params 0 0 events _) as [[p n] a2]. cbn [snd].
    by destruct (Save path a2). }
  assert (Hsent : sent w.2 = sent a1) by (rewrite Hw2; by destruct (Save_run path a1 Hpath)).
  assert (Hs1 : safe w (st a1)).
  { apply (poll_loop_safe events b w Hs); [apply Hsrc|done..|]. intros new part ev Hn Hdel.
    exists a, events, new, part. split_and!; [done..| |apply rtc_refl]. change (sent w.2 = sent a ++ new ++ part). rewrite Hsent. exact Hn. }
  rewrite Hw2. apply Save_safe; [by rewrite Hdisk|done].
Qed.

Lemma life_step_ok w w' : life_step w w' -> life_ok params cfg path log a0 w -> life_ok params cfg path log a0 w'.
Proof.
  intros [k Hlife] Hok. assert (Hstep : rtc life_step w w') by (apply rtc_once; by exists k).
  pose proof Hok as (Hreach & Hd & Hs). split; [by etransitivity|].
  apply (disk_safe_mono _ w' _ Hstep) in Hd. assert (Hs' : w.1 = true -> safe w' (st w.2)) by (intros H; apply (safe_mono _ _ _ Hstep), Hs, H).
  clear Hs. revert Hstep Hok Hd Hs'. destruct Hlife as [a s k Hload|a Hh|a Hh|a s k more|up a k]; intros Hstep Hok Hd Hs; cbn [fst snd] in *.
  - destruct (load_safe _ (atick a) (disk a) Hd (LoadState_ok_read _ _ _ Hload)) as (s' & Hl & Hs').
    rewrite Hload in Hl. injection Hl as ->. by split.
  - destruct (PollOnce_safe a Hok Hh) as [H1 H2]. by split.
  - destruct (Save_safe _ a Hd (Hs eq_refl)) as (_ & H1 & _). split; [exact H1|]. discriminate.
  - split; [exact Hd|]. discriminate.
  - by split.
Qed.
End LifeFacts.

(** ** Concrete data *)

(** A source that serves a fixed log from the cursor's window on. *)
Definition log_source (log : list LogEvent.t) : EventSource :=
  {| Fetch := fun _ c _ _ _ => (base.filter (fun ev => live_window c ev = true) log, None) |}.

Lemma log_source_serves cfg log : Forall wire_ok log -> StronglySorted published_le log -> NoDup (LogEvent.UUID <$> log) ->
  serves_log (Src := log_source log) cfg log (fun _ => length log).
Proof.
  intros Hw Hs Hn. split_and!; [done..|]. intros n c evs [= <-]. exists []. by rewrite firstn_all, app_nil_r.
Qed.

(** ** Properties *)

(** C19: no event is lost across restarts. For a source that serves a log of events
    with distinct ids, oldest first, through the live client's window: however often
    the adapter is started, stopped, or killed (between or inside the calls that
    save its state), and whichever of these calls or deliveries fail, its state file
    can always be loaded, and every event of the log either is inside the window the
    next start asks for, or was fetched as new by a poll cycle on the way that had
    all its signals accepted by the sink, in their place after those of the events
    before it; and so was every event whose id the file calls processed. *)
Theorem restart_no_loss {E : Env} `{!EnvOk E} {Sys : OS} {Src : EventSource} {Snk : Sink} params cfg path log upto
    (a0 a : Adapter) (up : bool) n :
  state_path path -> (forall k, printable (UTC (clock k))) -> serves_log cfg log upto ->
  files (disk a0) !! resolve path = None ->
  rtc (life_step params cfg path) (false, a0) (up, a) -> os_error n = None ->
  exists s, LoadState path n (disk a) = Ok (Loaded s) /\ state_ok s /\
    (forall ev, ev ∈ log -> live_window (State.Cursor s) ev = true \/ handled params cfg path a0 (up, a) ev) /\
    (forall u, u ∈ State.RecentUUIDs s -> exists ev, ev ∈ log /\ LogEvent.UUID ev = u /\ handled params cfg path a0 (up, a) ev).
Proof.
  intros Hpath Hclock Hsrc Hnew Hsteps Hn.
  assert (Hw : life_ok params cfg path log a0 (up, a)).
  { clear Hn.
    assert (H0 : life_ok params cfg path log a0 (false, a0))
      by (split; [apply rtc_refl|]; split; [unfold disk_safe; cbn [snd]; by rewrite Hnew|discriminate]).
    remember (false, a0) as w0 eqn:Hw0. revert H0. clear Hw0.
    induction Hsteps as [w|w w1 w2 Hstep _ IH]; [done|]. intros H0. apply IH. by eapply life_step_ok. }
  destruct Hw as (_ & Hd & _). destruct (load_safe params cfg path log a0 _ n _ Hd Hn) as (s & Hl & [Hok _ Hrec Hlog]). by exists s.
Qed.

(** A clock that stands still. *)
Definition still_env : Env := {|
  clock := fun _ => demo_base; rand_Int := @rand_Int demo_env; rand_Read := @rand_Read demo_env;
  range_map := @range_map demo_env; range_mapZ := @range_mapZ demo_env; sort_Slice := @sort_Slice demo_env;
  regexp_MatchString := @regexp_MatchString demo_env; unicode_ToLower := @unicode_ToLower demo_env;
  unicode_ToUpper := @unicode_ToUpper demo_env; time_Parse_RFC3339 := @time_Parse_RFC3339 demo_env;
  http_NewRequest := @http_NewRequest demo_env; math_Log2 := @math_Log2 demo_env; math_Sin := @math_Sin demo_env;
  math_Cos := @math_Cos demo_env; math_Asin := @math_Asin demo_env |}.

Lemma still_env_ok : EnvOk still_env.
Proof. split; apply demo_env_ok. Qed.

Lemma demo_events_wire : Forall wire_ok demo_events.
Proof.
  repeat apply Forall_cons_2; [..|apply Forall_nil_2]; (split; [by vm_compute|by apply demo_printable; vm_compute| |]); repeat split; by vm_compute.
Qed.

(** Started without a file, and killed while saving after its first cycle. *)
Definition demo_started : Adapter := mkAdapter NewState 1 (sent demo_adapter) (mkDisk (files (disk demo_adapter)) false).
Definition demo_crashed : Adapter :=
  (PollOnce (E := still_env) (Src := log_source demo_events) (Snk := LogSink) (Save (E := still_env) (Sys := killed_at 12) demo_path)
     demo_params demo_poll_cfg demo_started).2.

Example demo_crash : halted (disk demo_crashed) = true /\ length (sent demo_crashed) = 4%nat /\
  (match files (disk demo_crashed) !! resolve demo_path with Some _ => true | None => false end) = false.
Proof. vm_compute. done. Qed.

(** Another life, that saves what it did. *)
Definition demo_saved : Adapter :=
  (PollOnce (E := still_env) (Src := log_source demo_events) (Snk := LogSink) (Save (E := still_env) (Sys := calm) demo_path)
     demo_params demo_poll_cfg demo_started).2.

Definition recent_of (r : result loaded) : list string := match r with Ok (Loaded s) => State.RecentUUIDs s | _ => [] end.

Lemma restart_no_loss_witness :
  (exists s, LoadState (E := still_env) (Sys := killed_at 12) demo_path 0 (disk demo_crashed) = Ok (Loaded s) /\
     forall ev, ev ∈ demo_events -> live_window (State.Cursor s) ev = true \/
       handled (E := still_env) (Sys := killed_at 12) (Src := log_source demo_events) (Snk := LogSink) demo_params demo_poll_cfg demo_path
         demo_adapter (true, demo_crashed) ev) /\
  forall u, u ∈ LogEvent.UUID <$> demo_events -> exists ev, ev ∈ demo_events /\ LogEvent.UUID ev = u /\
    handled (E := still_env) (Sys := calm) (Src := log_source demo_events) (Snk := LogSink) demo_params demo_poll_cfg demo_path
      demo_adapter (true, demo_saved) ev.
Proof.
  assert (Hserve : serves_log (Src := log_source demo_events) demo_poll_cfg demo_events (fun _ => 3%nat)).
  { apply (log_source_serves demo_poll_cfg demo_events); [exact demo_events_wire|repeat constructor; vm_compute; reflexivity|].
    apply (bool_decide_unpack _). vm_compute. exact I. }
  split.
  - destruct (restart_no_loss (E := still_env) (EnvOk0 := still_env_ok) (Sys := killed_at 12) (Src := log_source demo_events) (Snk := LogSink)
      demo_params demo_poll_cfg demo_path demo_events (fun _ => 3%nat) demo_adapter demo_crashed true 0) as (s & Hl & _ & Hlog & _).
    + exact demo_state_path.
    + intros k. apply demo_printable. vm_compute. reflexivity.
    + exact Hserve.
    + reflexivity.
    + eapply rtc_l; [exists Start; apply (life_start (E := still_env) (Sys := killed_at 12) demo_params demo_poll_cfg demo_path demo_adapter NewState 1); vm_compute; reflexivity|].
      eapply rtc_l; [exists Cycle; apply life_cycle; reflexivity|apply rtc_refl].
    + reflexivity.
    + exists s. split; [exact Hl|exact Hlog].
  - destruct (restart_no_loss (E := still_env) (EnvOk0 := still_env_ok) (Sys := calm) (Src := log_source demo_events) (Snk := LogSink)
      demo_params demo_poll_cfg demo_path demo_events (fun _ => 3%nat) demo_adapter demo_saved true 0) as (s & Hl & _ & _ & Hrec).
    + exact demo_state_path.
    + intros k. apply demo_printable. vm_compute. reflexivity.
    + exact Hserve.
    + reflexivity.
    + eapply rtc_l; [exists Start; apply (life_start (E := still_env) (Sys := calm) demo_params demo_poll_cfg demo_path demo_adapter NewState 1); vm_compute; reflexivity|].
      eapply rtc_l; [exists Cycle; apply life_cycle; reflexivity|apply rtc_refl].
    + reflexivity.
    + assert (Hr : State.RecentUUIDs s = LogEvent.UUID <$> demo_events).
      { change (recent_of (Ok (Loaded s)) = LogEvent.UUID <$> demo_events). rewrite <- Hl. vm_compute. reflexivity. }
      intros u Hu. apply Hrec. rewrite Hr. exact Hu.
Defined.
