(* ===== verification/OktaRedact.v ===== *)
(** * adapters/okta: credential redaction

    credential.go, the text functions of client.go that make a server's answer
    safe to log, and the redacting log handler of logredact.go. A rune slice is a
    list of integers; an index into it is a natural number. *)

From S2P Require Import Prelude GoStrings GoTime GoFloat GoCrypto GoRunes GoJson Types World Instances.

(** ** The matcher (credential.go) *)

Definition minTokenFragmentLen : Z := 8.
Definition maxUnknownCharsAfterLeak : Z := 12.
Definition redactedMarker : string := "[redacted]".

Definition fragmentThreshold (token : string) : Z :=
  let t := Z.of_nat (length (to_runes token)) - maxUnknownCharsAfterLeak + 1 in
  if t <? minTokenFragmentLen then minTokenFragmentLen else t.

Section Matcher.
Context {E : Env}.

Definition foldRunes (s : string) : list Z := rune_ToLower <$> to_runes s.

(** The loop over the escaped spellings: those seen before are skipped. *)
Definition add_needle (token : string) (acc : list string * list (list Z)) (enc : string)
    : list string * list (list Z) :=
  if String.eqb enc token || bool_decide (enc ∈ acc.1) then acc
  else (enc :: acc.1, acc.2 ++ [foldRunes enc]).

(** The insertion sort, longest first: [bubble] moves a needle towards the
    front of the sorted part, here given back to front. *)
Fixpoint bubble (x : list Z) (back : list (list Z)) : list (list Z) :=
  match back with
  | [] => [x]
  | y :: back' => if (length y <? length x)%nat then y :: bubble x back' else x :: back
  end.

Definition sort_needles (out : list (list Z)) : list (list Z) :=
  reverse (foldl (fun back x => bubble x back) [] out).

Definition credentialNeedles (token : string) : list (list Z) :=
  sort_needles
    (foldl (add_needle token) ([token], [foldRunes token]) [QueryEscape token; PathEscape token]).2.

Fixpoint matchNeedleAt (fs : list Z) (i : nat) (needles : list (list Z)) : nat :=
  match needles with
  | [] => 0
  | nd :: needles' =>
      let n := length nd in
      if (n =? 0)%nat || (length fs <? i + n)%nat then matchNeedleAt fs i needles'
      else if String.eqb (of_runes (take n (drop i fs))) (of_runes nd) then n
      else matchNeedleAt fs i needles'
  end.

(** The loop of [longestTokenFragmentAt], from length [l] down. *)
Fixpoint fragment_loop (tokenFolded rest : list Z) (threshold : Z) (l : nat) : nat :=
  if Z.of_nat l <? threshold then 0
  else if Contains (of_runes tokenFolded) (of_runes (take l rest)) then l
  else match l with
       | S l' => fragment_loop tokenFolded rest threshold l'
       | O => 0
       end.

Definition longestTokenFragmentAt (fs : list Z) (i : nat) (tokenFolded : list Z) (threshold : Z) : nat :=
  let avail := (length fs - i)%nat in
  let maxLen := (length tokenFolded - 1)%nat in
  fragment_loop tokenFolded (drop i fs) threshold (if (avail <? maxLen)%nat then avail else maxLen).

(** The scan; every round consumes a rune, so [length rs] rounds are enough. *)
Fixpoint redact_loop (rs fs : list Z) (needles : list (list Z)) (threshold : Z) (sweepFragments : bool)
    (fuel i : nat) : string :=
  match fuel with
  | O => ""
  | S fuel' =>
      match rs !! i with
      | None => ""
      | Some r =>
          let n := matchNeedleAt fs i needles in
          if (0 <? n)%nat then
            redactedMarker +:+ redact_loop rs fs needles threshold sweepFragments fuel' (i + n)
          else
            let n := if sweepFragments then longestTokenFragmentAt fs i (hd [] needles) threshold else 0%nat in
            if (0 <? n)%nat then
              redactedMarker +:+ redact_loop rs fs needles threshold sweepFragments fuel' (i + n)
            else of_runes [r] +:+ redact_loop rs fs needles threshold sweepFragments fuel' (i + 1)
      end
  end.

Definition redactCredential (s token : string) : string :=
  if String.eqb token "" || String.eqb s "" then s
  else if String.eqb s token then redactedMarker
  else
    let rs := to_runes s in
    let fs := rune_ToLower <$> rs in
    let threshold := fragmentThreshold token in
    redact_loop rs fs (credentialNeedles token) threshold
      (threshold <? Z.of_nat (length (to_runes token))) (length rs) 0.

(** ** Server bodies (client.go) *)

Definition maxErrBodyBytes : nat := 512.
Definition maxErrWindowBytes : nat := 4096.
Definition minTokenPrefixLen : nat := 4.

(** [unicode.IsControl] and [unicode.Is(unicode.Cf, r)] (Unicode 15). *)
Definition IsControl (r : Z) : bool := ((0 <=? r) && (r <=? 31)) || ((127 <=? r) && (r <=? 159)).
Definition Cf : list (Z * Z) :=
  [(173, 173); (1536, 1541); (1564, 1564); (1757, 1757); (1807, 1807); (2192, 2193); (2274, 2274);
   (6158, 6158); (8203, 8207); (8234, 8238); (8288, 8292); (8294, 8303); (65279, 65279); (65529, 65531);
   (69821, 69821); (69837, 69837); (78896, 78911); (113824, 113827); (119155, 119162); (917505, 917505);
   (917536, 917631)].
Definition IsFormat (r : Z) : bool := existsb (fun '(lo, hi) => (lo <=? r) && (r <=? hi)) Cf.

(** One round of [sanitizeServerBody]: the runes appended. *)
Definition sanitizeRune (r : Z) : list Z :=
  if (r =? 9) || (r =? 10) || (r =? 13) then [32]
  else if (r <? 32) || (r =? 127) then []
  else if IsControl r || IsFormat r then []
  else [r].

Definition sanitizeServerBody (data : string) : string :=
  of_runes (concat (sanitizeRune <$> to_runes data)).

(** The scan of [truncateToRuneBoundary] from offset [i], where the bytes [b]
    are left: the final [end]. *)
Fixpoint truncate_loop (fuel : nat) (b : list Z) (limit i : nat) : nat :=
  match fuel with
  | O => i
  | S fuel' =>
      if (limit <=? i)%nat then i
      else
        let '(r, size) := DecodeRune b in
        if (r =? RuneError) && (size <=? 1)%nat then i
        else if (limit <? i + size)%nat then i
        else truncate_loop fuel' (drop size b) limit (i + size)
  end.

Definition truncateToRuneBoundary (b : list Z) (max : nat) : list Z :=
  let limit := if (length b <? max)%nat then length b else max in
  take (truncate_loop (length b) b limit 0) b.

(** Step 5: the longest retained tail that is a proper prefix of the token. *)
Definition HasSuffix (s suffix : string) : bool :=
  let n := (String.length s - String.length suffix)%nat in
  (String.length suffix <=? String.length s)%nat && String.eqb (drop_bytes n s) suffix.

Fixpoint trim_tail (token s : string) (n : nat) : string :=
  if (n <? minTokenPrefixLen)%nat then s
  else if HasSuffix s (take_bytes n token) then take_bytes (String.length s - n) s +:+ redactedMarker
  else match n with
       | S n' => trim_tail token s n'
       | O => s
       end.

Definition snippet_window (token : string) : nat :=
  let window := (if String.eqb token "" || String.eqb token redactedMarker then maxErrBodyBytes
                 else maxErrBodyBytes + String.length token)%nat in
  if (maxErrWindowBytes <? window)%nat then maxErrWindowBytes else window.

(** [safeErrSnippet]; [body] is what the response's body holds. *)
Definition safeErrSnippet (token body : string) : string :=
  let s := redactCredential (take_bytes (snippet_window token) body) token in
  let s := sanitizeServerBody s in
  let s := of_bytes (truncateToRuneBoundary (bytes s) maxErrBodyBytes) in
  let s := redactCredential s token in
  let s := if String.eqb token "" then s else trim_tail token s (String.length token - 1) in
  TrimSpace s.
End Matcher.

(** ** The log handler (logredact.go) *)

(** [slog.Value] by kind; [VAny] holds the text of the value (of an error, what
    [Error] returns), [VPlain] is a number, a boolean, a time or a duration. *)
Inductive value :=
| VString (s : string)
| VAny (text : string)
| VGroup (attrs : list (string * value))
| VLogValuer (text : string)
| VPlain (text : string).

Module LogRecord.
Record t := mk { Message : string; Attrs : list (string * value) }.
End LogRecord.

Section Handler.
Context (redact : string -> string).

Fixpoint scrubValue (v : value) : value :=
  match v with
  | VString s => VString (redact s)
  | VAny s => VString (redact s)
  | VGroup attrs => VGroup ((fun '(k, v) => (k, scrubValue v)) <$> attrs)
  | _ => v
  end.

Definition scrubAttr (a : string * value) : string * value := (a.1, scrubValue a.2).

(** What the inner handler receives. *)
Definition Handle (r : LogRecord.t) : LogRecord.t :=
  LogRecord.mk (redact (LogRecord.Message r)) (scrubAttr <$> LogRecord.Attrs r).

Definition WithAttrs (attrs : list (string * value)) : list (string * value) := scrubAttr <$> attrs.
End Handler.

(** ** Concrete data *)

Definition demo_token : string := "00canaryTOKEN_value-9f3e2b1a".

Example redact_ex : redactCredential ("Bearer 00CANARYtoken_VALUE-9f3e2b1a, request 9f3e2b1a-dead") demo_token
  = "Bearer [redacted], request 9f3e2b1a-dead".
Proof. vm_compute. reflexivity. Qed.

Example snippet_ex : safeErrSnippet demo_token ("bad token: 00canaryTOKEN_" +:+ of_bytes [0] +:+ "value-9f3e2b1a" +:+ of_bytes [10])
  = "bad token: [redacted]".
Proof. vm_compute. reflexivity. Qed.

(** ** Specification *)

(** [w] occurs in [l]. *)
Definition infix {A} (w l : list A) : Prop := exists p q, l = p ++ w ++ q.

(** The scan cuts its input into runes it copies and stretches it hides. *)
Inductive piece := Kept (r : Z) | Hidden (w : list Z).
Definition source (p : piece) : list Z := match p with Kept r => [r] | Hidden w => w end.
Definition shown (p : piece) : string := match p with Kept r => of_runes [r] | Hidden _ => redactedMarker end.
Definition shown_runes (p : piece) : list Z := match p with Kept r => [r] | Hidden _ => to_runes redactedMarker end.

Section Spec.
Context {E : Env}.

(** A cut of the runes [rs]: the hidden stretches are, up to case, [bad] ones, and
    no stretch of consecutive copied runes is. *)
Definition cuts (bad : list Z -> Prop) (rs : list Z) (ps : list piece) : Prop :=
  concat (source <$> ps) = rs /\
  (forall w, Hidden w ∈ ps -> bad (rune_ToLower <$> w)) /\
  (forall p1 run p2 w, ps = p1 ++ (Kept <$> run) ++ p2 -> infix w run -> ~ bad (rune_ToLower <$> w)).

(** Consecutive characters of the token that leave fewer than 12 unknown. *)
Definition revealing (token : string) (w : list Z) : Prop :=
  infix w (foldRunes token) /\ (String.length token < length w + 12)%nat.

(** A token of the shape Okta issues: unreserved characters, at least 20. *)
Definition okta_token (token : string) : Prop :=
  Forall (fun c => unreserved c = true) (bytes token) /\ (20 <= String.length token)%nat.

(** [w] is a stretch of [out] that shows consecutive characters of the token, in
    some case. *)
Definition exposed (token out : string) (w : list Z) : Prop :=
  infix w (to_runes out) /\ infix (rune_ToLower <$> w) (foldRunes token).
End Spec.

(** ** Facts: occurrences *)

Lemma infix_nil {A} (l : list A) : infix [] l.
Proof. by exists [], l. Qed.

Lemma infix_trans {A} (w l l' : list A) : infix w l -> infix l l' -> infix w l'.
Proof. intros (p & q & ->) (p' & q' & ->). exists (p' ++ p), (q ++ q'). by rewrite <- !app_assoc. Qed.

Lemma infix_length {A} (w l : list A) : infix w l -> (length w <= length l)%nat.
Proof. intros (p & q & ->). rewrite !length_app. lia. Qed.

Lemma infix_elem {A} (w l : list A) x : infix w l -> x ∈ w -> x ∈ l.
Proof. intros (p & q & ->) Hx. rewrite !elem_of_app. auto. Qed.

Lemma infix_cons_inv {A} (w l : list A) x : infix w (x :: l) -> (exists q, x :: l = w ++ q) \/ infix w l.
Proof.
  intros (p & q & Heq). destruct p as [|y p]; [left; by exists q|right].
  injection Heq as _ Heq. by exists p, q.
Qed.

(** An occurrence that avoids [c] is on one side of it. *)
Lemma infix_avoid {A} (w a b : list A) c : infix w (a ++ c :: b) -> c ∉ w -> infix w a \/ infix w b.
Proof.
  induction a as [|x a IH]; intros Hw Hc.
  - apply infix_cons_inv in Hw as [[q Hq]|Hw]; [|by right]. destruct w as [|y w]; [left; apply infix_nil|].
    injection Hq as -> _. exfalso. apply Hc. by left.
  - apply infix_cons_inv in Hw as [[q Hq]|Hw].
    + left. clear IH. assert (Hpre : exists r, x :: a = w ++ r).
      { change ((x :: a) ++ c :: b = w ++ q) in Hq. clear -Hq Hc. revert Hq. generalize (x :: a) as l. clear x a.
        induction w as [|y w IH]; intros l Hq; [by exists l|]. destruct l as [|z l].
        - injection Hq as -> _. exfalso. apply Hc. by left.
        - injection Hq as -> Hq. destruct (IH ltac:(intros Hx; apply Hc; by right) l Hq) as [r ->]. by exists r. }
      destruct Hpre as [r Hr]. exists [], r. done.
    + destruct (IH Hw Hc) as [(p & q & ->)|Hb]; [left; by exists (x :: p), q|by right].
Qed.


Lemma Contains_app a b c : Contains (a +:+ b +:+ c) b = true.
Proof.
  induction a as [|x a IH].
  - change (Contains (b +:+ c) b = true). pose proof (HasPrefix_app b c) as H.
    destruct (b +:+ c); cbn [Contains]; by rewrite H.
  - change (Contains (String x (a +:+ b +:+ c)) b = true). cbn [Contains]. rewrite IH. apply orb_true_r.
Qed.

Lemma infix_Contains w l : infix w l -> Contains (of_runes l) (of_runes w) = true.
Proof. intros (p & q & ->). rewrite !of_runes_app. apply Contains_app. Qed.

(** ** Facts: the scan *)

Section ScanFacts.
Context {E : Env}.

(** What the scan looks for, in its own terms: a needle, or a long enough piece of
    the first one. *)
Definition material (token : string) (w : list Z) : Prop :=
  (w <> [] /\ exists nd, nd ∈ credentialNeedles token /\ length nd = length w /\ of_runes w = of_runes nd) \/
  (fragmentThreshold token < Z.of_nat (length (to_runes token)) /\
   fragmentThreshold token <= Z.of_nat (length w) /\ (length w < length (hd [] (credentialNeedles token)))%nat /\
   Contains (of_runes (hd [] (credentialNeedles token))) (of_runes w) = true).

Definition redacts (token : string) : list Z -> list piece -> Prop := cuts (material token).

Lemma bubble_perm x back : bubble x back ≡ₚ x :: back.
Proof.
  induction back as [|y back IH]; [done|]. cbn [bubble]. destruct (_ <? _)%nat; [|done].
  rewrite IH. apply Permutation_swap.
Qed.

Lemma sort_needles_perm out : sort_needles out ≡ₚ out.
Proof.
  unfold sort_needles. rewrite reverse_Permutation.
  assert (H : forall acc, foldl (fun back x => bubble x back) acc out ≡ₚ out ++ acc); [|by rewrite H, app_nil_r].
  induction out as [|x out IH]; intros acc; [done|]. cbn [foldl app]. rewrite IH, bubble_perm. by rewrite Permutation_middle.
Qed.

(** The spellings of a token without reserved characters: only itself. *)
Lemma credentialNeedles_unreserved token : Forall (fun c => unreserved c = true) (bytes token) ->
  credentialNeedles token = [foldRunes token].
Proof.
  intros H. destruct (escape_unreserved token H) as [Hq Hp]. unfold credentialNeedles. rewrite Hq, Hp.
  unfold add_needle. cbn [foldl]. by rewrite String.eqb_refl.
Qed.

Lemma matchNeedleAt_found fs i needles : (0 < matchNeedleAt fs i needles)%nat ->
  exists nd, nd ∈ needles /\ length nd = matchNeedleAt fs i needles /\ (i + length nd <= length fs)%nat /\
    of_runes (take (length nd) (drop i fs)) = of_runes nd.
Proof.
  induction needles as [|nd needles IH]; cbn [matchNeedleAt]; [lia|].
  destruct (_ || _) eqn:Hb.
  { intros Hn. destruct (IH Hn) as (nd' & ? & ?). exists nd'. split; [by right|done]. }
  apply orb_false_iff in Hb as [_ Hle%Nat.ltb_ge].
  destruct (String.eqb_spec (of_runes (take (length nd) (drop i fs))) (of_runes nd)) as [He|He].
  - intros _. exists nd. by split; [left|].
  - intros Hn. destruct (IH Hn) as (nd' & ? & ?). exists nd'. split; [by right|done].
Qed.

Lemma matchNeedleAt_none fs i needles nd w : matchNeedleAt fs i needles = 0%nat -> nd ∈ needles -> w <> [] ->
  length nd = length w -> of_runes w = of_runes nd -> ~ (exists q, drop i fs = w ++ q).
Proof.
  intros Hm Hnd Hne Hlen Heq [q Hq]. revert Hm Hlen Heq. induction Hnd as [nd needles|nd nd' needles _ IH]; cbn [matchNeedleAt]; intros Hm Hlen Heq; revert Hm.
  - assert (Hl : length (drop i fs) = (length w + length q)%nat) by (rewrite Hq; apply length_app).
    rewrite length_drop in Hl. destruct w as [|x w]; [done|]. cbn [length] in *. rewrite Hlen.
    destruct (Nat.ltb_spec (length fs) (i + S (length w))); [lia|]. cbn [Nat.eqb orb].
    rewrite Hq. change (S (length w)) with (length (x :: w)). rewrite take_app_length, Heq, String.eqb_refl. done.
  - destruct (Nat.eqb_spec (length nd') 0) as [|Hn0]; cbn [orb]; [by intros; apply IH|].
    destruct (_ <? _)%nat; [by intros; apply IH|]. destruct (String.eqb _ _); [|by intros; apply IH].
    intros Hn. done.
Qed.

Lemma fragment_loop_spec tok rest th l : 0 < th ->
  (fragment_loop tok rest th l <= l)%nat /\
  ((0 < fragment_loop tok rest th l)%nat ->
     th <= Z.of_nat (fragment_loop tok rest th l) /\
     Contains (of_runes tok) (of_runes (take (fragment_loop tok rest th l) rest)) = true) /\
  (fragment_loop tok rest th l = 0%nat ->
     forall k, (k <= l)%nat -> th <= Z.of_nat k -> Contains (of_runes tok) (of_runes (take k rest)) = false).
Proof.
  intros Hth. induction l as [|l IH]; cbn [fragment_loop].
  - destruct (Z.ltb_spec (Z.of_nat 0) th); [|lia]. split_and!; [lia|lia|]. intros _ k Hk Ht. lia.
  - destruct (Z.ltb_spec (Z.of_nat (S l)) th); [split_and!; [lia|lia|intros; lia]|].
    destruct (Contains (of_runes tok) (of_runes (take (S l) rest))) eqn:Hc; [by split_and!|]. destruct IH as (Hle & Hsome & Hnone).
    split_and!; [lia|done|]. intros H0 k Hk Ht. destruct (decide (k = S l)) as [->|]; [done|]. apply Hnone; [done|lia|done].
Qed.

Lemma fragmentThreshold_pos token : 8 <= fragmentThreshold token.
Proof. unfold fragmentThreshold, minTokenFragmentLen. destruct (Z.ltb_spec (Z.of_nat (length (to_runes token)) - maxUnknownCharsAfterLeak + 1) 8); lia. Qed.

Lemma material_nil token : ~ material token [].
Proof. pose proof (fragmentThreshold_pos token). intros [[Hne _]|(_ & Ht & _)]; [done|]. cbn in Ht. lia. Qed.

Section Scan.
Context (token : string) (rs : list Z).
Let fs := rune_ToLower <$> rs.
Let needles := credentialNeedles token.
Let th := fragmentThreshold token.
Let sweep := th <? Z.of_nat (length (to_runes token)).
Let fragment_at i := if sweep then longestTokenFragmentAt fs i (hd [] needles) th else 0%nat.

Lemma fs_drop i : drop i fs = rune_ToLower <$> drop i rs.
Proof. unfold fs. by rewrite fmap_drop. Qed.

Lemma fragment_at_found i : (0 < fragment_at i)%nat -> (i + fragment_at i <= length rs)%nat /\
  material token (rune_ToLower <$> take (fragment_at i) (drop i rs)).
Proof.
  unfold fragment_at, longestTokenFragmentAt. destruct sweep eqn:Hs; [|lia]. unfold sweep in Hs.
  assert (Hlen : length fs = length rs) by (unfold fs; by rewrite length_fmap). rewrite Hlen.
  set (l := if (_ <? _)%nat then _ else _).
  assert (Hl : (l <= length rs - i /\ l <= length (hd [] needles) - 1)%nat) by (unfold l; destruct (Nat.ltb_spec (length rs - i) (length (hd [] needles) - 1)); lia).
  pose proof (fragmentThreshold_pos token). fold th in H.
  pose proof (fragment_loop_spec (hd [] needles) (drop i fs) th l ltac:(lia)) as (Hle & Hsome & _).
  intros Hn. destruct (Hsome Hn) as [Ht Hc]. set (n := fragment_loop _ _ _ _) in *.
  split; [lia|]. right. rewrite fmap_take, <- fs_drop. fold th needles.
  assert (length (take n (drop i fs)) = n) as Hn'. { rewrite length_take, length_drop, Hlen. lia. }
  rewrite Hn'. split_and!; [lia|lia|lia|done].
Qed.

Lemma match_at_found i : (0 < matchNeedleAt fs i needles)%nat -> (i + matchNeedleAt fs i needles <= length rs)%nat /\
  material token (rune_ToLower <$> take (matchNeedleAt fs i needles) (drop i rs)).
Proof.
  intros Hn. destruct (matchNeedleAt_found _ _ _ Hn) as (nd & Hin & Hlen & Hle & Heq). rewrite Hlen in Heq.
  assert (Hl : length fs = length rs) by (unfold fs; by rewrite length_fmap).
  split; [lia|]. left. rewrite fmap_take, <- fs_drop.
  assert (Hn' : length (take (matchNeedleAt fs i needles) (drop i fs)) = matchNeedleAt fs i needles).
  { rewrite length_take, length_drop. lia. }
  split; [intros He; rewrite He in Hn'; cbn in Hn'; lia|]. exists nd. by rewrite Hn'.
Qed.

Lemma no_material_at i w q : matchNeedleAt fs i needles = 0%nat -> fragment_at i = 0%nat ->
  drop i rs = w ++ q -> ~ material token (rune_ToLower <$> w).
Proof.
  intros Hm Hf Hq. assert (Hfs : drop i fs = (rune_ToLower <$> w) ++ (rune_ToLower <$> q)) by (by rewrite fs_drop, Hq, fmap_app).
  intros [(Hne & nd & Hin & Hlen & Heq)|(Hs & Ht & Hlt & Hc)].
  - by eapply matchNeedleAt_none; [exact Hm|exact Hin|exact Hne|exact Hlen|exact Heq|eexists].
  - fold th needles in Hs, Ht, Hlt, Hc. unfold fragment_at, longestTokenFragmentAt in Hf. assert (sweep = true) as Hsw by (unfold sweep; lia).
    rewrite Hsw in Hf. pose proof (fragmentThreshold_pos token). fold th in H.
    set (l := if (_ <? _)%nat then _ else _) in Hf.
    pose proof (fragment_loop_spec (hd [] needles) (drop i fs) th l ltac:(lia)) as (_ & _ & Hnone).
    specialize (Hnone Hf (length (rune_ToLower <$> w))). rewrite Hfs, take_app_length, Hc in Hnone.
    assert (length (drop i fs) = length (rune_ToLower <$> w) + length (rune_ToLower <$> q))%nat as Hl by (by rewrite Hfs, length_app).
    rewrite length_drop in Hl.
    assert (true = false) as []%diff_true_false. apply Hnone; [|done].
    unfold l. destruct (_ <? _)%nat; lia.
Qed.

Lemma redacts_nil : redacts token [] [].
Proof.
  split_and!; [done|by intros w ?%not_elem_of_nil|]. intros p1 run p2 w Heq Hw.
  symmetry in Heq. apply app_eq_nil in Heq as [_ Heq]. apply app_eq_nil in Heq as [Heq _]. apply fmap_nil_inv in Heq as ->.
  apply infix_length in Hw. destruct w; [apply material_nil|cbn in Hw; lia].
Qed.

Lemma redacts_hidden w l ps : material token (rune_ToLower <$> w) -> redacts token l ps ->
  redacts token (w ++ l) (Hidden w :: ps).
Proof.
  intros Hmat (Hsrc & Hhid & Hkept). split_and!.
  - cbn [fmap list_fmap concat source]. by rewrite Hsrc.
  - intros w' [[= ->]|Hw]%elem_of_cons; [done|by apply Hhid].
  - intros [|x p1] run p2 w' Heq Hw.
    + destruct run as [|r run]; [|done]. apply infix_length in Hw. destruct w'; [apply material_nil|cbn in Hw; lia].
    + injection Heq as _ Heq. by eapply Hkept.
Qed.

Lemma redacts_kept r l ps : redacts token l ps ->
  (forall w q, r :: l = w ++ q -> ~ material token (rune_ToLower <$> w)) -> redacts token (r :: l) (Kept r :: ps).
Proof.
  intros (Hsrc & Hhid & Hkept) Hno. split_and!.
  - cbn [fmap list_fmap concat source]. by rewrite Hsrc.
  - intros w [?|Hw]%elem_of_cons; [done|by apply Hhid].
  - intros [|x p1] run p2 w Heq Hw; [|injection Heq as _ Heq; by eapply Hkept].
    destruct run as [|r' run]; [apply infix_length in Hw; destruct w; [apply material_nil|cbn in Hw; lia]|].
    injection Heq as <- Heq. apply infix_cons_inv in Hw as [[q Hq]|Hw]; [|by eapply (Hkept []); [exact Heq|]].
    apply (Hno w (q ++ concat (source <$> p2))). rewrite app_assoc, <- Hq, <- Hsrc, Heq, fmap_app, concat_app. cbn [app]. do 2 f_equal.
    clear. induction run as [|x run IH]; [done|]. cbn. by rewrite IH.
Qed.

Lemma redact_loop_run : forall fuel i, (length rs - i <= fuel)%nat -> (i <= length rs)%nat -> exists ps,
  redact_loop rs fs needles th sweep fuel i = sconcat (shown <$> ps) /\ redacts token (drop i rs) ps.
Proof.
  induction fuel as [|fuel IH]; intros i Hf Hi.
  { exists []. rewrite drop_ge by lia. split; [done|apply redacts_nil]. }
  cbn [redact_loop]. destruct (rs !! i) as [r|] eqn:Hr.
  2: { apply lookup_ge_None in Hr. exists []. rewrite drop_ge by lia. split; [done|apply redacts_nil]. }
  assert (Hhide : forall n, (0 < n)%nat -> (i + n <= length rs)%nat /\ material token (rune_ToLower <$> take n (drop i rs)) ->
    exists ps, redactedMarker +:+ redact_loop rs fs needles th sweep fuel (i + n) = sconcat (shown <$> ps) /\
      redacts token (drop i rs) ps).
  { intros n Hn [Hle Hmat]. destruct (IH (i + n)%nat ltac:(lia) ltac:(lia)) as (ps & -> & Hps).
    exists (Hidden (take n (drop i rs)) :: ps). split; [done|].
    rewrite <- (take_drop n (drop i rs)) at 1. rewrite drop_drop. by apply redacts_hidden. }
  destruct (Nat.ltb_spec 0 (matchNeedleAt fs i needles)) as [Hm|Hm]; [by apply Hhide, match_at_found|].
  fold (fragment_at i).
  destruct (Nat.ltb_spec 0 (fragment_at i)) as [Hg|Hg]; [by apply Hhide, fragment_at_found|].
  apply lookup_lt_Some in Hr as Hlt. destruct (IH (i + 1)%nat ltac:(lia) ltac:(lia)) as (ps & -> & Hps).
  exists (Kept r :: ps). split; [done|]. rewrite (drop_S _ _ _ Hr). rewrite Nat.add_1_r in Hps. apply redacts_kept; [done|].
  intros w q Heq. eapply no_material_at; [by apply Nat.le_0_r|by apply Nat.le_0_r|]. rewrite (drop_S _ _ _ Hr). exact Heq.
Qed.
End Scan.
End ScanFacts.

(** ** Facts: what comes out *)

Definition marker_runes : list Z := [91; 114; 101; 100; 97; 99; 116; 101; 100; 93].

Lemma marker_runes_eq : to_runes redactedMarker = marker_runes /\ of_runes marker_runes = redactedMarker.
Proof. split; vm_compute; reflexivity. Qed.

Lemma shown_of_runes ps : sconcat (shown <$> ps) = of_runes (concat (shown_runes <$> ps)).
Proof.
  induction ps as [|p ps IH]; [done|]. cbn [fmap list_fmap concat]. rewrite of_runes_app, <- IH.
  change (sconcat (shown p :: (shown <$> ps))) with (shown p +:+ sconcat (shown <$> ps)). f_equal.
  destruct p; [done|]. cbn [shown shown_runes]. destruct marker_runes_eq as [-> ->]. done.
Qed.

Lemma shown_valid ps : Forall valid_rune (concat (source <$> ps)) -> Forall valid_rune (concat (shown_runes <$> ps)).
Proof.
  induction ps as [|p ps IH]; [done|]. cbn [fmap list_fmap concat]. rewrite !Forall_app. intros [Hp Hps].
  split; [|by apply IH]. destruct p; [done|]. cbn [shown_runes]. apply to_runes_valid.
Qed.

(** The first run of kept pieces, up to the first hidden one. *)
Lemma split_kept ps : exists run rest, ps = (Kept <$> run) ++ rest /\ (rest = [] \/ exists h rest', rest = Hidden h :: rest').
Proof.
  induction ps as [|[r|h] ps IH]; [exists [], []; auto| |exists [], (Hidden h :: ps); eauto].
  destruct IH as (run & rest & -> & Hrest). by exists (r :: run), rest.
Qed.

Lemma concat_kept run : concat (shown_runes <$> (Kept <$> run)) = run.
Proof. induction run as [|r run IH]; [done|]. cbn. by rewrite IH. Qed.

(** A stretch of the output without brackets is inside a marker or was copied. *)
Lemma shown_infix w : 91 ∉ w -> 93 ∉ w -> forall n ps, (length ps <= n)%nat -> infix w (concat (shown_runes <$> ps)) ->
  (length w <= 8)%nat \/ exists p1 run p2, ps = p1 ++ (Kept <$> run) ++ p2 /\ infix w run.
Proof.
  intros Ho Hc. induction n as [|n IH]; intros ps Hn Hw.
  { left. destruct ps; [|cbn in Hn; lia]. apply infix_length in Hw. cbn in Hw. lia. }
  destruct (split_kept ps) as (run & rest & -> & [->|(h & rest' & ->)]).
  - right. exists [], run, []. split; [done|]. rewrite app_nil_r in Hw. by rewrite concat_kept in Hw.
  - rewrite fmap_app, concat_app, concat_kept in Hw. cbn [fmap list_fmap concat shown_runes] in Hw.
    destruct marker_runes_eq as [Hm _]. rewrite Hm in Hw. unfold marker_runes in Hw. cbn [app] in Hw.
    apply infix_avoid in Hw as [Hw|Hw]; [right; by exists [], run, (Hidden h :: rest')| |done].
    apply (infix_avoid w [114; 101; 100; 97; 99; 116; 101; 100] (concat (shown_runes <$> rest')) 93) in Hw as [Hw|Hw]; [| |done].
    + left. apply infix_length in Hw. done.
    + rewrite length_app in Hn. cbn [length] in Hn. destruct (IH rest' ltac:(lia) Hw) as [?|(p1 & run' & p2 & -> & Hrun)]; [by left|].
      right. exists ((Kept <$> run) ++ Hidden h :: p1), run', p2. by rewrite <- app_assoc.
Qed.

Section LeakFacts.
Context {E : Env} (token : string) (Htok : okta_token token).

Lemma unreserved_ascii c : unreserved c = true -> 0 <= c < 128.
Proof. unfold unreserved. lia. Qed.

Lemma token_runes : to_runes token = bytes token.
Proof.
  apply to_runes_ascii. destruct Htok as [H _]. eapply Forall_impl; [exact H|]. intros c Hc. by apply unreserved_ascii.
Qed.

Lemma token_length : length (to_runes token) = String.length token.
Proof. rewrite token_runes. unfold bytes. rewrite length_fmap. clear. induction token as [|c t IH]; [done|]. cbn. by rewrite IH. Qed.

Lemma folded_no_bracket w : infix (rune_ToLower <$> w) (foldRunes token) -> 91 ∉ w /\ 93 ∉ w.
Proof.
  intros Hw. assert (H : forall c, c ∈ foldRunes token -> c <> 91 /\ c <> 93).
  { intros c Hc. unfold foldRunes in Hc. rewrite token_runes in Hc. apply list_elem_of_fmap in Hc as (b & -> & Hb).
    destruct Htok as [Hu _]. eapply Forall_forall in Hu; [|exact Hb]. unfold unreserved in Hu. unfold rune_ToLower.
    destruct (Z.ltb_spec b 128); [|lia]. destruct ((65 <=? b) && _) eqn:?; lia. }
  assert (Hin : forall c, c ∈ w -> rune_ToLower c ∈ foldRunes token).
  { intros c Hc. eapply infix_elem; [exact Hw|]. by apply list_elem_of_fmap_2. }
  split; intros Hc; apply Hin, H in Hc; by destruct Hc.
Qed.

Lemma folded_length : length (foldRunes token) = String.length token.
Proof. unfold foldRunes. by rewrite length_fmap, token_length. Qed.

Lemma okta_threshold : fragmentThreshold token = Z.of_nat (String.length token) - 11.
Proof.
  destruct Htok as [_ Hn]. unfold fragmentThreshold, maxUnknownCharsAfterLeak, minTokenFragmentLen. rewrite token_length.
  destruct (Z.ltb_spec (Z.of_nat (String.length token) - 12 + 1) 8); lia.
Qed.

Lemma of_runes_bytes l : bytes (of_runes l) = concat (EncodeRune <$> l).
Proof. unfold of_runes. apply bytes_of_bytes, Forall_concat, Forall_fmap, Forall_forall. intros r _. apply EncodeRune_bytes. Qed.

(** Text in ASCII has one byte per rune. *)
Lemma EncodeRune_ascii r : Forall (fun b => b < 128) (EncodeRune r) -> EncodeRune r = [r].
Proof.
  unfold EncodeRune. set (r' := if _ || _ then _ else _). intros H.
  assert (Hr : r' = r \/ r' = RuneError) by (unfold r'; destruct (_ || _); auto).
  destruct (Z.ltb_spec r' 128); [destruct Hr as [->|Hr]; [done|rewrite Hr in *; by vm_compute in H0]|].
  exfalso. revert H. pose proof (Z.mod_pos_bound r' 64 ltac:(lia)) as Hm. clear -H0 Hm.
  repeat match goal with |- context [if ?c then _ else _] => destruct c eqn:? end; rewrite !Forall_cons; lia.
Qed.

Lemma of_runes_ascii l : Forall (fun b => b < 128) (bytes (of_runes l)) -> bytes (of_runes l) = l.
Proof.
  rewrite of_runes_bytes. induction l as [|r l IH]; [done|]. cbn [fmap list_fmap concat]. rewrite Forall_app. intros [Hr Hl].
  rewrite (EncodeRune_ascii r Hr), (IH Hl). done.
Qed.

Lemma HasPrefix_split s p : HasPrefix s p = true -> exists q, s = p +:+ q.
Proof.
  revert s. induction p as [|c p IH]; intros s; [by exists s|]. destruct s as [|d s]; [done|]. cbn.
  destruct (Ascii.ascii_dec _ _) as [->|]; [|done]. intros [q ->]%IH. by exists q.
Qed.

Lemma Contains_split s w : Contains s w = true -> exists p q, s = p +:+ w +:+ q.
Proof.
  induction s as [|c s IH]; cbn [Contains]; rewrite orb_true_iff.
  - intros [H|H]; [|done]. destruct (HasPrefix_split _ _ H) as [q Hq]. by exists "", q.
  - intros [H|H]; [destruct (HasPrefix_split _ _ H) as [q Hq]; by exists "", q|]. destruct (IH H) as (p & q & ->). by exists (String c p), q.
Qed.

Lemma folded_ascii : Forall (fun b => 0 <= b < 128) (foldRunes token).
Proof.
  unfold foldRunes. rewrite token_runes. apply Forall_fmap. destruct Htok as [Hu _]. eapply Forall_impl; [exact Hu|].
  intros c Hc%unreserved_ascii. unfold compose, rune_ToLower. destruct (Z.ltb_spec c 128); [|lia]. destruct ((65 <=? c) && _) eqn:?; lia.
Qed.

Lemma folded_bytes : bytes (of_runes (foldRunes token)) = foldRunes token.
Proof.
  rewrite of_runes_bytes. pose proof folded_ascii as H. revert H. generalize (foldRunes token). induction 1 as [|c l Hc _ IH]; [done|].
  cbn [fmap list_fmap concat]. rewrite IH, EncodeRune_small by (unfold valid_rune; lia). destruct (Z.ltb_spec c 128); [done|lia].
Qed.

(** For a token of Okta's shape, what the scan looks for is what gives it away. *)
Lemma material_revealing w : material token w <-> revealing token w.
Proof.
  pose proof folded_length as Hfl. pose proof token_length as Hlen. pose proof okta_threshold as Hth. destruct Htok as [Hu Hn].
  unfold material, revealing. rewrite credentialNeedles_unreserved by done. cbn [hd]. rewrite Hth, Hlen, Hfl. split.
  - assert (Hin : Contains (of_runes (foldRunes token)) (of_runes w) = true -> infix w (foldRunes token)).
    { intros (p & q & Heq)%Contains_split. apply (f_equal bytes) in Heq. rewrite folded_bytes, !bytes_app in Heq.
      rewrite (of_runes_ascii w) in Heq; [by exists (bytes p), (bytes q)|]. pose proof folded_ascii as Ha. rewrite Heq in Ha.
      apply Forall_app in Ha as [_ Ha]. apply Forall_app in Ha as [Ha _]. eapply Forall_impl; [exact Ha|]. cbn. lia. }
    intros [(_ & nd & ->%list_elem_of_singleton & Hl & Heq)|(_ & Ht & Hlt & Hc)]; (split; [apply Hin|]); [|lia|done|lia].
    rewrite Heq. apply (infix_Contains _ _). by exists [], []; rewrite app_nil_r.
  - intros [Hf Hlong]. pose proof (infix_length _ _ Hf) as Hl. rewrite Hfl in Hl.
    destruct (decide (length w = String.length token)) as [He|He].
    + left. split; [intros ->; cbn in He; lia|]. exists (foldRunes token). split; [by left|]. split; [by rewrite Hfl|].
      destruct Hf as (p & q & Heqf). pose proof (f_equal length Heqf) as Hl2.
      rewrite !length_app, Hfl in Hl2. destruct p; [|cbn in Hl2; lia]. destruct q; [|cbn in Hl2; lia]. by rewrite Heqf, app_nil_r.
    + right. split_and!; [lia|lia|lia|]. by apply infix_Contains.
Qed.

Lemma redacts_revealing rs ps : redacts token rs ps -> cuts (revealing token) rs ps.
Proof.
  intros (Hs & Hh & Hk). split_and!; [done| |].
  - intros w Hw. by apply material_revealing, Hh.
  - intros p1 run p2 w Heq Hw Hr%material_revealing. by apply (Hk p1 run p2 w).
Qed.

(** Whatever the scan is given, what it lets through is short. *)
Lemma redact_loop_leak rs ps w : redacts token rs ps ->
  infix w (concat (shown_runes <$> ps)) -> infix (rune_ToLower <$> w) (foldRunes token) ->
  (length w + 12 <= String.length token)%nat.
Proof.
  intros (_ & _ & Hkept)%redacts_revealing Hw Hf. destruct (folded_no_bracket w Hf) as [Ho Hc].
  destruct (shown_infix w Ho Hc (length ps) ps (Nat.le_refl _) Hw) as [?|(p1 & run & p2 & Heq & Hrun)]; [destruct Htok; lia|].
  destruct (decide (length w + 12 <= String.length token)%nat) as [|Hlong]; [done|].
  destruct (Hkept p1 run p2 w Heq Hrun). split; [done|]. rewrite length_fmap. lia.
Qed.

(** What is safe to show: valid runes, few consecutive token characters. *)
Definition discreet (l : list Z) : Prop :=
  Forall valid_rune l /\
  forall w, infix w l -> infix (rune_ToLower <$> w) (foldRunes token) -> (length w + 12 <= String.length token)%nat.

Lemma discreet_infix l l' : infix l' l -> discreet l -> discreet l'.
Proof.
  intros Hi [Hv Hw]. split.
  - apply Forall_forall. intros c Hc. eapply Forall_forall in Hv; [exact Hv|]. by eapply infix_elem.
  - intros w Hw' Hf. apply Hw; [by eapply infix_trans|done].
Qed.

Lemma discreet_marker l : discreet l -> discreet (l ++ marker_runes).
Proof.
  intros [Hv Hw]. split.
  - apply Forall_app. split; [done|]. unfold marker_runes. repeat constructor; unfold valid_rune; lia.
  - intros w Hin Hf. destruct Htok as [_ Hn]. destruct (folded_no_bracket w Hf) as [Ho Hc].
    unfold marker_runes in Hin. apply infix_avoid in Hin as [Hin|Hin]; [by apply Hw| |done].
    apply (infix_avoid w [114; 101; 100; 97; 99; 116; 101; 100] [] 93) in Hin as [Hin|Hin]; [| |done];
      apply infix_length in Hin; cbn in Hin; lia.
Qed.

Lemma discreet_nil : discreet [].
Proof.
  split; [constructor|]. intros w Hw _. apply infix_length in Hw. destruct Htok. cbn in Hw. lia.
Qed.

(** Runes of the output come from the input or from a marker. *)
Lemma shown_origin ps c : c ∈ concat (shown_runes <$> ps) -> c ∈ concat (source <$> ps) \/ c ∈ marker_runes.
Proof.
  induction ps as [|p ps IH]; [by intros ?%not_elem_of_nil|]. cbn [fmap list_fmap concat]. rewrite !elem_of_app.
  intros [Hp|Hps]; [|naive_solver]. destruct p; [by left; left|]. right. cbn [shown_runes] in Hp. by destruct marker_runes_eq as [<- _].
Qed.

Lemma redactCredential_out s : exists l, redactCredential s token = of_runes l /\ discreet l /\
  forall c, c ∈ l -> c ∈ to_runes s \/ c ∈ marker_runes.
Proof.
  unfold redactCredential. destruct (String.eqb_spec token "") as [Ht|_]; [destruct Htok as [_ Hn]; rewrite Ht in Hn; cbn in Hn; lia|].
  cbn [orb]. destruct (String.eqb_spec s "") as [->|_].
  { exists []. split_and!; [done|apply discreet_nil|by intros c ?%not_elem_of_nil]. }
  destruct (String.eqb_spec s token) as [->|_].
  { exists marker_runes. split_and!; [by destruct marker_runes_eq|apply (discreet_marker [] discreet_nil)|by right]. }
  destruct (redact_loop_run token (to_runes s) (length (to_runes s)) 0 ltac:(lia) ltac:(lia)) as (ps & -> & Hr).
  exists (concat (shown_runes <$> ps)). pose proof Hr as [Hsrc _]. rewrite drop_0 in Hsrc.
  split_and!; [apply shown_of_runes| |].
  - split; [apply shown_valid; rewrite Hsrc; apply to_runes_valid|]. intros w. by apply (redact_loop_leak _ _ _ Hr).
  - intros c Hc. apply shown_origin in Hc. by rewrite Hsrc in Hc.
Qed.

(** The retained tail: cutting an ASCII suffix cuts whole runes. *)
Lemma ascii_tail t : Forall (fun b => b < 128) t -> forall l x, Forall valid_rune l ->
  concat (EncodeRune <$> l) = x ++ t -> exists l', l = l' ++ t /\ x = concat (EncodeRune <$> l').
Proof.
  induction t as [|b t IH] using rev_ind; intros Ht l x Hl Heq.
  { exists l. rewrite !app_nil_r in *. by split. }
  apply Forall_app in Ht as [Ht Hb]. apply Forall_cons in Hb as [Hb _].
  destruct l as [|r l _] using rev_ind.
  { symmetry in Heq. apply app_eq_nil in Heq as [_ Heq]. by apply app_eq_nil in Heq as [_ ?]. }
  apply Forall_app in Hl as [Hl Hr]. apply Forall_cons in Hr as [Hr _].
  rewrite fmap_app, concat_app in Heq. cbn [fmap list_fmap concat] in Heq. rewrite app_nil_r in Heq.
  assert (Hlast : exists i z, EncodeRune r = i ++ [z] /\ (z < 128 -> i = [] /\ z = r)).
  { rewrite EncodeRune_small by done. destruct Hr as [Hr _].
    assert (0 <= r mod 64) by (apply Z.mod_pos_bound; lia).
    repeat match goal with |- context [if ?c then _ else _] => destruct c eqn:? end.
    - by exists [], r.
    - exists [192 + r / 64], (128 + r mod 64). split; [done|lia].
    - exists [224 + r / 4096; 128 + (r / 64) mod 64], (128 + r mod 64). split; [done|lia].
    - exists [240 + r / 262144; 128 + (r / 4096) mod 64; 128 + (r / 64) mod 64], (128 + r mod 64). split; [done|lia]. }
  destruct Hlast as (i & z & Hz & Hi). rewrite Hz, !app_assoc in Heq. apply app_inj_tail in Heq as [Heq ->].
  destruct (Hi Hb) as [-> ->]. rewrite app_nil_r in Heq. destruct (IH Ht l x Hl Heq) as (l' & -> & ->).
  exists l'. by rewrite app_assoc.
Qed.


Lemma take_drop_bytes n s : take_bytes n s +:+ drop_bytes n s = s.
Proof.
  revert s. induction n as [|n IH]; intros [|c s]; try done. cbn [take_bytes drop_bytes].
  change (String c (take_bytes n s +:+ drop_bytes n s) = String c s). by rewrite IH.
Qed.

Lemma bytes_take n s : bytes (take_bytes n s) = take n (bytes s).
Proof. revert s. induction n as [|n IH]; intros [|c s]; try done. unfold bytes in *. cbn. by rewrite IH. Qed.

Lemma length_take_bytes n s : (n <= String.length s)%nat -> String.length (take_bytes n s) = n.
Proof. revert s. induction n as [|n IH]; intros [|c s] Hn; try done; cbn in *; [lia|]. by rewrite IH by lia. Qed.

Lemma trim_tail_out n : (n <= String.length token)%nat -> forall l, discreet l -> exists l', trim_tail token (of_runes l) n = of_runes l' /\ discreet l' /\
  forall c, c ∈ l' -> c ∈ l \/ c ∈ marker_runes.
Proof.
  induction n as [|n IH]; intros Hn l Hl; cbn [trim_tail]; [exists l; by auto|].
  destruct (_ <? _)%nat; [exists l; by auto|].
  destruct (HasSuffix _ _) eqn:Hs; [|apply IH; [lia|done]]. unfold HasSuffix in Hs. apply andb_true_iff in Hs as [Hle Hs].
  apply Nat.leb_le in Hle. apply String.eqb_eq in Hs.
  set (t := take_bytes (S n) token) in *. set (k := (String.length (of_runes l) - String.length t)%nat) in *.
  pose proof (take_drop_bytes k (of_runes l)) as Hcut. rewrite Hs in Hcut.
  assert (Ht : Forall (fun b => b < 128) (bytes t)).
  { unfold t. rewrite bytes_take. apply Forall_take. destruct Htok as [Hu _].
    eapply Forall_impl; [exact Hu|]. intros c Hc. by apply unreserved_ascii. }
  pose proof (f_equal bytes Hcut) as Hb. rewrite bytes_app, of_runes_bytes in Hb.
  destruct (ascii_tail _ Ht l _ ltac:(by destruct Hl) (eq_sym Hb)) as (l' & -> & Hx).
  exists (l' ++ marker_runes). assert (Hlen : String.length t = S n) by (by apply length_take_bytes).
  rewrite (of_runes_app l' marker_runes). destruct marker_runes_eq as [_ ->]. rewrite <- Hlen. fold k. split_and!.
  - f_equal. apply (inj bytes). by rewrite Hx, of_runes_bytes.
  - apply discreet_marker. eapply discreet_infix; [|exact Hl]. exists [], (bytes t). done.
  - intros c [Hc|Hc]%elem_of_app; [left|by right]. apply elem_of_app. by left.
Qed.

(** [TrimSpace] of well-formed text drops runes at both ends. *)
Lemma chunks_encode l : Forall valid_rune l ->
  chunks (runes (bytes (of_runes l))) (bytes (of_runes l)) = (fun r => (r, EncodeRune r)) <$> l.
Proof.
  rewrite of_runes_bytes. unfold runes. intros Hl. generalize (Nat.le_refl (length (concat (EncodeRune <$> l)))).
  generalize (length (concat (EncodeRune <$> l))) at 2 3. induction Hl as [|r l Hr _ IH]; intros fuel Hf; [by destruct fuel|].
  cbn [fmap list_fmap concat] in *. rewrite length_app in Hf. pose proof (EncodeRune_length r).
  destruct fuel as [|fuel]; [lia|]. cbn [runes_fuel].
  destruct (EncodeRune r ++ concat (EncodeRune <$> l)) as [|b bs] eqn:Eb.
  { apply app_eq_nil in Eb as [Eb _]. rewrite Eb in *. cbn in *. lia. }
  rewrite <- Eb, DecodeRune_EncodeRune, drop_app_length by done. cbn [chunks].
  rewrite take_app_length, drop_app_length. f_equal. apply IH. lia.
Qed.

Lemma drop_while_infix {A} (p : A -> bool) l : infix (drop_while p l) l.
Proof.
  induction l as [|x l IH]; [by exists [], []|]. cbn [drop_while]. destruct (p x); [|by exists [], []; rewrite app_nil_r].
  destruct IH as (a & b & Heq). exists (x :: a), b. cbn. by rewrite <- Heq.
Qed.

Lemma infix_reverse {A} (w l : list A) : infix w l -> infix (reverse w) (reverse l).
Proof. intros (a & b & ->). exists (reverse b), (reverse a). by rewrite !reverse_app, app_assoc. Qed.

Lemma drop_while_fmap {A B} (f : A -> B) p l : drop_while p (f <$> l) = f <$> drop_while (p ∘ f) l.
Proof. induction l as [|x l IH]; [done|]. cbn. by destruct (p (f x)). Qed.

Lemma TrimSpace_out l : Forall valid_rune l -> exists l', TrimSpace (of_runes l) = of_runes l' /\ infix l' l.
Proof.
  intros Hl. unfold TrimSpace. rewrite chunks_encode by done. rewrite drop_while_fmap, <- fmap_reverse, drop_while_fmap.
  rewrite <- fmap_reverse. set (l' := reverse (drop_while _ (reverse (drop_while _ l)))). exists l'. split.
  - rewrite <- list_fmap_compose. reflexivity.
  - unfold l'. eapply infix_trans; [|apply drop_while_infix]. rewrite <- (reverse_involutive (drop_while _ l)) at 2.
    apply infix_reverse, drop_while_infix.
Qed.
End LeakFacts.

(** ** Facts: sanitised text *)

Definition printable (r : Z) : Prop := IsControl r = false /\ IsFormat r = false.

Lemma sanitizeRune_printable r c : c ∈ sanitizeRune r -> printable c.
Proof.
  unfold sanitizeRune. destruct ((r =? 9) || (r =? 10) || (r =? 13)).
  { intros ->%list_elem_of_singleton. by split. }
  destruct ((r <? 32) || (r =? 127)); [by intros ?%not_elem_of_nil|].
  destruct (IsControl r || IsFormat r) eqn:Hc; [by intros ?%not_elem_of_nil|].
  intros ->%list_elem_of_singleton. by apply orb_false_iff in Hc.
Qed.

Lemma sanitizeServerBody_out data : exists l, sanitizeServerBody data = of_runes l /\ Forall valid_rune l /\ Forall printable l.
Proof.
  eexists. split; [reflexivity|]. pose proof (to_runes_valid data) as Hv. split.
  - apply Forall_concat, Forall_fmap. eapply Forall_impl; [exact Hv|]. intros r Hr. unfold compose, sanitizeRune.
    assert (valid_rune 32) by (unfold valid_rune; lia).
    repeat case_match; first [by apply Forall_nil_2 | by apply Forall_cons_2; [|apply Forall_nil_2]].
  - apply Forall_concat, Forall_fmap, Forall_forall. intros r _. apply Forall_forall. intros c. apply sanitizeRune_printable.
Qed.

Lemma truncate_loop_prefix l : Forall valid_rune l -> forall fuel limit i, exists l' q, l = l' ++ q /\
  truncate_loop fuel (concat (EncodeRune <$> l)) limit i = (i + length (concat (EncodeRune <$> l')))%nat.
Proof.
  induction 1 as [|r l Hr _ IH]; intros fuel limit i.
  { exists [], []. split; [done|]. rewrite Nat.add_0_r. destruct fuel; [done|]. cbn. by destruct (_ <=? _)%nat. }
  destruct fuel as [|fuel]; [by exists [], (r :: l); rewrite Nat.add_0_r|]. cbn [truncate_loop fmap list_fmap concat].
  destruct (_ <=? _)%nat; [by exists [], (r :: l); rewrite Nat.add_0_r|]. rewrite DecodeRune_EncodeRune by done.
  destruct (_ && _); [by exists [], (r :: l); rewrite Nat.add_0_r|].
  destruct (_ <? _)%nat; [by exists [], (r :: l); rewrite Nat.add_0_r|]. rewrite drop_app_length.
  destruct (IH fuel limit (i + length (EncodeRune r))%nat) as (l' & q & -> & ->). exists (r :: l'), q. split; [done|].
  cbn [fmap list_fmap concat]. rewrite length_app. lia.
Qed.

(** Truncation keeps whole runes from the front. *)
Lemma truncate_out l max : Forall valid_rune l -> exists l' q, l = l' ++ q /\
  of_bytes (truncateToRuneBoundary (bytes (of_runes l)) max) = of_runes l'.
Proof.
  intros Hl. rewrite of_runes_bytes. unfold truncateToRuneBoundary.
  destruct (truncate_loop_prefix l Hl (length (concat (EncodeRune <$> l)))
    (if (length (concat (EncodeRune <$> l)) <? max)%nat then length (concat (EncodeRune <$> l)) else max) 0) as (l' & q & -> & ->).
  exists l', q. split; [done|]. rewrite Nat.add_0_l, fmap_app, concat_app, take_app_length. done.
Qed.

Lemma marker_printable c : c ∈ marker_runes -> printable c.
Proof.
  unfold marker_runes. rewrite !elem_of_cons. intros Hc.
  repeat destruct Hc as [->|Hc]; [by split..|]. by apply not_elem_of_nil in Hc.
Qed.

(** All the steps of a snippet. *)
Lemma snippet_out {E : Env} (token body : string) : okta_token token ->
  exists l, safeErrSnippet token body = of_runes l /\ discreet token l /\ Forall printable l.
Proof.
  intros Htok. unfold safeErrSnippet.
  destruct (sanitizeServerBody_out (redactCredential (take_bytes (snippet_window token) body) token)) as (l1 & -> & Hv1 & Hp1).
  destruct (truncate_out l1 maxErrBodyBytes Hv1) as (l2 & q & -> & ->).
  apply Forall_app in Hv1 as [Hv2 _]. apply Forall_app in Hp1 as [Hp2 _].
  destruct (redactCredential_out token Htok (of_runes l2)) as (l3 & -> & Hd3 & Hc3). rewrite to_of_runes in Hc3 by done.
  destruct (String.eqb_spec token "") as [Ht|_]; [destruct Htok as [_ Hn]; rewrite Ht in Hn; cbn in Hn; lia|].
  destruct (trim_tail_out token Htok (String.length token - 1) ltac:(lia) l3 Hd3) as (l4 & -> & Hd4 & Hc4).
  destruct (TrimSpace_out l4 ltac:(by destruct Hd4)) as (l5 & -> & Hi5). exists l5.
  split_and!; [done|by eapply discreet_infix|]. apply Forall_forall. intros c Hc. eapply infix_elem in Hc; [|exact Hi5].
  apply Hc4 in Hc as [Hc|Hc]; [apply Hc3 in Hc as [Hc|Hc]|]; [|by apply marker_printable..].
  by eapply Forall_forall in Hp2.
Qed.

(** ** Facts: the log handler *)

(** The text of a value that the handler is responsible for: strings and
    arbitrary values, at any depth of groups. *)
Inductive shows : value -> string -> Prop :=
| shows_string s : shows (VString s) s
| shows_any s : shows (VAny s) s
| shows_group attrs k v s : (k, v) ∈ attrs -> shows v s -> shows (VGroup attrs) s.

Lemma value_ind' (P : value -> Prop) :
  (forall s, P (VString s)) -> (forall s, P (VAny s)) -> (forall attrs, Forall (fun kv => P kv.2) attrs -> P (VGroup attrs)) ->
  (forall s, P (VLogValuer s)) -> (forall s, P (VPlain s)) -> forall v, P v.
Proof.
  intros Hs Ha Hg Hl Hp. fix IH 1. intros [s|s|attrs|s|s]; [apply Hs|apply Ha| |apply Hl|apply Hp].
  apply Hg. induction attrs as [|[k v] attrs IHa]; constructor; [apply IH|exact IHa].
Qed.

Lemma scrubValue_shows redact v t : shows (scrubValue redact v) t -> exists s, shows v s /\ t = redact s.
Proof.
  revert t. induction v as [s|s|attrs IH|s|s] using value_ind'; intros t Ht; inversion Ht; subst.
  - exists s. split; [constructor|done].
  - exists s. split; [constructor|done].
  - match goal with H : _ ∈ _ <$> attrs |- _ => apply list_elem_of_fmap in H as ([k' v'] & [= -> ->] & Hin) end.
    eapply Forall_forall in IH; [|exact Hin]. destruct (IH _ ltac:(eassumption)) as (s & Hs & ->).
    exists s. split; [by eapply shows_group|done].
Qed.

(** Every text of a handled record went through the scrubber. *)
Lemma Handle_texts redact r t :
  (t = LogRecord.Message (Handle redact r) \/ exists k v, (k, v) ∈ LogRecord.Attrs (Handle redact r) /\ shows v t) ->
  exists s, t = redact s.
Proof.
  intros [->|(k & v & Hin & Hv)]; [by eexists|]. cbn in Hin. apply list_elem_of_fmap in Hin as ([k' v'] & [= -> ->] & _).
  apply scrubValue_shows in Hv as (s & _ & ->). by exists s.
Qed.

(** ** Properties *)

(** C24: redaction is exact. For a token of Okta's shape (unreserved characters, at
    least 20), whatever the text: the output is the text with some stretches
    replaced by the marker; each hidden stretch is, in some case, a run of the
    token's characters that leaves fewer than 12 of them unknown, so nothing else is
    lost from a diagnostic; and no stretch of consecutive copied characters is such
    a run. *)
Theorem redactCredential_exact {E : Env} (s token : string) : okta_token token ->
  exists ps, redactCredential s token = sconcat (shown <$> ps) /\ cuts (revealing token) (to_runes s) ps.
Proof.
  intros Htok. unfold redactCredential. destruct (String.eqb_spec token "") as [Ht|_]; [destruct Htok as [_ Hn]; rewrite Ht in Hn; cbn in Hn; lia|].
  cbn [orb]. destruct (String.eqb_spec s "") as [->|_]; [exists []; split; [done|apply redacts_revealing, redacts_nil; done]|].
  destruct (String.eqb_spec s token) as [->|_].
  - exists [Hidden (to_runes token)]. split; [done|]. rewrite <- (app_nil_r (to_runes token)) at 1.
    apply redacts_revealing; [done|]. apply redacts_hidden; [|apply redacts_nil]. apply material_revealing; [done|].
    fold (foldRunes token). split; [by exists [], []; rewrite app_nil_r|]. rewrite folded_length by done. lia.
  - destruct (redact_loop_run token (to_runes s) (length (to_runes s)) 0 ltac:(lia) ltac:(lia)) as (ps & -> & Hps). exists ps.
    split; [done|]. by apply redacts_revealing.
Qed.

Lemma redactCredential_exact_witness :
  exists ps, redactCredential "Bearer 00CANARYtoken_VALUE-9f3e2b1a" demo_token = sconcat (shown <$> ps) /\
    cuts (revealing demo_token) (to_runes "Bearer 00CANARYtoken_VALUE-9f3e2b1a") ps.
Proof.
  apply (redactCredential_exact "Bearer 00CANARYtoken_VALUE-9f3e2b1a" demo_token).
  split; [repeat constructor|]. vm_compute. repeat constructor.
Defined.

(** an error snippet is safe to log: whatever a server answers, with a token
    of Okta's shape, any stretch of the snippet that shows consecutive characters
    of the token, in any case, leaves at least 12 of them unknown, and the snippet
    has no control or format character. *)
Theorem snippet_safe {E : Env} (token body : string) : okta_token token ->
  (forall w, exposed token (safeErrSnippet token body) w -> (length w + 12 <= String.length token)%nat) /\
  Forall printable (to_runes (safeErrSnippet token body)).
Proof.
  intros Htok. destruct (snippet_out token body Htok) as (l & -> & [Hv Hd] & Hp). unfold exposed. rewrite to_of_runes by done.
  split; [intros w [? ?]; by apply Hd|done].
Qed.

Lemma snippet_safe_witness :
  Forall printable (to_runes (safeErrSnippet demo_token "{errorCode: E0000011, token: 00canaryTOKEN_value-9f3e2b1a}")).
Proof.
  apply (snippet_safe demo_token "{errorCode: E0000011, token: 00canaryTOKEN_value-9f3e2b1a}").
  split; [repeat constructor|]. vm_compute. repeat constructor.
Defined.

(** nothing a record says escapes the log handler: every message, string or
    error text, at any depth of attribute groups, that reaches the inner handler
    has been redacted, so any stretch of it that shows consecutive characters of a
    token of Okta's shape leaves at least 12 of them unknown. *)
Theorem Handle_scrubs {E : Env} (token : string) (r : LogRecord.t) (t : string) (w : list Z) : okta_token token ->
  let r' := Handle (fun s => redactCredential s token) r in
  (t = LogRecord.Message r' \/ exists k v, (k, v) ∈ LogRecord.Attrs r' /\ shows v t) ->
  exposed token t w -> (length w + 12 <= String.length token)%nat.
Proof.
  intros Htok. cbv zeta. intros [s ->]%Handle_texts [Hw Hf]. destruct (redactCredential_out token Htok s) as (l & Heq & [Hv Hd] & _). rewrite Heq, to_of_runes in Hw by done. by apply Hd.
Qed.

Lemma Handle_scrubs_witness :
  exposed demo_token "poll cycle failed" [97] /\ (length [97] + 12 <= 28)%nat.
Proof.
  assert (Hx : exposed demo_token "poll cycle failed" [97]).
  { split; [exists (take 12 (to_runes "poll cycle failed")), (drop 13 (to_runes "poll cycle failed"))|
            exists (take 3 (foldRunes demo_token)), (drop 4 (foldRunes demo_token))]; vm_compute; reflexivity. }
  split; [exact Hx|]. revert Hx.
  apply (Handle_scrubs demo_token (LogRecord.mk "poll cycle failed" [("error", VAny "echo 00canaryTOKEN_value-9f3e2b1a")])
    "poll cycle failed" [97]).
  - split; [repeat constructor|]. vm_compute. repeat constructor.
  - left. vm_compute. reflexivity.
Defined.

(** ** What modelling showed *)

(** A credential reflected in two halves passes unchanged: each half is below
    the threshold, so all of its characters are known. *)
Theorem split_reflection_leaks :
  let token := "00abcdefghijklmnopqrstuvwxyzABCDEFGHIJKLMN" in
  okta_token token /\
  redactCredential (take_bytes 21 token +:+ " / " +:+ drop_bytes 21 token) token
  = take_bytes 21 token +:+ " / " +:+ drop_bytes 21 token.
Proof. split; [split; [repeat constructor|vm_compute; repeat constructor]|vm_compute; reflexivity]. Qed.

(** The first needle is the longest spelling, not the token: for a token with a
    reserved character, all but its last character go through. *)
Theorem escaped_token_unswept :
  let token := "00abcdefghijklmnopqr/stuvwxyzABCDEFGHIJKLMN" in
  hd [] (credentialNeedles token) <> foldRunes token /\
  redactCredential (take_bytes 42 token) token = take_bytes 42 token.
Proof. split; [by vm_compute|vm_compute; reflexivity]. Qed.

(** A value that resolves itself when it is logged is handed on as it is. *)
Theorem logvaluer_unscrubbed redact k text r :
  (k, VLogValuer text) ∈ LogRecord.Attrs r -> (k, VLogValuer text) ∈ LogRecord.Attrs (Handle redact r).
Proof. intros H. apply list_elem_of_fmap. by exists (k, VLogValuer text). Qed.
