(* ===== verification/OktaClient.v ===== *)
(** * adapters/okta: the System Log client (client.go)

    Pagination, retries and the checks on what a server answers. The client's
    state is the wait the server asked for ([lastRetryAfter]); its requests are
    recorded in [reqs]. An error is kept as the parts its message is made of, each
    part as it was redacted. Decoding a page into events is an answer of
    [encoding/json]: [decode_page]. *)

From S2P Require Import Prelude GoStrings GoTime GoFloat GoCrypto GoRunes GoJson GoHttp Types World Instances Okta OktaRedact OktaPoller.
From Stdlib Require Import SpecFloat.

Inductive unsafe_reason :=
| Unparseable (raw err : string)
| BadBaseURL (err : string)
| MissingHost (raw : string)
| ForeignHost (host tenant : string)
| BadScheme (scheme : string).

(** [BuildRequest]: the URL did not make a request; [GivingUp]: the last of the
    retries. *)
Inductive client_error :=
| AuthFailed (status : Z) (snippet : string)
| RateLimited
| ServerError (status : Z)
| UnexpectedStatus (status : Z) (snippet : string)
| Transport (text : string)
| DecodePage (text : string)
| BuildRequest (url : string)
| ContextDone (text : string)
| GivingUp (e : client_error)
| TooManyPages
| UnsafeNextURL (r : unsafe_reason).

Module FetchLogsParams.
Record t := mk { Since : Time; Until : Time; Limit : Z; MaxPages : Z }.
End FetchLogsParams.

Module Client.
Record t := mk { baseURL : string; token : string; maxBackoff : Z }.
End Client.

Definition NewClient (baseURL token : string) : Client.t := Client.mk (TrimSuffix_slash baseURL) token (60 * Second).

(** ** Headers *)

Definition char_semicolon : Ascii.ascii := ascii_of 59.
Definition char_lt : Ascii.ascii := ascii_of 60.
Definition char_gt : Ascii.ascii := ascii_of 62.

Section Headers.
Context {E : Env} {N : Net}.

Definition next_attr (attr : string) : bool :=
  let attr := TrimSpace attr in
  HasPrefix attr ("rel=" +:+ dquote +:+ "next" +:+ dquote) || String.eqb attr "rel=next".

(** One part of the header: its link, if the part is the next page. *)
Definition link_part (part : string) : option string :=
  match Index1 part char_lt, Index1 part char_gt with
  | Some lt, Some gt =>
      if (gt <? lt)%nat then None
      else
        let link := take_bytes (gt - (lt + 1)) (drop_bytes (lt + 1) part) in
        let rest := ToLower (drop_bytes (gt + 1) part) in
        if existsb next_attr (Split char_semicolon rest) then Some link else None
  | _, _ => None
  end.

Fixpoint first_link (parts : list string) : string :=
  match parts with
  | [] => ""
  | part :: parts' => match link_part part with Some link => link | None => first_link parts' end
  end.

Definition nextLink (header : string) : string := first_link (Split (ascii_of 44) header).

(** [retryAfter]: the clock is read where a deadline is compared with it. *)
Definition retryAfter (resp : HttpResponse.t) : PM Z Z :=
  best ←
    (let v := HttpResponse.Header resp "Retry-After" in
     let secs := match Atoi v with Some n => if 0 <=? n then Some n else None | None => None end in
     if String.eqb v "" then mret 0
     else match secs, http_ParseTime v with
          | Some n, _ => mret (DurationOf n Second)
          | None, Some t => now ← pask clock; let d := Sub t now in mret (if 0 <? d then d else 0)
          | None, None => mret 0
          end);
  let v := HttpResponse.Header resp "X-Rate-Limit-Reset" in
  if String.eqb v "" then mret best
  else
    let '(epoch, ok) := ParseInt v in
    if ok then
      now ← pask clock;
      let d := Sub (mkTime (epoch * Second) 0) now in
      mret (if (0 <? d) && ((best =? 0) || (d <? best)) then d else best)
    else mret best.
End Headers.

(** ** The client *)

Section Client.
Context {E : Env} {N : Net}.
Context (decode_page : string -> result (list LogEvent.t)).
Context (c : Client.t).

Definition redactToken (s : string) : string := redactCredential s (Client.token c).

Definition isLoopbackHost (host : string) : bool :=
  if String.eqb host "localhost" then true else default false (net_ParseIP host).

Definition validateNextURL (raw : string) : string + client_error :=
  match url_Parse (TrimSpace raw) with
  | Err e => inr (UnsafeNextURL (Unparseable (redactToken raw) (redactToken e)))
  | Ok next =>
      match url_Parse (Client.baseURL c) with
      | Err e => inr (UnsafeNextURL (BadBaseURL e))
      | Ok base =>
          if String.eqb (Url.Host next) "" then inr (UnsafeNextURL (MissingHost (redactToken raw)))
          else if negb (String.eqb (Url.Host next) (Url.Host base))
          then inr (UnsafeNextURL (ForeignHost (redactToken (Url.Host next)) (Url.Host base)))
          else if String.eqb (Url.Scheme next) "https" then inl (Url.String_ next)
          else if String.eqb (Url.Scheme next) "http" && isLoopbackHost (Url.Hostname next) then inl (Url.String_ next)
          else inr (UnsafeNextURL (BadScheme (redactToken (Url.Scheme next))))
      end
  end.

Definition page_request (pageURL : string) : HttpRequest.t :=
  HttpRequest.mk "GET" pageURL
    [("Authorization", "SSWS " +:+ Client.token c); ("Accept", "application/json");
     ("User-Agent", "oiaf-okta-adapter/0.1.0")] "".

(** The bytes a decoder is given: at most 16 MiB. *)
Definition maxPageBytes : Z := 16777216.

(** [doFetchPage]: the events and the link, or the wait and the error. *)
Definition doFetchPage (pageURL : string) : PM Z ((list LogEvent.t * string) + (Z * client_error)) :=
  if negb (http_NewRequest pageURL) then mret (inr (0, BuildRequest pageURL))
  else
    r ← send (page_request pageURL);
    match r with
    | Err e => mret (inr (0, Transport (redactToken e)))
    | Ok resp =>
        let status := HttpResponse.StatusCode resp in
        let snippet := safeErrSnippet (Client.token c) (HttpResponse.Body resp) in
        if status =? 200 then
          match decode_page (limit_bytes maxPageBytes (HttpResponse.Body resp)) with
          | Err e => mret (inr (0, DecodePage (redactToken e)))
          | Ok events => mret (inl (events, nextLink (HttpResponse.Header resp "Link")))
          end
        else if (status =? 401) || (status =? 403) then mret (inr (0, AuthFailed status snippet))
        else if status =? 429 then wait ← retryAfter resp; mret (inr (wait, RateLimited))
        else if 500 <=? status then mret (inr (0, ServerError status))
        else mret (inr (0, UnexpectedStatus status snippet))
    end.

(** [errors.As(err, *transientError)]. *)
Definition isRetryable (e : client_error) : bool :=
  match e with
  | RateLimited | ServerError _ | Transport _ | DecodePage _ => true
  | _ => false
  end.

Definition isAuth (e : client_error) : bool := match e with AuthFailed _ _ => true | _ => false end.

(** [backoffFor]; [math.Pow(2, n)] is exact for the few attempts there are. *)
Definition backoffFor (attempt : Z) : PM Z Z :=
  ra ← pget;
  if 0 <? ra then _ ← pput 0; mret ra
  else
    let base := fmul (of_int Second) (of_int (2 ^ (attempt - 1))) in
    let base := if flt (of_int (Client.maxBackoff c)) base then of_int (Client.maxBackoff c) else base in
    rnd ← pask rand_Float64;
    let jitter := fmul (fmul base (of_dec false 25 (-2))) rnd in
    mret (trunc_to_int (fadd base jitter)).

Definition maxAttempts : nat := 5.

(** The wait before a retry: the context's error if it is done first. *)
Definition wait_turn (attempt : Z) : PM Z (option string) :=
  if 0 <? attempt then _ ← backoffFor attempt; pask ctx_Err else mret None.

(** The retry loop of [fetchPage]: [left] attempts remain. *)
Fixpoint fetch_attempts (left : nat) (attempt : Z) (lastErr : client_error) (pageURL : string)
    : PM Z ((list LogEvent.t * string) + client_error) :=
  match left with
  | O => mret (inr (GivingUp lastErr))
  | S left' =>
      stop ← wait_turn attempt;
      match stop with
      | Some e => mret (inr (ContextDone e))
      | None =>
          r ← doFetchPage pageURL;
          match r with
          | inl page => mret (inl page)
          | inr (wait, err) =>
              if isAuth err then mret (inr err)
              else
                done_ ← pask ctx_Err;
                match done_ with
                | Some e => mret (inr (ContextDone e))
                | None =>
                    _ ← pput wait;
                    if isRetryable err then fetch_attempts left' (attempt + 1) err pageURL
                    else mret (inr err)
                end
          end
      end
  end.

Definition fetchPage (pageURL : string) : PM Z ((list LogEvent.t * string) + client_error) :=
  fetch_attempts maxAttempts 0 RateLimited pageURL.

(** ** [FetchLogs] *)

Definition param (k v : string) : string := QueryEscape k +:+ "=" +:+ QueryEscape v.

(** [q.Encode()]: keys in order. *)
Definition query (limit : Z) (p : FetchLogsParams.t) : string :=
  Join "&" ([param "limit" (pretty limit)] ++
    (if IsZero (FetchLogsParams.Since p) then []
     else [param "since" (FormatRFC3339Nano (Add (UTC (FetchLogsParams.Since p)) (-1000000)))]) ++
    [param "sortOrder" "ASCENDING"] ++
    (if IsZero (FetchLogsParams.Until p) then []
     else [param "until" (FormatRFC3339Nano (UTC (FetchLogsParams.Until p)))])).

Definition page_limit (p : FetchLogsParams.t) : Z :=
  let l := if FetchLogsParams.Limit p <=? 0 then 500 else FetchLogsParams.Limit p in
  if 1000 <? l then 1000 else l.

Definition page_cap (p : FetchLogsParams.t) : Z :=
  if FetchLogsParams.MaxPages p <=? 0 then 50 else FetchLogsParams.MaxPages p.

Definition first_page (p : FetchLogsParams.t) : string :=
  Client.baseURL c +:+ "/api/v1/logs?" +:+ query (page_limit p) p.

(** The loop over pages; [left] of them may still be fetched. *)
Fixpoint fetch_pages (left : nat) (out : list LogEvent.t) (nextURL : string)
    : PM Z (list LogEvent.t * option client_error) :=
  if String.eqb nextURL "" then mret (out, None)
  else
    match left with
    | O => mret (out, Some TooManyPages)
    | S left' =>
        r ← fetchPage nextURL;
        match r with
        | inr err => mret (out, Some err)
        | inl (events, next) =>
            if String.eqb next "" then mret (out ++ events, None)
            else match validateNextURL next with
                 | inr err => mret (out ++ events, Some err)
                 | inl url => fetch_pages left' (out ++ events) url
                 end
        end
    end.

Definition FetchLogs (p : FetchLogsParams.t) : PM Z (list LogEvent.t * option client_error) :=
  fetch_pages (Z.to_nat (page_cap p)) [] (first_page p).
End Client.

(** [liveSource.Fetch]: reaching the page cap is a success. *)
Definition live_Fetch {E : Env} {N : Net} decode_page (c : Client.t) (since until : Time) (limit maxPages : Z)
    : PM Z (list LogEvent.t * option client_error) :=
  r ← FetchLogs decode_page c (FetchLogsParams.mk since until limit maxPages);
  match r with
  | (events, Some TooManyPages) => mret (events, None)
  | _ => mret r
  end.

(** ** Specification *)

Section Spec.
Context {E : Env} {N : Net}.
Context (decode_page : string -> result (list LogEvent.t)) (c : Client.t).

(** A link that may be followed, to [url]: it parses to the tenant's own host and
    port, over TLS or on this machine. *)
Definition leads_to (raw url : string) : Prop := exists next base,
  url_Parse (TrimSpace raw) = Ok next /\ url_Parse (Client.baseURL c) = Ok base /\
  Url.Host next <> "" /\ Url.Host next = Url.Host base /\
  (Url.Scheme next = "https" \/ Url.Scheme next = "http" /\ isLoopbackHost (Url.Hostname next) = true) /\
  url = Url.String_ next.

(** A URL the token may be sent to. *)
Definition pinned (url : string) : Prop := exists raw, leads_to raw url.

(** The URL that asks for the log, oldest first, from after [since] on. *)
Definition logs_url (limit : Z) (since : option Time) : string :=
  Client.baseURL c +:+ "/api/v1/logs?limit=" +:+ pretty limit +:+
  (match since with Some t => "&since=" +:+ QueryEscape (FormatRFC3339Nano t) | None => "" end) +:+ "&sortOrder=ASCENDING".

(** A millisecond before the cursor; without a cursor, from the beginning. *)
Definition asked_since (cursor : Time) : option Time := if IsZero cursor then None else Some (Add (UTC cursor) (-1000000)).

(** The links of an answer, as the server writes them in its [Link] header: targets
    with their relations, those of paged collections. *)
Definition relations : list string := ["self"; "next"; "prev"; "first"; "last"].

Definition link_text (l : string * string) : string := "<" +:+ l.1 +:+ ">; rel=" +:+ dquote +:+ l.2 +:+ dquote.
Definition link_header (links : list (string * string)) : string := Join ", " (link_text <$> links).

Definition link_ok (l : string * string) : Prop :=
  l.2 ∈ relations /\ Forall (fun ch => ch ∉ [ascii_of 44; char_lt; char_gt]) (String.list_ascii_of_string l.1).

(** The page that follows: the first link with that relation. *)
Definition next_page (links : list (string * string)) : option string :=
  (fun l => l.1) <$> find (fun l => String.eqb l.2 "next") links.

(** A server that answers every authorised request for [url] with this page. *)
Definition serves (url : string) (evs : list LogEvent.t) (links : list (string * string)) : Prop :=
  http_NewRequest url = true /\ Forall link_ok links /\
  forall n r, HttpRequest.Method r = "GET" -> HttpRequest.URL r = url -> ("Authorization", "SSWS " +:+ Client.token c) ∈ HttpRequest.Header r ->
  exists resp, http_Do n r = Ok resp /\ HttpResponse.StatusCode resp = 200 /\
    Z.of_nat (String.length (HttpResponse.Body resp)) <= 16777216 /\ decode_page (HttpResponse.Body resp) = Ok evs /\
    HttpResponse.Header resp "Link" = link_header links.

(** The pages a server has from a URL on, each but the last linked to the next. *)
Inductive paged : string -> list (list LogEvent.t) -> Prop :=
| paged_last url evs links : url <> "" -> serves url evs links -> next_page links = None -> paged url [evs]
| paged_more url evs links link url' rest : url <> "" -> serves url evs links -> next_page links = Some link -> link <> "" ->
    leads_to link url' -> paged url' rest -> paged url (evs :: rest).

(** The parts of an error that a server had a hand in; the URL of a request that
    could not be built is one, where it came from a link. *)
Fixpoint error_texts (e : client_error) : list string :=
  match e with
  | AuthFailed _ t | UnexpectedStatus _ t | Transport t | DecodePage t => [t]
  | BuildRequest url => [url]
  | GivingUp e => error_texts e
  | UnsafeNextURL (Unparseable a b) => [a; b]
  | UnsafeNextURL (MissingHost a) | UnsafeNextURL (ForeignHost a _) | UnsafeNextURL (BadScheme a) => [a]
  | _ => []
  end.
End Spec.

(** ** Facts *)

Section ClientFacts.
Context {E : Env} {N : Net}.
Context (decode_page : string -> result (list LogEvent.t)) (c : Client.t).

Lemma validateNextURL_pinned raw url : validateNextURL c raw = inl url -> pinned c url.
Proof.
  unfold validateNextURL. destruct (url_Parse (TrimSpace raw)) as [next|] eqn:Hn; [|done].
  destruct (url_Parse (Client.baseURL c)) as [base|] eqn:Hb; [|done].
  destruct (String.eqb_spec (Url.Host next) ""); [done|].
  destruct (String.eqb_spec (Url.Host next) (Url.Host base)); [|done]. cbn [negb].
  destruct (String.eqb_spec (Url.Scheme next) "https").
  - intros [= <-]. exists raw, next, base. split_and!; auto.
  - destruct (String.eqb_spec (Url.Scheme next) "http"); [|done]. cbn [andb].
    destruct (isLoopbackHost _) eqn:?; [|done]. intros [= <-]. exists raw, next, base. split_and!; auto.
Qed.

Lemma leads_to_validates raw url : leads_to c raw url -> validateNextURL c raw = inl url.
Proof.
  intros (next & base & Hn & Hb & Hne & Heq & Hs & ->). unfold validateNextURL. rewrite Hn, Hb.
  destruct (String.eqb_spec (Url.Host next) ""); [done|]. rewrite <- Heq, String.eqb_refl. cbn [negb].
  destruct Hs as [->|[-> ->]]; [done|]. done.
Qed.

Lemma retryAfter_reqs resp (s : Proc Z) : reqs (retryAfter resp s).2 = reqs s.
Proof.
  unfold retryAfter, pask. st_unfold. cbv zeta. set (secs := match Atoi _ with Some _ => _ | None => None end). clearbody secs.
  destruct (String.eqb (HttpResponse.Header resp "Retry-After") ""), secs, (http_ParseTime (HttpResponse.Header resp "Retry-After")),
    (String.eqb (HttpResponse.Header resp "X-Rate-Limit-Reset") ""); try done; by destruct (ParseInt _) as [? []].
Qed.

Lemma backoffFor_reqs attempt (s : Proc Z) : reqs (backoffFor c attempt s).2 = reqs s.
Proof. unfold backoffFor, pget, pput, pask. st_unfold. by destruct (0 <? ps s). Qed.

Lemma wait_turn_reqs attempt (s : Proc Z) : reqs (wait_turn c attempt s).2 = reqs s.
Proof.
  unfold wait_turn. destruct (0 <? attempt); [|done]. st_unfold. pose proof (backoffFor_reqs attempt s) as Hb.
  by destruct (backoffFor c attempt s).
Qed.

(** What one attempt can end with. *)
Definition page_error (url : string) (e : client_error) : Prop :=
  match e with
  | BuildRequest u => u = url /\ http_NewRequest url = false
  | AuthFailed _ _ | RateLimited | ServerError _ | UnexpectedStatus _ _ | Transport _ | DecodePage _ => http_NewRequest url = true
  | _ => False
  end.

(** One attempt: at most one request, for the page, and what its error holds. *)
Lemma doFetchPage_run url (s : Proc Z) :
  reqs (doFetchPage decode_page c url s).2 = reqs s ++ (if http_NewRequest url then [page_request c url] else []) /\
  match (doFetchPage decode_page c url s).1 with
  | inl _ => http_NewRequest url = true
  | inr (_, e) => page_error url e
  end.
Proof.
  unfold doFetchPage, send. destruct (http_NewRequest url) eqn:Hn; cbn [negb]; st_unfold; [|by rewrite app_nil_r].
  destruct (http_Do _ _) as [resp|e]; [|done]. destruct (_ =? 200).
  { by destruct (decode_page _). }
  destruct ((_ =? 401) || _); [done|]. destruct (_ =? 429).
  { set (s' := mkProc _ _ _). pose proof (retryAfter_reqs resp s') as Hr. destruct (retryAfter resp s') as [w s'']. by split. }
  by destruct (500 <=? _).
Qed.

(** The retry loop: requests for this page only, one per attempt; giving up
    takes them all. *)
Lemma fetch_attempts_run url left : forall attempt last (s s' : Proc Z) r, isRetryable last = true ->
  fetch_attempts decode_page c left attempt last url s = (r, s') -> exists k,
  reqs s' = reqs s ++ replicate k (page_request c url) /\ (k <= left)%nat /\
  match r with
  | inl _ => (0 < k)%nat
  | inr (GivingUp e) => k = left /\ isRetryable e = true
  | inr (AuthFailed _ _) => (0 < k)%nat
  | inr (ContextDone _) => True
  | inr e => page_error url e /\ isRetryable e = false
  end.
Proof.
  induction left as [|left IH]; intros attempt last s s' r Hl; cbn [fetch_attempts].
  { intros [= <- <-]. exists 0%nat. rewrite app_nil_r. by split_and!. }
  st_unfold. pose proof (wait_turn_reqs attempt s) as Hpre. destruct (wait_turn c attempt s) as [stop s1]. cbn [snd] in Hpre.
  destruct stop as [e|]; [intros [= <- <-]; exists 0%nat; rewrite app_nil_r; split_and!; [done|lia|done]|].
  pose proof (doFetchPage_run url s1) as [Hreq Hres].
  destruct (doFetchPage decode_page c url s1) as [r0 s2]. cbn [fst snd] in *. rewrite Hpre in Hreq.
  set (k0 := if http_NewRequest url then 1%nat else 0%nat).
  assert (Hreq' : reqs s2 = reqs s ++ replicate k0 (page_request c url)) by (unfold k0; by destruct (http_NewRequest url)).
  assert (Hk0 : (k0 <= 1)%nat) by (unfold k0; destruct (http_NewRequest url); lia).
  destruct r0 as [page|[wait err]].
  { intros [= <- <-]. exists k0. split_and!; [done|lia|]. unfold k0. rewrite Hres. lia. }
  destruct (isAuth err) eqn:Ha.
  { intros [= <- <-]. exists k0. split_and!; [done|lia|]. destruct err; try done. unfold k0. cbn in Hres. rewrite Hres. lia. }
  unfold pask, pput. st_unfold. destruct (ctx_Err (ptick s2)) as [e|].
  { intros [= <- <-]. exists k0. split_and!; [done|lia|done]. }
  destruct (isRetryable err) eqn:Hre.
  - intros H. destruct (IH _ _ _ _ _ Hre H) as (k & Hk & Hle & Hm). cbn [reqs] in Hk.
    exists (k0 + k)%nat. split_and!; [|lia|].
    + by rewrite Hk, Hreq', <- app_assoc, replicate_add.
    + assert (k0 = 1%nat) as ->. { unfold k0. destruct err; try done; cbn in Hres; by rewrite Hres. }
      destruct r as [|[]]; try done; try lia. destruct Hm as [-> ?]. by split.
  - intros [= <- <-]. exists k0. split_and!; [done|lia|]. by destruct err.
Qed.

Lemma fetchPage_reqs url (s : Proc Z) : exists k, (k <= 5)%nat /\
  reqs (fetchPage decode_page c url s).2 = reqs s ++ replicate k (page_request c url).
Proof.
  destruct (fetchPage decode_page c url s) as [r s'] eqn:H.
  destruct (fetch_attempts_run url maxAttempts 0 RateLimited s s' r eq_refl H) as (k & Hk & Hle & _). by exists k.
Qed.

(** Every request of a walk over pages is the first one or pinned. *)
Lemma fetch_pages_reqs left : forall out url (s : Proc Z), exists rs,
  reqs (fetch_pages decode_page c left out url s).2 = reqs s ++ rs /\ (length rs <= 5 * left)%nat /\
  Forall (fun r => exists u, r = page_request c u /\ (u = url \/ pinned c u)) rs.
Proof.
  induction left as [|left IH]; intros out url s; cbn [fetch_pages].
  { exists []. destruct (String.eqb url ""); (split_and!; [by rewrite app_nil_r|done|constructor]). }
  destruct (String.eqb url ""); [exists []; (split_and!; [by rewrite app_nil_r|cbn; lia|constructor])|].
  unfold mbind, st_bind. destruct (fetchPage_reqs url s) as (k & Hk & Hr).
  assert (Hown : Forall (fun r => exists u, r = page_request c u /\ (u = url \/ pinned c u)) (replicate k (page_request c url))).
  { apply Forall_replicate. exists url. auto. }
  assert (Hlen : (length (replicate k (page_request c url)) <= 5 * S left)%nat) by (rewrite length_replicate; lia).
  destruct (fetchPage decode_page c url s) as [[[events next]|err] s1]; cbn [snd] in Hr; [|by exists (replicate k (page_request c url))].
  destruct (String.eqb next ""); [by exists (replicate k (page_request c url))|].
  destruct (validateNextURL c next) as [url'|err] eqn:Hv; [|by exists (replicate k (page_request c url))].
  destruct (IH (out ++ events) url' s1) as (rs & -> & Hle & Hrs). exists (replicate k (page_request c url) ++ rs).
  rewrite Hr, <- app_assoc, length_app, length_replicate. split_and!; [done|lia|]. apply Forall_app. split; [done|].
  eapply Forall_impl; [exact Hrs|]. intros r (u & -> & Hu). exists u. split; [done|]. right.
  destruct Hu as [->|Hu]; [by eapply validateNextURL_pinned|done].
Qed.

(** *** The [Link] header *)

Lemma list_ascii_app a b : String.list_ascii_of_string (a +:+ b) = String.list_ascii_of_string a ++ String.list_ascii_of_string b.
Proof. induction a as [|x a IH]; [done|]. rewrite str_app_cons. cbn. by rewrite IH. Qed.

Lemma Index1_app a ch b : ch ∉ String.list_ascii_of_string a -> Index1 (a +:+ String ch b) ch = Some (String.length a).
Proof.
  induction a as [|x a IH]; intros Hin.
  - change ("" +:+ String ch b) with (String ch b). cbn. by rewrite Ascii.eqb_refl.
  - cbn in Hin. apply not_elem_of_cons in Hin as [Hx Hin]. change (String x a +:+ String ch b) with (String x (a +:+ String ch b)).
    cbn [Index1 String.length]. destruct (Ascii.eqb_spec x ch) as [->|_]; [done|]. by rewrite IH.
Qed.

Lemma drop_bytes_length a b : drop_bytes (String.length a) (a +:+ b) = b.
Proof. induction a as [|x a IH]; [done|]. exact IH. Qed.

Lemma take_bytes_length a b : take_bytes (String.length a) (a +:+ b) = a.
Proof. induction a as [|x a IH]; [by destruct b|]. change (String x (take_bytes (String.length a) (a +:+ b)) = String x a). by rewrite IH. Qed.

(** A part of the header, with the space that may precede it. *)
Lemma link_part_text sp l : sp = "" \/ sp = " " -> link_ok l ->
  link_part (sp +:+ link_text l) = if String.eqb l.2 "next" then Some l.1 else None.
Proof.
  destruct l as [t rel]. intros Hsp [Hrel Ht]. cbn [fst snd] in *. rewrite Forall_forall in Ht.
  set (tail := "; rel=" +:+ dquote +:+ rel +:+ dquote).
  assert (Hpart : sp +:+ link_text (t, rel) = sp +:+ String char_lt (t +:+ String char_gt tail)) by reflexivity.
  assert (Hlt : char_lt ∉ String.list_ascii_of_string sp) by (destruct Hsp as [-> | ->]; apply (bool_decide_unpack _); vm_compute; exact I).
  assert (Hgt : char_gt ∉ String.list_ascii_of_string (sp +:+ String char_lt t)).
  { rewrite list_ascii_app. cbn [String.list_ascii_of_string]. rewrite elem_of_app, elem_of_cons. intros [Hx|[Hx|Hx]].
    - revert Hx. destruct Hsp as [-> | ->]; apply (bool_decide_unpack _); vm_compute; exact I.
    - done.
    - apply (Ht _ Hx). rewrite !elem_of_cons. auto. }
  rewrite Hpart. unfold link_part. rewrite (Index1_app _ _ _ Hlt).
  replace (sp +:+ String char_lt (t +:+ String char_gt tail)) with ((sp +:+ String char_lt t) +:+ String char_gt tail) by (by destruct Hsp as [-> | ->]).
  rewrite (Index1_app _ _ _ Hgt). set (head := sp +:+ String char_lt t).
  assert (Hlen : String.length head = (String.length sp + 1 + String.length t)%nat) by (unfold head; destruct Hsp as [-> | ->]; reflexivity).
  destruct (Nat.ltb_spec (String.length head) (String.length sp)) as [Hl|_]; [lia|].
  assert (Hrest : drop_bytes (String.length head + 1) (head +:+ String char_gt tail) = tail).
  { change (String char_gt tail) with (String char_gt "" +:+ tail). rewrite <- str_app_assoc.
    replace (String.length head + 1)%nat with (String.length (head +:+ String char_gt "")) by (by rewrite str_length_app).
    apply drop_bytes_length. }
  rewrite Hrest. replace (String.length head - (String.length sp + 1))%nat with (String.length t) by lia.
  replace (drop_bytes (String.length sp + 1) (head +:+ String char_gt tail)) with (t +:+ String char_gt tail) by (unfold head; by destruct Hsp as [-> | ->]).
  rewrite take_bytes_length. unfold tail. clear -Hrel. unfold relations in Hrel. rewrite !elem_of_cons, elem_of_nil in Hrel.
  repeat destruct Hrel as [->|Hrel]; [vm_compute; reflexivity..|done].
Qed.

Lemma no_comma_text sp l : sp = "" \/ sp = " " -> link_ok l -> ascii_of 44 ∉ String.list_ascii_of_string (sp +:+ link_text l).
Proof.
  destruct l as [t rel]. intros Hsp [Hrel Ht] Hin. cbn [fst snd] in *. rewrite Forall_forall in Ht.
  unfold link_text in Hin. cbn [fst snd] in Hin. rewrite !list_ascii_app, !elem_of_app in Hin.
  destruct Hin as [Hx|[Hx|[Hx|Hx]]]; [| |apply (Ht _ Hx); by left|].
  - revert Hx. destruct Hsp as [-> | ->]; apply (bool_decide_unpack _); vm_compute; exact I.
  - revert Hx. apply (bool_decide_unpack _). vm_compute. exact I.
  - rewrite <- !elem_of_app, <- !list_ascii_app in Hx. clear -Hrel Hx. unfold relations in Hrel. rewrite !elem_of_cons, elem_of_nil in Hrel.
    repeat destruct Hrel as [->|Hrel]; [revert Hx; apply (bool_decide_unpack _); vm_compute; exact I..|done].
Qed.

Lemma first_link_header links sp : sp = "" \/ sp = " " -> Forall link_ok links -> links <> [] ->
  first_link (Split (ascii_of 44) (sp +:+ link_header links)) = default "" (next_page links).
Proof.
  unfold link_header, next_page. intros Hsp Hok. revert sp Hsp. induction Hok as [|l links Hl Hok IH]; intros sp Hsp Hne; [done|].
  cbn [fmap list_fmap find]. destruct links as [|l2 links].
  - cbn [Join fmap list_fmap find]. rewrite Split_whole by (by apply no_comma_text). cbn [first_link]. rewrite link_part_text by done.
    by destruct (String.eqb l.2 "next").
  - change (Join ", " (link_text l :: (link_text <$> l2 :: links))) with (link_text l +:+ String (ascii_of 44) (" " +:+ Join ", " (link_text <$> l2 :: links))).
    rewrite <- str_app_assoc, Split_app by (by apply no_comma_text). cbn [first_link]. rewrite link_part_text by done.
    destruct (String.eqb l.2 "next"); [done|]. apply IH; [by right|done].
Qed.

(** What the client takes from the header is the link the server meant. *)
Lemma nextLink_header links : Forall link_ok links -> nextLink (link_header links) = default "" (next_page links).
Proof.
  intros Hok. destruct (decide (links = [])) as [->|Hne]; [vm_compute; reflexivity|].
  exact (first_link_header links "" (or_introl eq_refl) Hok Hne).
Qed.

(** A page that is served is fetched. *)
Lemma serves_fetchPage url evs links : serves decode_page c url evs links ->
  forall s, (fetchPage decode_page c url s).1 = inl (evs, default "" (next_page links)).
Proof.
  intros (Hn & Hok & Hserve) s.
  assert (Hdo : exists s', doFetchPage decode_page c url s = (inl (evs, default "" (next_page links)), s')).
  { unfold doFetchPage, send. rewrite Hn. cbn [negb].
    destruct (Hserve (ptick s) (page_request c url) eq_refl eq_refl ltac:(by left)) as (resp & Hr & Hst & Hfit & Hd & Hl).
    st_unfold. rewrite Hr, Hst. cbn [Z.eqb Pos.eqb]. rewrite limit_bytes_fits by done. rewrite Hd, Hl, nextLink_header by done. by eexists. }
  destruct Hdo as [s' Hdo]. unfold fetchPage, maxAttempts. cbn [fetch_attempts]. unfold mbind, st_bind.
  change (wait_turn c 0 s) with (@None string, s). cbn beta iota. by rewrite Hdo.
Qed.

Lemma fetch_pages_paged url pages : paged decode_page c url pages -> forall left out (s : Proc Z),
  (fetch_pages decode_page c left out url s).1
  = (out ++ concat (take left pages), if (left <? length pages)%nat then Some TooManyPages else None).
Proof.
  induction 1 as [url evs links Hu Hf Hnone|url evs links link url' rest Hu Hf Hsome Hne Hv _ IH]; intros left out s;
    (destruct left as [|left]; cbn [fetch_pages]; destruct (String.eqb_spec url ""); try done; [by rewrite app_nil_r|]);
    unfold mbind, st_bind; pose proof (serves_fetchPage _ _ _ Hf s) as Hp; destruct (fetchPage decode_page c url s) as [r s1]; cbn [fst] in Hp; subst r.
  - rewrite Hnone. cbn. rewrite take_nil. cbn. by rewrite app_nil_r.
  - rewrite Hsome. cbn [default from_option id]. destruct (String.eqb_spec link ""); [done|]. rewrite (leads_to_validates _ _ Hv), IH.
    cbn [take firstn concat length]. by rewrite <- app_assoc.
Qed.

(** *** The first request *)

Lemma first_page_url cursor limit pages : 1 <= limit <= 1000 ->
  first_page c (FetchLogsParams.mk cursor zeroTime limit pages) = logs_url c limit (asked_since cursor).
Proof.
  intros Hl. unfold first_page, logs_url, query, page_limit, asked_since, param. cbn [FetchLogsParams.Since FetchLogsParams.Until FetchLogsParams.Limit].
  destruct (Z.leb_spec limit 0); [lia|]. destruct (Z.ltb_spec 1000 limit); [lia|].
  destruct (escape_unreserved (pretty limit)) as [-> _].
  { eapply Forall_impl; [apply (pretty_digits limit); lia|]. intros b Hb. unfold is_digit in Hb. unfold unreserved. lia. }
  change (IsZero zeroTime) with true. destruct (IsZero cursor); cbn [app Join]; by rewrite ?str_app_assoc.
Qed.

Lemma fetchPage_asks url (s : Proc Z) : http_NewRequest url = true ->
  exists rs, reqs (fetchPage decode_page c url s).2 = reqs s ++ page_request c url :: rs.
Proof.
  intros Hn. unfold fetchPage. change maxAttempts with (S 4). generalize 4%nat as left. intros left. cbn [fetch_attempts]. unfold mbind, st_bind.
  change (wait_turn c 0 s) with (@None string, s). cbn beta iota. pose proof (doFetchPage_run url s) as [Hreq Hres]. rewrite Hn in Hreq.
  destruct (doFetchPage decode_page c url s) as [[page|[wait err]] s1]; cbn [fst snd] in *; [by exists []|].
  destruct (isAuth err); [by exists []|]. unfold pask, pput. st_unfold. destruct (ctx_Err _); [by exists []|].
  destruct (isRetryable err) eqn:Hr; [|by exists []].
  match goal with |- context [fetch_attempts decode_page c ?n ?k err url ?b] =>
    destruct (fetch_attempts decode_page c n k err url b) as [r s2] eqn:Hf;
    destruct (fetch_attempts_run url n k err b s2 r Hr Hf) as (k' & Hk & _) end.
  exists (replicate k' (page_request c url)). cbn [snd reqs] in *. by rewrite Hk, Hreq, <- app_assoc.
Qed.

Lemma FetchLogs_asks p (s : Proc Z) : http_NewRequest (first_page c p) = true -> first_page c p <> "" ->
  exists rs, reqs (FetchLogs decode_page c p s).2 = reqs s ++ page_request c (first_page c p) :: rs.
Proof.
  intros Hn Hne. unfold FetchLogs. assert (Hcap : exists n, Z.to_nat (page_cap p) = S n).
  { exists (Z.to_nat (page_cap p) - 1)%nat. unfold page_cap. destruct (Z.leb_spec (FetchLogsParams.MaxPages p) 0); lia. }
  destruct Hcap as [n ->]. cbn [fetch_pages]. destruct (String.eqb_spec (first_page c p) ""); [done|]. st_unfold.
  destruct (fetchPage_asks (first_page c p) s Hn) as [rs Hrs].
  destruct (fetchPage decode_page c (first_page c p) s) as [[[evs next]|err] s1]; cbn [snd] in Hrs; [|by exists rs].
  destruct (String.eqb next ""); [by exists rs|]. destruct (validateNextURL c next) as [url|err]; [|by exists rs].
  destruct (fetch_pages_reqs n ([] ++ evs) url s1) as (rs' & -> & _). exists (rs ++ rs'). by rewrite Hrs, <- app_assoc.
Qed.

Lemma refused_page url (s : Proc Z) resp : http_NewRequest url = true -> http_Do (ptick s) (page_request c url) = Ok resp ->
  HttpResponse.StatusCode resp = 401 \/ HttpResponse.StatusCode resp = 403 -> exists s1,
  fetchPage decode_page c url s
  = (inr (AuthFailed (HttpResponse.StatusCode resp) (safeErrSnippet (Client.token c) (HttpResponse.Body resp))), s1) /\
  reqs s1 = reqs s ++ [page_request c url].
Proof.
  intros Hn Hr Hst. unfold fetchPage, maxAttempts. cbn [fetch_attempts]. unfold mbind, st_bind.
  change (wait_turn c 0 s) with (@None string, s). cbn beta iota.
  unfold doFetchPage, send. rewrite Hn. cbn [negb]. st_unfold. rewrite Hr.
  destruct Hst as [Hst|Hst]; rewrite Hst; cbn [Z.eqb Pos.eqb orb isAuth]; (eexists; split; [reflexivity|done]).
Qed.

(** What an error quotes of a server has been through redaction. *)
Definition scrubbed (t : string) : Prop := exists x, t = redactToken c x \/ t = safeErrSnippet (Client.token c) x.

(** A request for [url] that could not be built. *)
Definition unbuilt (url : string) (e : client_error) : Prop := e = BuildRequest url /\ http_NewRequest url = false.

Lemma doFetchPage_scrubbed url (s s' : Proc Z) wait e :
  doFetchPage decode_page c url s = (inr (wait, e), s') -> unbuilt url e \/ Forall scrubbed (error_texts e).
Proof.
  unfold doFetchPage, send. destruct (http_NewRequest url) eqn:Hn; cbn [negb]; st_unfold; [|intros [= <- <- <-]; by left]. intros H. right. revert H.
  destruct (http_Do _ _) as [resp|t]; [|intros [= <- <- <-]; repeat constructor; by exists t; left].
  destruct (_ =? 200). { destruct (decode_page _) as [|t]; [done|]. intros [= <- <- <-]. repeat constructor. by exists t; left. }
  destruct ((_ =? 401) || _); [intros [= <- <- <-]; repeat constructor; by eexists; right|].
  destruct (_ =? 429); [destruct (retryAfter _ _); intros [= <- <- <-]; constructor|].
  destruct (500 <=? _); intros [= <- <- <-]; repeat constructor. by eexists; right.
Qed.

Lemma fetch_attempts_scrubbed url left : forall attempt last (s s' : Proc Z) e, Forall scrubbed (error_texts last) ->
  fetch_attempts decode_page c left attempt last url s = (inr e, s') -> unbuilt url e \/ Forall scrubbed (error_texts e).
Proof.
  induction left as [|left IH]; intros attempt last s s' e Hl; cbn [fetch_attempts]; [intros [= <- <-]; by right|].
  st_unfold. destruct (wait_turn c attempt s) as [[t|] s1]; [intros [= <- <-]; right; constructor|].
  destruct (doFetchPage decode_page c url s1) as [[page|[wait err]] s2] eqn:Hdo; [done|].
  apply doFetchPage_scrubbed in Hdo. destruct (isAuth err); [by intros [= <- <-]|].
  unfold pask, pput. st_unfold. destruct (ctx_Err _); [intros [= <- <-]; right; constructor|].
  destruct (isRetryable err) eqn:Hre; [|by intros [= <- <-]]. apply IH. destruct Hdo as [[-> _]|Hs]; [done|exact Hs].
Qed.

Lemma validateNextURL_scrubbed raw e : validateNextURL c raw = inr e -> Forall scrubbed (error_texts e).
Proof.
  assert (Hr : forall x, scrubbed (redactToken c x)) by (intros x; by exists x; left).
  unfold validateNextURL. destruct (url_Parse (TrimSpace raw)) as [next|t]; [|intros [= <-]; by repeat constructor].
  destruct (url_Parse (Client.baseURL c)) as [base|]; [|intros [= <-]; constructor].
  destruct (String.eqb (Url.Host next) ""); [intros [= <-]; by repeat constructor|].
  destruct (negb _); [intros [= <-]; by repeat constructor|].
  destruct (String.eqb _ "https"); [done|]. destruct (_ && _); [done|]. intros [= <-]; by repeat constructor.
Qed.

Lemma fetch_pages_scrubbed left : forall out url (s s' : Proc Z) evs e,
  fetch_pages decode_page c left out url s = ((evs, Some e), s') ->
  (exists u, unbuilt u e /\ (u = url \/ pinned c u)) \/ Forall scrubbed (error_texts e).
Proof.
  induction left as [|left IH]; intros out url s s' evs e; cbn [fetch_pages].
  { destruct (String.eqb url ""); [done|]. intros [= <- <- <-]. right. constructor. }
  destruct (String.eqb url ""); [done|]. st_unfold.
  destruct (fetchPage decode_page c url s) as [[[events next]|err] s1] eqn:Hf.
  - destruct (String.eqb next ""); [done|]. destruct (validateNextURL c next) as [url'|err] eqn:Hv.
    + intros H. destruct (IH _ _ _ _ _ _ H) as [(u & Hu & Hp)|Hs]; [left|by right]. exists u. split; [done|]. right.
      destruct Hp as [->|Hp]; [by eapply validateNextURL_pinned|done].
    + intros [= <- <- <-]. right. by eapply validateNextURL_scrubbed.
  - intros [= <- <- <-]. destruct (fetch_attempts_scrubbed url _ _ RateLimited _ _ _ (Forall_nil_2 _) Hf) as [Hu|Hs]; [left; exists url; auto|by right].
Qed.

Lemma scrubbed_discreet t : okta_token (Client.token c) -> scrubbed t ->
  forall w, exposed (Client.token c) t w -> (length w + 12 <= String.length (Client.token c))%nat.
Proof.
  intros Htok [x Ht] w [Hw Hf].
  assert (exists l, t = of_runes l /\ discreet (Client.token c) l) as (l & -> & [Hv Hd]).
  { destruct Ht as [->| ->].
    - destruct (redactCredential_out _ Htok x) as (l & Hl & Hd & _). by exists l.
    - destruct (snippet_out _ x Htok) as (l & Hl & Hd & _). by exists l. }
  rewrite to_of_runes in Hw by done. by apply Hd.
Qed.
End ClientFacts.

(** ** Concrete data *)

(** A parser of absolute URLs that is enough for the examples: scheme, host
    up to the next slash. *)
Definition demo_url_Parse (s : string) : result Url.t :=
  let cut p sch := let rest := drop_bytes (String.length p) s in
                   let h := take_bytes (default (String.length rest) (Index1 rest char_slash)) rest in
                   Ok (Url.mk sch h h s) in
  if HasPrefix s "https://" then cut "https://" "https"
  else if HasPrefix s "http://" then cut "http://" "http"
  else Err "missing scheme".

Definition demo_tenant : string := "https://acme.okta.com".

(** A tenant with two pages; [evil] decides where the second link points. *)
Definition demo_net (evil : string) : Net := {|
  http_Do := fun _ r =>
    if Contains (HttpRequest.URL r) "after=2" then Ok (HttpResponse.mk 200 (fun _ => "") "page2")
    else Ok (HttpResponse.mk 200
      (fun k => if String.eqb k "Link" then "<" +:+ evil +:+ "/api/v1/logs?after=2>; rel=" +:+ dquote +:+ "next" +:+ dquote else "") "page1");
  url_Parse := demo_url_Parse;
  net_ParseIP := fun h => if String.eqb h "127.0.0.1" then Some true else None;
  http_ParseTime := fun _ => None;
  ctx_Err := fun _ => None;
  rand_Float64 := fun _ => of_int 0;
  os_ReadFile := fun _ _ => Err "no such file";
  tty_ReadLine := fun _ _ => None;
  stdin_Scan := fun _ => Ok None
|}.

Definition demo_decode (body : string) : result (list LogEvent.t) :=
  if String.eqb body "page1" then Ok [demo_fail 0; demo_fail 1]
  else if String.eqb body "page2" then Ok [demo_fail 2] else Err "invalid character".

Definition demo_client : Client.t := NewClient (demo_tenant +:+ "/") demo_token.
Definition demo_fetch : FetchLogsParams.t := FetchLogsParams.mk demo_base zeroTime 100 5.
Definition demo_proc : Proc Z := mkProc 0 0 [].

Example first_page_ex : first_page demo_client demo_fetch
  = "https://acme.okta.com/api/v1/logs?limit=100&since=2026-01-05T09%3A59%3A59.999Z&sortOrder=ASCENDING".
Proof. vm_compute. reflexivity. Qed.

Example nextLink_ex : nextLink ("<https://a/x>; rel=" +:+ dquote +:+ "self" +:+ dquote +:+ ", <https://a/y>;REL=next") = "https://a/y".
Proof. vm_compute. reflexivity. Qed.

Example evil_link : (FetchLogs (N := demo_net "https://evil.example") demo_decode demo_client demo_fetch demo_proc).1
  = ([demo_fail 0; demo_fail 1], Some (UnsafeNextURL (ForeignHost "evil.example" "acme.okta.com"))).
Proof. vm_compute. reflexivity. Qed.

(** ** Properties *)

(** the token stays with the tenant: whatever the server answers, every
    request of a fetch is the first page of the configured URL or goes to a link
    that parses to the tenant's own host and port over TLS (or to this machine),
    and there are at most five per page of the cap. *)
Theorem FetchLogs_pinned {E : Env} {N : Net} decode_page c p (s : Proc Z) : exists rs,
  reqs (FetchLogs decode_page c p s).2 = reqs s ++ rs /\ (length rs <= 5 * Z.to_nat (page_cap p))%nat /\
  Forall (fun r => exists url, r = page_request c url /\ (url = first_page c p \/ pinned c url)) rs.
Proof. apply fetch_pages_reqs. Qed.

(** retries are disciplined: fetching a page sends the same request at most
    five times; it gives up only after five failures that may be transient, and a
    refused token is reported at once, without a further request. *)
Theorem fetchPage_retries {E : Env} {N : Net} decode_page c url (s s' : Proc Z) r :
  fetchPage decode_page c url s = (r, s') -> exists k,
  reqs s' = reqs s ++ replicate k (page_request c url) /\ (k <= 5)%nat /\
  match r with
  | inr (GivingUp e) => k = 5%nat /\ isRetryable e = true
  | inr (AuthFailed _ _) | inl _ => (0 < k)%nat
  | inr e => isRetryable e = false
  end /\
  (forall resp, http_NewRequest url = true -> http_Do (ptick s) (page_request c url) = Ok resp ->
     HttpResponse.StatusCode resp = 401 \/ HttpResponse.StatusCode resp = 403 ->
     k = 1%nat /\ r = inr (AuthFailed (HttpResponse.StatusCode resp) (safeErrSnippet (Client.token c) (HttpResponse.Body resp)))).
Proof.
  intros H. destruct (fetch_attempts_run decode_page c url maxAttempts 0 RateLimited s s' r eq_refl H) as (k & Hk & Hle & Hm).
  exists k. split_and!; [done|done|destruct r as [|[]]; first [exact Hm | reflexivity | apply Hm]|].
  intros resp Hn Hr Hst. destruct (refused_page decode_page c url s resp Hn Hr Hst) as [s1 [Hf Hq]].
  rewrite Hf in H. injection H as <- <-. split; [|done]. rewrite Hq in Hk.
  apply (f_equal length) in Hk. rewrite !length_app, length_replicate in Hk. cbn in Hk. lia.
Qed.

Lemma fetchPage_retries_witness : exists k,
  reqs (fetchPage (N := demo_net demo_tenant) demo_decode demo_client demo_tenant demo_proc).2
  = replicate k (page_request demo_client demo_tenant) /\ (k <= 5)%nat.
Proof.
  destruct (fetchPage_retries (N := demo_net demo_tenant) demo_decode demo_client demo_tenant demo_proc
              (fetchPage (N := demo_net demo_tenant) demo_decode demo_client demo_tenant demo_proc).2
              (fetchPage (N := demo_net demo_tenant) demo_decode demo_client demo_tenant demo_proc).1)
    as (k & Hk & Hle & _).
  - apply surjective_pairing.
  - exists k. split; [exact Hk|exact Hle].
Defined.

(** C25: fetching is complete. For a server that answers the authorised requests
    with its pages, of at most 16 MiB each, and names in the [Link] header of every
    page but the last (among links of other relations) the URL of the following one,
    on the tenant's host and over TLS: a fetch returns the events of all the pages,
    in order and without an error; only when there are more pages than the cap does
    it stop, with the events of the pages up to the cap. *)
Theorem FetchLogs_complete {E : Env} {N : Net} decode_page c p pages (s : Proc Z) :
  paged decode_page c (first_page c p) pages ->
  (FetchLogs decode_page c p s).1
  = (concat (take (Z.to_nat (page_cap p)) pages),
     if (Z.to_nat (page_cap p) <? length pages)%nat then Some TooManyPages else None).
Proof. intros Hc. apply (fetch_pages_paged decode_page c _ _ Hc). Qed.

(** A tenant with two pages, linked as Okta links them. *)
Definition demo_links : list (string * string) :=
  [(demo_tenant +:+ "/api/v1/logs", "self"); (demo_tenant +:+ "/api/v1/logs?after=2", "next")].

Definition demo_linked : Net := {|
  http_Do := fun _ r =>
    if Contains (HttpRequest.URL r) "after=2" then Ok (HttpResponse.mk 200 (fun _ => link_header (take 1 demo_links)) "page2")
    else Ok (HttpResponse.mk 200 (fun _ => link_header demo_links) "page1");
  url_Parse := demo_url_Parse; net_ParseIP := fun _ => None; http_ParseTime := fun _ => None; ctx_Err := fun _ => None;
  rand_Float64 := fun _ => of_int 0; os_ReadFile := fun _ _ => Err "no such file"; tty_ReadLine := fun _ _ => None;
  stdin_Scan := fun _ => Ok None |}.

Lemma demo_links_ok n : Forall link_ok (take n demo_links).
Proof.
  apply Forall_take. repeat constructor; cbn [fst snd]; try (apply (bool_decide_unpack _); vm_compute; exact I).
Qed.

Lemma FetchLogs_complete_witness :
  (FetchLogs (N := demo_linked) demo_decode demo_client demo_fetch demo_proc).1
  = ([demo_fail 0; demo_fail 1; demo_fail 2], None).
Proof.
  apply (FetchLogs_complete (N := demo_linked) demo_decode demo_client demo_fetch
           [[demo_fail 0; demo_fail 1]; [demo_fail 2]] demo_proc).
  apply (paged_more _ _ _ _ demo_links (demo_tenant +:+ "/api/v1/logs?after=2") (demo_tenant +:+ "/api/v1/logs?after=2")); [done| |reflexivity|done| |].
  - split; [reflexivity|]. split; [exact (demo_links_ok 2)|]. intros n r _ Hu _. cbn [http_Do demo_linked]. rewrite Hu.
    eexists. split; [vm_compute; reflexivity|]. split_and!; [reflexivity|vm_compute; discriminate|reflexivity|reflexivity].
  - eexists _, _. split; [vm_compute; reflexivity|]. split; [vm_compute; reflexivity|]. split_and!; try done. by left.
  - apply (paged_last _ _ _ _ (take 1 demo_links)); [done| |reflexivity].
    split; [reflexivity|]. split; [exact (demo_links_ok 1)|]. intros n r _ Hu _. cbn [http_Do demo_linked]. rewrite Hu.
    eexists. split; [vm_compute; reflexivity|]. split_and!; [reflexivity|vm_compute; discriminate|reflexivity|reflexivity].
Defined.

(** C26: errors are safe to log, but for one that the client leaves as it is. With a
    token of Okta's shape, when a fetch fails, either the error is that no request
    could be built for a URL, which it quotes unredacted (the configured one, or
    one from a link that passed the checks of host and scheme); or no text that the
    error takes from the server (a body, a link, a host, a scheme, a transport or
    decoding error) shows so many consecutive characters of the token, in any case,
    that fewer than 12 of them stay unknown. *)
Theorem FetchLogs_errors_discreet {E : Env} {N : Net} decode_page c p (s s' : Proc Z) evs e :
  okta_token (Client.token c) -> FetchLogs decode_page c p s = ((evs, Some e), s') ->
  (exists url, e = BuildRequest url /\ http_NewRequest url = false /\ (url = first_page c p \/ pinned c url)) \/
  forall t w, t ∈ error_texts e -> exposed (Client.token c) t w -> (length w + 12 <= String.length (Client.token c))%nat.
Proof.
  intros Htok H. unfold FetchLogs in H.
  destruct (fetch_pages_scrubbed decode_page c _ _ _ _ _ _ _ H) as [(url & [He Hn] & Hu)|Hs]; [left; by exists url|right].
  intros t w Ht. apply (scrubbed_discreet c t Htok). by eapply Forall_forall in Hs.
Qed.

Lemma FetchLogs_errors_discreet_witness :
  exposed demo_token "evil.example" [101] /\ (length [101] + 12 <= 28)%nat.
Proof.
  assert (Hx : exposed demo_token "evil.example" [101]).
  { split; [exists [], (drop 1 (to_runes "evil.example"))|exists (take 11 (foldRunes demo_token)), (drop 12 (foldRunes demo_token))];
      vm_compute; reflexivity. }
  split; [exact Hx|].
  destruct (FetchLogs_errors_discreet (N := demo_net "https://evil.example") demo_decode demo_client demo_fetch demo_proc
    (FetchLogs (N := demo_net "https://evil.example") demo_decode demo_client demo_fetch demo_proc).2
    [demo_fail 0; demo_fail 1] (UnsafeNextURL (ForeignHost "evil.example" "acme.okta.com"))) as [(url & He & _)|Hall].
  - split; [repeat constructor|]. vm_compute. repeat constructor.
  - vm_compute. reflexivity.
  - discriminate He.
  - apply (Hall "evil.example" [101]); [by left|exact Hx].
Defined.
