(* ===== verification/Sdk.v ===== *)
(** * tools/adapter-sdk: the adapters' client of the control plane

    Every call is one request to the configured server with the adapter's bearer
    token; redirects are refused, so any status but 2xx is an error. *)

From S2P Require Import Prelude GoStrings GoTime GoFloat GoCrypto GoRunes GoJson GoHttp Types World Instances OktaRedact.

(** [http.Client] with its timeout is outside; [NewRequest]'s check is [Env]'s. *)
Module SdkClient.
Record t := mk { baseURL : string; token : string }.
End SdkClient.

Definition New (baseURL token : string) : SdkClient.t := SdkClient.mk (TrimRight_slash baseURL) token.

Definition maxRespBodyBytes : Z := 1048576.
Definition maxErrBodyBytes : nat := 512.

(** ** Error bodies *)

(** The copy of the Okta adapter's function of this name. *)
Definition sanitizeServerBody (data : list Z) : string := OktaRedact.sanitizeServerBody (of_bytes data).

Definition is_cont (b : Z) : bool := Z.land b 192 =? 128.

Definition lead_size (lead : Z) : nat :=
  if lead <? 128 then 1
  else if Z.land lead 224 =? 192 then 2
  else if Z.land lead 240 =? 224 then 3
  else if Z.land lead 248 =? 240 then 4
  else 1.

(** The walk back over continuation bytes: [b[:i]], back to front. *)
Fixpoint walk_back (rev_b : list Z) (i : nat) : nat :=
  match rev_b with
  | x :: rev_b' => if is_cont x then walk_back rev_b' (i - 1) else i
  | [] => i
  end.

Definition truncateToRuneBoundary (b : list Z) (max : nat) : list Z :=
  if (length b <=? max)%nat then b
  else
    let b := take max b in
    let i := walk_back (reverse b) (length b) in
    if (i =? 0)%nat then b
    else match b !! (i - 1)%nat with
         | Some lead => if (length b - i + 1 <? lead_size lead)%nat then take (i - 1) b else b
         | None => b
         end.

(** [server error (%d): %s]. *)
Definition server_error (status : Z) (text : string) : string :=
  "server error (" +:+ pretty status +:+ "): " +:+ text.

(** [readResponse]. A body that cannot be read to its end ("read response") is, like
    a connection that breaks earlier, an error of [http_Do]: every caller returns
    either of them as it is. *)
Definition readResponse (resp : HttpResponse.t) : result string :=
  let data := limit_bytes maxRespBodyBytes (HttpResponse.Body resp) in
  if isNotSuccess (HttpResponse.StatusCode resp)
  then Err (server_error (HttpResponse.StatusCode resp)
              (sanitizeServerBody (truncateToRuneBoundary (bytes data) maxErrBodyBytes)))
  else Ok data.

(** ** Calls *)

Section Calls.
Context {E : Env} {N : Net} {S : Type}.
Context (c : SdkClient.t).

Definition sdk_request (method path : string) (body : option string) : HttpRequest.t :=
  HttpRequest.mk method (SdkClient.baseURL c +:+ path)
    ((if String.eqb (SdkClient.token c) "" then [] else [("Authorization", "Bearer " +:+ SdkClient.token c)]) ++
     [("User-Agent", "oiaf-adapter-sdk/0.1.0")] ++
     (match body with Some _ => [("Content-Type", "application/json")] | None => [] end))
    (default "" body).

Definition doRequest (method path : string) (body : option string) : PM S (result HttpResponse.t) :=
  if http_NewRequest (SdkClient.baseURL c +:+ path) then send (sdk_request method path body)
  else mret (Err ("create request: " +:+ SdkClient.baseURL c +:+ path)).

Definition EvaluateAccess (req : string) : PM S (result string) :=
  resp ←? doRequest "POST" "/v1/access/evaluate" (Some req);
  mret (readResponse resp).

Definition VerifyChallenge (challengeID payload : string) : PM S (result string) :=
  resp ←? doRequest "POST" ("/v1/challenge/" +:+ challengeID +:+ "/verify") (Some payload);
  mret (readResponse resp).

Definition ReportEvent (event : string) : PM S (result unit) :=
  resp ←? doRequest "POST" "/v1/audit/events" (Some event);
  if isNotSuccess (HttpResponse.StatusCode resp)
  then mret (Err (server_error (HttpResponse.StatusCode resp)
                    (sanitizeServerBody (take maxErrBodyBytes (bytes (HttpResponse.Body resp))))))
  else mret (Ok tt).

Definition HealthCheck : PM S (result unit) :=
  resp ←? doRequest "GET" "/healthz" None;
  if isNotSuccess (HttpResponse.StatusCode resp)
  then mret (Err ("health check failed (" +:+ pretty (HttpResponse.StatusCode resp) +:+ ")"))
  else mret (Ok tt).
End Calls.

(** ** Facts: UTF-8 sequences *)

(** The bit tests, as ranges: checked on all 256 bytes. *)
Lemma byte_classes b : is_byte b ->
  is_cont b = (128 <=? b) && (b <? 192) /\
  lead_size b = if b <? 192 then 1%nat else if b <? 224 then 2%nat else if b <? 240 then 3%nat
                else if b <? 248 then 4%nat else 1%nat.
Proof.
  intros Hb. assert (H : forallb (fun n => let b := Z.of_nat n in
    eqb (is_cont b) ((128 <=? b) && (b <? 192)) &&
    Nat.eqb (lead_size b) (if b <? 192 then 1%nat else if b <? 224 then 2%nat else if b <? 240 then 3%nat else if b <? 248 then 4%nat else 1%nat))
    (seq 0 256) = true) by (vm_compute; reflexivity).
  rewrite forallb_forall in H. unfold is_byte in Hb. specialize (H (Z.to_nat b)). rewrite Z2Nat.id in H by lia.
  cbv zeta in H. rewrite andb_true_iff in H. destruct H as [H1 H2]; [apply in_seq; lia|].
  split; [by apply eqb_prop|by apply Nat.eqb_eq].
Qed.

Lemma is_cont_low m : is_cont (128 + m mod 64) = true.
Proof.
  pose proof (Z.mod_pos_bound m 64 ltac:(lia)). destruct (byte_classes (128 + m mod 64)) as [-> _]; [unfold is_byte; lia|lia].
Qed.

Lemma EncodeRune_shape r : valid_rune r -> exists lead conts, EncodeRune r = lead :: conts /\
  is_cont lead = false /\ lead_size lead = S (length conts) /\ Forall (fun b => is_cont b = true) conts.
Proof.
  intros Hv. pose proof (EncodeRune_bytes r) as Hb. rewrite EncodeRune_small in * by done. destruct Hv as [Hr _].
  destruct (r <? 128) eqn:?; [|destruct (r <? 2048) eqn:?; [|destruct (r <? 65536) eqn:?]];
    (eexists _, _; split; [reflexivity|]); apply Forall_cons in Hb as [Hb Hc];
    destruct (byte_classes _ Hb) as [-> ->].
  - split_and!; [lia| |constructor]. cbn [length]. destruct (r <? 192) eqn:?; [done|lia].
  - assert (2 <= r / 64 < 32) by (Z.div_mod_to_equations; lia). split_and!; [lia| |].
    + cbn [length]. destruct (192 + r / 64 <? 192) eqn:?; [lia|]. by destruct (192 + r / 64 <? 224) eqn:?; [|lia].
    + repeat (apply Forall_cons_2; [apply is_cont_low|]). apply Forall_nil_2.
  - assert (0 <= r / 4096 < 16) by (Z.div_mod_to_equations; lia). split_and!; [lia| |].
    + cbn [length]. destruct (224 + r / 4096 <? 192) eqn:?; [lia|]. destruct (224 + r / 4096 <? 224) eqn:?; [lia|].
      by destruct (224 + r / 4096 <? 240) eqn:?; [|lia].
    + repeat (apply Forall_cons_2; [apply is_cont_low|]). apply Forall_nil_2.
  - assert (0 <= r / 262144 < 5) by (Z.div_mod_to_equations; lia). split_and!; [lia| |].
    + cbn [length]. destruct (240 + r / 262144 <? 192) eqn:?; [lia|]. destruct (240 + r / 262144 <? 224) eqn:?; [lia|].
      destruct (240 + r / 262144 <? 240) eqn:?; [lia|]. by destruct (240 + r / 262144 <? 248) eqn:?; [|lia].
    + repeat (apply Forall_cons_2; [apply is_cont_low|]). apply Forall_nil_2.
Qed.

Lemma walk_back_lead pre lead conts : is_cont lead = false -> Forall (fun b => is_cont b = true) conts ->
  walk_back (reverse (pre ++ lead :: conts)) (length (pre ++ lead :: conts)) = (length pre + 1)%nat.
Proof.
  intros Hl. induction conts as [|x conts IH] using rev_ind; intros Hc.
  - rewrite reverse_app, length_app. cbn. by rewrite Hl.
  - apply Forall_app in Hc as [Hc Hx]. apply Forall_cons in Hx as [Hx _].
    replace (pre ++ lead :: conts ++ [x]) with ((pre ++ lead :: conts) ++ [x]) by (by rewrite <- app_assoc).
    rewrite reverse_app, length_app. cbn [reverse rev_append app length walk_back]. rewrite Hx, Nat.add_sub. by apply IH.
Qed.

(** ** Facts: the longest prefix of whole runes *)

Notation enc l := (concat (EncodeRune <$> l)).

(** [l1] is the longest prefix of [l1 ++ l2] whose encoding fits. *)
Definition fits (max : nat) (l1 l2 : list Z) : Prop :=
  (length (enc l1) <= max)%nat /\
  match l2 with [] => True | r :: _ => (max < length (enc l1) + length (EncodeRune r))%nat end.

Lemma fits_exists max l : exists l1 l2, l = l1 ++ l2 /\ fits max l1 l2.
Proof.
  revert max. induction l as [|r l IH]; intros max; [exists [], []; by repeat split; cbn; lia|].
  destruct (decide (length (EncodeRune r) <= max)%nat) as [Hr|Hr].
  - destruct (IH (max - length (EncodeRune r))%nat) as (l1 & l2 & -> & Hle & Hm). exists (r :: l1), l2. split; [done|].
    unfold fits. cbn [fmap list_fmap concat]. rewrite length_app. split; [lia|]. destruct l2; [done|lia].
  - exists [], (r :: l). split; [done|]. split; cbn; lia.
Qed.

Lemma fits_truncate_loop max l1 l2 : Forall valid_rune (l1 ++ l2) -> fits max l1 l2 -> forall fuel i,
  (length (enc (l1 ++ l2)) <= fuel)%nat ->
  truncate_loop fuel (enc (l1 ++ l2)) (i + Nat.min (length (enc (l1 ++ l2))) max) i = (i + length (enc l1))%nat.
Proof.
  revert max. induction l1 as [|r l1 IH]; intros max Hv [Hle Hm] fuel i Hf.
  - cbn [app] in *. rewrite Nat.add_0_r. destruct fuel as [|fuel]; [done|]. cbn [truncate_loop].
    destruct (Nat.leb_spec (i + Nat.min (length (enc l2)) max) i) as [|Hlt]; [done|].
    destruct l2 as [|r l2]; [cbn in Hlt; lia|]. cbn [fmap list_fmap concat length] in *. rewrite length_app in *.
    apply Forall_cons in Hv as [Hr _]. rewrite DecodeRune_EncodeRune by done.
    destruct ((r =? RuneError) && _); [done|]. destruct (Nat.ltb_spec (i + Nat.min (length (EncodeRune r) + length (enc l2)) max)
      (i + length (EncodeRune r))); [done|lia].
  - cbn [app fmap list_fmap concat] in *. rewrite !length_app in *. apply Forall_cons in Hv as [Hr Hv].
    pose proof (EncodeRune_length r). destruct fuel as [|fuel]; [lia|]. cbn [truncate_loop].
    destruct (Nat.leb_spec (i + Nat.min (length (EncodeRune r) + length (enc (l1 ++ l2))) max) i); [lia|].
    rewrite DecodeRune_EncodeRune by done.
    destruct ((r =? RuneError) && (length (EncodeRune r) <=? 1)%nat) eqn:He.
    { apply andb_true_iff in He as [->%Z.eqb_eq He]. by cbn in He. }
    destruct (Nat.ltb_spec (i + Nat.min (length (EncodeRune r) + length (enc (l1 ++ l2))) max) (i + length (EncodeRune r))); [lia|].
    rewrite drop_app_length. specialize (IH (max - length (EncodeRune r))%nat Hv).
    replace (i + Nat.min (length (EncodeRune r) + length (enc (l1 ++ l2))) max)%nat
      with (i + length (EncodeRune r) + Nat.min (length (enc (l1 ++ l2))) (max - length (EncodeRune r)))%nat by lia.
    rewrite IH; [lia| |lia]. split; [lia|]. destruct l2; [done|lia].
Qed.

(** The Okta adapter's forward scan. *)
Lemma okta_truncate_fits max l1 l2 : Forall valid_rune (l1 ++ l2) -> fits max l1 l2 ->
  OktaRedact.truncateToRuneBoundary (enc (l1 ++ l2)) max = enc l1.
Proof.
  intros Hv Hf. unfold OktaRedact.truncateToRuneBoundary.
  replace (if (length (enc (l1 ++ l2)) <? max)%nat then length (enc (l1 ++ l2)) else max)
    with (0 + Nat.min (length (enc (l1 ++ l2))) max)%nat by (destruct (Nat.ltb_spec (length (enc (l1 ++ l2))) max); lia).
  rewrite (fits_truncate_loop max l1 l2 Hv Hf) by done. rewrite Nat.add_0_l, fmap_app, concat_app. by rewrite take_app_length.
Qed.

(** The walk back of this package. *)
Lemma sdk_truncate_fits max l1 l2 : Forall valid_rune (l1 ++ l2) -> fits max l1 l2 ->
  truncateToRuneBoundary (enc (l1 ++ l2)) max = enc l1.
Proof.
  intros Hv [Hle Hm]. unfold truncateToRuneBoundary. destruct (Nat.leb_spec (length (enc (l1 ++ l2))) max) as [Hall|Hcut].
  { destruct l2 as [|r l2]; [by rewrite app_nil_r|]. rewrite fmap_app, concat_app, length_app in Hall. cbn in Hall.
    rewrite length_app in Hall. lia. }
  destruct l2 as [|r l2]; [rewrite app_nil_r in Hcut; lia|].
  apply Forall_app in Hv as [Hv1 Hv2]. apply Forall_cons in Hv2 as [Hr _].
  set (k := (max - length (enc l1))%nat).
  assert (Htake : take max (enc (l1 ++ r :: l2)) = enc l1 ++ take k (EncodeRune r)).
  { rewrite fmap_app, concat_app. cbn [fmap list_fmap concat]. rewrite take_app_ge by done. fold k. f_equal.
    by rewrite take_app_le by (unfold k; lia). }
  rewrite Htake. destruct (EncodeRune_shape r Hr) as (lead & conts & He & Hl & Hsz & Hc). rewrite He in *. cbn [length] in Hm.
  destruct k as [|k'] eqn:Hk.
  - (* the cut is between runes *)
    cbn [take firstn]. rewrite app_nil_r. destruct l1 as [|x l1 _] using rev_ind; [done|].
    apply Forall_app in Hv1 as [_ Hx]. apply Forall_cons in Hx as [Hx _].
    destruct (EncodeRune_shape x Hx) as (lx & cx & Hex & Hlx & Hsx & Hcx).
    rewrite fmap_app, concat_app. cbn [fmap list_fmap concat]. rewrite app_nil_r, Hex, walk_back_lead by done.
    rewrite Nat.add_1_r. cbn [Nat.eqb]. rewrite Nat.sub_succ, Nat.sub_0_r, list_lookup_middle by done.
    rewrite length_app, Hsx. cbn [length]. by destruct (Nat.ltb_spec (length (enc l1) + S (length cx) - S (length (enc l1)) + 1) (S (length cx))); [lia|].
  - cbn [take firstn]. rewrite walk_back_lead by (try done; by apply Forall_take).
    rewrite Nat.add_1_r. cbn [Nat.eqb]. rewrite Nat.sub_succ, Nat.sub_0_r, list_lookup_middle by done.
    rewrite length_app, Hsz. cbn [length]. rewrite length_take.
    destruct (Nat.ltb_spec (length (enc l1) + S (Nat.min k' (length conts)) - S (length (enc l1)) + 1) (S (length conts))); [|lia].
    by rewrite take_app_length.
Qed.

(** ** Facts: calls *)

Section CallFacts.
Context {E : Env} {N : Net} {S : Type} (c : SdkClient.t).

(** A call that reads its response: one request, and success is 2xx only. *)
Lemma call_run (method path : string) (body : option string) (s : Proc S) :
  let call := (resp ←? doRequest c method path body; mret (readResponse resp)) : PM S (result string) in
  reqs (call s).2 = reqs s ++ (if http_NewRequest (SdkClient.baseURL c +:+ path) then [sdk_request c method path body] else []) /\
  forall data, (call s).1 = Ok data <-> exists resp,
    http_NewRequest (SdkClient.baseURL c +:+ path) = true /\
    http_Do (ptick s) (sdk_request c method path body) = Ok resp /\
    200 <= HttpResponse.StatusCode resp < 300 /\ data = limit_bytes maxRespBodyBytes (HttpResponse.Body resp).
Proof.
  cbv zeta. unfold doRequest, send. destruct (http_NewRequest _) eqn:Hn; st_unfold.
  - destruct (http_Do (ptick s) _) as [resp|e] eqn:Hd; cbn [fst snd reqs].
    + split; [done|]. intros data. unfold readResponse, isNotSuccess. split.
      * destruct ((_ <? 200) || _) eqn:Hst; [done|]. intros [= <-]. exists resp. split_and!; [done|done|lia|lia|done].
      * intros (resp' & _ & [= <-] & Hst & ->).
        replace ((HttpResponse.StatusCode resp <? 200) || (300 <=? HttpResponse.StatusCode resp)) with false by lia. done.
    + split; [done|]. intros data. split; [done|]. by intros (? & _ & ? & _).
  - rewrite app_nil_r. split; [done|]. intros data. split; [done|]. by intros (? & ? & _).
Qed.

Lemma call_ok (method path : string) (body : option string) (s s' : Proc S) data :
  ((resp ←? doRequest c method path body; mret (readResponse resp)) : PM S (result string)) s = (Ok data, s') ->
  reqs s' = reqs s ++ [sdk_request c method path body] /\ exists resp,
    http_Do (ptick s) (sdk_request c method path body) = Ok resp /\
    200 <= HttpResponse.StatusCode resp < 300 /\ data = limit_bytes maxRespBodyBytes (HttpResponse.Body resp).
Proof.
  intros H. pose proof (call_run method path body s) as [Hq Hr]. rewrite H in Hq, Hr. cbn [fst snd] in Hq, Hr.
  destruct (proj1 (Hr data) eq_refl) as (resp & Hn & Hd & Hst & ->). rewrite Hn in Hq. split; [done|]. by exists resp.
Qed.
End CallFacts.

(** ** Concrete data *)

Definition demo_sdk : SdkClient.t := New "http://127.0.0.1:8080//" "adapter-token".

(** ** Properties *)

(** the two ways of cutting a server's answer agree: on well-formed UTF-8,
    the walk back from the cut of this package and the forward scan of the Okta
    adapter both return the longest prefix of whole runes within the limit. *)
Theorem truncations_agree (l : list Z) (max : nat) : Forall valid_rune l -> exists l1 l2,
  l = l1 ++ l2 /\ fits max l1 l2 /\
  truncateToRuneBoundary (bytes (of_runes l)) max = bytes (of_runes l1) /\
  OktaRedact.truncateToRuneBoundary (bytes (of_runes l)) max = bytes (of_runes l1).
Proof.
  intros Hv. destruct (fits_exists max l) as (l1 & l2 & -> & Hf). exists l1, l2. rewrite !of_runes_bytes.
  split_and!; [done|done|by apply sdk_truncate_fits|by apply okta_truncate_fits].
Qed.

Lemma truncations_agree_witness :
  truncateToRuneBoundary (bytes (of_runes [97; 8364; 98])) 3 = [97] /\ exists l1 l2,
  [97; 8364; 98] = l1 ++ l2 /\ fits 3 l1 l2 /\
  truncateToRuneBoundary (bytes (of_runes [97; 8364; 98])) 3 = bytes (of_runes l1) /\
  OktaRedact.truncateToRuneBoundary (bytes (of_runes [97; 8364; 98])) 3 = bytes (of_runes l1).
Proof.
  split; [vm_compute; reflexivity|]. apply (truncations_agree [97; 8364; 98] 3).
  repeat constructor; unfold valid_rune; lia.
Defined.

(** a decision is never made up: an evaluation is one request with the
    adapter's token, and it returns a payload exactly when the server answered it
    with a 2xx status; the payload is then the body, up to a mebibyte. *)
Theorem EvaluateAccess_exact {E : Env} {N : Net} {S : Type} c (req : string) (s : Proc S) :
  let url := SdkClient.baseURL c +:+ "/v1/access/evaluate" in
  let r := sdk_request c "POST" "/v1/access/evaluate" (Some req) in
  reqs (EvaluateAccess c req s).2 = reqs s ++ (if http_NewRequest url then [r] else []) /\
  forall data, (EvaluateAccess c req s).1 = Ok data <-> exists resp,
    http_NewRequest url = true /\ http_Do (ptick s) r = Ok resp /\
    200 <= HttpResponse.StatusCode resp < 300 /\ data = limit_bytes maxRespBodyBytes (HttpResponse.Body resp).
Proof. apply call_run. Qed.
