(* ===== verification/Pam.v ===== *)
(** * adapters/pam: the PAM helper (oiaf-pam-helper/main.go)

    The helper is one run of a process: it reads its environment, asks the control
    plane and ends with a PAM exit code. Decoding a JSON object is an answer of
    [encoding/json] ([json_map]); terminal, standard input and files are [Net]'s. *)

From S2P Require Import Prelude GoStrings GoTime GoFloat GoCrypto GoRunes GoJson GoHttp Types World Instances OktaRedact Sdk.

Definition exitSuccess : Z := 0.
Definition exitConvErr : Z := 6.
Definition exitAuthErr : Z := 7.
Definition exitSysErr : Z := 8.
Definition defaultServer : string := "http://127.0.0.1:8080".

Definition skipPAMTypes : list string := ["account"; "session"; "open_session"; "close_session"].

Module PamConfig.
Record t := mk {
  server : string; token : string; timeout : Z; failOpen : bool; totpFile : string;
  user : string; groups : list string; service : string; rhost : string; tty : string
}.
End PamConfig.

(** ** Configuration *)

Section Config.
Context (env : environ).

Definition envOr (key def : string) : string :=
  let v := Getenv env key in if String.eqb v "" then def else v.

Definition envInt (key : string) (def : Z) : Z :=
  let v := Getenv env key in if String.eqb v "" then def else default def (Atoi v).

(** The comma-separated entries, trimmed, without the empty ones. *)
Definition split_list (v : string) : list string :=
  base.filter (fun g => g <> "") (TrimSpace <$> Split (ascii_of 44) v).

Definition loadConfig : result PamConfig.t :=
  let groups := let v := Getenv env "OIAF_PAM_GROUPS" in if String.eqb v "" then [] else split_list v in
  let d := envInt "OIAF_PAM_TIMEOUT" 5 in
  let timeout := if 0 <? d then DurationOf d Second else 5 * Second in
  let cfg failOpen :=
    PamConfig.mk (envOr "OIAF_SERVER" defaultServer) (Getenv env "OIAF_ADAPTER_TOKEN") timeout failOpen
      (Getenv env "OIAF_PAM_TOTP_FILE") (Getenv env "PAM_USER") groups (Getenv env "PAM_SERVICE")
      (Getenv env "PAM_RHOST") (Getenv env "PAM_TTY") in
  let v := Getenv env "OIAF_PAM_FAIL_OPEN" in
  match (if String.eqb v "" then Some false else ParseBool v) with
  | None => Err "OIAF_PAM_FAIL_OPEN must be a boolean"
  | Some failOpen =>
      if String.eqb (PamConfig.user (cfg failOpen)) "" then Err "PAM_USER not set"
      else if String.eqb (PamConfig.service (cfg failOpen)) "" then Err "PAM_SERVICE not set"
      else Ok (cfg failOpen)
  end.
End Config.

(** ** The request *)

Definition buildRequest (cfg : PamConfig.t) : any :=
  let sensitivity := if String.eqb (PamConfig.service cfg) "sudo" then "high" else "medium" in
  let groups := match PamConfig.groups cfg with [] => [] | gs => [("groups", AStrs (Some gs))] end in
  AObj [("identity", AObj ([("username", AStr (PamConfig.user cfg)); ("type", AStr "person")] ++ groups));
        ("resource", AObj [("type", AStr (PamConfig.service cfg)); ("name", AStr (PamConfig.service cfg));
                           ("sensitivity", AStr sensitivity)]);
        ("protocol", AObj [("name", AStr "pam")]);
        ("source", AObj []);
        ("device", AObj [("managed", ABool false); ("compliant", ABool true)]);
        ("context", AObj [("mfa_recent", ABool false); ("interactive", ABool true)])].

(** [m[k]] on a decoded object, and the comma-ok type assertions on it. *)
Definition member (m : list (string * any)) (k : string) : any :=
  match find (fun kv => String.eqb kv.1 k) m with Some kv => kv.2 | None => ANil end.
Definition as_string (v : any) : string := match v with AStr s => s | _ => "" end.
Definition as_object (v : any) : option (list (string * any)) := match v with AObj m => Some m | _ => None end.

Definition verify_payload (code : string) : string :=
  "{" +:+ dquote +:+ "method" +:+ dquote +:+ ":" +:+ dquote +:+ "totp" +:+ dquote +:+ "," +:+
  dquote +:+ "code" +:+ dquote +:+ ":" +:+ dquote +:+ code +:+ dquote +:+ "}".

Definition fail (failOpen : bool) : Z := if failOpen then exitSuccess else exitSysErr.

(** ** The run *)

Section Run.
Context {E : Env} {L : Lib} {N : Net}.
Context (json_map : string -> result (list (string * any))).
Context (env : environ) (cfg : PamConfig.t).

Definition client : SdkClient.t := New (PamConfig.server cfg) (PamConfig.token cfg).

Definition evaluate (req : any) : PM unit (result (list (string * any))) :=
  match Marshal req with
  | Err e => mret (Err e)
  | Ok body =>
      raw ←? EvaluateAccess client body;
      match json_map raw with
      | Err e => mret (Err ("decode evaluate response: " +:+ e))
      | Ok decision => mret (Ok decision)
      end
  end.

(** [openTTY]: no terminal for these paths; whether another one opens is an
    answer of the system. *)
Definition no_tty (path : string) : bool := String.eqb path "" || String.eqb path "/dev/null".

Definition promptTOTP : PM unit (result string) :=
  if negb (String.eqb (PamConfig.totpFile cfg) "") then
    secret ← pask (fun n => os_ReadFile n (PamConfig.totpFile cfg));
    match secret with
    | Err e => mret (Err ("read totp file: " +:+ e))
    | Ok secret => now ← pask clock; mret (totp_GenerateCode (TrimSpace secret) now)
    end
  else
    tty ← (if no_tty (PamConfig.tty cfg) then mret None else pask (fun n => tty_ReadLine n (PamConfig.tty cfg)));
    match tty with
    | Some (Err e) => mret (Err ("read TOTP from " +:+ PamConfig.tty cfg +:+ ": " +:+ e))
    | Some (Ok line) =>
        let code := TrimSpace line in
        if String.eqb code "" then mret (Err "no TOTP code provided") else mret (Ok code)
    | None =>
        line ← pask stdin_Scan;
        match line with
        | Err e => mret (Err e)
        | Ok None => mret (Err "no TOTP code on stdin")
        | Ok (Some text) =>
            let code := TrimSpace text in
            if String.eqb code "" then mret (Err "empty TOTP code") else mret (Ok code)
        end
    end.

(** The method test: an absent or empty list is not refused. *)
Definition supported (ch : list (string * any)) : result unit :=
  match member ch "methods" with
  | AArr (m :: _) => if String.eqb (fmt_v m) "totp" then Ok tt else Err ("unsupported challenge method: " +:+ fmt_v m)
  | _ => Ok tt
  end.

Definition resolveChallenge (decision : list (string * any)) : PM unit (result unit) :=
  match as_object (member decision "challenge") with
  | None => mret (Err "challenge decision without challenge details")
  | Some ch =>
      let id := as_string (member ch "id") in
      if String.eqb id "" then mret (Err "challenge missing id")
      else match supported ch with
           | Err e => mret (Err e)
           | Ok _ =>
               code ←? promptTOTP;
               raw ←? VerifyChallenge client id (verify_payload code);
               match json_map raw with
               | Err e => mret (Err ("decode verify response: " +:+ e))
               | Ok verified =>
                   if String.eqb (as_string (member verified "status")) "approved" then mret (Ok tt)
                   else mret (Err "challenge not approved")
               end
           end
  end.

Definition run : PM unit Z :=
  if bool_decide (Getenv env "PAM_TYPE" ∈ skipPAMTypes) then mret exitSuccess
  else if String.eqb (PamConfig.token cfg) "" then mret (fail (PamConfig.failOpen cfg))
  else
    r ← evaluate (buildRequest cfg);
    match r with
    | Err _ => mret (fail (PamConfig.failOpen cfg))
    | Ok decision =>
        let d := as_string (member decision "decision") in
        if String.eqb d "allow" then mret exitSuccess
        else if String.eqb d "alert" then mret exitSuccess
        else if String.eqb d "deny" then mret exitAuthErr
        else if String.eqb d "challenge" then
          r ← resolveChallenge decision;
          match r with Err _ => mret exitAuthErr | Ok _ => mret exitSuccess end
        else mret (fail (PamConfig.failOpen cfg))
    end.
End Run.

(** [main], up to the process exit. *)
Definition pam_main {E : Env} {L : Lib} {N : Net} json_map (env : environ) : PM unit Z :=
  match loadConfig env with
  | Err _ => mret exitSysErr
  | Ok cfg => run json_map env cfg
  end.

(** ** Specification *)

Section Spec.
Context {E : Env} {L : Lib} {N : Net}.
Context (json_map : string -> result (list (string * any))) (cfg : PamConfig.t).

(** The control plane's answer to a request: a 2xx response that decodes to [m]. *)
Definition answered (n : nat) (method path body : string) (m : list (string * any)) : Prop :=
  exists resp, http_Do n (sdk_request (client cfg) method path (Some body)) = Ok resp /\
    200 <= HttpResponse.StatusCode resp < 300 /\
    json_map (limit_bytes maxRespBodyBytes (HttpResponse.Body resp)) = Ok m.

(** Why a login may proceed: the evaluation said so, or it asked for a challenge
    and its verification said approved. *)
Definition warranted (s s' : Proc unit) : Prop := exists body m,
  Marshal (buildRequest cfg) = Ok body /\ answered (ptick s) "POST" "/v1/access/evaluate" body m /\
  let first := sdk_request (client cfg) "POST" "/v1/access/evaluate" (Some body) in
  (member m "decision" = AStr "allow" \/ member m "decision" = AStr "alert") /\ reqs s' = reqs s ++ [first] \/
  member m "decision" = AStr "challenge" /\ exists ch id code n v,
    member m "challenge" = AObj ch /\ member ch "id" = AStr id /\
    answered n "POST" ("/v1/challenge/" +:+ id +:+ "/verify") (verify_payload code) v /\
    member v "status" = AStr "approved" /\
    reqs s' = reqs s ++ [first; sdk_request (client cfg) "POST" ("/v1/challenge/" +:+ id +:+ "/verify") (Some (verify_payload code))].
End Spec.

(** ** Facts *)

Section RunFacts.
Context {E : Env} {L : Lib} {N : Net}.
Context (json_map : string -> result (list (string * any))) (env : environ) (cfg : PamConfig.t).

Lemma as_string_eq v s : s <> "" -> as_string v = s -> v = AStr s.
Proof. destruct v; cbn; intros Hs H; subst; done. Qed.

Lemma evaluate_ok (s s' : Proc unit) m : evaluate json_map cfg (buildRequest cfg) s = (Ok m, s') -> exists body,
  Marshal (buildRequest cfg) = Ok body /\ answered json_map cfg (ptick s) "POST" "/v1/access/evaluate" body m /\
  reqs s' = reqs s ++ [sdk_request (client cfg) "POST" "/v1/access/evaluate" (Some body)].
Proof.
  unfold evaluate. destruct (Marshal (buildRequest cfg)) as [body|e]; [|done]. unfold st_try at 1.
  destruct (EvaluateAccess (client cfg) body s) as [[raw|e] s1] eqn:He; [|done].
  destruct (call_ok _ _ _ _ _ _ _ He) as (Hq & resp & Hd & Hst & ->).
  destruct (json_map _) as [m'|e] eqn:Hj; [|done]. intros [= <- <-]. exists body. split_and!; [done| |done]. by exists resp.
Qed.

Lemma promptTOTP_reqs (s : Proc unit) : reqs (promptTOTP cfg s).2 = reqs s.
Proof.
  unfold promptTOTP, pask. destruct (negb _); st_unfold; [by destruct (os_ReadFile _ _)|].
  destruct (no_tty _); [|destruct (tty_ReadLine _ _) as [[]|]]; try done;
    repeat match goal with |- context [match ?x with _ => _ end] => destruct x end; try done.
Qed.

Lemma resolveChallenge_ok (s s' : Proc unit) m : resolveChallenge json_map cfg m s = (Ok tt, s') ->
  exists ch id code n v, member m "challenge" = AObj ch /\ member ch "id" = AStr id /\
    answered json_map cfg n "POST" ("/v1/challenge/" +:+ id +:+ "/verify") (verify_payload code) v /\
    member v "status" = AStr "approved" /\
    reqs s' = reqs s ++ [sdk_request (client cfg) "POST" ("/v1/challenge/" +:+ id +:+ "/verify") (Some (verify_payload code))].
Proof.
  unfold resolveChallenge. destruct (member m "challenge") as [| | | | | | |ch] eqn:Hch; try done. cbn [as_object].
  destruct (String.eqb_spec (as_string (member ch "id")) "") as [|Hid]; [done|]. destruct (supported ch); [|done].
  unfold st_try at 1. pose proof (promptTOTP_reqs s) as Hp. destruct (promptTOTP cfg s) as [[code|] s1]; [|done]. cbn [snd] in Hp.
  unfold st_try. destruct (VerifyChallenge _ _ _ s1) as [[raw|] s2] eqn:Hv; [|done].
  destruct (call_ok _ _ _ _ _ _ _ Hv) as (Hq & resp & Hd & Hst & ->).
  destruct (json_map _) as [v|] eqn:Hj; [|done]. destruct (String.eqb_spec (as_string (member v "status")) "approved") as [Ha|]; [|done].
  intros [= <-]. exists ch, (as_string (member ch "id")), code, (ptick s1), v. rewrite <- Hp.
  split_and!; [done|by apply as_string_eq|by exists resp|by apply as_string_eq|done].
Qed.
End RunFacts.

(** ** Concrete data *)

Definition demo_environ : environ := fun k =>
  if String.eqb k "PAM_USER" then Some "alice" else if String.eqb k "PAM_SERVICE" then Some "sudo"
  else if String.eqb k "PAM_TYPE" then Some "auth" else if String.eqb k "OIAF_ADAPTER_TOKEN" then Some "t0k"
  else if String.eqb k "OIAF_PAM_GROUPS" then Some "wheel, ,dba " else None.

(** A control plane that asks for a challenge and approves the code 123456. *)
Definition demo_core (decision : string) : Net := {|
  http_Do := fun _ r =>
    if Contains (HttpRequest.URL r) "/verify"
    then Ok (HttpResponse.mk 200 (fun _ => "") (if Contains (HttpRequest.Body r) "123456" then "approved" else "rejected"))
    else Ok (HttpResponse.mk 200 (fun _ => "") decision);
  url_Parse := fun _ => Err ""; net_ParseIP := fun _ => None; http_ParseTime := fun _ => None;
  ctx_Err := fun _ => None; rand_Float64 := fun _ => of_int 0; os_ReadFile := fun _ _ => Err "";
  tty_ReadLine := fun _ _ => None; stdin_Scan := fun _ => Ok (Some "123456 ")
|}.

Definition demo_json_map (s : string) : result (list (string * any)) :=
  if String.eqb s "approved" then Ok [("status", AStr "approved")]
  else if String.eqb s "rejected" then Ok [("status", AStr "pending")]
  else Ok [("decision", AStr s); ("challenge", AObj [("id", AStr "c1"); ("methods", AArr [AStr "totp"])])].

Definition demo_pam_proc : Proc unit := mkProc tt 0 [].

Example pam_demo :
  ((pam_main (N := demo_core "challenge") demo_json_map demo_environ demo_pam_proc).1,
   (pam_main (N := demo_core "deny") demo_json_map demo_environ demo_pam_proc).1,
   (pam_main (N := demo_core "bogus") demo_json_map demo_environ demo_pam_proc).1) = (0, 7, 8).
Proof. vm_compute. reflexivity. Qed.

(** ** Properties *)

(** C22: the helper fails closed: for an authentication, without the explicit
    fail-open switch, it lets a login proceed only if the control plane answered
    the evaluation with a 2xx response whose decision is allow or alert, or is a
    challenge whose verification, in a second request, was answered with a 2xx
    response saying approved. *)
Theorem run_fails_closed {E : Env} {L : Lib} {N : Net} json_map env cfg (s s' : Proc unit) :
  PamConfig.failOpen cfg = false -> Getenv env "PAM_TYPE" ∉ skipPAMTypes ->
  run json_map env cfg s = (exitSuccess, s') -> warranted json_map cfg s s'.
Proof.
  intros Hfo Hty. unfold run. rewrite bool_decide_false by done. rewrite Hfo.
  destruct (String.eqb (PamConfig.token cfg) ""); [done|]. unfold mbind at 1, st_bind at 1.
  destruct (evaluate json_map cfg (buildRequest cfg) s) as [[m|e] s1] eqn:He; [|done].
  destruct (evaluate_ok json_map cfg s s1 m He) as (body & Hb & Ha & Hq).
  assert (Hd : forall d, d <> "" -> as_string (member m "decision") = d -> member m "decision" = AStr d) by (intros; by apply as_string_eq).
  destruct (String.eqb_spec (as_string (member m "decision")) "allow") as [H|_].
  { intros [= <-]. exists body, m. split_and!; [done|done|]. left. auto. }
  destruct (String.eqb_spec (as_string (member m "decision")) "alert") as [H|_].
  { intros [= <-]. exists body, m. split_and!; [done|done|]. left. auto. }
  destruct (String.eqb _ "deny"); [done|].
  destruct (String.eqb_spec (as_string (member m "decision")) "challenge") as [H|_]; [|done].
  unfold mbind, st_bind. destruct (resolveChallenge json_map cfg m s1) as [[[]|e] s2] eqn:Hr; [|done].
  intros [= <-]. destruct (resolveChallenge_ok json_map cfg s1 s2 m Hr) as (ch & id & code & n & v & Hch & Hid & Hv & Hst & Hq2).
  exists body, m. split_and!; [done|done|]. right. split; [by apply Hd|]. exists ch, id, code, n, v.
  split_and!; try done. by rewrite Hq2, Hq, <- app_assoc.
Qed.

Lemma run_fails_closed_witness : exists cfg, loadConfig demo_environ = Ok cfg /\
  warranted (N := demo_core "challenge") demo_json_map cfg demo_pam_proc
    (run (N := demo_core "challenge") demo_json_map demo_environ cfg demo_pam_proc).2.
Proof.
  eexists. split; [vm_compute; reflexivity|].
  apply (run_fails_closed (N := demo_core "challenge") demo_json_map demo_environ).
  - reflexivity.
  - apply (bool_decide_unpack _). vm_compute. exact I.
  - vm_compute. reflexivity.
Defined.

(** a denial is final for the host: when the control plane answers the
    evaluation with deny, the helper ends with the authentication error after that
    one request, in every configuration, fail-open included. *)
Theorem deny_refuses {E : Env} {L : Lib} {N : Net} json_map env cfg (s : Proc unit) body m :
  Getenv env "PAM_TYPE" ∉ skipPAMTypes -> PamConfig.token cfg <> "" ->
  http_NewRequest (SdkClient.baseURL (client cfg) +:+ "/v1/access/evaluate") = true ->
  Marshal (buildRequest cfg) = Ok body -> answered json_map cfg (ptick s) "POST" "/v1/access/evaluate" body m ->
  member m "decision" = AStr "deny" ->
  (run json_map env cfg s).1 = exitAuthErr /\
  reqs (run json_map env cfg s).2 = reqs s ++ [sdk_request (client cfg) "POST" "/v1/access/evaluate" (Some body)].
Proof.
  intros Hty Htok Hn Hb (resp & Hd & Hst & Hj) Hm. unfold run. rewrite bool_decide_false by done.
  destruct (String.eqb_spec (PamConfig.token cfg) ""); [done|]. unfold evaluate. rewrite Hb. unfold EvaluateAccess, doRequest, send.
  rewrite Hn. st_unfold. rewrite Hd. unfold readResponse, isNotSuccess.
  replace ((HttpResponse.StatusCode resp <? 200) || (300 <=? HttpResponse.StatusCode resp)) with false by lia.
  rewrite Hj, Hm. done.
Qed.

Lemma deny_refuses_witness : exists cfg, loadConfig demo_environ = Ok cfg /\
  (run (N := demo_core "deny") demo_json_map demo_environ cfg demo_pam_proc).1 = exitAuthErr.
Proof.
  eexists. split; [vm_compute; reflexivity|].
  eapply (deny_refuses (N := demo_core "deny") demo_json_map demo_environ _ demo_pam_proc).
  - apply (bool_decide_unpack _). vm_compute. exact I.
  - done.
  - reflexivity.
  - vm_compute. reflexivity.
  - eexists. split; [reflexivity|]. split; [cbn; lia|]. vm_compute. reflexivity.
  - reflexivity.
Defined.
