(* ===== verification/DcAgent.v ===== *)
(** * adapters/dc-agent: the domain-controller agent

    parser.go, config.go, sender.go and the service loop of main.go. Decoding the
    XML of an event is [encoding/xml]'s: the parser starts from the decoded
    [xmlEvent]. The Windows event log, the channel and the ticker appear to the
    loop as the sequence of its [select] outcomes. *)

From S2P Require Import Prelude GoStrings GoTime GoFloat GoCrypto GoRunes GoJson GoHttp Types World Instances AuditLog OktaRedact Sdk Pam.

(** ** Parsing (parser.go) *)

Module EventRecord.
Record t := mk {
  EventID : Z; Timestamp : Time; AccountName : string; AccountDomain : string; AccountSID : string;
  LogonType : Z; LogonProcess : string; AuthPackage : string; SourceIP : string; SourcePort : Z;
  TargetServer : string; TargetSPN : string; Status : string; SubStatus : string; DCName : string; EventType : string
}.
End EventRecord.

Module xmlEvent.
Record t := mk {
  ProviderName : string; ProviderGuid : string; EventID : Z; SystemTime : string; Computer : string;
  Data : list (string * string)
}.
End xmlEvent.

(** [data[d.Name] = strings.TrimSpace(d.Value)] for each entry: the last wins. *)
Definition event_data (l : list (string * string)) : gmap string string :=
  foldl (fun m d => <[d.1 := TrimSpace d.2]> m) ∅ l.

(** [n, _ = strconv.Atoi(s)]: the value counts even on an error. *)
Definition Atoi_ (s : string) : Z := (ParseInt s).1.

(** The layouts [parseEventTime] tries, in order. *)
Definition time_formats : list string :=
  ["2006-01-02T15:04:05.000000000Z"; "2006-01-02T15:04:05.000000000-07:00"; "2006-01-02T15:04:05.000Z";
   "2006-01-02T15:04:05Z"; "2006-01-02T15:04:05.999999999Z07:00"; "2006-01-02T15:04:05Z07:00"].

Section Parser.
Context {E : Env}.
(** [time.Parse(layout, s)]. *)
Context (time_Parse : string -> string -> option Time).

Fixpoint try_formats (fs : list string) (s : string) : option Time :=
  match fs with
  | [] => None
  | f :: fs' => match time_Parse f s with Some t => Some (UTC t) | None => try_formats fs' s end
  end.

(** [n]: the question to the clock, if it is asked. *)
Definition parseEventTime (n : nat) (s : string) : Time :=
  let s := TrimSpace s in
  if String.eqb s "" then UTC (clock n) else default (UTC (clock n)) (try_formats time_formats s).

(** The [switch] of [ParseEventXML]; [d k] is [data[k]], empty when absent. *)
Definition ParseEventXML (n : nat) (ev : xmlEvent.t) : EventRecord.t :=
  let data := event_data (xmlEvent.Data ev) in
  let d k := default "" (data !! k) in
  let ts := parseEventTime n (xmlEvent.SystemTime ev) in
  let id := xmlEvent.EventID ev in
  let rec_ name dom sid lt lp ap ip port srv spn st sub ty :=
    EventRecord.mk id ts name dom sid lt lp ap ip port srv spn st sub (xmlEvent.Computer ev) ty in
  if (id =? 4624) || (id =? 4625) then
    rec_ (d "TargetUserName") (d "TargetDomainName") (d "TargetUserSid") (Atoi_ (d "LogonType")) (d "LogonProcessName")
      (d "AuthenticationPackageName") (d "IpAddress") (Atoi_ (d "IpPort")) "" "" (d "Status") (d "SubStatus")
      (if id =? 4624 then "logon_success" else "logon_failure")
  else if id =? 4648 then
    rec_ (d "TargetUserName") (d "TargetDomainName") (d "TargetSid") 0 (d "LogonProcessName") "" (d "IpAddress")
      (Atoi_ (d "IpPort")) (d "TargetServerName") "" "" "" "explicit_credentials"
  else if id =? 4672 then
    rec_ (d "SubjectUserName") (d "SubjectDomainName") (d "SubjectUserSid") 0 "" "" "" 0 "" "" "" "" "special_privileges"
  else if id =? 4768 then
    rec_ (d "TargetUserName") (d "TargetDomainName") (d "TargetSid") 0 "" "kerberos" (d "IpAddress") 0 "" "" (d "Status") ""
      "kerberos_tgt"
  else if id =? 4769 then
    rec_ (d "TargetUserName") (d "TargetDomainName") (d "TargetSid") 0 "" "kerberos" (d "IpAddress") 0
      (d "TargetServerName") (d "ServiceName") (d "Status") "" "kerberos_tgs"
  else if id =? 4771 then
    rec_ (d "TargetUserName") (d "TargetDomainName") (d "TargetSid") 0 "" "kerberos" (d "IpAddress") (Atoi_ (d "Port")) "" ""
      (d "Status") "" "kerberos_preauth_failure"
  else if id =? 4776 then
    rec_ (d "TargetUserName") (d "TargetDomainName") "" 0 (d "LogonProcessName") "NTLM" (d "Workstation") 0 "" ""
      (d "Status") "" "ntlm_validation"
  else if (id =? 2887) || (id =? 2889) then
    rec_ (d "AccountName") (d "AccountDomain") "" 0 "" "NTLM" (d "SourceAddress") 0 "" "" "" "" "ntlm_audit"
  else rec_ "" "" "" 0 "" "" "" 0 "" "" "" "" "".
End Parser.

(** ** Configuration (config.go) *)

Module DcConfig.
Record t := mk {
  ServerURL : string; AdapterToken : string; BatchSize : Z; BatchIntervalSec : Z; EventIDs : list Z;
  InventoryOnStart : bool; LDAPURL : string; BindDN : string; BindPassword : string; BaseDN : string;
  EnforcementMode : string
}.
End DcConfig.

(** [envBool], of this package and of two others. *)
Definition envBool (env : environ) (key : string) (fallback : bool) : bool :=
  let v := Getenv env key in if String.eqb v "" then fallback else default fallback (ParseBool v).

Definition parseEventIDs (s : string) : list Z := omap (fun p => Atoi (TrimSpace p)) (Split (ascii_of 44) s).

Definition loadConfig (env : environ) : DcConfig.t :=
  DcConfig.mk (envOr env "OIAF_SERVER" "http://127.0.0.1:8080") (Getenv env "OIAF_ADAPTER_TOKEN")
    (envInt env "DC_AGENT_BATCH_SIZE" 200) (envInt env "DC_AGENT_BATCH_INTERVAL" 2)
    (parseEventIDs (envOr env "DC_AGENT_EVENT_IDS" "4624,4625,4648,4672,4768,4769,4771,4776"))
    (envBool env "DC_AGENT_INVENTORY_ON_START" true) (Getenv env "DC_AGENT_LDAP_URL")
    (Getenv env "DC_AGENT_LDAP_BIND_DN") (Getenv env "DC_AGENT_LDAP_BIND_PASSWORD")
    (Getenv env "DC_AGENT_LDAP_BASE_DN") (envOr env "DC_AGENT_ENFORCEMENT_MODE" "monitor").

(** ** Sending (sender.go) *)

Module Sender.
Record t := mk { baseURL : string; token : string }.
End Sender.

Definition NewSender (baseURL token : string) : Sender.t := Sender.mk (TrimRight_slash baseURL) token.

(** [json.Marshal] of a record: every member, in the order of the fields. *)
Definition record_json (r : EventRecord.t) : result string :=
  ts ← Time_MarshalJSON (EventRecord.Timestamp r);
  let str k v := AuditLog.member k (json_string v) in
  Ok (json_object
    [AuditLog.member "event_id" (pretty (EventRecord.EventID r)); AuditLog.member "timestamp" ts;
     str "account_name" (EventRecord.AccountName r); str "account_domain" (EventRecord.AccountDomain r);
     str "account_sid" (EventRecord.AccountSID r); AuditLog.member "logon_type" (pretty (EventRecord.LogonType r));
     str "logon_process" (EventRecord.LogonProcess r); str "auth_package" (EventRecord.AuthPackage r);
     str "source_ip" (EventRecord.SourceIP r); AuditLog.member "source_port" (pretty (EventRecord.SourcePort r));
     str "target_server" (EventRecord.TargetServer r); str "target_spn" (EventRecord.TargetSPN r);
     str "status" (EventRecord.Status r); str "sub_status" (EventRecord.SubStatus r);
     str "dc_name" (EventRecord.DCName r); str "event_type" (EventRecord.EventType r)]).

Definition batch_json (events : list EventRecord.t) : result string :=
  parts ← sequence (record_json <$> events);
  Ok (json_object [AuditLog.member "events" ("[" +:+ comma parts +:+ "]")]).

Section Sending.
Context {E : Env} {N : Net} {S : Type}.
Context (snd_ : Sender.t).

Definition batch_request (body : string) : HttpRequest.t :=
  HttpRequest.mk "POST" (Sender.baseURL snd_ +:+ "/v1/ad/events")
    [("Content-Type", "application/json"); ("Authorization", "Bearer " +:+ Sender.token snd_);
     ("User-Agent", "oiaf-dc-agent/0.1.0")] body.

(** [Flush(ctx, events)]: what the server answers is only logged. With a context
    that is already [cancelled], [Do] fails before anything is sent. *)
Definition Flush (cancelled : bool) (events : list EventRecord.t) : PM S unit :=
  match events with
  | [] => mret tt
  | _ =>
      match batch_json events with
      | Err _ => mret tt
      | Ok body =>
          if http_NewRequest (Sender.baseURL snd_ +:+ "/v1/ad/events")
          then if cancelled then mret tt else _ ← send (batch_request body); mret tt
          else mret tt
      end
  end.

Definition HealthCheck : PM S (result unit) :=
  if http_NewRequest (Sender.baseURL snd_ +:+ "/healthz") then
    resp ←? send (HttpRequest.mk "GET" (Sender.baseURL snd_ +:+ "/healthz")
                    [("Authorization", "Bearer " +:+ Sender.token snd_)] "");
    if isNotSuccess (HttpResponse.StatusCode resp)
    then mret (Err ("health check failed: " +:+ pretty (HttpResponse.StatusCode resp)))
    else mret (Ok tt)
  else mret (Err "new request").
End Sending.

(** ** The service loop (main.go) *)

(** What happens to the loop: [Cancel] is the moment the context is cancelled; the
    others are what the [select] receives, [CtxDone] possibly some rounds after
    [Cancel], since a [select] with several ready cases picks any of them. *)
Inductive input := Cancel | CtxDone | Received (ev : EventRecord.t) | ChannelClosed | Tick.

Inductive outcome := Panicked (why : string) | SourceFailed (e : string) | StillRunning | Stopped.

Section Service.
Context {E : Env} {N : Net}.
Context (cfg : DcConfig.t) (snd_ : Sender.t).

(** The loop; its state is the current batch, [done] whether the context is done. *)
Fixpoint service_loop (done : bool) (inputs : list input) : PM (list EventRecord.t) outcome :=
  match inputs with
  | [] => mret StillRunning
  | Cancel :: inputs' => service_loop true inputs'
  | CtxDone :: _ => batch ← pget; _ ← Flush snd_ true batch; mret Stopped
  | ChannelClosed :: _ => batch ← pget; _ ← Flush snd_ done batch; mret Stopped
  | Received ev :: inputs' =>
      batch ← pget;
      let batch := batch ++ [ev] in
      _ ← (if DcConfig.BatchSize cfg <=? Z.of_nat (length batch)
           then _ ← Flush snd_ done batch; pput []
           else pput batch);
      service_loop done inputs'
  | Tick :: inputs' =>
      batch ← pget;
      _ ← Flush snd_ done batch;
      _ ← pput [];
      service_loop done inputs'
  end.

(** [runService]: a negative channel or slice capacity and a ticker without a
    positive period panic. *)
Definition runService (source : result unit) (inputs : list input) : PM (list EventRecord.t) outcome :=
  match source with
  | Err e => mret (SourceFailed e)
  | Ok _ =>
      if DcConfig.BatchSize cfg <? 0 then mret (Panicked "makechan: size out of range")
      else if DurationOf (DcConfig.BatchIntervalSec cfg) Second <=? 0
      then mret (Panicked "non-positive interval for NewTicker")
      else _ ← pput []; service_loop false inputs
  end.
End Service.

(** ** Specification *)

(** The events received until the loop stops. *)
Fixpoint received (inputs : list input) : list EventRecord.t :=
  match inputs with
  | Received ev :: inputs' => ev :: received inputs'
  | Tick :: inputs' | Cancel :: inputs' => received inputs'
  | _ => []
  end.

(** Those received after the context was cancelled, and whether it ever was. *)
Fixpoint received_late (inputs : list input) : list EventRecord.t :=
  match inputs with
  | Cancel :: inputs' => received inputs'
  | Received _ :: inputs' | Tick :: inputs' => received_late inputs'
  | _ => []
  end.

Fixpoint cancelled (inputs : list input) : bool :=
  match inputs with
  | Cancel :: _ | CtxDone :: _ => true
  | Received _ :: inputs' | Tick :: inputs' => cancelled inputs'
  | _ => false
  end.

(** The request of a batch, if one can be made; the events of a batch that does not
    encode, or for which the URL makes no request, are gone without one. *)
Definition posts {E : Env} (snd_ : Sender.t) (b : list EventRecord.t) : list HttpRequest.t :=
  match batch_json b with
  | Ok body => if http_NewRequest (Sender.baseURL snd_ +:+ "/v1/ad/events") then [batch_request snd_ body] else []
  | Err _ => []
  end.

(** A batch is never empty and never larger than the configured size (one event
    when that is zero). *)
Definition batch_ok (cfg : DcConfig.t) (b : list EventRecord.t) : Prop :=
  b <> [] /\ Z.of_nat (length b) <= Z.max 1 (DcConfig.BatchSize cfg).

(** Between two rounds of the loop the batch is smaller than that. *)
Definition pending_ok (cfg : DcConfig.t) (b : list EventRecord.t) : Prop :=
  b = [] \/ Z.of_nat (length b) < DcConfig.BatchSize cfg.

(** ** Facts *)

Section ServiceFacts.
Context {E : Env} {N : Net} (cfg : DcConfig.t) (snd_ : Sender.t).

Lemma Flush_run {S} b (s : Proc S) :
  exists k, Flush snd_ false b s = (tt, mkProc (ps s) k (reqs s ++ match b with [] => [] | _ => posts snd_ b end)).
Proof.
  unfold Flush, posts. destruct b as [|ev b]; [exists (ptick s); rewrite app_nil_r; by destruct s|].
  destruct (batch_json _); [|exists (ptick s); rewrite app_nil_r; by destruct s].
  destruct (http_NewRequest _); [by eexists|]. exists (ptick s). rewrite app_nil_r. by destruct s.
Qed.

(** A cancelled flush sends nothing. *)
Lemma Flush_cancelled {S} b (s : Proc S) : Flush snd_ true b s = (tt, s).
Proof. unfold Flush. destruct b; [done|]. destruct (batch_json _); [|done]. by destruct (http_NewRequest _). Qed.

(** Flushing a batch, as a list of at most one batch. *)
Definition flushed (b : list EventRecord.t) : list (list EventRecord.t) := match b with [] => [] | _ => [b] end.

Lemma flushed_spec b : concat (flushed b) = b /\ concat (posts snd_ <$> flushed b) = match b with [] => [] | _ => posts snd_ b end.
Proof. destruct b; [done|]. cbn. by rewrite !app_nil_r. Qed.

Lemma pending_batch b : pending_ok cfg b -> Forall (batch_ok cfg) (flushed b).
Proof.
  intros Hb. destruct b as [|ev b]; [constructor|]. destruct Hb as [|Hb]; [done|]. repeat constructor; [done|lia].
Qed.

(** What is left in the batch when the loop has not stopped. *)
Definition left_over (r : outcome * Proc (list EventRecord.t)) : list EventRecord.t :=
  match r.1 with Stopped => [] | _ => ps r.2 end.

(** After the cancellation nothing is sent any more. *)
Lemma service_loop_done inputs : forall (s : Proc (list EventRecord.t)), pending_ok cfg (ps s) ->
  exists dropped, let r := service_loop cfg snd_ true inputs s in
  reqs r.2 = reqs s /\ dropped ++ left_over r = ps s ++ received inputs /\ pending_ok cfg (left_over r).
Proof.
  induction inputs as [|i inputs IH]; intros s Hb; cbn [service_loop].
  { exists []. cbn. by rewrite app_nil_r. }
  assert (Hstop : exists dropped, dropped ++ [] = ps s ++ [] /\ pending_ok cfg []) by (exists (ps s); split; [done|by left]).
  destruct i as [| |ev| |]; unfold pget, pput; st_unfold; cbn [received].
  - by apply IH.
  - rewrite Flush_cancelled. destruct Hstop as (d & ? & ?). by exists d.
  - destruct (Z.leb_spec (DcConfig.BatchSize cfg) (Z.of_nat (length (ps s ++ [ev])))) as [Hfull|Hroom].
    + rewrite Flush_cancelled.
      match goal with |- context [service_loop cfg snd_ true inputs ?s1] => destruct (IH s1) as (d & Hq & Hd & Hp); [by left|] end.
      exists ((ps s ++ [ev]) ++ d). split_and!; [exact Hq| |exact Hp]. rewrite <- app_assoc, Hd. cbn [ps app]. by rewrite <- app_assoc.
    + match goal with |- context [service_loop cfg snd_ true inputs ?s1] => destruct (IH s1) as (d & Hq & Hd & Hp); [by right|] end.
      exists d. split_and!; [exact Hq| |exact Hp]. cbn [ps] in Hd. by rewrite <- app_assoc in Hd.
  - rewrite Flush_cancelled. destruct Hstop as (d & ? & ?). by exists d.
  - rewrite Flush_cancelled.
    match goal with |- context [service_loop cfg snd_ true inputs ?s1] => destruct (IH s1) as (d & Hq & Hd & Hp); [by left|] end.
    exists (ps s ++ d). split_and!; [exact Hq| |exact Hp]. by rewrite <- app_assoc, Hd.
Qed.

(** The run up to and after the cancellation: what was sent, dropped and left. *)
Definition accounted (inputs : list input) (b0 : list EventRecord.t) (q : list HttpRequest.t) (r : outcome * Proc (list EventRecord.t)) : Prop :=
  exists batches dropped,
  reqs r.2 = q ++ concat (posts snd_ <$> batches) /\ Forall (batch_ok cfg) batches /\
  concat batches ++ dropped ++ left_over r = b0 ++ received inputs /\ pending_ok cfg (left_over r) /\
  (cancelled inputs = false -> dropped = []) /\
  Z.of_nat (length dropped) < Z.max 1 (DcConfig.BatchSize cfg) + Z.of_nat (length (received_late inputs)).

Lemma accounted_flush inputs' inputs b0 b q r : Forall (batch_ok cfg) (flushed b) -> b0 ++ received inputs = b ++ received inputs' ->
  cancelled inputs = cancelled inputs' -> received_late inputs = received_late inputs' ->
  accounted inputs' [] (q ++ concat (posts snd_ <$> flushed b)) r -> accounted inputs b0 q r.
Proof.
  intros Hb He Hc Hl (batches & dropped & Hq & Hf & Hd & Hp & Hn & Hz). exists (flushed b ++ batches), dropped.
  rewrite Hq, fmap_app, !concat_app, He, Hc, Hl. destruct (flushed_spec b) as [-> _].
  split_and!; [by rewrite <- app_assoc|by apply Forall_app|by rewrite <- app_assoc, Hd|done..].
Qed.

Lemma accounted_keep inputs' inputs b0 b0' q r : b0 ++ received inputs = b0' ++ received inputs' ->
  cancelled inputs = cancelled inputs' -> received_late inputs = received_late inputs' ->
  accounted inputs' b0' q r -> accounted inputs b0 q r.
Proof. unfold accounted. by intros -> -> ->. Qed.

(** Cancelled with [b] pending: [b] and what comes later may be dropped. *)
Lemma accounted_cancelled inputs inputs' s : pending_ok cfg (ps s) -> cancelled inputs = true ->
  received inputs = received inputs' -> received_late inputs = received inputs' ->
  accounted inputs (ps s) (reqs s) (service_loop cfg snd_ true inputs' s).
Proof.
  intros Hb Hc Hr Hl. destruct (service_loop_done inputs' s Hb) as (d & Hq & Hd & Hp). exists [], d. cbn [fmap list_fmap concat].
  rewrite app_nil_r, Hr, Hl. split_and!; [done|done|done|done|by rewrite Hc|]. apply (f_equal length) in Hd. rewrite !length_app in Hd.
  assert (Z.of_nat (length (ps s)) < Z.max 1 (DcConfig.BatchSize cfg)) by (destruct Hb as [->|?]; cbn [length]; lia). lia.
Qed.

Lemma service_loop_run inputs : forall (s : Proc (list EventRecord.t)), pending_ok cfg (ps s) ->
  accounted inputs (ps s) (reqs s) (service_loop cfg snd_ false inputs s).
Proof.
  induction inputs as [|i inputs IH]; intros s Hb.
  { exists [], []. cbn. rewrite !app_nil_r. split_and!; [done|constructor|done|done|done|lia]. }
  destruct i as [| |ev| |]; [by apply accounted_cancelled| | | |]; cbn [service_loop]; unfold pget, pput; st_unfold.
  - apply (accounted_cancelled _ [CtxDone] s); done.
  - destruct (Z.leb_spec (DcConfig.BatchSize cfg) (Z.of_nat (length (ps s ++ [ev])))) as [Hfull|Hroom].
    + destruct (Flush_run (ps s ++ [ev]) s) as [k ->]. cbn [ps ptick reqs].
      apply (accounted_flush inputs _ _ (ps s ++ [ev])); [|by cbn [received]; rewrite <- app_assoc|done|done|].
      * assert (Hok : batch_ok cfg (ps s ++ [ev])); [|by destruct (ps s); repeat constructor; apply Hok].
        split; [by destruct (ps s)|]. rewrite length_app. cbn [length]. destruct Hb as [->|Hb]; cbn [length]; lia.
      * destruct (flushed_spec (ps s ++ [ev])) as [_ ->]. apply (IH (mkProc [] _ _)). by left.
    + apply (accounted_keep inputs _ _ (ps s ++ [ev])); [by cbn [received]; rewrite <- app_assoc|done|done|].
      apply (IH (mkProc _ _ _)). by right.
  - destruct (Flush_run (ps s) s) as [k ->]. apply (accounted_flush [] _ _ (ps s)); [by apply pending_batch|done|done|done|].
    destruct (flushed_spec (ps s)) as [_ ->]. exists [], []. cbn. rewrite app_nil_r. split_and!; [done|done|done|by left|done|lia].
  - destruct (Flush_run (ps s) s) as [k ->]. cbn [ps ptick reqs].
    apply (accounted_flush inputs _ _ (ps s)); [by apply pending_batch|done|done|done|].
    destruct (flushed_spec (ps s)) as [_ ->]. apply (IH (mkProc [] _ _)). by left.
Qed.
End ServiceFacts.

(** An entry of the event's data is the last one of its name, trimmed. *)
Lemma event_data_last l k : event_data l !! k = TrimSpace <$> last (base.filter (fun d => d.1 = k) l).*2.
Proof.
  unfold event_data. induction l as [|d l IH] using rev_ind; [done|].
  rewrite foldl_app, filter_app, fmap_app. cbn [foldl]. rewrite filter_cons, filter_nil.
  destruct (decide (d.1 = k)) as [<-|Hne].
  - rewrite lookup_insert_eq. cbn. by rewrite last_snoc.
  - rewrite lookup_insert_ne by done. cbn. by rewrite app_nil_r.
Qed.

(** The event ids the agent understands. *)
Definition handled_ids : list Z := [4624; 4625; 4648; 4672; 4768; 4769; 4771; 4776; 2887; 2889].

(** ** Concrete data *)

Definition demo_record (n : Z) : EventRecord.t :=
  EventRecord.mk 4624 demo_base ("user" +:+ pretty n) "CORP" ("S-1-5-21-" +:+ pretty n) 3 "Kerberos" "Negotiate" "10.0.0.5" 0 "" "" "" "" "DC1"
    "logon_success".

Definition demo_dc_config : DcConfig.t := DcConfig.mk "http://core/" "t0k" 2 2 handled_ids true "" "" "" "" "monitor".
Definition demo_sender : Sender.t := NewSender (DcConfig.ServerURL demo_dc_config) (DcConfig.AdapterToken demo_dc_config).
Definition demo_dc_proc : Proc (list EventRecord.t) := mkProc [] 0 [].

(** A control plane that refuses everything. *)
Definition demo_down : Net := {|
  http_Do := fun _ _ => Ok (HttpResponse.mk 503 (fun _ => "") "");
  url_Parse := fun _ => Err ""; net_ParseIP := fun _ => None; http_ParseTime := fun _ => None;
  ctx_Err := fun _ => None; rand_Float64 := fun _ => of_int 0; os_ReadFile := fun _ _ => Err "";
  tty_ReadLine := fun _ _ => None; stdin_Scan := fun _ => Ok None
|}.

Example parse_event_ex :
  let ev := xmlEvent.mk "" "" 4624 "" "DC1" [("TargetUserName", "bob"); ("LogonType", " 3 "); ("TargetUserName", "eve ")] in
  let r := ParseEventXML (fun _ _ => None) 0 ev in
  (EventRecord.AccountName r, EventRecord.LogonType r, EventRecord.EventType r) = ("eve", 3, "logon_success").
Proof. vm_compute. reflexivity. Qed.

(** ** Properties *)

(** the agent loses no event before it is told to stop: with a batch size that
    is not negative and a positive interval, the requests it sends are batches that
    are not empty and not larger than configured, and, in order, the batches, what
    was dropped and what is left in the current batch are exactly the events
    received. Nothing is dropped unless the context was cancelled; then it is less
    than one batch and what arrived after the cancellation. *)
Theorem service_batches {E : Env} {N : Net} cfg snd_ inputs (s : Proc (list EventRecord.t)) :
  0 <= DcConfig.BatchSize cfg -> 0 < DurationOf (DcConfig.BatchIntervalSec cfg) Second ->
  exists batches dropped, let r := runService cfg snd_ (Ok tt) inputs s in
  reqs r.2 = reqs s ++ concat (posts snd_ <$> batches) /\ Forall (batch_ok cfg) batches /\
  concat batches ++ dropped ++ left_over r = received inputs /\ pending_ok cfg (left_over r) /\
  (cancelled inputs = false -> dropped = []) /\
  Z.of_nat (length dropped) < Z.max 1 (DcConfig.BatchSize cfg) + Z.of_nat (length (received_late inputs)).
Proof.
  intros Hb Hi. unfold runService. destruct (Z.ltb_spec (DcConfig.BatchSize cfg) 0); [lia|].
  destruct (Z.leb_spec (DurationOf (DcConfig.BatchIntervalSec cfg) Second) 0); [lia|].
  unfold pput. st_unfold. apply (service_loop_run cfg snd_ inputs (mkProc [] (ptick s) (reqs s))). by left.
Qed.

Lemma service_batches_witness : exists batches,
  let r := runService (N := demo_down) demo_dc_config demo_sender (Ok tt)
             [Received (demo_record 0); Received (demo_record 1); Received (demo_record 2); Tick] demo_dc_proc in
  reqs r.2 = concat (posts demo_sender <$> batches) /\ concat batches = [demo_record 0; demo_record 1; demo_record 2].
Proof.
  destruct (service_batches (N := demo_down) demo_dc_config demo_sender
    [Received (demo_record 0); Received (demo_record 1); Received (demo_record 2); Tick] demo_dc_proc)
    as (batches & dropped & Hq & _ & Hm & _ & Hd & _).
  - cbn. lia.
  - vm_compute. reflexivity.
  - exists batches. split; [exact Hq|]. rewrite (Hd eq_refl) in Hm. rewrite app_nil_l in Hm.
    change (left_over _) with ([] : list EventRecord.t) in Hm. rewrite app_nil_r in Hm. exact Hm.
Defined.

(** a record names an event type exactly for the ten event ids the agent
    understands, and of any other event only the id, the time and the domain
    controller are passed on. *)
Theorem ParseEventXML_handled {E : Env} time_Parse n ev :
  let r := ParseEventXML time_Parse n ev in
  (EventRecord.EventType r <> "" <-> xmlEvent.EventID ev ∈ handled_ids) /\
  (xmlEvent.EventID ev ∉ handled_ids ->
   r = EventRecord.mk (xmlEvent.EventID ev) (parseEventTime time_Parse n (xmlEvent.SystemTime ev)) "" "" "" 0 "" "" "" 0
         "" "" "" "" (xmlEvent.Computer ev) "").
Proof.
  unfold ParseEventXML, handled_ids. cbv zeta. rewrite !elem_of_cons. generalize (xmlEvent.EventID ev) as id. intros id.
  repeat (match goal with |- context [id =? ?b] => destruct (Z.eqb_spec id b) as [->|?] end;
    [cbn; split; [split; [intros _; tauto|done]|intros Hn; exfalso; tauto]|]).
  cbn. split; [|done]. split; [done|]. intros H. rewrite elem_of_nil in H. exfalso. tauto.
Qed.

(** ** What modelling showed *)

(** A batch the server refuses is gone: it is not kept for another attempt. *)
Theorem refused_batch_lost :
  let r := runService (N := demo_down) demo_dc_config demo_sender (Ok tt) [Received (demo_record 0); Tick; Tick; CtxDone] demo_dc_proc in
  r.1 = Stopped /\ length (reqs r.2) = 1%nat.
Proof. split; vm_compute; reflexivity. Qed.

(** A regular stop loses the batch being filled: it is flushed with the context
    whose cancellation is the reason to stop. *)
Theorem shutdown_drops_batch :
  let r := runService (N := demo_down) demo_dc_config demo_sender (Ok tt) [Received (demo_record 0); Cancel; CtxDone] demo_dc_proc in
  r.1 = Stopped /\ reqs r.2 = [].
Proof. split; vm_compute; reflexivity. Qed.

(** Neither batch setting is validated: a negative size or a zero interval ends
    the agent with a panic. *)
Theorem bad_batch_settings_panic {E : Env} {N : Net} cfg snd_ inputs s :
  DcConfig.BatchSize cfg < 0 \/ DcConfig.BatchIntervalSec cfg = 0 ->
  exists why, (runService cfg snd_ (Ok tt) inputs s).1 = Panicked why.
Proof.
  intros H. unfold runService. destruct (Z.ltb_spec (DcConfig.BatchSize cfg) 0); [by eexists|].
  destruct H as [H|H]; [lia|rewrite H]. by eexists.
Qed.
