(* ===== verification/DcWindows.v ===== *)
(** * adapters/dc-agent: the event source and the agent as a whole

    eventlog_windows.go and its stub, the goroutines of [runService], and the
    Windows service of service_windows.go. [Subscribe] runs beside the service
    loop of file DcAgent; the two share a bounded channel and a context. A run of
    the agent is a sequence of labelled steps ([astep], executable), any
    interleaving of which is allowed; the service controller adds its commands
    ([sstep]). The Windows event log (wevtapi.dll) and the XML decoder are
    parameters. *)

From S2P Require Import Prelude GoStrings GoTime GoFloat GoCrypto GoRunes GoJson GoHttp Types World Instances AuditLog OktaRedact Sdk Pam DcAgent.

(** ** UTF-16 (package syscall) *)

(** The generalised UTF-8 encoding of a code point, surrogates included. *)
Definition wtf8 (r : Z) : list Z :=
  if r <? 128 then [r]
  else if r <? 2048 then [Z.lor 192 (Z.shiftr r 6); Z.lor 128 (Z.land r 63)]
  else if r <? 65536 then [Z.lor 224 (Z.shiftr r 12); Z.lor 128 (Z.land (Z.shiftr r 6) 63); Z.lor 128 (Z.land r 63)]
  else [Z.lor 240 (Z.shiftr r 18); Z.lor 128 (Z.land (Z.shiftr r 12) 63); Z.lor 128 (Z.land (Z.shiftr r 6) 63); Z.lor 128 (Z.land r 63)].

Definition high_surrogate (u : Z) : bool := (55296 <=? u) && (u <? 56320).
Definition low_surrogate (u : Z) : bool := (56320 <=? u) && (u <? 57344).

(** [decodeWTF16]: pairs are joined, other surrogates kept. *)
Fixpoint decodeWTF16 (l : list Z) : list Z :=
  match l with
  | [] => []
  | u :: l' =>
      match l' with
      | v :: l'' => if high_surrogate u && low_surrogate v
                    then wtf8 (Z.shiftl (u - 55296) 10 + (v - 56320) + 65536) ++ decodeWTF16 l''
                    else wtf8 u ++ decodeWTF16 l'
      | [] => wtf8 u
      end
  end.

Fixpoint until_nul (l : list Z) : list Z :=
  match l with [] => [] | u :: l' => if u =? 0 then [] else u :: until_nul l' end.

Definition UTF16ToString (l : list Z) : string := of_bytes (decodeWTF16 (until_nul l)).

(** [UTF16PtrFromString]: the string stands for the pointer to its encoding. *)
Definition UTF16PtrFromString (s : string) : result string :=
  if existsb (Z.eqb 0) (bytes s) then Err "invalid argument" else Ok s.

Example utf16_ex : UTF16ToString [60; 69; 228; 8364; 55357; 56832; 55357; 33; 0; 7]
  = of_bytes [60; 69; 195; 164; 226; 130; 172; 240; 159; 152; 128; 237; 160; 189; 33].
Proof. vm_compute. reflexivity. Qed.

(** ** The event log *)

(** An argument of a call: a number or a pointer to a text. *)
Inductive arg := Num (z : Z) | Text (s : string).

(** One call of [EvtRender]: what it returns, the bytes it wants, the UTF-16 units
    it wrote and the error's text. *)
Module Rendered.
Record t := mk { ret : Z; used : Z; units : list Z; callErr : string }.
End Rendered.

(** wevtapi.dll; the first argument numbers the calls. [EvtNext handle size] writes
    handles to the buffer and returns their number with its result. *)
Class EvtLog := {
  EvtSubscribe : nat -> list arg -> Z * string;
  EvtNext : nat -> Z -> Z -> Z * list Z;
  EvtRender : nat -> Z -> Z -> Rendered.t;
  xml_Unmarshal : string -> result xmlEvent.t
}.

(** The log writes no more handles than the buffer holds. *)
Class EvtLogOk (L : EvtLog) : Prop := {
  EvtNext_fits : forall n h size ret hs, EvtNext n h size = (ret, hs) -> Z.of_nat (length hs) <= Z.max 0 size
}.

Definition evtSubscribeToRealtimeEvents : Z := 1.

Definition buildQuery (eventIDs : list Z) : string :=
  match eventIDs with
  | [] => "*"
  | _ => "*[System[" +:+ Join " or " ((fun id => "(EventID=" +:+ pretty id +:+ ")") <$> eventIDs) +:+ "]]"
  end.

(** The query of the other platforms (eventlog_stub.go), which nothing uses. *)
Definition stub_buildQuery (eventIDs : list Z) : string := "event_ids=[" +:+ Join " " (pretty <$> eventIDs) +:+ "]".

Example buildQuery_ex : buildQuery [4624; 4625] = "*[System[(EventID=4624) or (EventID=4625)]]" /\ stub_buildQuery [4624; 4625] = "event_ids=[4624 4625]".
Proof. vm_compute. done. Qed.

(** [renderEvent]: one call for the size, one for the text. Calls [n] and [n + 1]. *)
Definition renderEvent {L : EvtLog} (n : nat) (eventHandle : Z) : result string :=
  let bufUsed := Rendered.used (EvtRender n eventHandle 0) in
  if bufUsed =? 0 then Err "empty event"
  else
    let len := bufUsed / 2 + 1 in
    let r := EvtRender (S n) eventHandle (len * 2) in
    if Rendered.ret r =? 0 then Err ("EvtRender: " +:+ Rendered.callErr r)
    else Ok (UTF16ToString (take (Z.to_nat len) (Rendered.units r ++ replicate (Z.to_nat len) 0))).

(** ** The agent *)

(** Where [Subscribe] is: at its start, before the check of the context, before
    [EvtNext], in the loop over the handles, at the send, or returned. *)
Inductive sub_pc :=
| SubStart
| SubPoll
| SubCall
| SubHandles (hs : list Z)
| SubSend (rec : EventRecord.t) (hs : list Z)
| SubEnd (err : option string).

(** Which of the two builds. *)
Inductive build := Stub | Windows.

Module Agent.
Record t := mk {
  sub : sub_pc; local : Z;           (** [Subscribe], and its copy of the handle *)
  calls : nat;                       (** calls of the event log so far *)
  handle : Z;                        (** the source's handle field *)
  queue : list EventRecord.t;        (** the channel *)
  done : bool;                       (** the context *)
  main : outcome; proc : Proc (list EventRecord.t);  (** the service loop *)
  seen : list EventRecord.t;         (** records parsed, in order *)
  opened : list Z; closed : list Z;  (** event handles handed out, and closed *)
  released : list Z                  (** source handles closed *)
}.
Definition set_sub (p : sub_pc) (k : nat) (a : t) : t :=
  mk p (local a) (calls a + k) (handle a) (queue a) (done a) (main a) (proc a) (seen a) (opened a) (closed a) (released a).
Definition cancel (a : t) : t :=
  mk (sub a) (local a) (calls a) (handle a) (queue a) true (main a) (proc a) (seen a) (opened a) (closed a) (released a).
End Agent.

Inductive label := LSub | LSend | LQuit | LRecv | LHandOver | LTick | LDone | LCancel.

Section Agent.
Context {E : Env} {N : Net} {L : EvtLog}.
Context (b : build) (time_Parse : string -> string -> option Time) (cfg : DcConfig.t) (snd_ : Sender.t).

(** [NewEventSource] and [make(chan EventRecord, cfg.BatchSize*2)]. *)
Definition NewEventSource : result unit := Ok tt.
Definition capacity : Z := DcConfig.BatchSize cfg * 2.

(** The call that subscribes, argument by argument. *)
Definition subscribe_args (channelPtr queryPtr : string) : list arg :=
  [Num 0; Num 0; Text channelPtr; Text queryPtr; Num 0; Num 0; Num 0; Num 0; Num evtSubscribeToRealtimeEvents].

Definition subscribe (a : Agent.t) : Agent.t :=
  match UTF16PtrFromString "Security" with
  | Err e => Agent.set_sub (SubEnd (Some ("utf16 channel: " +:+ e))) 0 a
  | Ok channelPtr =>
      match UTF16PtrFromString (buildQuery (DcConfig.EventIDs cfg)) with
      | Err e => Agent.set_sub (SubEnd (Some ("utf16 query: " +:+ e))) 0 a
      | Ok queryPtr =>
          let '(h, callErr) := EvtSubscribe (Agent.calls a) (subscribe_args channelPtr queryPtr) in
          if h =? 0 then Agent.set_sub (SubEnd (Some ("EvtSubscribe failed: " +:+ callErr))) 1 a
          else Agent.mk SubPoll h (S (Agent.calls a)) h (Agent.queue a) (Agent.done a) (Agent.main a) (Agent.proc a) (Agent.seen a)
                 (Agent.opened a) (Agent.closed a) (Agent.released a)
      end
  end.

Definition eventHandles : Z := 16.

(** [EvtNext]; without events the loop starts over. *)
Definition next_events (a : Agent.t) : Agent.t :=
  let '(ret, hs) := EvtNext (Agent.calls a) (Agent.local a) eventHandles in
  if (ret =? 0) || bool_decide (hs = []) then Agent.set_sub SubPoll 1 a
  else Agent.mk (SubHandles hs) (Agent.local a) (S (Agent.calls a)) (Agent.handle a) (Agent.queue a) (Agent.done a) (Agent.main a)
         (Agent.proc a) (Agent.seen a) (Agent.opened a ++ hs) (Agent.closed a) (Agent.released a).

(** The record of a handle, if it renders and parses. *)
Definition read_event (n : nat) (h : Z) : option EventRecord.t :=
  match renderEvent n h with
  | Err _ => None
  | Ok xml => match xml_Unmarshal xml with Err _ => None | Ok ev => Some (ParseEventXML time_Parse n ev) end
  end.

(** A handle is rendered and closed; an event that does not read is skipped. *)
Definition take_event (h : Z) (hs : list Z) (a : Agent.t) : Agent.t :=
  let r := read_event (Agent.calls a) h in
  Agent.mk (match r with Some rec => SubSend rec hs | None => SubHandles hs end) (Agent.local a) (Agent.calls a + 2) (Agent.handle a)
    (Agent.queue a) (Agent.done a) (Agent.main a) (Agent.proc a) (Agent.seen a ++ option_list r) (Agent.opened a) (Agent.closed a ++ [h]) (Agent.released a).

(** [Subscribe] up to its next send; the stub only waits for the context. *)
Definition sub_step (a : Agent.t) : option Agent.t :=
  match Agent.sub a, b with
  | SubStart, Windows => Some (subscribe a)
  | SubStart, Stub => if Agent.done a then Some (Agent.set_sub (SubEnd None) 0 a) else None
  | SubPoll, _ => Some (Agent.set_sub (if Agent.done a then SubEnd None else SubCall) 0 a)
  | SubCall, _ => Some (next_events a)
  | SubHandles [], _ => Some (Agent.set_sub SubPoll 0 a)
  | SubHandles (h :: hs), _ => Some (take_event h hs a)
  | SubSend _ _, _ | SubEnd _, _ => None
  end.

(** One round of the service loop, on what its [select] received. *)
Definition main_step (i : input) (q : list EventRecord.t) (p : sub_pc) (a : Agent.t) : option Agent.t :=
  match Agent.main a with
  | StillRunning =>
      let r := service_loop cfg snd_ (Agent.done a) [i] (Agent.proc a) in
      Some (Agent.mk p (Agent.local a) (Agent.calls a) (Agent.handle a) q (Agent.done a) r.1 r.2 (Agent.seen a) (Agent.opened a) (Agent.closed a) (Agent.released a))
  | _ => None
  end.

(** The source's [Close], which [runService] defers. *)
Definition Close (a : Agent.t) : Agent.t :=
  if Agent.handle a =? 0 then a
  else Agent.mk (Agent.sub a) (Agent.local a) (Agent.calls a) 0 (Agent.queue a) (Agent.done a) (Agent.main a) (Agent.proc a) (Agent.seen a)
         (Agent.opened a) (Agent.closed a) (Agent.released a ++ [Agent.handle a]).

(** A process that panicked is gone. *)
Definition alive (a : Agent.t) : bool := match Agent.main a with StillRunning | Stopped => true | _ => false end.

Definition astep (l : label) (a : Agent.t) : option Agent.t :=
  if negb (alive a) then None else
  match l with
  | LSub => sub_step a
  | LSend =>
      match Agent.sub a with
      | SubSend rec hs =>
          if Z.of_nat (length (Agent.queue a)) <? capacity
          then Some (Agent.mk (SubHandles hs) (Agent.local a) (Agent.calls a) (Agent.handle a) (Agent.queue a ++ [rec]) (Agent.done a)
                       (Agent.main a) (Agent.proc a) (Agent.seen a) (Agent.opened a) (Agent.closed a) (Agent.released a))
          else None
      | _ => None
      end
  | LQuit =>
      match Agent.sub a with
      | SubSend _ _ => if Agent.done a then Some (Agent.set_sub (SubEnd None) 0 a) else None
      | _ => None
      end
  | LRecv =>
      match Agent.queue a with
      | [] => None
      | ev :: q => main_step (Received ev) q (Agent.sub a) a
      end
  | LHandOver =>
      match Agent.sub a, Agent.queue a with
      | SubSend rec hs, [] => main_step (Received rec) [] (SubHandles hs) a
      | _, _ => None
      end
  | LTick => main_step Tick (Agent.queue a) (Agent.sub a) a
  | LDone => if Agent.done a then Close <$> main_step CtxDone (Agent.queue a) (Agent.sub a) a else None
  | LCancel => Some (Agent.cancel a)
  end.

(** [runService] up to its loop. *)
Definition agent_start : Agent.t :=
  let r := runService cfg snd_ NewEventSource [] (mkProc [] 0 []) in
  Agent.mk SubStart 0 0 0 [] false r.1 r.2 [] [] [] [].

Definition agent_step (a a' : Agent.t) : Prop := exists l, astep l a = Some a'.

Fixpoint arun (ls : list label) (a : Agent.t) : option Agent.t :=
  match ls with [] => Some a | l :: ls' => a ← astep l a; arun ls' a end.
End Agent.

(** ** The Windows service (service_windows.go)

    The statuses reported to the service controller are [changes]; [commands] are
    those the loop of [Execute] has received. *)

Inductive svc_state := StartPending | Running | StopPending.
Inductive accepted := AcceptStop | AcceptShutdown.

Module Status.
Record t := mk { State : svc_state; Accepts : list accepted }.
End Status.

Inductive command := Interrogate (CurrentStatus : Status.t) | Stop | Shutdown | OtherCommand.

Inductive svc_pc := SvcInit | SvcStarted | SvcLoop | SvcStopping | SvcReturned.

Module Service.
Record t := mk { pc : svc_pc; changes : list Status.t; commands : list command; agent : Agent.t }.
End Service.

(** [SErr]: [Execute] receives from [errCh]. *)
Inductive slabel := SNext | SAgent (l : label) | SCommand (c : command) | SErr.

Definition returned (o : outcome) : bool := match o with Stopped | SourceFailed _ => true | _ => false end.

Section Service.
Context {E : Env} {N : Net} {L : EvtLog}.
Context (b : build) (time_Parse : string -> string -> option Time) (cfg : DcConfig.t) (snd_ : Sender.t).

Definition Execute_init : Service.t := Service.mk SvcInit [] [] (agent_start cfg snd_).

Definition on_command (c : command) (sv : Service.t) : Service.t :=
  let '(Service.mk pc changes commands a) := sv in
  match c with
  | Interrogate current => Service.mk pc (changes ++ [current]) (commands ++ [c]) a
  | Stop | Shutdown => Service.mk SvcStopping (changes ++ [Status.mk StopPending []]) (commands ++ [c]) (Agent.cancel a)
  | OtherCommand => Service.mk pc changes (commands ++ [c]) a
  end.

(** The context is [Execute]'s own: the agent does not cancel itself. *)
Definition sstep (l : slabel) (sv : Service.t) : option Service.t :=
  let '(Service.mk pc changes commands a) := sv in
  match l, pc with
  | SNext, SvcInit => Some (Service.mk SvcStarted (changes ++ [Status.mk StartPending []]) commands a)
  | SNext, SvcStarted => Some (Service.mk SvcLoop (changes ++ [Status.mk Running [AcceptStop; AcceptShutdown]]) commands a)
  | SAgent LCancel, _ | SAgent _, SvcInit => None
  | SAgent l, _ => Service.mk pc changes commands <$> astep b time_Parse cfg snd_ l a
  | SCommand c, SvcLoop => Some (on_command c sv)
  | SErr, SvcLoop | SErr, SvcStopping => if returned (Agent.main a) then Some (Service.mk SvcReturned changes commands (Agent.cancel a)) else None
  | _, _ => None
  end.

Fixpoint srun (ls : list slabel) (sv : Service.t) : option Service.t :=
  match ls with [] => Some sv | l :: ls' => sv ← sstep l sv; srun ls' sv end.

(** [runAsWindowsService]: whether the agent runs under the controller. *)
Definition runAsWindowsService (IsWindowsService : result bool) : bool :=
  match b, IsWindowsService with Windows, Ok true => true | _, _ => false end.
End Service.

(** [main]: the exit status, once the service loop has returned. *)
Definition main_exit (o : outcome) : option Z :=
  match o with Stopped => Some 0 | SourceFailed _ => Some 1 | Panicked _ => Some 2 | StillRunning => None end.

(** ** Specification *)

(** The record [Subscribe] is about to send, and the handles it still has to close. *)
Definition flight (p : sub_pc) : list EventRecord.t := match p with SubSend rec _ => [rec] | _ => [] end.
Definition held (p : sub_pc) : list Z := match p with SubHandles hs | SubSend _ hs => hs | _ => [] end.

(** The steps [Subscribe] may still take once the context is done. *)
Definition sub_left (p : sub_pc) : nat :=
  match p with
  | SubStart => 2
  | SubPoll => 1
  | SubCall => 35
  | SubHandles hs => 2 * length hs + 2
  | SubSend _ hs => 2 * length hs + 3
  | SubEnd _ => 0
  end.

Definition of_sub (l : label) : bool := match l with LSub | LSend | LQuit | LHandOver => true | _ => false end.

(** ** Facts: the service loop, input by input *)

Definition is_cancel (i : input) : bool := match i with Cancel => true | _ => false end.
Definition goes (i : input) : bool := match i with CtxDone | ChannelClosed => false | _ => true end.

Lemma received_app l1 l2 : forallb goes l1 = true -> received (l1 ++ l2) = received l1 ++ received l2.
Proof. induction l1 as [|[] l1 IH]; [done|..]; cbn; try done; intros H; by rewrite IH. Qed.

Lemma cancelled_goes l : forallb goes l = true -> existsb is_cancel l = false -> cancelled l = false.
Proof. induction l as [|[] l IH]; cbn; done. Qed.

Section LoopFacts.
Context {E : Env} {N : Net} (cfg : DcConfig.t) (snd_ : Sender.t).

Lemma service_loop_app ins i : forall d s s', service_loop cfg snd_ d ins s = (StillRunning, s') -> is_cancel i = false ->
  service_loop cfg snd_ d (ins ++ [i]) s = service_loop cfg snd_ (d || existsb is_cancel ins) [i] s'.
Proof.
  induction ins as [|j ins IH]; intros d s s' Hr Hi.
  { cbn in Hr. injection Hr as <-. cbn [app existsb]. by rewrite orb_false_r. }
  destruct j; cbn [app existsb is_cancel orb] in *; cbn [service_loop] in Hr |- *; unfold pget, pput in *; st_unfold; revert Hr; st_unfold.
  - intros Hr. rewrite (IH true s s' Hr Hi). by rewrite orb_true_r.
  - by destruct (Flush _ _ _ s) as [[] s1].
  - destruct (_ <=? _).
    + destruct (Flush _ _ _ s) as [[] s1]. intros Hr. by rewrite (IH _ _ _ Hr Hi).
    + intros Hr. by rewrite (IH _ _ _ Hr Hi).
  - by destruct (Flush _ _ _ s) as [[] s1].
  - destruct (Flush _ _ _ s) as [[] s1]. intros Hr. by rewrite (IH _ _ _ Hr Hi).
Qed.

Lemma service_loop_cancel ins : forall d s s', service_loop cfg snd_ d ins s = (StillRunning, s') ->
  service_loop cfg snd_ d (ins ++ [Cancel]) s = (StillRunning, s').
Proof.
  induction ins as [|j ins IH]; intros d s s' Hr; [done|].
  destruct j; cbn [app]; cbn [service_loop] in Hr |- *; unfold pget, pput in *; st_unfold; revert Hr; st_unfold; [apply IH|..].
  - by destruct (Flush _ _ _ s) as [[] s1].
  - destruct (_ <=? _); [destruct (Flush _ _ _ s) as [[] s1]|]; apply IH.
  - by destruct (Flush _ _ _ s) as [[] s1].
  - destruct (Flush _ _ _ s) as [[] s1]. apply IH.
Qed.

(** A round that does not see the end of the context goes on. *)
Lemma service_round d i s : goes i = true -> exists s', service_loop cfg snd_ d [i] s = (StillRunning, s').
Proof.
  destruct i; cbn [goes]; try done; intros _; cbn [service_loop]; unfold pget, pput; st_unfold; [by eexists| |].
  - destruct (_ <=? _); [destruct (Flush _ _ _ s) as [[] s1]|]; by eexists.
  - destruct (Flush _ _ _ s) as [[] s1]. by eexists.
Qed.

Lemma service_outcome ins : forall d s, let o := (service_loop cfg snd_ d ins s).1 in o = StillRunning \/ o = Stopped.
Proof.
  induction ins as [|i ins IH]; intros d s; cbv zeta; cbn [service_loop]; [by left|].
  destruct i; unfold pget, pput; st_unfold; [apply IH|..]; try (destruct (Flush _ _ _ s) as [[] s1]; auto).
  destruct (_ <=? _); [destruct (Flush _ _ _ s) as [[] s1]|]; apply IH.
Qed.

Lemma service_stop d s : exists s', service_loop cfg snd_ d [CtxDone] s = (Stopped, s').
Proof. cbn [service_loop]. unfold pget. st_unfold. destruct (Flush _ _ _ s) as [[] s1]. by eexists. Qed.
End LoopFacts.

(** ** Facts: the agent's invariant *)

Section AgentFacts.
Context {E : Env} {N : Net} {L : EvtLog}.
Context (b : build) (time_Parse : string -> string -> option Time) (cfg : DcConfig.t) (snd_ : Sender.t).
Notation step := (astep b time_Parse cfg snd_).
Notation start := (mkProc [] 0 [] : Proc (list EventRecord.t)).

(** The loop has run on some inputs; every record is with the loop, in the channel
    or at the send, and every handle is closed or still to come. *)
Definition main_inv (a : Agent.t) (ins : list input) : Prop :=
  service_loop cfg snd_ false ins start = (Agent.main a, Agent.proc a) /\ existsb is_cancel ins = Agent.done a /\
  (Agent.main a = StillRunning -> forallb goes ins = true) /\ (Agent.main a <> StillRunning -> Agent.done a = true).

Definition sub_inv (a : Agent.t) (rest : list EventRecord.t) (leak : list Z) : Prop :=
  Agent.closed a ++ leak = Agent.opened a /\
  (rest = flight (Agent.sub a) /\ leak = held (Agent.sub a) \/
   Agent.done a = true /\ Agent.sub a = SubEnd None /\ (length rest <= 1)%nat).

Definition agent_inv (a : Agent.t) : Prop := exists ins rest leak,
  main_inv a ins /\ sub_inv a rest leak /\ Agent.seen a = received ins ++ Agent.queue a ++ rest /\
  Z.of_nat (length (Agent.queue a)) <= Z.max 0 (capacity cfg).

(** Steps of [Subscribe] leave the loop alone. *)
Lemma main_inv_same a a' ins : Agent.main a' = Agent.main a -> Agent.proc a' = Agent.proc a -> Agent.done a' = Agent.done a ->
  main_inv a ins -> main_inv a' ins.
Proof. unfold main_inv. by intros -> -> ->. Qed.

(** A round of the loop is one more input. *)
Lemma main_inv_step a a' ins i q p : main_inv a ins -> is_cancel i = false -> (goes i = false -> Agent.done a = true) ->
  main_step cfg snd_ i q p a = Some a' ->
  main_inv a' (ins ++ [i]) /\ Agent.main a = StillRunning /\ Agent.done a' = Agent.done a /\ Agent.sub a' = p /\ Agent.queue a' = q /\
  Agent.seen a' = Agent.seen a /\ Agent.opened a' = Agent.opened a /\ Agent.closed a' = Agent.closed a.
Proof.
  intros (Hr & Hc & Hg & Hd) Hi Hs. unfold main_step. destruct (Agent.main a) eqn:Hm; try done.
  pose proof (service_loop_app cfg snd_ ins i false _ _ Hr Hi) as Happ. rewrite Hc in Happ. cbn [orb] in Happ.
  destruct (service_loop cfg snd_ (Agent.done a) [i] (Agent.proc a)) as [o s'] eqn:Ho. intros [= <-].
  split; [|done]. unfold main_inv. cbn [Agent.main Agent.proc Agent.done fst snd]. rewrite Happ.
  specialize (Hg eq_refl). rewrite existsb_app, forallb_app, Hc, Hg. cbn [existsb forallb]. rewrite Hi, orb_false_r, andb_true_r.
  destruct (goes i) eqn:Hgo.
  - destruct (service_round cfg snd_ (Agent.done a) i (Agent.proc a) Hgo) as [s1 H1]. rewrite H1 in Ho. injection Ho as <- <-. by split_and!.
  - split_and!; [done|done| |by intros _; apply Hs]. intros ->. destruct i; try done; cbn [service_loop] in Ho; revert Ho;
      unfold pget; st_unfold; by destruct (Flush _ _ _ _) as [[] s1].
Qed.

(** A step of [Subscribe] that reads nothing and holds nothing. *)
Ltac quiet := exists [], []; cbn; rewrite ?app_nil_r in *; split; [done|split; [done|by left]].

(** The steps of [Subscribe] before a send. *)
Lemma sub_step_inv a a' rest leak : sub_inv a rest leak -> sub_step b time_Parse cfg a = Some a' ->
  Agent.main a' = Agent.main a /\ Agent.proc a' = Agent.proc a /\ Agent.done a' = Agent.done a /\ Agent.queue a' = Agent.queue a /\
  exists new leak', Agent.seen a' = Agent.seen a ++ new /\ sub_inv a' (rest ++ new) leak'.
Proof.
  intros [Hl [[-> ->]|(Hd & Hs & Hlen)]]; unfold sub_step, sub_inv; [|by rewrite Hs].
  destruct (Agent.sub a) as [| | |[|h hs]|rec hs|err] eqn:Hp; try done; cbn [flight held app] in *.
  - destruct b; [destruct (Agent.done a) eqn:Hdn; [|done]|]; intros [= <-].
    + split_and!; try done. quiet.
    + unfold subscribe. repeat (case_match; try done); split_and!; try done; quiet.
  - intros [= <-]. split_and!; try done. destruct (Agent.done a); quiet.
  - intros [= <-]. unfold next_events. destruct (EvtNext _ _ _) as [ret hs]. destruct (_ || _); split_and!; try done.
    + quiet.
    + exists [], hs. cbn. rewrite app_nil_r in *. split; [done|]. split; [by rewrite Hl|by left].
  - intros [= <-]. split_and!; try done. quiet.
  - intros [= <-]. split_and!; try done. unfold take_event. cbn. eexists _, hs. split; [done|]. rewrite <- app_assoc. split; [exact Hl|].
    left. by destruct (read_event _ _ _).
Qed.

(** What a step of the loop does to a queue from which [i]'s record was taken. *)
Lemma agent_inv_round a a' ins rest leak i q p rest' : main_inv a ins -> sub_inv a rest leak ->
  is_cancel i = false -> (goes i = false -> Agent.done a = true) -> main_step cfg snd_ i q p a = Some a' ->
  Agent.seen a = received ins ++ Agent.queue a ++ rest -> Agent.queue a ++ rest = received [i] ++ q ++ rest' ->
  Z.of_nat (length q) <= Z.max 0 (capacity cfg) ->
  (rest' = flight p /\ leak = held p \/ Agent.done a = true /\ p = SubEnd None /\ (length rest' <= 1)%nat) -> agent_inv a'.
Proof.
  intros Hm [Hl _] Hi Hd Hs Hseen Hq Hcap Hp. destruct (main_inv_step _ _ _ _ _ _ Hm Hi Hd Hs) as (Hm' & Hrun & Hd' & Hp' & Hq' & Hseen' & Ho & Hc).
  exists (ins ++ [i]), rest', leak. split; [done|]. unfold sub_inv. rewrite Ho, Hc, Hp', Hd', Hq', Hseen', Hseen. split; [done|].
  split; [|done]. destruct Hm as (_ & _ & Hg & _). by rewrite received_app, <- app_assoc, Hq by auto.
Qed.

Lemma agent_inv_step l a a' : agent_inv a -> step l a = Some a' -> agent_inv a'.
Proof.
  intros (ins & rest & leak & Hm & Hsub & Hseen & Hcap). unfold astep. destruct (negb (alive a)); [done|]. destruct l.
  - intros Hs. destruct (sub_step_inv _ _ _ _ Hsub Hs) as (H1 & H2 & H3 & H4 & new & leak' & H5 & H6).
    exists ins, (rest ++ new), leak'. split; [by apply (main_inv_same a)|]. split; [done|]. rewrite H5, H4, Hseen, <- !app_assoc. done.
  - destruct (Agent.sub a) as [| | | |rec hs|] eqn:Hp; try done. destruct (Z.ltb_spec (Z.of_nat (length (Agent.queue a))) (capacity cfg)); [|done].
    intros [= <-]. destruct Hsub as [Hl [[-> ->]|(_ & Hc & _)]]; rewrite Hp in *; [|done]. cbn [flight held] in *.
    exists ins, [], hs. split; [done|]. split; [by split; [|left]|]. cbn. rewrite length_app, app_nil_r. split; [done|]. cbn. lia.
  - destruct (Agent.sub a) as [| | | |rec hs|] eqn:Hp; try done. destruct (Agent.done a) eqn:Hd; [|done]. intros [= <-].
    destruct Hsub as [Hl [[-> ->]|(_ & Hc & _)]]; rewrite Hp in *; [|done]. exists ins, [rec], hs. split; [by apply (main_inv_same a)|].
    split; [split; [done|right]; by split_and!|]. done.
  - destruct (Agent.queue a) as [|ev q] eqn:Hq; [done|]. intros Hs.
    apply (agent_inv_round a a' ins rest leak (Received ev) q (Agent.sub a) rest); try done; [by rewrite Hq|by rewrite Hq| |apply Hsub].
    cbn [length] in Hcap. lia.
  - destruct (Agent.sub a) as [| | | |rec hs|] eqn:Hp; try done. destruct (Agent.queue a) as [|ev q] eqn:Hq; [|done]. intros Hs.
    assert (Hr : rest = [rec] /\ leak = hs) by (destruct Hsub as [_ [Hr|(_ & Hc & _)]]; rewrite Hp in *; done). destruct Hr as [-> ->].
    apply (agent_inv_round a a' ins [rec] hs (Received rec) [] (SubHandles hs) []); try done; [by rewrite Hq|by rewrite Hq|by left].
  - intros Hs. apply (agent_inv_round a a' ins rest leak Tick (Agent.queue a) (Agent.sub a) rest); try done. apply Hsub.
  - destruct (Agent.done a) eqn:Hd; [|done]. destruct (main_step _ _ _ _ _ _) as [a1|] eqn:Hs; [|done]. intros [= <-].
    assert (H1 : agent_inv a1).
    { apply (agent_inv_round a a1 ins rest leak CtxDone (Agent.queue a) (Agent.sub a) rest); try done. apply Hsub. }
    unfold Close. by destruct (_ =? 0).
  - intros [= <-]. destruct Hm as (Hr & Hc & Hg & Hd). destruct Hsub as [Hl Hs].
    assert (Hsub : sub_inv (Agent.cancel a) rest leak) by (split; [done|]; destruct Hs as [?|(? & ? & ?)]; [by left|by right]).
    assert (Hcase : Agent.main a = StillRunning \/ Agent.main a <> StillRunning) by (destruct (Agent.main a); auto).
    destruct Hcase as [Hrun|Hstop].
    + exists (ins ++ [Cancel]), rest, leak. specialize (Hg Hrun). split; [|split; [done|]].
      * unfold main_inv. cbn [Agent.main Agent.proc Agent.done Agent.cancel]. rewrite Hrun in *.
        rewrite (service_loop_cancel cfg snd_ ins false _ _ Hr), existsb_app, forallb_app, Hg. cbn. by rewrite orb_true_r.
      * cbn. by rewrite received_app, app_nil_r.
    + exists ins, rest, leak. split; [|done]. unfold main_inv. cbn. specialize (Hd Hstop). by rewrite Hc, Hd.
Qed.

Lemma Close_main a : Agent.main (Close a) = Agent.main a.
Proof. unfold Close. by destruct (_ =? 0). Qed.
Lemma Close_handle a : Agent.handle (Close a) = 0.
Proof. unfold Close. by destruct (Z.eqb_spec (Agent.handle a) 0). Qed.
Lemma Close_released a : Agent.released (Close a) = Agent.released a ++ (if Agent.handle a =? 0 then [] else [Agent.handle a]).
Proof. unfold Close. destruct (_ =? 0); [by rewrite app_nil_r|done]. Qed.

Lemma agent_inv_alive a : agent_inv a -> Agent.main a = StillRunning \/ Agent.main a = Stopped /\ Agent.done a = true.
Proof.
  intros (ins & _ & _ & (Hr & _ & _ & Hd) & _). pose proof (service_outcome cfg snd_ ins false start) as Ho. cbv zeta in Ho.
  rewrite Hr in Ho. cbn [fst] in Ho. destruct Ho as [Ho|Ho]; [by left|right]. split; [done|]. apply Hd. by rewrite Ho.
Qed.

Lemma agent_inv_start : 0 <= DcConfig.BatchSize cfg -> 0 < DurationOf (DcConfig.BatchIntervalSec cfg) Second ->
  agent_inv (agent_start cfg snd_).
Proof.
  intros Hb Hi. unfold agent_start, runService, NewEventSource. destruct (Z.ltb_spec (DcConfig.BatchSize cfg) 0); [lia|].
  destruct (Z.leb_spec (DurationOf (DcConfig.BatchIntervalSec cfg) Second) 0); [lia|].
  exists [], [], []. split; [by split_and!|]. split; [split; [done|by left]|]. split; [done|]. cbn. lia.
Qed.

Lemma agent_inv_reach a : 0 <= DcConfig.BatchSize cfg -> 0 < DurationOf (DcConfig.BatchIntervalSec cfg) Second ->
  rtc (agent_step b time_Parse cfg snd_) (agent_start cfg snd_) a -> agent_inv a.
Proof.
  intros Hb Hi. revert a. apply rtc_ind_r; [by apply agent_inv_start|]. intros a a' _ [l Hl] IH. by eapply agent_inv_step.
Qed.

(** The invariant, read off. *)
Lemma agent_inv_accounts a : agent_inv a -> exists batches dropped rest leak,
  reqs (Agent.proc a) = concat (posts snd_ <$> batches) /\ Forall (batch_ok cfg) batches /\
  concat batches ++ dropped ++ left_over (Agent.main a, Agent.proc a) ++ Agent.queue a ++ rest = Agent.seen a /\
  Agent.closed a ++ leak = Agent.opened a /\ (length rest <= 1)%nat /\ Z.of_nat (length (Agent.queue a)) <= Z.max 0 (capacity cfg) /\
  (Agent.done a = false -> dropped = [] /\ rest = flight (Agent.sub a) /\ leak = held (Agent.sub a)).
Proof.
  intros (ins & rest & leak & (Hr & Hc & Hg & Hd) & [Hl Hs] & Hseen & Hcap).
  assert (Hlen : (length rest <= 1)%nat) by (destruct Hs as [[-> _]|(_ & _ & ?)]; [destruct (Agent.sub a); cbn; lia|done]).
  destruct (service_loop_run cfg snd_ ins start (or_introl eq_refl)) as (batches & dropped & Hq & Hf & Hm & _ & Hn & _).
  rewrite Hr in *. exists batches, dropped, rest, leak. split_and!; try done.
  - rewrite Hseen, (app_assoc dropped), (app_assoc (concat batches)). cbn [ps app] in Hm. by rewrite Hm.
  - intros Hnd. split; [|by destruct Hs as [[-> ->]|(? & _)]; [|congruence]]. apply Hn, cancelled_goes; [|congruence].
    apply Hg. destruct (Agent.main a); try done; (rewrite Hd in Hnd; done).
Qed.

(** Once the context is done every step of [Subscribe] brings its end closer, and
    it can always take one. *)
Lemma sub_left_step `{!EvtLogOk L} l a a' : Agent.done a = true -> step l a = Some a' ->
  Agent.done a' = true /\ if of_sub l then (sub_left (Agent.sub a') < sub_left (Agent.sub a))%nat else Agent.sub a' = Agent.sub a.
Proof.
  intros Hd. unfold astep. destruct (negb (alive a)); [done|].
  assert (Hmain : forall i q p a1, main_step cfg snd_ i q p a = Some a1 -> Agent.done a1 = true /\ Agent.sub a1 = p).
  { intros i q p a1. unfold main_step. destruct (Agent.main a); try done. by intros [= <-]. }
  destruct l; cbn [of_sub].
  - unfold sub_step. destruct (Agent.sub a) as [| | |[|h hs]|rec hs|err] eqn:Hp; try done.
    + destruct b; [rewrite Hd; intros [= <-]; split; [done|cbn; lia]|]. intros [= <-]. unfold subscribe.
      repeat (case_match; try done); split; try done; cbn; lia.
    + rewrite Hd. intros [= <-]. split; [done|cbn; lia].
    + intros [= <-]. unfold next_events. destruct (EvtNext _ _ _) as [ret hs] eqn:Hn. apply EvtNext_fits in Hn. unfold eventHandles in Hn.
      destruct (_ || _); split; try done; cbn; lia.
    + intros [= <-]. split; [done|cbn; lia].
    + intros [= <-]. split; [done|]. unfold take_event. cbn [Agent.sub]. destruct (read_event _ _ _); cbn; lia.
  - destruct (Agent.sub a) as [| | | |rec hs|]; try done. destruct (_ <? _); [|done]. intros [= <-]. split; [done|cbn; lia].
  - destruct (Agent.sub a) as [| | | |rec hs|]; try done. rewrite Hd. intros [= <-]. split; [done|cbn; lia].
  - destruct (Agent.queue a); [done|]. apply Hmain.
  - destruct (Agent.sub a) as [| | | |rec hs|]; try done. destruct (Agent.queue a); [|done]. intros Hs.
    destruct (Hmain _ _ _ _ Hs) as [-> ->]. split; [done|cbn; lia].
  - apply Hmain.
  - rewrite Hd. destruct (main_step _ _ _ _ _ _) as [a1|] eqn:Hs; [|done]. intros [= <-]. destruct (Hmain _ _ _ _ Hs).
    unfold Close. by destruct (_ =? 0).
  - intros [= <-]. done.
Qed.

Lemma sub_enabled a : Agent.done a = true -> alive a = true -> (forall err, Agent.sub a <> SubEnd err) ->
  exists l a', of_sub l = true /\ step l a = Some a'.
Proof.
  intros Hd Ha Hend. unfold astep. destruct (Agent.sub a) as [| | |[|h hs]|rec hs|err] eqn:Hp.
  1-5: exists LSub; unfold sub_step; rewrite Ha, Hp; cbn [negb]; try (destruct b; [rewrite Hd|]); by eexists.
  - exists LQuit. rewrite Ha, Hd. by eexists.
  - by destruct (Hend err).
Qed.
End AgentFacts.

(** ** Facts: the service *)

(** What the controller is told for the commands it sends. *)
Definition replies (cs : list command) : list Status.t :=
  concat ((fun c => match c with Interrogate s => [s] | Stop | Shutdown => [Status.mk StopPending []] | OtherCommand => [] end) <$> cs).

Definition stops (c : command) : bool := match c with Stop | Shutdown => true | _ => false end.

Section ServiceFacts.
Context {E : Env} {N : Net} {L : EvtLog} `{!EvtLogOk L}.
Context (b : build) (time_Parse : string -> string -> option Time) (cfg : DcConfig.t) (snd_ : Sender.t).
Context (Hb : 0 <= DcConfig.BatchSize cfg) (Hi : 0 < DurationOf (DcConfig.BatchIntervalSec cfg) Second).
Notation arun := (arun b time_Parse cfg snd_).
Notation srun := (srun b time_Parse cfg snd_).

Lemma sub_bounded ls : forall a a', Agent.done a = true -> arun ls a = Some a' ->
  (length (base.filter (fun l => of_sub l = true) ls) + sub_left (Agent.sub a') <= sub_left (Agent.sub a))%nat.
Proof.
  induction ls as [|l ls IH]; intros a a' Hd; cbn [DcWindows.arun]; [intros [= <-]; cbn; lia|].
  destruct (astep b time_Parse cfg snd_ l a) as [a1|] eqn:Hl; [|done]. cbn [mbind option_bind]. intros Hr.
  destruct (sub_left_step b time_Parse cfg snd_ l a a1 Hd Hl) as [Hd1 Hs]. specialize (IH a1 a' Hd1 Hr).
  rewrite filter_cons. destruct (of_sub l); cbn [length]; [|rewrite <- Hs]; (case_decide; [|done || lia]); cbn [length]; lia.
Qed.

Lemma agent_inv_run ls : forall a a', agent_inv cfg snd_ a -> Agent.done a = true -> arun ls a = Some a' ->
  agent_inv cfg snd_ a' /\ Agent.done a' = true.
Proof.
  induction ls as [|l ls IH]; intros a a' Ha Hd; cbn [DcWindows.arun]; [by intros [= <-]|].
  destruct (astep b time_Parse cfg snd_ l a) as [a1|] eqn:Hl; [|done]. cbn [mbind option_bind].
  apply IH; [by eapply agent_inv_step|]. by eapply sub_left_step.
Qed.

(** [Subscribe] is never more than 35 steps from its end. *)
Lemma sub_left_bound l a a' : (sub_left (Agent.sub a) <= 35)%nat -> astep b time_Parse cfg snd_ l a = Some a' ->
  (sub_left (Agent.sub a') <= 35)%nat.
Proof.
  intros Ha Hs. destruct (Agent.done a) eqn:Hd.
  { destruct (sub_left_step b time_Parse cfg snd_ l a a' Hd Hs) as [_ H]. destruct (of_sub l); [lia|congruence]. }
  revert Hs. unfold astep. destruct (negb (alive a)); [done|].
  assert (Hmain : forall i q p a1, main_step cfg snd_ i q p a = Some a1 -> Agent.sub a1 = p).
  { intros i q p a1. unfold main_step. destruct (Agent.main a); try done. by intros [= <-]. }
  destruct l; rewrite ?Hd.
  - unfold sub_step. rewrite ?Hd. destruct (Agent.sub a) as [| | |[|h hs]|rec hs|err] eqn:Hp; try done.
    + destruct b; [done|]. intros [= <-]. unfold subscribe. repeat (case_match; try done); cbn; lia.
    + intros [= <-]. cbn. lia.
    + intros [= <-]. unfold next_events. destruct (EvtNext _ _ _) as [ret hs] eqn:Hn. apply EvtNext_fits in Hn. unfold eventHandles in Hn.
      destruct (_ || _); cbn; lia.
    + intros [= <-]. cbn. lia.
    + intros [= <-]. unfold take_event. cbn [Agent.sub]. cbn in Ha. destruct (read_event _ _ _); cbn; lia.
  - destruct (Agent.sub a) as [| | | |rec hs|] eqn:Hp; try done. destruct (_ <? _); [|done]. intros [= <-]. cbn in Ha |- *. lia.
  - by destruct (Agent.sub a).
  - destruct (Agent.queue a); [done|]. by intros ->%Hmain.
  - destruct (Agent.sub a) as [| | | |rec hs|] eqn:Hp; try done. destruct (Agent.queue a); [|done]. intros ->%Hmain. cbn in Ha |- *. lia.
  - by intros ->%Hmain.
  - done.
  - by intros [= <-].
Qed.

(** Statuses follow commands, a stop is the last command, the context is done
    exactly after it, and the agent is one that [runService] can reach. *)
Definition svc_inv (sv : Service.t) : Prop :=
  let '(Service.mk pc changes commands a) := sv in
  agent_inv cfg snd_ a /\ (sub_left (Agent.sub a) <= 35)%nat /\
  (exists head, changes = head ++ replies commands /\
     head = match pc with
            | SvcInit => []
            | SvcStarted => [Status.mk StartPending []]
            | _ => [Status.mk StartPending []; Status.mk Running [AcceptStop; AcceptShutdown]]
            end) /\
  match pc with
  | SvcInit | SvcStarted => commands = [] /\ Agent.done a = false
  | SvcLoop => forallb (fun c => negb (stops c)) commands = true /\ Agent.done a = false
  | SvcStopping | SvcReturned =>
      (exists cs c, commands = cs ++ [c] /\ stops c = true /\ forallb (fun c => negb (stops c)) cs = true) /\ Agent.done a = true /\
      (pc = SvcReturned -> Agent.main a = Stopped)
  end.

Lemma svc_inv_start : svc_inv (Execute_init cfg snd_).
Proof.
  cbn. split; [by apply agent_inv_start|]. split; [cbn; lia|]. split; [by exists []|done].
Qed.

Lemma astep_done l a a' : l <> LCancel -> astep b time_Parse cfg snd_ l a = Some a' -> Agent.done a' = Agent.done a.
Proof.
  assert (Hmain : forall i q p a1, main_step cfg snd_ i q p a = Some a1 -> Agent.done a1 = Agent.done a).
  { intros i q p a1. unfold main_step. destruct (Agent.main a); try done. by intros [= <-]. }
  unfold astep. destruct (negb (alive a)); [done|]. destruct l; try done; intros _.
  - unfold sub_step, subscribe, next_events. intros H. by repeat (case_match; simplify_eq/=).
  - intros H. by repeat (case_match; simplify_eq/=).
  - intros H. by repeat (case_match; simplify_eq/=).
  - destruct (Agent.queue a); [done|]. apply Hmain.
  - destruct (Agent.sub a); try done. destruct (Agent.queue a); [|done]. apply Hmain.
  - apply Hmain.
  - destruct (Agent.done a); [|done]. destruct (main_step _ _ _ _ _ _) as [a1|] eqn:Hs; [|done]. intros [= <-].
    rewrite <- (Hmain _ _ _ _ Hs). unfold Close. by destruct (_ =? 0).
Qed.

Lemma replies_snoc cs c : replies (cs ++ [c]) = replies cs ++ replies [c].
Proof. unfold replies. by rewrite fmap_app, concat_app. Qed.

Lemma astep_stopped l a a' : Agent.main a = Stopped -> astep b time_Parse cfg snd_ l a = Some a' -> Agent.main a' = Stopped.
Proof.
  intros Hm. assert (Hmain : forall i q p, main_step cfg snd_ i q p a = None) by (intros i q p; unfold main_step; by rewrite Hm).
  unfold astep. destruct (negb (alive a)); [done|]. destruct l; rewrite ?Hmain.
  - unfold sub_step, subscribe, next_events. intros H. by repeat (case_match; simplify_eq/=).
  - intros H. by repeat (case_match; simplify_eq/=).
  - intros H. by repeat (case_match; simplify_eq/=).
  - destruct (Agent.queue a); [done|]. by rewrite Hmain.
  - destruct (Agent.sub a); try done. destruct (Agent.queue a); [|done]. by rewrite Hmain.
  - done.
  - by destruct (Agent.done a).
  - by intros [= <-].
Qed.

Lemma svc_inv_agent l pc changes commands a a' : svc_inv (Service.mk pc changes commands a) -> l <> LCancel ->
  astep b time_Parse cfg snd_ l a = Some a' -> svc_inv (Service.mk pc changes commands a').
Proof.
  intros (Ha & Hl & Hh & Hpc) Hn Hs. cbn [svc_inv]. rewrite (astep_done l a a' Hn Hs).
  split; [by eapply agent_inv_step|]. split; [by eapply sub_left_bound|]. split; [done|]. destruct pc; try done;
  destruct Hpc as (? & ? & Hm); (split_and!; [done|done|]); try done. intros _. eapply astep_stopped; [by apply Hm|done].
Qed.

Lemma svc_inv_cancel pc changes commands a : svc_inv (Service.mk pc changes commands a) ->
  agent_inv cfg snd_ (Agent.cancel a) /\ (sub_left (Agent.sub (Agent.cancel a)) <= 35)%nat.
Proof.
  intros (Ha & Hl & _). split; [|done]. apply (agent_inv_step b time_Parse cfg snd_ LCancel a _ Ha). unfold astep, alive.
  by destruct (agent_inv_alive _ _ _ Ha) as [->|[-> _]].
Qed.

Lemma svc_inv_command c changes commands a : svc_inv (Service.mk SvcLoop changes commands a) ->
  svc_inv (on_command c (Service.mk SvcLoop changes commands a)).
Proof.
  intros Hsv. pose proof (svc_inv_cancel _ _ _ _ Hsv) as [Hc1 Hc2]. destruct Hsv as (Ha & Hl & (head & -> & Hh) & Hcs & Hd). subst head.
  assert (Hgo : stops c = false -> forallb (fun c => negb (stops c)) (commands ++ [c]) = true).
  { intros Hc. rewrite forallb_app, Hcs. cbn. by rewrite Hc. }
  destruct c; cbn [on_command svc_inv];
    (split; [done|]; split; [done|]; split; [eexists; split; [|reflexivity]; rewrite replies_snoc; cbn; by rewrite ?app_nil_r|]).
  1,4: split; [by apply Hgo|done].
  all: split; [eexists commands, _; by split_and!|done].
Qed.

Lemma svc_inv_step l sv sv' : svc_inv sv -> sstep b time_Parse cfg snd_ l sv = Some sv' -> svc_inv sv'.
Proof.
  destruct sv as [pc changes commands a]. intros Hsv. cbn [sstep]. destruct l as [|l|c|].
  - destruct Hsv as (Ha & Hl & (head & -> & Hh) & Hpc). destruct pc; try done; intros [= <-]; destruct Hpc as [-> Hd]; subst head;
      cbn [svc_inv]; (split; [done|]; split; [done|]; split; [by eexists; split; [|reflexivity]|done]).
  - assert (Hag : forall a', l <> LCancel -> astep b time_Parse cfg snd_ l a = Some a' -> svc_inv (Service.mk pc changes commands a')).
    { intros a' Hn Hs. by eapply svc_inv_agent. }
    destruct (astep b time_Parse cfg snd_ l a) as [a'|]; [|by destruct l, pc].
    destruct l; try (by destruct pc); destruct pc; try done; intros [= <-]; by apply Hag.
  - destruct pc; try done. intros Hs. injection Hs as <-. by apply (svc_inv_command c).
  - destruct (svc_inv_cancel _ _ _ _ Hsv) as [Hc1 Hc2]. destruct Hsv as (Ha & Hl & Hh & Hpc).
    destruct (agent_inv_alive _ _ _ Ha) as [Hm|[Hm Hd]]; rewrite Hm; [by destruct pc|].
    destruct pc; try done; cbn [returned].
    + by destruct Hpc as [_ Hnd]; rewrite Hd in Hnd.
    + intros [= <-]. destruct Hpc as (Hcs & _ & _). cbn [svc_inv]. split_and!; try done.
Qed.

Lemma svc_inv_run ls : forall sv sv', svc_inv sv -> srun ls sv = Some sv' -> svc_inv sv'.
Proof.
  induction ls as [|l ls IH]; intros sv sv' Hsv; cbn [DcWindows.srun]; [by intros [= <-]|].
  destruct (sstep b time_Parse cfg snd_ l sv) as [sv1|] eqn:Hl; [|done]. cbn [mbind option_bind]. apply IH. by eapply svc_inv_step.
Qed.
End ServiceFacts.

Lemma arun_reach {E : Env} {N : Net} {L : EvtLog} b time_Parse cfg snd_ ls : forall a a',
  arun b time_Parse cfg snd_ ls a = Some a' -> rtc (agent_step b time_Parse cfg snd_) a a'.
Proof.
  induction ls as [|l ls IH]; intros a a'; cbn [arun]; [intros [= <-]; apply rtc_refl|].
  destruct (astep b time_Parse cfg snd_ l a) as [a1|] eqn:Hl; [|done]. cbn [mbind option_bind]. intros Hr.
  eapply rtc_l; [by exists l|by apply IH].
Qed.

(** ** Concrete data *)

(** A log whose first query yields two events, the second of which is not XML. *)
Definition demo_log : EvtLog := {|
  EvtSubscribe := fun _ _ => (7, "");
  EvtNext := fun n _ size => if (n =? 1)%nat then (1, take (Z.to_nat size) [100; 101]) else (0, []);
  EvtRender := fun _ h size => Rendered.mk 1 (if h =? 100 then 8 else 2) (if h =? 100 then [60; 97; 47; 62] else [33]) "";
  xml_Unmarshal := fun s => if String.eqb s "<a/>" then Ok (xmlEvent.mk "" "" 4624 "" "DC1" [("TargetUserName", "bob")]) else Err "EOF"
|}.

#[global] Instance demo_log_ok : EvtLogOk demo_log.
Proof. split. intros n h size ret hs. cbn. destruct (n =? 1)%nat; intros [= <- <-]; [rewrite length_take|]; cbn; lia. Qed.

Definition demo_agent_run : list label := [LSub; LSub; LSub; LSub; LSend; LSub; LSub; LRecv; LTick].

Definition demo_agent : option Agent.t :=
  arun (N := demo_down) (L := demo_log) Windows (fun _ _ => None) demo_dc_config demo_sender demo_agent_run (agent_start (N := demo_down) demo_dc_config demo_sender).

Example demo_agent_ex : match demo_agent with
  | Some a => (EventRecord.AccountName <$> Agent.seen a, Agent.closed a, Agent.sub a, length (reqs (Agent.proc a))) = (["bob"], [100; 101], SubPoll, 1%nat)
  | None => False
  end.
Proof. vm_compute. reflexivity. Qed.

(** ** Properties *)

(** Every batch is requested, once and in order, with its JSON as the body. *)
Definition requested (snd_ : Sender.t) (batches : list (list EventRecord.t)) (rs : list HttpRequest.t) : Prop :=
  exists bodies, Forall2 (fun batch body => batch_json batch = Ok body) batches bodies /\ rs = batch_request snd_ <$> bodies.

Lemma sequence_ok {A} (l : list (result A)) : Forall (fun r => is_ok r = true) l -> exists xs, sequence l = Ok xs.
Proof.
  induction 1 as [|[x|] l Hx _ IH]; [by exists []| |done]. destruct IH as [xs Hxs]. exists (x :: xs). cbn. by rewrite Hxs.
Qed.

Lemma posts_requested {E : Env} snd_ batches : http_NewRequest (Sender.baseURL snd_ +:+ "/v1/ad/events") = true ->
  Forall (fun ev => is_ok (record_json ev) = true) (concat batches) -> requested snd_ batches (concat (posts snd_ <$> batches)).
Proof.
  intros Hn Hall. induction batches as [|b batches IH]; [by exists []; split; [constructor|]|]. cbn [concat] in Hall.
  apply Forall_app in Hall as [Hb Hall]. destruct (IH Hall) as (bodies & Hbodies & Heq).
  assert (exists body, batch_json b = Ok body) as [body Hbody].
  { unfold batch_json. destruct (sequence_ok (record_json <$> b)) as [xs ->]; [by apply Forall_fmap|]. by eexists. }
  exists (body :: bodies). split; [by constructor|]. cbn [fmap list_fmap concat]. unfold posts at 1. rewrite Hbody, Hn. by rewrite Heq.
Qed.

(** C30: the agent accounts for every event it reads. With a server URL requests can
    be made for and events that encode: however [Subscribe], the service loop, the
    timer and the cancellation interleave, every batch is posted to the control
    plane, once and in order; the batches, what was dropped, the current batch, the
    channel and the record at the send are, in order, exactly the events that were
    read; the channel stays within its capacity, and the handles handed out are
    closed in order, each once. Until the context is cancelled nothing is dropped
    and no handle leaks; after it at most one record is lost at the send. (Whether
    the control plane takes a batch is not the agent's concern: it does not send
    one again.) *)
Theorem agent_accounts {E : Env} {N : Net} {L : EvtLog} b time_Parse cfg snd_ a :
  0 <= DcConfig.BatchSize cfg -> 0 < DurationOf (DcConfig.BatchIntervalSec cfg) Second ->
  http_NewRequest (Sender.baseURL snd_ +:+ "/v1/ad/events") = true ->
  rtc (agent_step b time_Parse cfg snd_) (agent_start cfg snd_) a ->
  Forall (fun ev => is_ok (record_json ev) = true) (Agent.seen a) ->
  exists batches dropped rest leak,
  requested snd_ batches (reqs (Agent.proc a)) /\ Forall (batch_ok cfg) batches /\
  concat batches ++ dropped ++ left_over (Agent.main a, Agent.proc a) ++ Agent.queue a ++ rest = Agent.seen a /\
  Agent.closed a ++ leak = Agent.opened a /\ (length rest <= 1)%nat /\ Z.of_nat (length (Agent.queue a)) <= capacity cfg /\
  (Agent.done a = false -> dropped = [] /\ rest = flight (Agent.sub a) /\ leak = held (Agent.sub a)).
Proof.
  intros Hb Hi Hn Hr Henc. assert (Hc : capacity cfg = Z.max 0 (capacity cfg)) by (unfold capacity; lia). rewrite Hc.
  destruct (agent_inv_accounts cfg snd_ a ltac:(by apply (agent_inv_reach b time_Parse))) as (batches & dropped & rest & leak & Hq & Hok & Hm & Hrest).
  exists batches, dropped, rest, leak. split; [|exact (conj Hok (conj Hm Hrest))]. rewrite Hq. apply posts_requested; [done|].
  rewrite <- Hm in Henc. by apply Forall_app in Henc as [? _].
Qed.

Lemma agent_accounts_witness : exists a batches, demo_agent = Some a /\
  requested demo_sender batches (reqs (Agent.proc a)) /\ concat batches = Agent.seen a /\ length (Agent.seen a) = 1%nat.
Proof.
  destruct demo_agent as [a|] eqn:Ha; [|vm_compute in Ha; discriminate].
  destruct (agent_accounts (N := demo_down) (L := demo_log) Windows (fun _ _ => None) demo_dc_config demo_sender a)
    as (batches & dropped & rest & leak & Hq & _ & Hm & _ & _ & _ & Hd).
  - cbn. lia.
  - vm_compute. reflexivity.
  - vm_compute. reflexivity.
  - eapply arun_reach. exact Ha.
  - vm_compute in Ha. injection Ha as <-. constructor; [vm_compute; reflexivity|constructor].
  - exists a, batches. vm_compute in Ha. injection Ha as <-. destruct (Hd eq_refl) as (-> & -> & _). rewrite app_nil_r in Hm.
    split_and!; [reflexivity|exact Hq|exact Hm|reflexivity].
Defined.

(** C31: the service stops when it is told to: in every reachable state of [Execute]'s
    loop, a stop or shutdown is reported as pending at once and, the service loop
    taking its turn, ends [Execute] with the log's handle, if the subscription has
    opened one by then, closed; and whatever else is scheduled after the command,
    [Subscribe] takes at most 35 more steps, being able to take one until it has
    returned. (A handle that a subscription opens after [Execute] has ended is never
    closed: [late_subscription_leaks].) *)
Theorem service_stops {E : Env} {N : Net} {L : EvtLog} `{!EvtLogOk L} b time_Parse cfg snd_ ls sv c :
  0 <= DcConfig.BatchSize cfg -> 0 < DurationOf (DcConfig.BatchIntervalSec cfg) Second ->
  srun b time_Parse cfg snd_ ls (Execute_init cfg snd_) = Some sv -> Service.pc sv = SvcLoop -> stops c = true ->
  (exists sv', srun b time_Parse cfg snd_ [SCommand c; SAgent LDone; SErr] sv = Some sv' /\ Service.pc sv' = SvcReturned /\
     Agent.handle (Service.agent sv') = 0 /\
     Agent.released (Service.agent sv') = Agent.released (Service.agent sv) ++
       (if Agent.handle (Service.agent sv) =? 0 then [] else [Agent.handle (Service.agent sv)]) /\
     Service.changes sv' = Service.changes sv ++ [Status.mk StopPending []]) /\
  (forall sv1 after a', sstep b time_Parse cfg snd_ (SCommand c) sv = Some sv1 ->
     arun b time_Parse cfg snd_ after (Service.agent sv1) = Some a' ->
     (length (base.filter (fun l => of_sub l = true) after) <= 35)%nat /\
     ((forall err, Agent.sub a' <> SubEnd err) -> exists l a'', of_sub l = true /\ astep b time_Parse cfg snd_ l a' = Some a'')).
Proof.
  intros Hb Hi Hrun Hpc Hc. pose proof (svc_inv_run b time_Parse cfg snd_ ls _ _ (svc_inv_start cfg snd_ Hb Hi) Hrun) as Hsv.
  destruct sv as [pc changes commands a]. cbn [Service.pc Service.changes] in *. subst pc.
  assert (Hcmd : on_command c (Service.mk SvcLoop changes commands a)
    = Service.mk SvcStopping (changes ++ [Status.mk StopPending []]) (commands ++ [c]) (Agent.cancel a)) by (by destruct c).
  assert (Hsv1 : svc_inv cfg snd_ (Service.mk SvcStopping (changes ++ [Status.mk StopPending []]) (commands ++ [c]) (Agent.cancel a))).
  { rewrite <- Hcmd. by apply (svc_inv_command b time_Parse). }
  destruct Hsv as (Ha & Hl & _ & _ & Hd). split.
  - assert (Hm : Agent.main a = StillRunning) by (destruct (agent_inv_alive _ _ _ Ha) as [?|[_ ?]]; congruence).
    cbn [srun mbind option_bind sstep]. rewrite Hcmd. cbn [srun mbind option_bind sstep]. unfold astep, alive. cbn [Agent.main Agent.cancel Agent.done]. rewrite Hm. cbn [negb].
    unfold main_step. cbn [Agent.main Agent.cancel Agent.done Agent.proc]. rewrite Hm.
    destruct (service_stop cfg snd_ true (Agent.proc a)) as [s' Hs]. cbn [fmap option_fmap option_map]. rewrite Hs. cbn [fst snd].
cbn [srun mbind option_bind sstep]. rewrite Close_main. cbn [Agent.main returned].
    eexists. split; [reflexivity|]. split_and!; [done|apply Close_handle| |done]. cbn [Service.agent]. cbn [Agent.cancel Agent.released]. by rewrite Close_released.
  - intros sv1 after a'. cbn [sstep]. rewrite Hcmd. intros Hs1. injection Hs1 as <-. cbn [Service.agent]. intros Hafter.
    pose proof (sub_bounded b time_Parse cfg snd_ after (Agent.cancel a) a' eq_refl Hafter) as Hn. cbn [Agent.cancel Agent.sub] in Hn.
    split; [lia|]. intros Hend. destruct (agent_inv_run b time_Parse cfg snd_ after _ _ (proj1 Hsv1) eq_refl Hafter) as [Ha' Hd'].
    apply sub_enabled; [done| |done]. unfold alive. by destruct (agent_inv_alive _ _ _ Ha') as [->|[-> _]].
Qed.

Definition demo_boot : list slabel := [SNext; SNext; SAgent LSub; SCommand OtherCommand; SAgent LSub].

Lemma service_stops_witness : exists sv sv',
  srun (N := demo_down) (L := demo_log) Windows (fun _ _ => None) demo_dc_config demo_sender demo_boot (Execute_init (N := demo_down) demo_dc_config demo_sender) = Some sv /\
  srun (N := demo_down) (L := demo_log) Windows (fun _ _ => None) demo_dc_config demo_sender [SCommand Shutdown; SAgent LDone; SErr] sv = Some sv' /\
  Service.pc sv' = SvcReturned /\ Agent.released (Service.agent sv') = [7] /\
  Status.State <$> Service.changes sv' = [StartPending; Running; StopPending].
Proof.
  destruct (srun (N := demo_down) (L := demo_log) Windows (fun _ _ => None) demo_dc_config demo_sender demo_boot (Execute_init (N := demo_down) demo_dc_config demo_sender))
    as [sv|] eqn:Hsv; [|vm_compute in Hsv; discriminate].
  destruct (service_stops (N := demo_down) (L := demo_log) Windows (fun _ _ => None) demo_dc_config demo_sender demo_boot sv Shutdown)
    as [(sv' & Hr & Hpc & _ & Hrel & Hch) _].
  - cbn. lia.
  - vm_compute. reflexivity.
  - exact Hsv.
  - vm_compute in Hsv. injection Hsv as <-. reflexivity.
  - reflexivity.
  - exists sv, sv'. split_and!; [reflexivity|exact Hr|exact Hpc| |].
    + rewrite Hrel. vm_compute in Hsv. injection Hsv as <-. reflexivity.
    + rewrite Hch. vm_compute in Hsv. injection Hsv as <-. reflexivity.
Defined.

(** the service controller is told a consistent story: in every reachable state the
    statuses reported are the start, the running state with the two commands it
    accepts, and one reply per interrogation; a stop is the last command taken and
    reported last, the agent's context is cancelled exactly by it, and [Execute]
    returns only after the service loop has. *)
Theorem status_protocol {E : Env} {N : Net} {L : EvtLog} `{!EvtLogOk L} b time_Parse cfg snd_ ls sv :
  0 <= DcConfig.BatchSize cfg -> 0 < DurationOf (DcConfig.BatchIntervalSec cfg) Second ->
  srun b time_Parse cfg snd_ ls (Execute_init cfg snd_) = Some sv ->
  let told := match Service.pc sv with
              | SvcInit => []
              | SvcStarted => [Status.mk StartPending []]
              | _ => [Status.mk StartPending []; Status.mk Running [AcceptStop; AcceptShutdown]]
              end in
  Service.changes sv = told ++ replies (Service.commands sv) /\
  (Agent.done (Service.agent sv) = true <-> Service.pc sv = SvcStopping \/ Service.pc sv = SvcReturned) /\
  (Agent.done (Service.agent sv) = true ->
   exists cs c, Service.commands sv = cs ++ [c] /\ stops c = true /\ forallb (fun c => negb (stops c)) cs = true) /\
  (Service.pc sv = SvcReturned -> Agent.main (Service.agent sv) = Stopped).
Proof.
  intros Hb Hi Hrun. pose proof (svc_inv_run b time_Parse cfg snd_ ls _ _ (svc_inv_start cfg snd_ Hb Hi) Hrun) as Hsv.
  destruct sv as [pc changes commands a]. destruct Hsv as (_ & _ & (head & -> & ->) & Hpc).
  cbn [Service.pc Service.changes Service.commands Service.agent]. cbv zeta. split; [done|].
  destruct pc; try (destruct Hpc as (Hcs & Hd & Hm)); try (destruct Hpc as [Hcs Hd]); rewrite Hd;
    (split; [split; [by auto|by intros [|]]|]); (split; [done|]); auto; done.
Qed.

(** ** What modelling showed *)

(** A subscription that fails is only logged: the agent runs on without a source. *)
Theorem failed_subscription_idles : let log := {| EvtSubscribe := fun _ _ => (0, "access denied"); EvtNext := EvtNext (EvtLog := demo_log);
    EvtRender := EvtRender (EvtLog := demo_log); xml_Unmarshal := xml_Unmarshal (EvtLog := demo_log) |} in
  exists a, arun (N := demo_down) (L := log) Windows (fun _ _ => None) demo_dc_config demo_sender [LSub; LTick; LTick] (agent_start (N := demo_down) demo_dc_config demo_sender) = Some a /\
  Agent.sub a = SubEnd (Some "EvtSubscribe failed: access denied") /\ main_exit (Agent.main a) = None.
Proof. eexists. split; [vm_compute; reflexivity|done]. Qed.

(** The flags are EvtSubscribe's eighth parameter; the call passes them as a ninth. *)
Theorem subscribe_flags_misplaced channel query :
  subscribe_args channel query !! 7%nat = Some (Num 0) /\ subscribe_args channel query !! 8%nat = Some (Num evtSubscribeToRealtimeEvents).
Proof. done. Qed.

(** A stop in the middle of a batch of handles leaves the rest of them open. *)
Theorem stop_leaks_handles : exists a,
  arun (N := demo_down) (L := demo_log) Windows (fun _ _ => None) demo_dc_config demo_sender [LSub; LSub; LSub; LSub; LCancel; LQuit] (agent_start (N := demo_down) demo_dc_config demo_sender) = Some a /\
  Agent.opened a = [100; 101] /\ Agent.closed a = [100] /\ Agent.sub a = SubEnd None.
Proof. eexists. split; [vm_compute; reflexivity|done]. Qed.

(** A stop before the subscription: the source is closed first and the handle the
    subscription then opens is never released. *)
Theorem late_subscription_leaks : exists a,
  arun (N := demo_down) (L := demo_log) Windows (fun _ _ => None) demo_dc_config demo_sender [LCancel; LDone; LSub; LSub] (agent_start (N := demo_down) demo_dc_config demo_sender) = Some a /\
  Agent.sub a = SubEnd None /\ Agent.main a = Stopped /\ Agent.handle a = 7 /\ Agent.released a = [].
Proof. eexists. split; [vm_compute; reflexivity|done]. Qed.
