(* ===== verification/AdResponse.v ===== *)
(** * adapters/ad-response: acting on decisions in Active Directory

    config.go, actions.go and the webhook of main.go. The directory is go-ldap's
    ([Lib]); [Modify] and [EscapeFilter] are two more of its functions. The
    process's state is the list of modifications it has sent. *)

From S2P Require Import Prelude GoStrings GoTime GoFloat GoCrypto GoJson GoHttp Types World Instances Auth Pam DcAgent.

Module AdConfig.
Record t := mk {
  ListenAddr : string; OIAFServer : string; OIAFToken : string; LDAPURL : string; BindDN : string;
  BindPassword : string; DryRun : bool
}.
End AdConfig.

Definition loadConfig (env : environ) : result AdConfig.t :=
  let cfg := AdConfig.mk (envOr env "AD_RESPONSE_LISTEN" ":9090") (envOr env "OIAF_SERVER" "http://127.0.0.1:8080")
    (Getenv env "OIAF_ADAPTER_TOKEN") (Getenv env "AD_LDAP_URL") (Getenv env "AD_BIND_DN")
    (Getenv env "AD_BIND_PASSWORD") (envBool env "AD_DRY_RUN" true) in
  if String.eqb (AdConfig.LDAPURL cfg) "" then Err "AD_LDAP_URL is required" else Ok cfg.

Module DecisionWebhook.
Record t := mk {
  RequestID : string; AccountName : string; AccountSID : string; Decision_ : string; RiskScore : Z;
  Reasons : list string; Action : string
}.
End DecisionWebhook.

Module ActionResult.
Record t := mk { Action : string; Account : string; DryRun : bool; Success : bool; Detail : string }.
End ActionResult.

(** A modification of one entry: attribute and values replaced or deleted. *)
Inductive change := Replace (attr : string) (values : list string) | Delete (attr : string) (values : list string).
Module ModifyRequest.
Record t := mk { DN : string; Change : change }.
End ModifyRequest.

Definition uacAccountDisable : Z := 2.

(** [fmt.Sscanf(s, '%d', &n)] into a zero [n]: blanks other than a line feed are
    skipped, then an optional sign and the digits that follow; [n] stays zero on
    any error. *)
Fixpoint digits_prefix (s : string) : string :=
  match s with
  | String c s' => if is_digit (byte_of c) then String c (digits_prefix s') else ""
  | EmptyString => ""
  end.

Definition Sscanf_d (s : string) : Z :=
  let s := TrimLeft s (fun b => (b =? 32) || (b =? 9) || ((11 <=? b) && (b <=? 13))) in
  let '(sign, rest) := match s with
                       | String c s' => if (byte_of c =? 43) || (byte_of c =? 45) then (String c "", s') else ("", s)
                       | EmptyString => ("", s)
                       end in
  match ParseInt (sign +:+ digits_prefix rest) with
  | (n, true) => n
  | (_, false) => 0
  end.

Section Actions.
Context {L : Lib}.
Context (ldap_Modify : nat -> LdapConn -> ModifyRequest.t -> result unit) (EscapeFilter : string -> string).
Context (cfg : AdConfig.t).

Notation AM A := (PM (list ModifyRequest.t) A).

Definition connect : AM (result LdapConn) :=
  conn ←? pask (fun n => ldap_DialURL n (AdConfig.LDAPURL cfg)
                           (if HasPrefix (AdConfig.LDAPURL cfg) "ldaps://" then Some false else None));
  bound ← pask (fun n => ldap_Bind n conn (AdConfig.BindDN cfg) (AdConfig.BindPassword cfg));
  mret (match bound with Ok _ => Ok conn | Err e => Err ("ldap bind: " +:+ e) end).

(** [conn.Modify(mod)]; an accepted modification is recorded. *)
Definition modify (conn : LdapConn) (m : ModifyRequest.t) : AM (result unit) :=
  r ← pask (fun n => ldap_Modify n conn m);
  match r with
  | Err e => mret (Err e)
  | Ok _ => done_ ← pget; _ ← pput (done_ ++ [m]); mret (Ok tt)
  end.

Definition dnFromSID (conn : LdapConn) (sid : string) : AM (result string) :=
  r ← pask (fun n => ldap_Search n conn "" ("(objectSid=" +:+ EscapeFilter sid +:+ ")") ["distinguishedName"]);
  mret (match r with
        | Err e => Err ("search by SID: " +:+ e)
        | Ok [] => Err ("no account found for SID " +:+ sid)
        | Ok (e :: _) => Ok (entry_DN e)
        end).

Definition getUAC (conn : LdapConn) (dn : string) : AM (result Z) :=
  r ← pask (fun n => ldap_Search n conn dn "(objectClass=*)" ["userAccountControl"]);
  mret (match r with
        | Err e => Err e
        | Ok [] => Err ("entry not found: " +:+ dn)
        | Ok (e :: _) => Ok (Sscanf_d (GetAttributeValue e "userAccountControl"))
        end).

Definition setUAC (conn : LdapConn) (dn : string) (uac : Z) : AM (result unit) :=
  modify conn (ModifyRequest.mk dn (Replace "userAccountControl" [pretty uac])).

Definition disableAccount (conn : LdapConn) (sid : string) : AM (result unit) :=
  dn ←? dnFromSID conn sid;
  current ←? getUAC conn dn;
  setUAC conn dn (Z.lor current uacAccountDisable).

Definition enableAccount (conn : LdapConn) (sid : string) : AM (result unit) :=
  dn ←? dnFromSID conn sid;
  current ←? getUAC conn dn;
  setUAC conn dn (Z.ldiff current uacAccountDisable).

Definition forcePasswordReset (conn : LdapConn) (sid : string) : AM (result unit) :=
  dn ←? dnFromSID conn sid;
  modify conn (ModifyRequest.mk dn (Replace "pwdLastSet" ["0"])).

Definition removeFromGroup (conn : LdapConn) (sid : string) (reasons : list string) : AM (result unit) :=
  match last reasons with
  | None => mret (Err "no group DN provided in reasons")
  | Some groupDN =>
      dn ←? dnFromSID conn sid;
      modify conn (ModifyRequest.mk groupDN (Delete "member" [dn]))
  end.

Definition action_of (req : DecisionWebhook.t) : string :=
  if String.eqb (DecisionWebhook.Action req) "" then "disable_account" else DecisionWebhook.Action req.

(** [Handle]: the result and the error. *)
Definition Handle (req : DecisionWebhook.t) : AM (ActionResult.t * option string) :=
  let action := action_of req in
  let result success detail :=
    ActionResult.mk action (DecisionWebhook.AccountName req) (AdConfig.DryRun cfg) success detail in
  if AdConfig.DryRun cfg then mret (result true "dry-run: action logged but not applied", None)
  else
    c ← connect;
    match c with
    | Err e => mret (result false "", Some ("ldap connect: " +:+ e))
    | Ok conn =>
        let sid := DecisionWebhook.AccountSID req in
        r ← (if String.eqb action "disable_account" then disableAccount conn sid
             else if String.eqb action "enable_account" then enableAccount conn sid
             else if String.eqb action "force_password_reset" then forcePasswordReset conn sid
             else if String.eqb action "remove_from_group" then removeFromGroup conn sid (DecisionWebhook.Reasons req)
             else mret (Err ("unknown action: " +:+ action)));
        match r with
        | Err e => mret (result false "", Some e)
        | Ok _ => mret (result true "", None)
        end
    end.

(** ** The webhook (main.go) *)

Inductive reply := InvalidBody | Ignored | Failed (e : string) | Done (r : ActionResult.t).

(** [body] is the outcome of decoding the request. *)
Definition webhook (body : option DecisionWebhook.t) : AM reply :=
  match body with
  | None => mret InvalidBody
  | Some req =>
      if negb (String.eqb (DecisionWebhook.Decision_ req) "deny") && negb (String.eqb (DecisionWebhook.Decision_ req) "challenge")
      then mret Ignored
      else
        r ← Handle req;
        mret (match r with (_, Some e) => Failed e | (res, None) => Done res end)
  end.
End Actions.

Definition reply_status (r : reply) : Z :=
  match r with InvalidBody => StatusBadRequest | Failed _ => StatusInternalServerError | _ => StatusOK end.

(** ** Facts *)

Definition deciding (req : DecisionWebhook.t) : Prop :=
  DecisionWebhook.Decision_ req = "deny" \/ DecisionWebhook.Decision_ req = "challenge".

Section Facts.
Context {L : Lib}.
Context (ldap_Modify : nat -> LdapConn -> ModifyRequest.t -> result unit) (EscapeFilter : string -> string).
Context (cfg : AdConfig.t).

(** The directory, asked at some moment, named [dn] as the account of [sid]. *)
Definition account_of (sid dn : string) : Prop := exists n conn e es,
  ldap_Search n conn "" ("(objectSid=" +:+ EscapeFilter sid +:+ ")") ["distinguishedName"] = Ok (e :: es) /\ dn = entry_DN e.

(** The directory, asked at some moment, gave [dn] the account control [uac]. *)
Definition uac_of (dn : string) (uac : Z) : Prop := exists n conn e es,
  ldap_Search n conn dn "(objectClass=*)" ["userAccountControl"] = Ok (e :: es) /\
  uac = Sscanf_d (GetAttributeValue e "userAccountControl").

(** The one modification each action stands for. *)
Inductive stands_for (req : DecisionWebhook.t) : ModifyRequest.t -> Prop :=
| sf_disable dn uac : action_of req = "disable_account" -> account_of (DecisionWebhook.AccountSID req) dn -> uac_of dn uac ->
    stands_for req (ModifyRequest.mk dn (Replace "userAccountControl" [pretty (Z.lor uac uacAccountDisable)]))
| sf_enable dn uac : action_of req = "enable_account" -> account_of (DecisionWebhook.AccountSID req) dn -> uac_of dn uac ->
    stands_for req (ModifyRequest.mk dn (Replace "userAccountControl" [pretty (Z.ldiff uac uacAccountDisable)]))
| sf_reset dn : action_of req = "force_password_reset" -> account_of (DecisionWebhook.AccountSID req) dn ->
    stands_for req (ModifyRequest.mk dn (Replace "pwdLastSet" ["0"]))
| sf_remove dn group : action_of req = "remove_from_group" -> account_of (DecisionWebhook.AccountSID req) dn ->
    last (DecisionWebhook.Reasons req) = Some group ->
    stands_for req (ModifyRequest.mk group (Delete "member" [dn])).

Notation Proc_ := (Proc (list ModifyRequest.t)).

Lemma connect_run (p : Proc_) r p' : connect cfg p = (r, p') -> ps p' = ps p.
Proof.
  unfold connect, pask. st_unfold. cbn [ps ptick reqs].
  destruct (ldap_DialURL _ _ _); [destruct (ldap_Bind _ _ _ _)|]; intros [= <- <-]; reflexivity.
Qed.

Lemma modify_run conn m (p : Proc_) r p' : modify ldap_Modify conn m p = (r, p') ->
  ps p' = match r with Ok _ => ps p ++ [m] | Err _ => ps p end.
Proof.
  unfold modify, pask, pget, pput. st_unfold. destruct (ldap_Modify _ _ _); cbn [ps ptick reqs]; intros [= <- <-]; reflexivity.
Qed.

Lemma dnFromSID_run conn sid (p : Proc_) r p' : dnFromSID EscapeFilter conn sid p = (r, p') ->
  ps p' = ps p /\ forall dn, r = Ok dn -> account_of sid dn.
Proof.
  unfold dnFromSID, pask. st_unfold. destruct (ldap_Search _ _ _ _ _) as [[|e es]|] eqn:Hs; intros [= <- <-]; (split; [reflexivity|]);
    intros dn [=]; subst. exists (ptick p), conn, e, es. done.
Qed.

Lemma getUAC_run conn dn (p : Proc_) r p' : getUAC conn dn p = (r, p') ->
  ps p' = ps p /\ forall uac, r = Ok uac -> uac_of dn uac.
Proof.
  unfold getUAC, pask. st_unfold. destruct (ldap_Search _ _ _ _ _) as [[|e es]|] eqn:Hs; intros [= <- <-]; (split; [reflexivity|]);
    intros uac [=]; subst. exists (ptick p), conn, e, es. done.
Qed.

(** Code that either fails and changes nothing, or makes one modification of [P]. *)
Definition one_of (P : ModifyRequest.t -> Prop) (m : PM (list ModifyRequest.t) (result unit)) : Prop :=
  forall p r p', m p = (r, p') -> match r with Err _ => ps p' = ps p | Ok _ => exists x, P x /\ ps p' = ps p ++ [x] end.

Lemma one_of_modify (P : ModifyRequest.t -> Prop) conn m : P m -> one_of P (modify ldap_Modify conn m).
Proof. intros HP p [u|e] p' Hr; apply modify_run in Hr; [exists m|]; done. Qed.

Lemma one_of_account P conn sid k : (forall dn, account_of sid dn -> one_of P (k dn)) ->
  one_of P (dn ←? dnFromSID EscapeFilter conn sid; k dn).
Proof.
  intros Hk p r p'. st_unfold. destruct (dnFromSID EscapeFilter conn sid p) as [[dn|e] p1] eqn:Hd; apply dnFromSID_run in Hd as [Hp Hd].
  - intros Hr. apply (Hk dn (Hd dn eq_refl)) in Hr. destruct r; rewrite <-Hp; exact Hr.
  - intros [= <- <-]. exact Hp.
Qed.

Lemma one_of_uac P conn dn k : (forall uac, uac_of dn uac -> one_of P (k uac)) ->
  one_of P (uac ←? getUAC conn dn; k uac).
Proof.
  intros Hk p r p'. st_unfold. destruct (getUAC conn dn p) as [[uac|e] p1] eqn:Hd; apply getUAC_run in Hd as [Hp Hd].
  - intros Hr. apply (Hk uac (Hd uac eq_refl)) in Hr. destruct r; rewrite <-Hp; exact Hr.
  - intros [= <- <-]. exact Hp.
Qed.

(** A live [Handle] succeeds exactly with the modification of its action. *)
Lemma Handle_run req (p : Proc_) res err p' : Handle ldap_Modify EscapeFilter cfg req p = ((res, err), p') ->
  match err with
  | Some _ => ps p' = ps p
  | None => if AdConfig.DryRun cfg then p' = p else
              res = ActionResult.mk (action_of req) (DecisionWebhook.AccountName req) false true "" /\
              exists m, stands_for req m /\ ps p' = ps p ++ [m]
  end.
Proof.
  unfold Handle. destruct (AdConfig.DryRun cfg) eqn:Hd; [intros [= _ <- <-]; reflexivity|].
  st_unfold. destruct (connect cfg p) as [[conn|e] p1] eqn:Hc; apply connect_run in Hc; [|intros [= _ <- <-]; exact Hc].
  match goal with |- context [let '(a, s) := ?m p1 in _] => assert (Hone : one_of (stands_for req) m) end.
  { destruct (String.eqb_spec (action_of req) "disable_account"); [|destruct (String.eqb_spec (action_of req) "enable_account");
      [|destruct (String.eqb_spec (action_of req) "force_password_reset"); [|destruct (String.eqb_spec (action_of req) "remove_from_group")]]].
    - apply one_of_account. intros dn Hdn. apply one_of_uac. intros uac Hu. by apply one_of_modify, sf_disable.
    - apply one_of_account. intros dn Hdn. apply one_of_uac. intros uac Hu. by apply one_of_modify, sf_enable.
    - apply one_of_account. intros dn Hdn. by apply one_of_modify, sf_reset.
    - unfold removeFromGroup. destruct (last _) eqn:Hl; [|intros ??? [= <- <-]; reflexivity].
      apply one_of_account. intros dn Hdn. by apply one_of_modify, sf_remove.
    - intros ??? [= <- <-]. reflexivity. }
  match goal with |- context [let '(a, s) := ?m p1 in _] => destruct (m p1) as [r p2] eqn:Hr end.
  apply Hone in Hr. rewrite Hc in Hr. destruct r; intros [= <- <- <-]; [by split|exact Hr].
Qed.
End Facts.

(** ** Properties *)

Lemma disable_bits uac i : 0 <= i -> Z.testbit (Z.lor uac uacAccountDisable) i = if i =? 1 then true else Z.testbit uac i.
Proof.
  intros Hi. rewrite Z.lor_spec. change uacAccountDisable with (2 ^ 1). rewrite Z.pow2_bits_eqb by lia.
  rewrite Z.eqb_sym. destruct (i =? 1); [apply orb_true_r|apply orb_false_r].
Qed.

Lemma enable_bits uac i : 0 <= i -> Z.testbit (Z.ldiff uac uacAccountDisable) i = if i =? 1 then false else Z.testbit uac i.
Proof.
  intros Hi. rewrite Z.ldiff_spec. change uacAccountDisable with (2 ^ 1). rewrite Z.pow2_bits_eqb by lia.
  rewrite Z.eqb_sym. destruct (i =? 1); [apply andb_false_r|apply andb_true_r].
Qed.

(** when disabling or enabling an account succeeds outside a dry run, exactly
    one modification was made: it replaces the account control of the entry the
    directory names for the account's SID, it sets (clears, for enabling) the
    "account disabled" bit, and every other bit is the one the directory held. *)
Theorem uac_actions_exact {L : Lib} ldap_Modify EscapeFilter cfg req p res p' :
  Handle ldap_Modify EscapeFilter cfg req p = ((res, None), p') -> AdConfig.DryRun cfg = false ->
  action_of req = "disable_account" \/ action_of req = "enable_account" ->
  exists dn uac uac', account_of EscapeFilter (DecisionWebhook.AccountSID req) dn /\ uac_of dn uac /\
  ps p' = ps p ++ [ModifyRequest.mk dn (Replace "userAccountControl" [pretty uac'])] /\
  forall i, 0 <= i -> Z.testbit uac' i = if i =? 1 then String.eqb (action_of req) "disable_account" else Z.testbit uac i.
Proof.
  intros Hr Hd Ha. apply Handle_run in Hr. rewrite Hd in Hr. destruct Hr as (_ & m & Hm & Hp).
  destruct Hm as [dn uac He Hdn Hu|dn uac He Hdn Hu|dn He|dn group He]; rewrite He in Ha; [| |by destruct Ha..].
  - exists dn, uac, (Z.lor uac uacAccountDisable). rewrite He. repeat split; [done..|apply disable_bits].
  - exists dn, uac, (Z.ldiff uac uacAccountDisable). rewrite He. repeat split; [done..|apply enable_bits].
Qed.

Definition demo_ad_config (dry : bool) : AdConfig.t := AdConfig.mk ":9090" "" "" "ldaps://dc1" "CN=oiaf" "pw" dry.
Definition demo_decision (decision action : string) : DecisionWebhook.t :=
  DecisionWebhook.mk "req-1" "bob" "S-1-5-21-1" decision 90 ["impossible travel"] action.
Definition demo_ad_proc : Proc (list ModifyRequest.t) := mkProc [] 0 [].
Definition demo_modify : nat -> LdapConn -> ModifyRequest.t -> result unit := fun _ _ _ => Ok tt.

Lemma uac_actions_exact_witness :
  let r := Handle demo_modify (fun s => s) (demo_ad_config false) (demo_decision "deny" "") demo_ad_proc in
  ps r.2 = [ModifyRequest.mk "CN=Bob,OU=Staff,DC=corp" (Replace "userAccountControl" ["514"])] /\
  exists dn uac (uac' : Z), account_of (fun s => s) "S-1-5-21-1" dn /\ uac_of dn uac /\
  ps r.2 = [ModifyRequest.mk dn (Replace "userAccountControl" [pretty uac'])].
Proof.
  split; [vm_compute; reflexivity|].
  edestruct (uac_actions_exact demo_modify (fun s => s) (demo_ad_config false) (demo_decision "deny" "") demo_ad_proc)
    as (dn & uac & uac' & Ha & Hu & Hp & _).
  - vm_compute. reflexivity.
  - reflexivity.
  - left. reflexivity.
  - exists dn, uac, uac'. split; [exact Ha|]. split; [exact Hu|]. vm_compute. vm_compute in Hp. exact Hp.
Defined.

(** C29: the webhook modifies the directory only for a body that decodes, a "deny"
    or a "challenge", outside a dry run; then it makes exactly the modification
    its action stands for and reports success. In every other case nothing is
    modified, and in a dry run, or for another decision, the directory is not
    even contacted. *)
Theorem webhook_guard {L : Lib} ldap_Modify EscapeFilter cfg body p rep p' :
  webhook ldap_Modify EscapeFilter cfg body p = (rep, p') ->
  (ps p' <> ps p -> exists req m, body = Some req /\ deciding req /\ AdConfig.DryRun cfg = false /\
     stands_for EscapeFilter req m /\ ps p' = ps p ++ [m] /\
     rep = Done (ActionResult.mk (action_of req) (DecisionWebhook.AccountName req) false true "")) /\
  (AdConfig.DryRun cfg = true \/ (forall req, body = Some req -> ~ deciding req) -> p' = p).
Proof.
  unfold webhook. destruct body as [req|]; [|by intros [= <- <-]].
  destruct (negb _ && negb _) eqn:Hg.
  { intros [= <- <-]. by split. }
  assert (Hdec : deciding req).
  { apply andb_false_iff in Hg as [Hg|Hg]; apply negb_false_iff, String.eqb_eq in Hg; [by left|by right]. }
  st_unfold. destruct (Handle _ _ _ _ p) as [[res err] p1] eqn:Hh. intros [= <- <-]. split.
  - intros Hne. apply Handle_run in Hh. destruct err; [done|]. destruct (AdConfig.DryRun cfg) eqn:Hd; [by rewrite Hh in Hne|].
    destruct Hh as (-> & m & Hm & Hp). exists req, m. done.
  - intros [Hd|Hno]; [|by destruct (Hno req eq_refl)].
    unfold Handle in Hh. rewrite Hd in Hh. by injection Hh.
Qed.

Lemma webhook_guard_witness :
  exists m, stands_for (fun s => s) (demo_decision "challenge" "force_password_reset") m /\
  ps (webhook demo_modify (fun s => s) (demo_ad_config false)
        (Some (demo_decision "challenge" "force_password_reset")) demo_ad_proc).2 = [m].
Proof.
  destruct (webhook_guard demo_modify (fun s => s) (demo_ad_config false)
    (Some (demo_decision "challenge" "force_password_reset")) demo_ad_proc _ _ eq_refl) as [H _].
  destruct H as (req & m & Hb & _ & _ & Hs & Hp & _); [vm_compute; discriminate|].
  exists m. injection Hb as <-. split; [exact Hs|exact Hp].
Defined.

(** ** What modelling showed *)

(** An account control that is missing or does not read as a number counts as
    zero: disabling the account then writes 2, dropping every other flag. *)
Theorem unreadable_uac_dropped :
  Sscanf_d "" = 0 /\ Sscanf_d "x512" = 0 /\ Z.lor (Sscanf_d "x512") uacAccountDisable = 2.
Proof. repeat split; reflexivity. Qed.

(** A decision of any caller is carried out: the webhook's outcome does not
    depend on the adapter's token. *)
Theorem webhook_unauthenticated {L : Lib} ldap_Modify EscapeFilter cfg token body p :
  webhook ldap_Modify EscapeFilter cfg body p =
  webhook ldap_Modify EscapeFilter
    (AdConfig.mk (AdConfig.ListenAddr cfg) (AdConfig.OIAFServer cfg) token (AdConfig.LDAPURL cfg) (AdConfig.BindDN cfg)
       (AdConfig.BindPassword cfg) (AdConfig.DryRun cfg)) body p.
Proof. reflexivity. Qed.
