(* ===== verification/Config.v ===== *)
(** * core/internal/config: the daemon's configuration (config.go)

    Reading the file and YAML decoding into an existing configuration are
    parameters ([os_Stat], [readFile], [yaml_Unmarshal]); the environment is
    [environ]. *)

From S2P Require Import Prelude GoStrings GoTime GoHttp Risk Pam.

Module ServerConfig.
Record t := mk {
  Addr : string; LogLevel : string; LogFormat : string; UIEnabled : bool; MetricsEnabled : bool;
  TLSCertFile : string; TLSKeyFile : string; Webhooks : string
}.
End ServerConfig.

Module StorageConfig.
Record t := mk { Driver : string }.
End StorageConfig.

Module SecurityConfig.
Record t := mk {
  ChallengeTTLSeconds : Z; TOTPMaxAttempts : Z; PushTimestampSkewSeconds : Z; RequireSecureCookies : bool
}.
End SecurityConfig.

Module WebAuthnConfig.
Record t := mk { RPID : string; RPDisplayName : string; RPOrigins : string; RequireUserVerification : bool }.
End WebAuthnConfig.

Module PolicyConfig.
Record t := mk { DefaultEffect : string }.
End PolicyConfig.

Module ADConfig.
Record t := mk { LDAPURL : string; BindDN : string; BindPassword : string; BaseDN : string; InsecureSkipVerify : bool }.
End ADConfig.

(** [RiskConfig.Thresholds] has the fields of the risk engine's thresholds. *)
Module Config.
Record t := mk {
  Server : ServerConfig.t; Storage : StorageConfig.t; Security : SecurityConfig.t; WebAuthn : WebAuthnConfig.t;
  Policy : PolicyConfig.t; Risk : Thresholds.t; AD : ADConfig.t; allowInsecureDev : bool
}.
End Config.

Definition Default : Config.t :=
  Config.mk (ServerConfig.mk "127.0.0.1:8080" "info" "json" true true "" "" "")
    (StorageConfig.mk "memory") (SecurityConfig.mk 300 5 60 true)
    (WebAuthnConfig.mk "localhost" "OIAF" "http://localhost:8080" false)
    (PolicyConfig.mk "deny") (Thresholds.mk 24 49 74 89) (ADConfig.mk "" "" "" "" false) false.

Section Overlay.
Context (env : environ).

(** [if v, ok := os.LookupEnv(key); ok { field = v }], and its boolean form,
    which keeps the field when the value does not parse. *)
Definition overlay (key cur : string) : string := default cur (env key).
Definition overlay_bool (key : string) (cur : bool) : bool :=
  match env key with Some v => default cur (ParseBool v) | None => cur end.

Definition uvKey : string := "OIAF_WEBAUTHN_REQUIRE_USER_VERIFICATION".

Definition applyEnv (cfg : Config.t) : result Config.t :=
  let sv := Config.Server cfg in
  let wa := Config.WebAuthn cfg in
  let ad := Config.AD cfg in
  let server := ServerConfig.mk (overlay "OIAF_LISTEN_ADDR" (ServerConfig.Addr sv))
    (overlay "OIAF_LOG_LEVEL" (ServerConfig.LogLevel sv)) (overlay "OIAF_LOG_FORMAT" (ServerConfig.LogFormat sv))
    (overlay_bool "OIAF_UI_ENABLED" (ServerConfig.UIEnabled sv))
    (overlay_bool "OIAF_METRICS_ENABLED" (ServerConfig.MetricsEnabled sv))
    (overlay "OIAF_TLS_CERT_FILE" (ServerConfig.TLSCertFile sv))
    (overlay "OIAF_TLS_KEY_FILE" (ServerConfig.TLSKeyFile sv)) (ServerConfig.Webhooks sv) in
  let storage := if env "OIAF_DATABASE_URL" is Some _ then StorageConfig.mk "postgres" else Config.Storage cfg in
  let dev := overlay_bool "OIAF_ALLOW_INSECURE_DEV" (Config.allowInsecureDev cfg) in
  let ad' := ADConfig.mk (overlay "OIAF_AD_LDAP_URL" (ADConfig.LDAPURL ad)) (overlay "OIAF_AD_BIND_DN" (ADConfig.BindDN ad))
    (overlay "OIAF_AD_BIND_PASSWORD" (ADConfig.BindPassword ad)) (overlay "OIAF_AD_BASE_DN" (ADConfig.BaseDN ad))
    (ADConfig.InsecureSkipVerify ad) in
  let webauthn uv := WebAuthnConfig.mk (overlay "OIAF_WEBAUTHN_RP_ID" (WebAuthnConfig.RPID wa))
    (overlay "OIAF_WEBAUTHN_RP_DISPLAY_NAME" (WebAuthnConfig.RPDisplayName wa))
    (overlay "OIAF_WEBAUTHN_RP_ORIGINS" (WebAuthnConfig.RPOrigins wa)) uv in
  let done_ uv := Ok (Config.mk server storage (Config.Security cfg) (webauthn uv) (Config.Policy cfg) (Config.Risk cfg) ad' dev) in
  match env uvKey with
  | None => done_ (WebAuthnConfig.RequireUserVerification wa)
  | Some v => match ParseBool (TrimSpace v) with
              | None => Err (uvKey +:+ " must be a boolean (true/false)")
              | Some b => done_ b
              end
  end.

Section Load.
Context (os_Stat : string -> bool) (readFile : string -> result string).
Context (yaml_Unmarshal : string -> Config.t -> result Config.t).

Definition from_file (path : string) : result Config.t :=
  if negb (String.eqb path "") && os_Stat path then
    match readFile path with
    | Err e => Err e
    | Ok data => yaml_Unmarshal data Default
    end
  else Ok Default.

Definition Load (path : string) : result Config.t :=
  match from_file path with
  | Err e => Err e
  | Ok cfg => applyEnv cfg
  end.
End Load.

Definition WebAuthnOrigins (c : Config.t) : list string := split_list (WebAuthnConfig.RPOrigins (Config.WebAuthn c)).

Definition WebAuthnEnabled (c : Config.t) : bool :=
  negb (String.eqb (WebAuthnConfig.RPID (Config.WebAuthn c)) "") && (0 <? length (WebAuthnOrigins c))%nat.

Definition AdminToken : string := Getenv env "OIAF_ADMIN_TOKEN".
Definition AdapterToken : string := Getenv env "OIAF_ADAPTER_TOKEN".

Definition AllowInsecureDev (c : Config.t) : bool := overlay_bool "OIAF_ALLOW_INSECURE_DEV" (Config.allowInsecureDev c).
End Overlay.

(** ** Facts *)

Definition comma : Ascii.ascii := ascii_of 44.

(** An entry of a comma-separated list that reads back as it is. *)
Definition clean (o : string) : Prop := o <> "" /\ TrimSpace o = o /\ comma ∉ String.list_ascii_of_string o.

(** Trimmed, non-empty, comma-free entries survive being joined and split. *)
Lemma split_list_Join l : Forall clean l -> split_list (Join "," l) = l.
Proof.
  unfold split_list. change (ascii_of 44) with comma. induction l as [|o l IH]; intros Hl; [done|].
  apply Forall_cons_1 in Hl as [(Hne & Ht & Hc) Hl]. specialize (IH Hl). destruct l as [|o' l].
  - cbn [Join]. rewrite Split_whole by done. cbn [fmap list_fmap]. by rewrite Ht, filter_cons_True.
  - change (Join "," (o :: o' :: l)) with (o +:+ String comma (Join "," (o' :: l))).
    rewrite Split_app by done. cbn [fmap list_fmap]. rewrite Ht, filter_cons_True by done. f_equal. exact IH.
Qed.

Lemma overlay_idem env k cur : overlay env k (overlay env k cur) = overlay env k cur.
Proof. unfold overlay. by destruct (env k). Qed.

Lemma overlay_bool_idem env k cur : overlay_bool env k (overlay_bool env k cur) = overlay_bool env k cur.
Proof. unfold overlay_bool. destruct (env k) as [v|]; [|done]. by destruct (ParseBool v). Qed.

(** ** Properties *)

Definition demo_environ : environ := fun k =>
  if String.eqb k uvKey then Some " true " else if String.eqb k "OIAF_LISTEN_ADDR" then Some ":443" else None.

(** the environment is the last word on a loaded configuration: overlaying it
    once more changes nothing, [AllowInsecureDev], which reads the environment
    again, agrees with the loaded field, and when user verification is set in the
    environment its value parsed and is the loaded one; a typo there fails the
    load, whatever the file says. *)
Theorem Load_settled env os_Stat readFile yaml path c :
  Load env os_Stat readFile yaml path = Ok c ->
  applyEnv env c = Ok c /\ AllowInsecureDev env c = Config.allowInsecureDev c /\
  (forall v, env uvKey = Some v -> ParseBool (TrimSpace v) = Some (WebAuthnConfig.RequireUserVerification (Config.WebAuthn c))).
Proof.
  unfold Load. destruct (from_file _ _ _ path) as [cfg|e]; [|done]. unfold applyEnv, AllowInsecureDev.
  destruct (env uvKey) as [v|]; [destruct (ParseBool (TrimSpace v)) as [b|] eqn:Hb; [|done]|]; intros [= <-];
    cbn [Config.Server Config.Storage Config.Security Config.WebAuthn Config.Policy Config.Risk Config.AD Config.allowInsecureDev
      ServerConfig.Addr ServerConfig.LogLevel ServerConfig.LogFormat ServerConfig.UIEnabled ServerConfig.MetricsEnabled
      ServerConfig.TLSCertFile ServerConfig.TLSKeyFile ServerConfig.Webhooks ADConfig.LDAPURL ADConfig.BindDN ADConfig.BindPassword
      ADConfig.BaseDN ADConfig.InsecureSkipVerify WebAuthnConfig.RPID WebAuthnConfig.RPDisplayName WebAuthnConfig.RPOrigins
      WebAuthnConfig.RequireUserVerification];
    rewrite !overlay_idem, !overlay_bool_idem; split_and!; try done.
  - by destruct (env "OIAF_DATABASE_URL").
  - by intros v' [= <-].
  - by destruct (env "OIAF_DATABASE_URL").
Qed.

Lemma Load_settled_witness : exists c,
  Load demo_environ (fun _ => false) (fun _ => Err "no file") (fun _ c => Ok c) "oiaf.yaml" = Ok c /\
  ServerConfig.Addr (Config.Server c) = ":443" /\ applyEnv demo_environ c = Ok c /\
  WebAuthnConfig.RequireUserVerification (Config.WebAuthn c) = true.
Proof.
  eexists. split; [vm_compute; reflexivity|]. split; [reflexivity|].
  destruct (Load_settled demo_environ (fun _ => false) (fun _ => Err "no file") (fun _ c => Ok c) "oiaf.yaml" _ eq_refl)
    as (Ha & _ & Hu).
  split; [exact Ha|]. specialize (Hu " true " eq_refl). vm_compute in Hu. reflexivity.
Defined.

(** the relying party's origins survive their comma-separated form: a list of
    non-empty, trimmed, comma-free origins, joined with commas and configured, is
    read back as it was, and WebAuthn is then enabled exactly when there is a
    relying party and an origin. *)
Theorem WebAuthnOrigins_roundtrip c origins :
  Forall clean origins -> WebAuthnConfig.RPOrigins (Config.WebAuthn c) = Join "," origins ->
  WebAuthnOrigins c = origins /\
  (WebAuthnEnabled c = true <-> WebAuthnConfig.RPID (Config.WebAuthn c) <> "" /\ origins <> []).
Proof.
  intros Hc Hj. unfold WebAuthnEnabled, WebAuthnOrigins. rewrite Hj, split_list_Join by done. split; [done|].
  rewrite andb_true_iff, negb_true_iff, String.eqb_neq. destruct origins; cbn; [|by split; intros [? _]].
  split; [by intros [_ ?]|by intros [_ ?]].
Qed.

Lemma WebAuthnOrigins_roundtrip_witness :
  let origins := ["https://a.example"; "https://b.example:8443"] in
  let c := Config.mk (Config.Server Default) (Config.Storage Default) (Config.Security Default)
             (WebAuthnConfig.mk "a.example" "OIAF" (Join "," origins) true) (Config.Policy Default) (Config.Risk Default)
             (Config.AD Default) false in
  WebAuthnOrigins c = origins /\ (WebAuthnEnabled c = true <-> "a.example" <> "" /\ origins <> []).
Proof.
  apply (WebAuthnOrigins_roundtrip (Config.mk _ _ _ (WebAuthnConfig.mk "a.example" "OIAF" _ true) _ _ _ false)); [|reflexivity].
  repeat constructor; try discriminate; vm_compute; set_solver.
Defined.
