(* ===== verification/OktaConfig.v ===== *)
(** * adapters/okta: configuration (config.go) and the client it builds (main.go)

    The environment is [environ]; file access and YAML decoding are parameters.
    The warning about a group-readable file goes to standard error and is not
    modelled. *)

From S2P Require Import Prelude GoStrings GoTime GoFloat GoCrypto GoRunes GoJson GoHttp GoParse Types World Instances Okta OktaRedact OktaPoller OktaClient Pam DcAgent.
From Stdlib Require Import SpecFloat.

Module OktaCfg.
Record t := mk {
  ServerURL : string; AdapterToken : string; OktaBaseURL : string; OktaToken : string; FixtureFile : string;
  PollInterval : Duration; Timeout : Duration; Limit : Z; MaxPages : Z;
  MFAFatigueThreshold : Z; MFAFatigueWindow : Duration; MaxTravelSpeedKmh : spec_float;
  StateFile : string; Once : bool
}.
End OktaCfg.

Module oktaFileConfig.
Record t := mk {
  APIToken : string; BaseURL : string; Domain : string; StateFile : string; PollInterval : string; Limit : Z;
  MaxPages : Z; MFAFatigueThreshold : Z; MFAFatigueWindow : string; MaxTravelSpeedKmh : spec_float
}.
End oktaFileConfig.

Definition positive_float (x : spec_float) : bool := flt (of_int 0) x.

Section Env.
Context (env : environ).

Definition envFloat (key : string) (fallback : spec_float) : spec_float :=
  let v := Getenv env key in if String.eqb v "" then fallback else default fallback (ParseFloat v).

Definition envDuration (key : string) : option Duration :=
  let v := Getenv env key in if String.eqb v "" then None else ParseDuration v.

Definition unset (key : string) : bool := String.eqb (Getenv env key) "".
End Env.

Section Load.
Context {N : Net}.
Context (os_Stat : string -> result unit) (readFile : string -> result string).
Context (yaml_Unmarshal : string -> result oktaFileConfig.t).
Context (env : environ).

Definition loadConfigFile (path : string) : result oktaFileConfig.t :=
  match os_Stat path with
  | Err e => Err ("config file: " +:+ e)
  | Ok _ => match readFile path with
            | Err e => Err ("config file: " +:+ e)
            | Ok data => match yaml_Unmarshal data with
                         | Err e => Err ("config file: " +:+ e)
                         | Ok fc => Ok fc
                         end
            end
  end.

(** A duration of the file, unless the environment has it or the file has none. *)
Definition file_duration (skip : bool) (text name : string) (cur : Duration) : result Duration :=
  if skip || String.eqb text "" then Ok cur
  else match ParseDuration text with
       | None => Err ("config file " +:+ name)
       | Some d => Ok d
       end.

Definition defaults : OktaCfg.t :=
  OktaCfg.mk (envOr env "OIAF_SERVER" "http://127.0.0.1:8080") (Getenv env "OIAF_ADAPTER_TOKEN")
    (TrimSuffix_slash (Getenv env "OKTA_BASE_URL")) (envOr env "OIAF_OKTA_TOKEN" (Getenv env "OKTA_API_TOKEN"))
    (Getenv env "OKTA_FIXTURE_FILE") (30 * Second) (30 * Second) 500 50 3 (10 * Minute) (of_int 900)
    (envOr env "OKTA_STATE_FILE" ".oiaf/okta-state.json") (envBool env "OKTA_ONCE" false).

(** The file fills what the environment did not set; with it, the file's domain. *)
Definition fill (cfg : OktaCfg.t) (fc : oktaFileConfig.t) : result (OktaCfg.t * string) :=
  let token := if String.eqb (OktaCfg.OktaToken cfg) "" then oktaFileConfig.APIToken fc else OktaCfg.OktaToken cfg in
  let base := if String.eqb (OktaCfg.OktaBaseURL cfg) "" then TrimSuffix_slash (oktaFileConfig.BaseURL fc)
              else OktaCfg.OktaBaseURL cfg in
  let state := if unset env "OKTA_STATE_FILE" && negb (String.eqb (oktaFileConfig.StateFile fc) "")
               then oktaFileConfig.StateFile fc else OktaCfg.StateFile cfg in
  match file_duration (negb (unset env "OKTA_POLL_INTERVAL")) (oktaFileConfig.PollInterval fc) "poll_interval"
          (OktaCfg.PollInterval cfg) with
  | Err e => Err e
  | Ok poll =>
      let limit := if unset env "OKTA_LIMIT" && (0 <? oktaFileConfig.Limit fc) then oktaFileConfig.Limit fc
                   else OktaCfg.Limit cfg in
      let pages := if unset env "OKTA_MAX_PAGES" && (0 <? oktaFileConfig.MaxPages fc) then oktaFileConfig.MaxPages fc
                   else OktaCfg.MaxPages cfg in
      let threshold := if 0 <? oktaFileConfig.MFAFatigueThreshold fc then oktaFileConfig.MFAFatigueThreshold fc
                       else OktaCfg.MFAFatigueThreshold cfg in
      match file_duration false (oktaFileConfig.MFAFatigueWindow fc) "mfa_fatigue_window" (OktaCfg.MFAFatigueWindow cfg) with
      | Err e => Err e
      | Ok window =>
          let speed := if positive_float (oktaFileConfig.MaxTravelSpeedKmh fc) then oktaFileConfig.MaxTravelSpeedKmh fc
                       else OktaCfg.MaxTravelSpeedKmh cfg in
          Ok (OktaCfg.mk (OktaCfg.ServerURL cfg) (OktaCfg.AdapterToken cfg) base token (OktaCfg.FixtureFile cfg) poll
                (OktaCfg.Timeout cfg) limit pages threshold window speed state (OktaCfg.Once cfg), oktaFileConfig.Domain fc)
      end
  end.

Definition from_file : result (OktaCfg.t * string) :=
  let path := Getenv env "OKTA_CONFIG_FILE" in
  if String.eqb path "" then Ok (defaults, "")
  else match loadConfigFile path with
       | Err e => Err e
       | Ok fc => fill defaults fc
       end.

Definition positive_int (v cur : Z) : Z := if 0 <? v then v else cur.

Definition clamp_limit (l : Z) : Z :=
  let l := if l <? 1 then 1 else l in if 1000 <? l then 1000 else l.

(** The tuning variables, then the bounds. *)
Definition tune (cfg : OktaCfg.t) : OktaCfg.t :=
  let poll := default (OktaCfg.PollInterval cfg) (envDuration env "OKTA_POLL_INTERVAL") in
  let limit := positive_int (envInt env "OKTA_LIMIT" (OktaCfg.Limit cfg)) (OktaCfg.Limit cfg) in
  let pages := positive_int (envInt env "OKTA_MAX_PAGES" (OktaCfg.MaxPages cfg)) (OktaCfg.MaxPages cfg) in
  let threshold := positive_int (envInt env "OKTA_MFA_FATIGUE_THRESHOLD" (OktaCfg.MFAFatigueThreshold cfg))
                     (OktaCfg.MFAFatigueThreshold cfg) in
  let speed := envFloat env "OKTA_MAX_TRAVEL_SPEED_KMH" (OktaCfg.MaxTravelSpeedKmh cfg) in
  OktaCfg.mk (OktaCfg.ServerURL cfg) (OktaCfg.AdapterToken cfg) (OktaCfg.OktaBaseURL cfg) (OktaCfg.OktaToken cfg)
    (OktaCfg.FixtureFile cfg) (if poll <? Second then Second else poll)
    (default (OktaCfg.Timeout cfg) (envDuration env "OKTA_TIMEOUT")) (clamp_limit limit) pages threshold
    (default (OktaCfg.MFAFatigueWindow cfg) (envDuration env "OKTA_MFA_FATIGUE_WINDOW"))
    (if positive_float speed then speed else OktaCfg.MaxTravelSpeedKmh cfg) (OktaCfg.StateFile cfg) (OktaCfg.Once cfg).

(** The base URL: explicit, or from the tenant's domain. *)
Definition base_url (base domain : string) : string :=
  if String.eqb base "" && negb (String.eqb domain "") then
    let d := TrimSuffix_slash (TrimSpace domain) in
    if HasPrefix d "http://" || HasPrefix d "https://" then d else "https://" +:+ d
  else base.

Definition set_base (b : string) (cfg : OktaCfg.t) : OktaCfg.t :=
  OktaCfg.mk (OktaCfg.ServerURL cfg) (OktaCfg.AdapterToken cfg) b (OktaCfg.OktaToken cfg) (OktaCfg.FixtureFile cfg)
    (OktaCfg.PollInterval cfg) (OktaCfg.Timeout cfg) (OktaCfg.Limit cfg) (OktaCfg.MaxPages cfg)
    (OktaCfg.MFAFatigueThreshold cfg) (OktaCfg.MFAFatigueWindow cfg) (OktaCfg.MaxTravelSpeedKmh cfg)
    (OktaCfg.StateFile cfg) (OktaCfg.Once cfg).

(** The checks of live mode: the first that fails. *)
Definition live_error (cfg : OktaCfg.t) : option string :=
  let base := OktaCfg.OktaBaseURL cfg in
  if String.eqb (OktaCfg.OktaToken cfg) "" then Some "Okta API token required"
  else if String.eqb base "" then Some "Okta base URL required: set OKTA_BASE_URL or OKTA_DOMAIN"
  else if negb (HasPrefix base "http://") && negb (HasPrefix base "https://")
  then Some "OKTA_BASE_URL must include the scheme (https://)"
  else if HasPrefix base "http://" then
    match url_Parse base with
    | Err e => Some ("OKTA_BASE_URL is not a valid URL: " +:+ e)
    | Ok u => if isLoopbackHost (Url.Hostname u) then None
              else Some "OKTA_BASE_URL must use https:// for a non-loopback tenant: the API token would be sent in plaintext"
    end
  else None.

Definition loadConfig : result OktaCfg.t :=
  match from_file with
  | Err e => Err e
  | Ok (cfg, fileDomain) =>
      let cfg := tune cfg in
      let cfg := set_base (base_url (OktaCfg.OktaBaseURL cfg) (envOr env "OKTA_DOMAIN" fileDomain)) cfg in
      if String.eqb (OktaCfg.FixtureFile cfg) "" then
        match live_error cfg with Some e => Err e | None => Ok cfg end
      else Ok cfg
  end.
End Load.

Definition signalParams (c : OktaCfg.t) : SignalParams.t :=
  SignalParams.mk (OktaCfg.MFAFatigueThreshold c) (OktaCfg.MFAFatigueWindow c) (OktaCfg.MaxTravelSpeedKmh c).

(** The client of live mode ([run] in main.go). *)
Definition live_client (c : OktaCfg.t) : Client.t := NewClient (OktaCfg.OktaBaseURL c) (OktaCfg.OktaToken c).

(** ** Facts *)

(** What every loaded configuration guarantees. *)
Definition bounded (c : OktaCfg.t) : Prop :=
  1 <= OktaCfg.Limit c <= 1000 /\ Second <= OktaCfg.PollInterval c /\ 0 < OktaCfg.MaxPages c /\
  0 < OktaCfg.MFAFatigueThreshold c /\ positive_float (OktaCfg.MaxTravelSpeedKmh c) = true.

(** The token may be sent to this base URL: encrypted, or to this machine. *)
Definition safe_base {N : Net} (base : string) : Prop :=
  HasPrefix base "https://" = true \/
  HasPrefix base "http://" = true /\ exists u, url_Parse base = Ok u /\ isLoopbackHost (Url.Hostname u) = true.

Lemma positive_int_pos v cur : 0 < cur -> 0 < positive_int v cur.
Proof. unfold positive_int. intros. by destruct (Z.ltb_spec 0 v). Qed.

Lemma clamp_limit_range l : 1 <= clamp_limit l <= 1000.
Proof. unfold clamp_limit. destruct (Z.ltb_spec l 1); [by destruct (Z.ltb_spec 1000 1); lia|]. destruct (Z.ltb_spec 1000 l); lia. Qed.

(** Before tuning: the values that must be positive are. *)
Definition seeded (c : OktaCfg.t) : Prop :=
  0 < OktaCfg.MaxPages c /\ 0 < OktaCfg.MFAFatigueThreshold c /\ positive_float (OktaCfg.MaxTravelSpeedKmh c) = true.

Lemma tune_bounded env c : seeded c -> bounded (tune env c).
Proof.
  intros (Hp & Ht & Hs). unfold bounded, tune. cbn. split_and!.
  - apply clamp_limit_range.
  - apply clamp_limit_range.
  - destruct (Z.ltb_spec (default (OktaCfg.PollInterval c) (envDuration env "OKTA_POLL_INTERVAL")) Second); [done|lia].
  - by apply positive_int_pos.
  - by apply positive_int_pos.
  - by destruct (positive_float (envFloat env _ _)) eqn:?.
Qed.

Lemma from_file_seeded os_Stat readFile yaml env c d : from_file os_Stat readFile yaml env = Ok (c, d) -> seeded c.
Proof.
  unfold from_file. destruct (String.eqb _ ""); [intros [= <- _]; by repeat split|].
  destruct (loadConfigFile _ _ _ _) as [fc|]; [|done]. unfold fill.
  destruct (file_duration _ _ "poll_interval" _); [|done]. destruct (file_duration _ _ "mfa_fatigue_window" _); [|done].
  intros [= <- _]. unfold seeded. cbn. split_and!.
  - destruct (unset _ _); cbn; [|done]. by destruct (Z.ltb_spec 0 (oktaFileConfig.MaxPages fc)).
  - by destruct (Z.ltb_spec 0 (oktaFileConfig.MFAFatigueThreshold fc)).
  - by destruct (positive_float (oktaFileConfig.MaxTravelSpeedKmh fc)) eqn:?.
Qed.

Lemma live_error_safe {N : Net} c : live_error c = None -> OktaCfg.OktaToken c <> "" /\ safe_base (OktaCfg.OktaBaseURL c).
Proof.
  unfold live_error, safe_base. destruct (String.eqb_spec (OktaCfg.OktaToken c) ""); [done|].
  destruct (String.eqb _ ""); [done|]. destruct (HasPrefix _ "http://") eqn:Hh; destruct (HasPrefix _ "https://") eqn:Hs; cbn; [by auto| |by auto|done].
  destruct (url_Parse _) as [u|]; [|done]. destruct (isLoopbackHost _) eqn:?; [|done]. intros _. split; [done|]. right. eauto.
Qed.

Lemma loadConfig_ok {N : Net} os_Stat readFile yaml env c : loadConfig os_Stat readFile yaml env = Ok c ->
  bounded c /\ (OktaCfg.FixtureFile c = "" -> OktaCfg.OktaToken c <> "" /\ safe_base (OktaCfg.OktaBaseURL c)).
Proof.
  unfold loadConfig. destruct (from_file _ _ _ _) as [[c0 d]|] eqn:Hf; [|done]. apply from_file_seeded, (tune_bounded env) in Hf.
  cbv zeta. set (c1 := set_base _ _). assert (Hb : bounded c1) by exact Hf. clearbody c1.
  destruct (String.eqb_spec (OktaCfg.FixtureFile c1) ""); [|by intros [= <-]].
  destruct (live_error c1) eqn:He; [done|]. intros [= <-]. split; [done|]. intros _. by apply live_error_safe.
Qed.

(** A trailing slash that is trimmed comes back with the path. *)
Lemma TrimSuffix1_cases s c : s = TrimSuffix1 s c \/ s = TrimSuffix1 s c +:+ String c "".
Proof.
  induction s as [|x s IH]; [by left|]. destruct s as [|y s].
  - cbn [TrimSuffix1]. destruct (Ascii.eqb_spec x c) as [->|]; [by right|by left].
  - change (TrimSuffix1 (String x (String y s)) c) with (String x (TrimSuffix1 (String y s) c)).
    destruct IH as [IH|IH]; [left|right]; rewrite IH at 1; done.
Qed.

Lemma HasPrefix_grow s t p : HasPrefix s p = true -> HasPrefix (s +:+ t) p = true.
Proof.
  unfold HasPrefix. revert s. induction p as [|c p IH]; intros s; [by destruct (s +:+ t)|].
  destruct s as [|x s]; [done|]. change (String x s +:+ t) with (String x (s +:+ t)). cbn [String.prefix].
  destruct (Ascii.ascii_dec c x); [apply IH|done].
Qed.

Lemma base_path_prefix base t p : HasPrefix base p = true -> HasPrefix (TrimSuffix_slash base +:+ String char_slash t) p = true.
Proof.
  intros Hp. destruct (TrimSuffix1_cases base char_slash) as [H|H]; unfold TrimSuffix_slash.
  - rewrite <- H. by apply HasPrefix_grow.
  - assert (Ha : TrimSuffix1 base char_slash +:+ String char_slash t = base +:+ t).
    { rewrite H at 2. by rewrite str_app_assoc. }
    rewrite Ha. by apply HasPrefix_grow.
Qed.

(** ** Properties *)

Definition demo_okta_environ : environ := fun k =>
  if String.eqb k "OIAF_OKTA_TOKEN" then Some demo_token
  else if String.eqb k "OKTA_DOMAIN" then Some "acme.okta.com/"
  else if String.eqb k "OKTA_LIMIT" then Some "5000"
  else if String.eqb k "OKTA_POLL_INTERVAL" then Some "10ms" else None.

Definition no_file {A B} (_ : A) : result B := Err "no such file".

(** C40: every configuration the loader accepts is within bounds, whatever the
    environment and the file say: 1 to 1000 events per page, at least a second
    between polls, a positive page cap, threshold and speed; and in live mode
    there is a token, and a base URL over TLS or on this machine. *)
Theorem loadConfig_bounds {N : Net} os_Stat readFile yaml env c : loadConfig os_Stat readFile yaml env = Ok c ->
  bounded c /\ (OktaCfg.FixtureFile c = "" -> OktaCfg.OktaToken c <> "" /\ safe_base (OktaCfg.OktaBaseURL c)).
Proof. apply loadConfig_ok. Qed.

Lemma loadConfig_bounds_witness : exists c,
  loadConfig (N := demo_net demo_tenant) no_file no_file no_file demo_okta_environ = Ok c /\
  bounded c /\ OktaCfg.Limit c = 1000 /\ OktaCfg.OktaBaseURL c = "https://acme.okta.com".
Proof.
  eexists. split; [vm_compute; reflexivity|]. split; [|split; reflexivity].
  apply (loadConfig_bounds (N := demo_net demo_tenant) no_file no_file no_file demo_okta_environ). vm_compute. reflexivity.
Defined.

(** C23: from configuration to the wire, the API token is not sent in clear text to
    another machine: every request of a fetch by the client of a loaded live
    configuration is over TLS, or is the first page of a base URL on this machine,
    or follows a link pinned to the tenant's host over TLS or on this machine. *)
Theorem live_requests_protected {E : Env} {N : Net} os_Stat readFile yaml env c decode_page p (s : Proc Z) :
  loadConfig os_Stat readFile yaml env = Ok c -> OktaCfg.FixtureFile c = "" -> exists rs,
  reqs (FetchLogs decode_page (live_client c) p s).2 = reqs s ++ rs /\
  Forall (fun r => HasPrefix (HttpRequest.URL r) "https://" = true \/
    (exists u, url_Parse (OktaCfg.OktaBaseURL c) = Ok u /\ isLoopbackHost (Url.Hostname u) = true /\
       HttpRequest.URL r = first_page (live_client c) p) \/
    pinned (live_client c) (HttpRequest.URL r)) rs.
Proof.
  intros Hl Hf. apply loadConfig_ok in Hl as [_ Hl]. destruct (Hl Hf) as [_ Hb].
  destruct (fetch_pages_reqs decode_page (live_client c) (Z.to_nat (page_cap p)) [] (first_page (live_client c) p) s) as (rs & Hq & _ & Hrs).
  exists rs. split; [exact Hq|]. eapply Forall_impl; [exact Hrs|]. intros r (url & -> & [->|Hpin]); [|by right; right].
  destruct Hb as [Hb|[_ (u & Hu & Hloop)]]; [left|right; left; by exists u].
  exact (base_path_prefix (OktaCfg.OktaBaseURL c) _ "https://" Hb).
Qed.

Definition demo_okta_cfg : OktaCfg.t :=
  match loadConfig (N := demo_net demo_tenant) no_file no_file no_file demo_okta_environ with
  | Ok c => c
  | Err _ => defaults demo_okta_environ
  end.

Lemma live_requests_protected_witness : exists rs,
  reqs (FetchLogs (N := demo_net demo_tenant) demo_decode (live_client demo_okta_cfg) demo_fetch demo_proc).2 = rs /\
  length rs = 2%nat.
Proof.
  destruct (live_requests_protected (N := demo_net demo_tenant) no_file no_file no_file demo_okta_environ demo_okta_cfg demo_decode
    demo_fetch demo_proc) as (rs & Hq & _); [vm_compute; reflexivity..|].
  exists rs. split; [exact Hq|]. apply (f_equal length) in Hq. vm_compute in Hq. symmetry. exact Hq.
Defined.

(** ** What modelling showed *)

(** A domain of blanks is taken for a tenant: the token goes to the host "api". *)
Theorem blank_domain_accepted : exists c,
  loadConfig (N := demo_net demo_tenant) no_file no_file no_file
    (fun k => if String.eqb k "OKTA_API_TOKEN" then Some demo_token else if String.eqb k "OKTA_DOMAIN" then Some " " else None) = Ok c /\
  HasPrefix (first_page (live_client c) demo_fetch) "https://api/v1/logs?" = true.
Proof. eexists. split; vm_compute; reflexivity. Qed.

(** An interval the environment spells wrong also drops the file's. *)
Theorem bad_interval_drops_file : exists c,
  let file := oktaFileConfig.mk "tok" "https://acme.okta.com" "" "" "5m" 0 0 0 "" (of_int 0) in
  loadConfig (N := demo_net demo_tenant) (fun _ => Ok tt) (fun _ => Ok "") (fun _ => Ok file)
    (fun k => if String.eqb k "OKTA_CONFIG_FILE" then Some "okta.yaml"
              else if String.eqb k "OKTA_POLL_INTERVAL" then Some "60" else None) = Ok c /\
  OktaCfg.PollInterval c = 30 * Second.
Proof. eexists. split; vm_compute; reflexivity. Qed.
