(* ===== verification/OktaMain.v ===== *)
(** * adapters/okta: the program (main.go)

    [run] puts the parts together: state file, source, sink, poll loop and the
    save on the way out. [main] installs the scrubbing logger, loads the
    configuration and reports how [run] ended. *)

From S2P Require Import Prelude GoStrings GoTime GoFloat GoCrypto GoRunes GoJson GoHttp GoParse GoOs GoJsonRead GoFloatRead Types World GoTimeRead Instances Okta OktaState OktaDecode OktaPoller OktaRestart OktaRedact OktaClient Sdk Pam DcAgent OktaConfig.
From Stdlib Require Import SpecFloat.

(** ** Loggers (logredact.go, main.go) *)

(** A handler: the JSON handler, or the scrubbing one around another. *)
Inductive handler := JSONHandler | redactingHandler (inner : handler) (redact : string -> string).

(** Without a scrubber the handler is returned as it is. A nil [h] is not a value
    of [handler]. *)
Definition newRedactingHandler (h : handler) (redact : option (string -> string)) : handler :=
  match redact with None => h | Some f => redactingHandler h f end.

(** What the JSON handler writes for a record. *)
Fixpoint written (h : handler) (r : LogRecord.t) : LogRecord.t :=
  match h with
  | JSONHandler => r
  | redactingHandler inner redact => written inner (Handle redact r)
  end.

Section Main.
Context {E : Env} {Sys : OS} {N : Net}.

Definition rebindRedaction (h : handler) (token : string) : handler :=
  match h with
  | redactingHandler inner _ => redactingHandler inner (fun s => redactCredential s token)
  | JSONHandler => h
  end.

(** ** Sources and sinks *)

(** The requests of the [n]-th call start at tick [call_tick n]; [json_error] is
    the text of a decoding error. *)
Context (call_tick : nat -> nat) (json_error : string -> string).

Definition auth_text (status : Z) (snippet : string) : string :=
  "okta: authentication failed (check API token and permissions): status " +:+ pretty status +:+ ": " +:+ snippet.

(** The loop tells an authentication failure from other errors, which it only logs. *)
Definition fetch_error_of (e : client_error) : fetch_error :=
  match e with AuthFailed status snippet => ErrAuth (auth_text status snippet) | _ => OtherError "okta" end.

Definition NewLiveSource (c : Client.t) : EventSource := {|
  Fetch := fun n since until limit maxPages =>
    let r := (live_Fetch (decode_events json_error) c since until limit maxPages (mkProc 0 (call_tick n) [])).1 in
    (r.1, fetch_error_of <$> r.2) |}.

Definition NewEvaluateSink (serverURL adapterToken : string) : Sink :=
  EvaluateSink (fun n body => (EvaluateAccess (New serverURL adapterToken) body (mkProc tt (call_tick n) [])).1).

Definition NewSink (cfg : OktaCfg.t) : Sink :=
  if negb (String.eqb (OktaCfg.AdapterToken cfg) "")
  then NewEvaluateSink (OktaCfg.ServerURL cfg) (OktaCfg.AdapterToken cfg) else LogSink.

Definition poll_config (cfg : OktaCfg.t) : PollConfig.t :=
  PollConfig.mk (OktaCfg.Limit cfg) (OktaCfg.MaxPages cfg) (OktaCfg.Once cfg).

(** ** [run] *)

Context (ctx_done : nat -> bool).

(** [Going]: not ended within the cycles looked at. [NilState]: a state with a
    null identity was loaded; its first use ends the process in a panic. *)
Inductive run_result := Ended (err : option string) | Going | NilState (s : StateFile.t).

Definition new_source (cfg : OktaCfg.t) : OM (result EventSource) :=
  if negb (String.eqb (OktaCfg.FixtureFile cfg) "") then
    f ← ocall (fun n d => (NewFixtureSource json_error (OktaCfg.FixtureFile cfg) n d, d));
    match f with Err e => mret (Err e) | Ok events => mret (Ok (fixtureSource events)) end
  else mret (Ok (NewLiveSource (live_client cfg))).

(** The poll loop, and the save that is deferred until it returns. *)
Definition poll_and_save (cfg : OktaCfg.t) (src : EventSource) (cycles : nat) : OM run_result :=
  let save := Save (OktaCfg.StateFile cfg) in
  r ← Run (Src := src) (Snk := NewSink cfg) save ctx_done (signalParams cfg) (poll_config cfg) cycles;
  match r with
  | None => mret Going
  | Some err =>
      _ ← save;
      mret (Ended (match err with Some (ErrAuth e) | Some (OtherError e) => Some e | None => None end))
  end.

Definition run (cfg : OktaCfg.t) (cycles : nat) : OM run_result :=
  l ← ocall (fun n d => (LoadState (OktaCfg.StateFile cfg) n d, d));
  match l with
  | Err e => mret (Ended (Some e))
  | Ok (NilIdentity s) => mret (NilState s)
  | Ok (Loaded s) =>
      _ ← oput (fun _ => s);
      src ← new_source cfg;
      match src with
      | Err e => mret (Ended (Some e))
      | Ok src => poll_and_save cfg src cycles
      end
  end.

(** ** [main] *)

Context (os_Stat : string -> result unit) (readFile : string -> result string).
Context (yaml_Unmarshal : string -> result oktaFileConfig.t) (env : environ).

Definition tokenNow : string := envOr env "OIAF_OKTA_TOKEN" (Getenv env "OKTA_API_TOKEN").

Definition first_logger : handler := newRedactingHandler JSONHandler (Some (fun s => redactCredential s tokenNow)).

Definition logger_for (cfg : OktaCfg.t) : handler :=
  if negb (String.eqb (OktaCfg.OktaToken cfg) tokenNow) then rebindRedaction first_logger (OktaCfg.OktaToken cfg) else first_logger.

Definition error_record (msg e : string) : LogRecord.t := LogRecord.mk msg [("error", VAny e)].

(** The records [main] itself has written, and the exit status once it has ended. *)
Definition main (cycles : nat) : OM (list LogRecord.t * option Z) :=
  match loadConfig os_Stat readFile yaml_Unmarshal env with
  | Err e => mret ([written first_logger (error_record "failed to load config" e)], Some 1)
  | Ok cfg =>
      r ← run cfg cycles;
      match r with
      | Ended None => mret ([], Some 0)
      | Ended (Some e) => mret ([written (logger_for cfg) (error_record "adapter error" e)], Some 1)
      | Going => mret ([], None)
      | NilState _ => mret ([], None)
      end
  end.
End Main.

(** ** Facts: a process that is dead stays dead *)

Section Dead.
Context {E : Env} {Sys : OS}.

Definition stays_dead {A} (m : OM A) : Prop := forall a, halted (disk a) = true -> halted (disk (m a).2) = true.

Lemma dead_ret {A} (x : A) : stays_dead (mret x).
Proof. by intros a Ha. Qed.
Lemma dead_bind {A B} (m : OM A) (k : A -> OM B) : stays_dead m -> (forall x, stays_dead (k x)) -> stays_dead (x ← m; k x).
Proof. intros Hm Hk a Ha. st_unfold. specialize (Hm a Ha). destruct (m a) as [x a1]. by apply Hk. Qed.
Lemma dead_syscall f : stays_dead (ocall (syscall f)).
Proof. intros a Ha. rewrite ocall_run. cbn. unfold syscall. by rewrite Ha. Qed.
Lemma dead_Write tmp data : stays_dead (ocall (Write tmp data)).
Proof. intros a Ha. rewrite ocall_run. cbn. unfold Write. by rewrite Ha. Qed.
Lemma dead_CreateTemp dir p q : stays_dead (ocall (CreateTemp dir p q)).
Proof.
  intros a Ha. rewrite ocall_run. cbn. unfold CreateTemp. destruct (free_name _ _ _ _ _ _ _) as [name|]; [|done].
  unfold syscall. by rewrite Ha.
Qed.

Lemma dead_write_temp path tmp data : stays_dead (write_temp path tmp data).
Proof.
  unfold write_temp, Chmod, Close, Rename.
  repeat (first [apply dead_bind|apply dead_syscall|apply dead_Write|apply dead_ret|intros []|intros ?]).
Qed.

Lemma dead_save_data path data : stays_dead (save_data path data).
Proof.
  unfold save_data, make_dir, Remove. apply dead_bind; [destruct (_ && _); [apply dead_syscall|apply dead_ret]|].
  intros [e|]; [apply dead_ret|]. apply dead_bind; [apply dead_CreateTemp|]. intros [tmp|e]; [|apply dead_ret].
  apply dead_bind; [apply dead_write_temp|]. intros r. apply dead_bind; [apply dead_syscall|]. intros _. apply dead_ret.
Qed.

Lemma dead_Save path : stays_dead (Save path).
Proof.
  intros a Ha. unfold Save, oask, oput, oget, set_st. st_unfold. cbn [st atick sent disk].
  destruct (MarshalIndent_State _) as [data|e]; [|done]. by apply dead_save_data.
Qed.

Context {Src : EventSource} {Snk : Sink} `{!EnvOk E} (params : SignalParams.t) (cfg : PollConfig.t) (path : string).

Lemma dead_PollOnce : stays_dead (PollOnce (Save path) params cfg).
Proof.
  intros a Ha. unfold PollOnce, oget, oask. st_unfold. destruct (Fetch _ _ _ _ _) as [events [e|]]; [done|].
  match goal with |- context [poll_loop params 0 0 events ?b] =>
    pose proof (poll_loop_disk params events 0 0 b) as Hd; destruct (poll_loop params 0 0 events b) as [[p n] a1] end.
  cbn [snd] in Hd. assert (Ha1 : halted (disk a1) = true) by (by rewrite Hd).
  pose proof (dead_Save path a1 Ha1) as Hs. by destruct (Save path a1).
Qed.

Notation lives := (lives params cfg path).

(** [n] poll cycles, each followed by a wait. *)
Definition polling (n : nat) : list step_kind := concat (replicate n [Cycle; Wait]).

(** What the steps of a loop of at most [cycles] poll cycles are: all of them, when
    it is still running; at least one, and a wait after each but possibly the last,
    when it has returned. *)
Definition loop_steps (cycles : nat) (returned : bool) (ks : list step_kind) : Prop :=
  if returned then exists k last, (k < cycles)%nat /\ (last = [] \/ last = [Wait]) /\ ks = polling k ++ Cycle :: last
  else ks = polling cycles.

Lemma loop_steps_next cycles returned ks : loop_steps cycles returned ks -> loop_steps (S cycles) returned (Cycle :: Wait :: ks).
Proof.
  unfold loop_steps. destruct returned; [|by intros ->]. intros (k & l & Hk & Hl & ->). exists (S k), l. split_and!; [lia|done|done].
Qed.

Lemma loop_steps_last cycles last : last = [] \/ last = [Wait] -> loop_steps (S cycles) true (Cycle :: last).
Proof. intros Hl. exists 0%nat, last. split_and!; [lia|done|done]. Qed.

Lemma Run_lives ctx_done cycles : forall (a : Adapter), let r := Run (Save path) ctx_done params cfg cycles a in
  (halted (disk a) = true -> halted (disk r.2) = true) /\
  (halted (disk r.2) = false -> exists ks, loop_steps cycles (match r.1 with Some _ => true | None => false end) ks /\ lives ks (true, a) (true, r.2)).
Proof.
  induction cycles as [|n IH]; intros a; cbv zeta; cbn [Run]; [split; [done|intros _; exists []; split; [done|constructor]]|]. st_unfold.
  pose proof (dead_PollOnce a) as Hdead. pose proof (life_cycle params cfg path a) as Hstep.
  destruct (PollOnce (Save path) params cfg a) as [[[p e] err] a1]. cbn [fst snd] in *.
  assert (Hcycle : forall ks a2, halted (disk a1) = false -> lives ks (true, a1) (true, a2) -> lives (Cycle :: ks) (true, a) (true, a2)).
  { intros ks a2 H1 Hks. econstructor; [|exact Hks]. apply Hstep. destruct (halted (disk a)); [by rewrite Hdead in H1|done]. }
  assert (Hstop : forall a2 l, st a2 = st a1 -> sent a2 = sent a1 -> disk a2 = disk a1 -> (l = [] /\ a2 = a1 \/ l = [Wait]) ->
    (halted (disk a) = true -> halted (disk a2) = true) /\
    (halted (disk a2) = false -> exists ks, loop_steps (S n) true ks /\ lives ks (true, a) (true, a2))).
  { intros a2 l Hst Hsent Hdisk Hl. rewrite Hdisk. split; [done|]. intros H1. exists (Cycle :: l). split; [apply loop_steps_last; destruct Hl as [[-> _]| ->]; auto|].
    apply Hcycle; [done|]. destruct Hl as [[-> ->]| ->]; [constructor|].
    replace a2 with (mkAdapter (st a1) (atick a2) (sent a1) (disk a1)) by (destruct a2; cbn in *; by subst). apply lives_one, life_wait. }
  assert (Hnext : let r := (if PollConfig.Once cfg then mret (Some None)
      else stop ← oask ctx_done; if (stop : bool) then mret (Some None) else Run (Save path) ctx_done params cfg n) a1 in
    (halted (disk a) = true -> halted (disk r.2) = true) /\
    (halted (disk r.2) = false -> exists ks, loop_steps (S n) (match r.1 with Some _ => true | None => false end) ks /\ lives ks (true, a) (true, r.2))).
  { cbv zeta. destruct (PollConfig.Once cfg); [apply (Hstop a1 []); auto|]. unfold oask. st_unfold.
    set (a2 := mkAdapter (st a1) (S (atick a1)) (sent a1) (disk a1)). destruct (IH a2) as [IH1 IH2]. cbv zeta in *.
    destruct (ctx_done (atick a1)); [apply (Hstop a2 [Wait]); auto|].
    split; [intros H1; by apply IH1, Hdead|]. intros H1. destruct (IH2 H1) as (ks & Hks & Hl). exists (Cycle :: Wait :: ks).
    split; [by apply loop_steps_next|]. apply Hcycle.
    - destruct (halted (disk a1)) eqn:Hh; [|done]. by rewrite (IH1 Hh) in H1.
    - econstructor; [apply life_wait|exact Hl]. }
  destruct err as [[e0|e0]|]; [apply (Hstop a1 []); auto|exact Hnext|exact Hnext].
Qed.
End Dead.

(** ** Facts: the live source *)

Section LiveFacts.
Context {E : Env} {N : Net} (decode_page : string -> result (list LogEvent.t)) (c : Client.t).
Context (P : LogEvent.t -> Prop) (Hpage : forall body evs, decode_page body = Ok evs -> Forall P evs).

Lemma doFetchPage_all url (s : Proc Z) evs next : (doFetchPage decode_page c url s).1 = inl (evs, next) -> Forall P evs.
Proof.
  unfold doFetchPage. destruct (negb _); [done|]. st_unfold. destruct (send (page_request c url) s) as [[resp|e] s1]; [|done].
  destruct (_ =? 200); [|repeat (destruct (_ : bool); try done); by destruct (retryAfter resp s1)].
  destruct (decode_page _) as [l|e] eqn:Hd; [|done]. intros [= <- _]. by eapply Hpage.
Qed.

Lemma fetch_attempts_all left : forall attempt err url (s : Proc Z) evs next,
  (fetch_attempts decode_page c left attempt err url s).1 = inl (evs, next) -> Forall P evs.
Proof.
  induction left as [|left IH]; intros attempt err url s evs next; cbn [fetch_attempts]; [done|]. st_unfold.
  destruct (wait_turn c attempt s) as [[e|] s1]; [done|]. pose proof (doFetchPage_all url s1) as Hp.
  destruct (doFetchPage decode_page c url s1) as [[[l nx]|[w e]] s2]; [intros [= <- <-]; by eapply Hp|].
  destruct (isAuth e); [done|]. unfold pask, pput. st_unfold. destruct (ctx_Err _); [done|]. destruct (isRetryable e); [apply IH|done].
Qed.

Lemma fetch_pages_all left : forall out url (s : Proc Z), Forall P out -> Forall P (fetch_pages decode_page c left out url s).1.1.
Proof.
  induction left as [|left IH]; intros out url s Hout; cbn [fetch_pages]; destruct (String.eqb url ""); try done. st_unfold.
  pose proof (fetch_attempts_all maxAttempts 0 RateLimited url s) as Hp. fold (fetchPage decode_page c url) in Hp.
  destruct (fetchPage decode_page c url s) as [[[l nx]|e] s1]; [|done]. specialize (Hp l nx eq_refl).
  assert (Hl : Forall P (out ++ l)) by (by apply Forall_app). destruct (String.eqb nx ""); [done|].
  destruct (validateNextURL c nx); [by apply IH|done].
Qed.

Lemma live_Fetch_all since until limit pages (s : Proc Z) : Forall P (live_Fetch decode_page c since until limit pages s).1.1.
Proof.
  unfold live_Fetch. st_unfold. pose proof (fetch_pages_all (Z.to_nat (page_cap (FetchLogsParams.mk since until limit pages))) []
    (first_page c (FetchLogsParams.mk since until limit pages)) s (Forall_nil_2 _)) as Hp. unfold FetchLogs.
  destruct (fetch_pages _ _ _ _ _ s) as [[l [e|]] s1]; [|done]. by destruct e.
Qed.
End LiveFacts.

(** ** Facts: what the live source is given *)

Section LiveWindow.
Context {E : Env} {N : Net} (call_tick : nat -> nat) (json_error : string -> string) (c : Client.t).
Notation source := (NewLiveSource call_tick json_error c).

(** An event a query from [since] on is for. *)
Definition after (since : option Time) (ev : LogEvent.t) : Prop :=
  match since with None => True | Some t => After (LogEvent.Published ev) t = true end.

Lemma after_window cursor ev : after (asked_since cursor) ev <-> live_window cursor ev = true.
Proof. unfold after, asked_since, live_window. by destruct (IsZero cursor). Qed.

Lemma live_Fetch_paged n cursor limit maxPages pages : 1 <= limit <= 1000 -> 0 < maxPages ->
  paged (decode_events json_error) c (logs_url c limit (asked_since cursor)) pages ->
  @Fetch source n cursor zeroTime limit maxPages = (concat (take (Z.to_nat maxPages) pages), None).
Proof.
  intros Hl Hm Hp. rewrite <- (first_page_url c cursor limit maxPages Hl) in Hp. cbn [Fetch NewLiveSource]. unfold live_Fetch. st_unfold.
  set (p := FetchLogsParams.mk cursor zeroTime limit maxPages) in *.
  assert (Hcap : page_cap p = maxPages) by (unfold page_cap, p; cbn; destruct (Z.leb_spec maxPages 0); [lia|done]).
  pose proof (fetch_pages_paged (decode_events json_error) c _ _ Hp (Z.to_nat (page_cap p)) [] (mkProc 0 (call_tick n) [])) as Hf.
  fold (FetchLogs (decode_events json_error) c p) in Hf. destruct (FetchLogs _ _ p _) as [[evs err] s1]. cbn [fst] in Hf. injection Hf as -> ->.
  rewrite Hcap. by destruct (_ <? _)%nat.
Qed.

Lemma live_Fetch_asks cursor limit maxPages (s : Proc Z) : 1 <= limit <= 1000 ->
  http_NewRequest (logs_url c limit (asked_since cursor)) = true -> logs_url c limit (asked_since cursor) <> "" ->
  exists rs, reqs (live_Fetch (decode_events json_error) c cursor zeroTime limit maxPages s).2
    = reqs s ++ page_request c (logs_url c limit (asked_since cursor)) :: rs.
Proof.
  intros Hl Hn Hne. rewrite <- (first_page_url c cursor limit maxPages Hl) in *. unfold live_Fetch. st_unfold.
  destruct (FetchLogs_asks (decode_events json_error) c _ s Hn Hne) as [rs Hrs]. exists rs.
  destruct (FetchLogs _ _ _ s) as [[evs [[]|]] s1]; exact Hrs.
Qed.

Lemma logs_url_ne limit since : logs_url c limit since <> "".
Proof.
  unfold logs_url. intros H. apply (f_equal String.length) in H. rewrite !str_length_app in H. cbn in H. lia.
Qed.

(** A tenant that pages its log to any query makes the live source one that serves
    that log. *)
Lemma live_serves_log cfg log : 1 <= PollConfig.Limit cfg <= 1000 -> 0 < PollConfig.MaxPages cfg ->
  Forall wire_ok log -> StronglySorted published_le log -> NoDup (LogEvent.UUID <$> log) ->
  (forall cursor, exists pages, paged (decode_events json_error) c (logs_url c (PollConfig.Limit cfg) (asked_since cursor)) pages /\
     concat pages = base.filter (fun ev => live_window cursor ev = true) log /\ (hd [] pages = [] -> concat pages = [])) ->
  serves_log (Src := source) cfg log (fun _ => length log).
Proof.
  intros Hl Hm Hw Hs Hn Hp. split_and!; [done..|]. intros n cursor evs Hf. destruct (Hp cursor) as (pages & Hpg & Heq & Hhd).
  rewrite (live_Fetch_paged n cursor _ _ pages Hl Hm Hpg) in Hf. injection Hf as <-. rewrite firstn_all, <- Heq.
  exists (concat (drop (Z.to_nat (PollConfig.MaxPages cfg)) pages)). split; [by rewrite <- concat_app, take_drop|].
  intros Hnil. assert (Hall : concat pages = []).
  { apply Hhd. destruct pages as [|p pages]; [done|]. destruct (Z.to_nat (PollConfig.MaxPages cfg)) eqn:Hz; [lia|]. cbn in Hnil |- *.
    by apply app_eq_nil in Hnil as [? _]. }
  rewrite <- (take_drop (Z.to_nat (PollConfig.MaxPages cfg)) pages), concat_app in Hall. by apply app_eq_nil in Hall as [_ ?].
Qed.
End LiveWindow.

(** ** Properties *)

(** C18: polling the live source loses nothing. When the tenant pages, oldest first,
    the events from after a millisecond before the cursor on, a cycle delivers, in
    order, all signals of a first part of them; it stops before the last one only
    because the sink refused a signal of the next event, or because the cap on pages
    was reached; and the query the next cycle begins with asks for the log from after
    a point in time that every event not delivered comes after. *)
Theorem poll_no_gap {E : Env} `{!EnvOk E} {N : Net} {Snk : Sink} call_tick json_error c stateFn `{!StateFn stateFn} params cfg pages (a : Adapter) :
  state_ok (st a) -> 1 <= PollConfig.Limit cfg <= 1000 -> 0 < PollConfig.MaxPages cfg ->
  paged (decode_events json_error) c (logs_url c (PollConfig.Limit cfg) (asked_since (State.Cursor (st a)))) pages ->
  StronglySorted published_le (concat pages) ->
  (forall ev, ev ∈ concat pages -> after (asked_since (State.Cursor (st a))) ev) ->
  let a' := (PollOnce (Src := NewLiveSource call_tick json_error c) stateFn params cfg a).2 in
  exists done_ rest new part s1 since, concat pages = done_ ++ rest /\ sent a' = sent a ++ new ++ part /\
    delivers params done_ (st a) new s1 /\
    match rest with
    | [] => part = []
    | ev :: _ =>
        (exists a1 a2 sig tail m e, Detect params ev a1 = (part ++ sig :: tail, a2) /\ sink_Emit m (st a2) sig = Err e) \/
        (part = [] /\ (Z.to_nat (PollConfig.MaxPages cfg) < length pages)%nat /\ done_ = concat (take (Z.to_nat (PollConfig.MaxPages cfg)) pages))
    end /\
    (forall ev, ev ∈ rest -> after since ev) /\
    (http_NewRequest (logs_url c (PollConfig.Limit cfg) since) = true -> forall s, exists rs,
       reqs (live_Fetch (decode_events json_error) c (State.Cursor (st a')) zeroTime (PollConfig.Limit cfg) (PollConfig.MaxPages cfg) s).2
       = reqs s ++ page_request c (logs_url c (PollConfig.Limit cfg) since) :: rs).
Proof.
  intros Hok Hl Hm Hp Hs Hin. cbv zeta. set (cap := Z.to_nat (PollConfig.MaxPages cfg)).
  pose proof (live_Fetch_paged call_tick json_error c (atick a) _ _ _ _ Hl Hm Hp) as Hf. fold cap in Hf.
  rewrite <- (take_drop cap pages), concat_app in Hs. setoid_rewrite after_window in Hin. rewrite <- (take_drop cap pages), concat_app in Hin.
  destruct (cycle_run (Src := NewLiveSource call_tick json_error c) stateFn params cfg _ (concat (drop cap pages)) a Hok Hf Hs Hin)
    as (dn & rest & new & part & s1 & Heq & Hsent & Hd & Hwin & Hstop). cbv zeta in *.
  exists dn, (rest ++ concat (drop cap pages)), new, part, s1, (asked_since (State.Cursor (st (PollOnce (Src := NewLiveSource call_tick json_error c) stateFn params cfg a).2))).
  split_and!; [|done|done| | |].
  - rewrite app_assoc, <- Heq, <- concat_app. by rewrite take_drop.
  - destruct rest as [|ev rest]; [|by left]. rewrite app_nil_r in Heq. subst dn part. cbn [app].
    destruct (concat (drop cap pages)) as [|ev l] eqn:Hbeyond; [done|]. right. split_and!; [done| |done].
    destruct (decide (cap < length pages)%nat) as [|Hge]; [done|]. by rewrite drop_ge in Hbeyond by lia.
  - intros ev Hev. apply after_window. by apply Hwin.
  - intros Hn s. apply live_Fetch_asks; [done|done|]. apply logs_url_ne.
Qed.

(** C32: the program is the process of the restart theorem. In live mode, from a
    state file that loads, what [run] does within a number of poll cycles is, step
    by step: a start; poll cycles with a wait after each; and, if it returns, the
    save of a clean exit, after at least one cycle. Still running, it has made all
    those cycles; it never leaves otherwise. So [run] inherits what holds of such
    lives. *)
Theorem run_refines {E : Env} `{!EnvOk E} {Sys : OS} {N : Net} call_tick json_error ctx_done cfg cycles s (a : Adapter) :
  let src := NewLiveSource call_tick json_error (live_client cfg) in
  let snk := NewSink call_tick cfg in
  let r := run call_tick json_error ctx_done cfg cycles a in
  OktaCfg.FixtureFile cfg = "" -> halted (disk a) = false -> halted (disk r.2) = false ->
  LoadState (OktaCfg.StateFile cfg) (atick a) (disk a) = Ok (Loaded s) ->
  exists ks, match r.1 with
    | Going => loop_steps cycles false ks /\
        lives (Src := src) (Snk := snk) (signalParams cfg) (poll_config cfg) (OktaCfg.StateFile cfg) (Start :: ks) (false, a) (true, r.2)
    | Ended _ => loop_steps cycles true ks /\
        lives (Src := src) (Snk := snk) (signalParams cfg) (poll_config cfg) (OktaCfg.StateFile cfg) (Start :: ks ++ [Exit]) (false, a) (false, r.2)
    | NilState _ => False
    end.
Proof.
  intros src snk r Hfix Hh Hend Hload. subst r. unfold run in *. revert Hend. st_unfold. rewrite ocall_run. cbn [fst snd].
  rewrite Hload. unfold oput, set_st. cbn [st atick sent disk]. unfold new_source. rewrite Hfix. st_unfold. cbn [negb String.eqb].
  set (a1 := mkAdapter s (S (atick a)) (sent a) (disk a)).
  assert (Hstart : life (Src := src) (Snk := snk) (signalParams cfg) (poll_config cfg) (OktaCfg.StateFile cfg) Start (false, a) (true, a1)).
  { unfold a1. replace (disk a) with (mkDisk (files (disk a)) false) by (destruct (disk a); cbn in *; by subst). by apply life_start. }
  unfold poll_and_save. st_unfold. fold src snk.
  destruct (Run_lives (Src := src) (Snk := snk) (signalParams cfg) (poll_config cfg) (OktaCfg.StateFile cfg) ctx_done cycles a1) as [Hdead Hlives].
  cbv zeta in *. destruct (Run (Save (OktaCfg.StateFile cfg)) ctx_done (signalParams cfg) (poll_config cfg) cycles a1) as [[err|] a2]; cbn [fst snd] in *.
  - pose proof (dead_Save (OktaCfg.StateFile cfg) a2) as Hds.
    pose proof (life_exit (Src := src) (Snk := snk) (signalParams cfg) (poll_config cfg) (OktaCfg.StateFile cfg) a2) as Hexit.
    destruct (Save (OktaCfg.StateFile cfg) a2) as [x a3]. cbn [snd fst] in *. intros Hend.
    assert (H2 : halted (disk a2) = false) by (destruct (halted (disk a2)); [by rewrite Hds in Hend|done]).
    destruct (Hlives H2) as (ks & Hks & Hl). exists ks. split; [done|]. econstructor; [exact Hstart|]. eapply lives_app; [exact Hl|].
    by apply lives_one, Hexit.
  - intros Hend. destruct (Hlives Hend) as (ks & Hks & Hl). exists ks. split; [done|]. econstructor; [exact Hstart|exact Hl].
Qed.

(** A tenant whose log is one page. *)
Definition page_net : Net := {|
  http_Do := fun _ _ => Ok (HttpResponse.mk 200 (fun _ => "") demo_page);
  url_Parse := demo_url_Parse; net_ParseIP := fun _ => None; http_ParseTime := fun _ => None; ctx_Err := fun _ => None;
  rand_Float64 := fun _ => of_int 0; os_ReadFile := fun _ _ => Err "no such file"; tty_ReadLine := fun _ _ => None;
  stdin_Scan := fun _ => Ok None |}.

Definition demo_run_cfg : OktaCfg.t :=
  OktaCfg.mk "http://core" "" demo_tenant demo_token "" (30 * Second) (10 * Second) 100 5 3 (10 * Minute) (of_int 900) demo_path true.

Definition demo_run : run_result * Adapter :=
  run (Sys := calm) (N := page_net) (fun n => n) (fun _ => "syntax") (fun _ => false) demo_run_cfg 1 demo_adapter.

Example demo_run_ends : demo_run.1 = Ended None /\ State.RecentUUIDs (st demo_run.2) = ["e1"] /\ State.LastUUID (st demo_run.2) = "e1" /\
  halted (disk demo_run.2) = false.
Proof. vm_compute. done. Qed.

Lemma run_refines_witness : exists ks, loop_steps 1 true ks /\
  lives (Sys := calm) (Src := NewLiveSource (N := page_net) (fun n => n) (fun _ => "syntax") (live_client demo_run_cfg))
    (Snk := NewSink (N := page_net) (fun n => n) demo_run_cfg)
    (signalParams demo_run_cfg) (poll_config demo_run_cfg) demo_path (Start :: ks ++ [Exit]) (false, demo_adapter) (false, demo_run.2).
Proof.
  destruct (run_refines (Sys := calm) (N := page_net) (fun n => n) (fun _ => "syntax") (fun _ => false) demo_run_cfg 1 NewState demo_adapter)
    as (ks & H).
  - reflexivity.
  - reflexivity.
  - vm_compute. reflexivity.
  - vm_compute. reflexivity.
  - change (run _ _ _ _ _ _) with demo_run in H. replace demo_run.1 with (Ended None) in H by (symmetry; exact (proj1 demo_run_ends)).
    exists ks. exact H.
Defined.

(** A tenant with two failed logins, on one page. *)
Definition poll_page : string :=
  q "[{'uuid':'e1','published':'2026-01-05T10:00:00Z','eventType':'user.session.start','outcome':{'result':'FAILURE'},'actor':{'alternateId':'bob'}}," +:+
  q " {'uuid':'e2','published':'2026-01-05T10:00:01Z','eventType':'user.session.start','outcome':{'result':'FAILURE'},'actor':{'alternateId':'eve'}}]".

Definition poll_net : Net := {|
  http_Do := fun _ _ => Ok (HttpResponse.mk 200 (fun _ => "") poll_page);
  url_Parse := demo_url_Parse; net_ParseIP := fun _ => None; http_ParseTime := fun _ => None; ctx_Err := fun _ => None;
  rand_Float64 := fun _ => of_int 0; os_ReadFile := fun _ _ => Err "no such file"; tty_ReadLine := fun _ _ => None;
  stdin_Scan := fun _ => Ok None |}.

(** Only the first login is accepted. *)
Definition eve_refused : Sink := {| sink_Emit := fun _ _ sig => if String.eqb (Signal.Login sig) "eve" then Err "503" else Ok tt |}.

Lemma poll_page_events : exists evs, decode_events (fun _ => "syntax") poll_page = Ok evs /\ LogEvent.UUID <$> evs = ["e1"; "e2"] /\
  StronglySorted published_le evs.
Proof. eexists. split; [vm_compute; reflexivity|]. split; [reflexivity|]. repeat constructor; vm_compute; reflexivity. Qed.

Lemma poll_no_gap_witness : exists evs done_ rest since, decode_events (fun _ => "syntax") poll_page = Ok evs /\
  LogEvent.UUID <$> evs = ["e1"; "e2"] /\ evs = done_ ++ rest /\ forall ev, ev ∈ rest -> after since ev.
Proof.
  destruct poll_page_events as (evs & Hd & Hu & Hs).
  destruct (poll_no_gap (N := poll_net) (Snk := eve_refused) (fun n => n) (fun _ => "syntax") (live_client demo_run_cfg) demo_save demo_params demo_poll_cfg
    [evs] demo_adapter) as (dn & rest & new & part & s1 & since & Heq & _ & _ & _ & Hrest & _).
  - exact NewState_ok.
  - vm_compute. split; discriminate.
  - vm_compute. reflexivity.
  - apply (paged_last _ _ _ _ []); [vm_compute; discriminate| |reflexivity]. split; [vm_compute; reflexivity|]. split; [constructor|].
    intros n r _ _ _. eexists. split; [reflexivity|]. split_and!; [reflexivity|vm_compute; discriminate|exact Hd|reflexivity].
  - cbn [concat]. rewrite app_nil_r. exact Hs.
  - intros ev _. exact I.
  - exists evs, dn, rest, since. cbn [concat] in Heq. rewrite app_nil_r in Heq. split; [exact Hd|]. split; [exact Hu|]. split; [exact Heq|exact Hrest].
Defined.

(** the events of the live source are fit to be remembered: whatever the
    tenant's pages say, what they decode to has texts in UTF-8, times that print
    and finite coordinates, so a state made of them can be saved. *)
Theorem live_events_fit {E : Env} {N : Net} call_tick json_error c n since until limit pages :
  parses_printable ->
  Forall wire_ok (@Fetch (NewLiveSource call_tick json_error c) n since until limit pages).1.
Proof.
  intros Hp. cbn [Fetch NewLiveSource fst]. apply (live_Fetch_all (decode_events json_error) c wire_ok).
  intros body evs. by apply decode_events_wire.
Qed.

(** once the configuration is loaded, whatever is logged is scrubbed of the
    token in use, also when it came from the file: no text of a written record
    shows more of the token than all but twelve of its characters allow. *)
Theorem logs_scrubbed {E : Env} env cfg r t w : okta_token (OktaCfg.OktaToken cfg) ->
  let r' := written (logger_for env cfg) r in
  (t = LogRecord.Message r' \/ exists k v, (k, v) ∈ LogRecord.Attrs r' /\ shows v t) ->
  exposed (OktaCfg.OktaToken cfg) t w -> (length w + 12 <= String.length (OktaCfg.OktaToken cfg))%nat.
Proof.
  intros Htok. cbv zeta. assert (Hw : written (logger_for env cfg) r = Handle (fun s => redactCredential s (OktaCfg.OktaToken cfg)) r).
  { unfold logger_for. destruct (String.eqb_spec (OktaCfg.OktaToken cfg) (tokenNow env)) as [->|]; done. }
  rewrite Hw. intros [s ->]%Handle_texts [Hx Hf]. destruct (redactCredential_out _ Htok s) as (l & Heq & [Hv Hd] & _).
  rewrite Heq, to_of_runes in Hx by done. by apply Hd.
Qed.

(** ** What modelling showed *)

(** Until the configuration is loaded the scrubber knows the environment's token
    only: an error about the file that quotes the file's token is logged as is. *)
Theorem config_error_unscrubbed : exists rec,
  (main (N := page_net) (Sys := calm) (fun n => n) (fun _ => "") (fun _ => true) (fun _ => Ok tt) (fun _ => Ok "")
     (fun _ => Err ("yaml: line 2: did not find expected key in " +:+ demo_token))
     (fun k => if String.eqb k "OKTA_CONFIG_FILE" then Some "okta.yaml" else None) 1 demo_adapter).1 = ([rec], Some 1) /\
  exists k text, (k, VString text) ∈ LogRecord.Attrs rec /\ Contains text demo_token = true.
Proof.
  eexists. split; [vm_compute; reflexivity|]. eexists "error", _. split; [apply list_elem_of_singleton; reflexivity|].
  vm_compute. reflexivity.
Qed.

(** A state file with a null identity loads, and the first use of that identity
    dereferences a nil pointer. *)
Theorem null_identity_loads :
  let d := mkDisk {[resolve demo_path := mkFile (q "{'identities':{'bob':null}}") 384]} false in
  exists s, LoadState (Sys := calm) demo_path 0 d = Ok (NilIdentity s) /\ StateFile.Identities s !! "bob" = Some None.
Proof. eexists. split; vm_compute; reflexivity. Qed.
