(* ===== verification/Server.v ===== *)
(** * core/internal/middleware and core/internal/server: the HTTP stack

    middleware.go, server.go and the second set of middleware in server/. A
    handler runs over a [ResponseWriter] ([RW]: headers that may still change, the
    status and headers once sent, the body) and the process's world; it returns
    or panics. [net/http]'s [ServeMux] is a table of method patterns. Decoding a
    request body and encoding a payload are answers of [encoding/json]
    ([decodeBody], [encode]). *)

From S2P Require Import Prelude GoStrings GoTime GoFloat GoCrypto GoJson GoHttp Types World Instances Storage AuditLog Bus Auth Mfa Orchestrator Discovery Risk Policy Inventory Api Config.

(** ** Requests and responses on the wire *)

Notation headers := (gmap string string).

(** The bytes of a body, and whether reading past them is an error (not the end). *)
Module Reader.
Record t := mk { data : string; broken : bool }.
End Reader.

(** [Path]: the decoded segments; [Trailing]: a slash at the end. The path is a
    clean one: the mux redirects any other before it looks for a pattern. *)
Module HReq.
Record t := mk {
  Method : string; Path : list string; Trailing : bool; RequestID : string; Authorization : string;
  Query : string -> string; Body : Reader.t
}.
Definition set_Body (b : Reader.t) (r : t) : t :=
  mk (Method r) (Path r) (Trailing r) (RequestID r) (Authorization r) (Query r) b.
End HReq.

Module RW.
Record t := mk { header : headers; sent : option (Z * headers); body : string; status : Z }.
End RW.

Module LogLine.
Record t := mk { Method : string; Path : list string; Status : option Z; RequestID : string }.
End LogLine.

(** [http.ResponseWriter] values: the connection's own, or a [statusRecorder]
    around it, which also notes the status ([RW.status]). *)
Inductive writer := Conn | statusRecorder.

Record Srv {L : Lib} := mkSrv { rw : RW.t; world : World L; logs : list LogLine.t }.
Arguments Srv : clear implicits.
Arguments mkSrv {L} _ _ _.

Inductive outcome (A : Type) := Returned (a : A) | Panicked (msg : string).
Arguments Returned {A} a.
Arguments Panicked {A} msg.

Definition HM (L : Lib) (A : Type) : Type := Srv L -> outcome A * Srv L.

#[global] Instance hm_ret {L} : MRet (HM L) := fun A a s => (Returned a, s).
#[global] Instance hm_bind {L} : MBind (HM L) := fun A B f m s =>
  match m s with (Returned a, s') => f a s' | (Panicked e, s') => (Panicked e, s') end.

Definition handlerFunc (L : Lib) : Type := writer -> HReq.t -> HM L unit.

Section Primitives.
Context {L : Lib}.

Definition on_rw (f : RW.t -> RW.t) : HM L unit := fun s => (Returned tt, mkSrv (f (rw s)) (world s) (logs s)).
Definition lift {A} (m : M (L := L) A) : HM L A := fun s => let '(a, w) := m (world s) in (Returned a, mkSrv (rw s) w (logs s)).

Definition get_rw : HM L RW.t := fun s => (Returned (rw s), s).

(** [w.Header().Set(k, v)]. *)
Definition set_header (k v : string) : HM L unit :=
  on_rw (fun r => RW.mk (<[k := v]> (RW.header r)) (RW.sent r) (RW.body r) (RW.status r)).

(** The status and headers leave once; a later call has no effect on the wire. *)
Definition send_status (code : Z) (r : RW.t) : RW.t :=
  RW.mk (RW.header r) (Some (default (code, RW.header r) (RW.sent r))) (RW.body r) (RW.status r).

Definition write_header (w : writer) (code : Z) : HM L unit :=
  on_rw (fun r => let r := match w with
                           | Conn => r
                           | statusRecorder => RW.mk (RW.header r) (RW.sent r) (RW.body r) code
                           end in send_status code r).

Definition write (data : string) : HM L unit :=
  on_rw (fun r => let r := send_status StatusOK r in
                  RW.mk (RW.header r) (RW.sent r) (RW.body r +:+ data) (RW.status r)).

(** [http.Error]. *)
Definition http_Error (w : writer) (msg : string) (code : Z) : HM L unit :=
  _ ← set_header "Content-Type" "text/plain; charset=utf-8";
  _ ← set_header "X-Content-Type-Options" "nosniff";
  _ ← write_header w code;
  write (msg +:+ of_bytes [10]).
End Primitives.

(** ** Middleware (package middleware) *)

Definition internal_error : string :=
  "{" +:+ dquote +:+ "error" +:+ dquote +:+ ":" +:+ dquote +:+ "internal server error" +:+ dquote +:+ "}".

(** [http.MaxBytesReader]. *)
Definition MaxBytesReader (n : Z) (b : Reader.t) : Reader.t :=
  if Z.of_nat (String.length (Reader.data b)) <=? n then b else Reader.mk (limit_bytes n (Reader.data b)) true.

Section Middleware.
Context {L : Lib} {E : Env}.

Definition RequestID (next : handlerFunc L) : handlerFunc L := fun w r =>
  id ← (if String.eqb (HReq.RequestID r) ""
        then buf ← lift (ask (fun n => rand_Read n 16));
             mret (EncodeToString (match buf with Ok b => b | Err _ => replicate 16 0 end))
        else mret (HReq.RequestID r));
  _ ← set_header "X-Request-ID" id;
  next w r.

Definition SecurityHeaders (next : handlerFunc L) : handlerFunc L := fun w r =>
  _ ← set_header "X-Content-Type-Options" "nosniff";
  _ ← set_header "X-Frame-Options" "DENY";
  _ ← set_header "X-XSS-Protection" "1; mode=block";
  _ ← set_header "Referrer-Policy" "strict-origin-when-cross-origin";
  next w r.

Definition Recover (next : handlerFunc L) : handlerFunc L := fun w r s =>
  match next w r s with
  | (Panicked _, s') => http_Error w internal_error StatusInternalServerError s'
  | done_ => done_
  end.

Definition BodyLimit (maxBytes : Z) (next : handlerFunc L) : handlerFunc L := fun w r =>
  next w (HReq.set_Body (MaxBytesReader maxBytes (HReq.Body r)) r).

(** [RequestLogger]: the line is not written when [next] panics. *)
Definition log_request (r : HReq.t) (status : option Z) : HM L unit := fun s =>
  (Returned tt, mkSrv (rw s) (world s)
     (logs s ++ [LogLine.mk (HReq.Method r) (HReq.Path r) status (default "" (RW.header (rw s) !! "X-Request-ID"))])).

Definition RequestLogger (next : handlerFunc L) : handlerFunc L := fun w r =>
  _ ← on_rw (fun x => RW.mk (RW.header x) (RW.sent x) (RW.body x) StatusOK);
  _ ← next statusRecorder r;
  x ← get_rw;
  log_request r (Some (RW.status x)).
End Middleware.

(** ** The second set of middleware (server/middleware.go), used by no one *)
Module Spare.
Section Middleware.
Context {L : Lib}.

Definition RequestID (next : handlerFunc L) : handlerFunc L := fun w r =>
  id ← (if String.eqb (HReq.RequestID r) "" then lift NewID else mret (HReq.RequestID r));
  _ ← set_header "X-Request-ID" id;
  next w r.

Definition SecurityHeaders (next : handlerFunc L) : handlerFunc L := fun w r =>
  _ ← set_header "X-Content-Type-Options" "nosniff";
  _ ← set_header "X-Frame-Options" "DENY";
  _ ← set_header "Referrer-Policy" "no-referrer";
  _ ← set_header "Content-Security-Policy"
        "default-src 'self'; script-src 'self'; style-src 'self'; img-src 'self' data:; connect-src 'self'";
  next w r.

Definition Recover (next : handlerFunc L) : handlerFunc L := Recover next.
Definition BodyLimit (maxBytes : Z) (next : handlerFunc L) : handlerFunc L := BodyLimit maxBytes next.

Definition RequestLogger (next : handlerFunc L) : handlerFunc L := fun w r =>
  _ ← next w r;
  log_request r None.
End Middleware.
End Spare.

(** ** The mux *)

Inductive seg := Lit (s : string) | Wild (name : string).
(** [Exact segs], or ["/"], which matches every path. *)
Inductive pattern := Exact (segs : list seg) | Root.

Fixpoint match_segs (p : list seg) (path : list string) : option (list (string * string)) :=
  match p, path with
  | [], [] => Some []
  | Lit s :: p', x :: path' => if String.eqb s x then match_segs p' path' else None
  | Wild n :: p', x :: path' => cons (n, x) <$> match_segs p' path'
  | _, _ => None
  end.

(** The values of the wildcards, when the pattern matches. *)
Definition match_path (p : pattern) (r : HReq.t) : option (list (string * string)) :=
  match p with
  | Root => Some []
  | Exact segs => if HReq.Trailing r then None else match_segs segs (HReq.Path r)
  end.

(** A GET pattern also serves HEAD. *)
Definition method_matches (pm m : string) : bool := String.eqb pm m || (String.eqb pm "GET" && String.eqb m "HEAD").

(** What a pattern leads to: a page of the server, or an endpoint of the API. *)
Inductive page := Healthz | Readyz | Version | Metrics | UI.
Inductive target := Page (p : page) | Api (e : endpoint).

Definition route_entry : Type := string * pattern * target.

Definition api_routes : list route_entry :=
  let id := Wild "id" in
  let v1 := Lit "v1" in
  let at_ m segs e := (m, Exact (v1 :: segs), Api e) in
  [at_ "POST" [Lit "access"; Lit "evaluate"] AccessEvaluate;
   at_ "POST" [Lit "challenge"; id; Lit "verify"] ChallengeVerify;
   at_ "POST" [Lit "challenge"; id; Lit "webauthn"; Lit "begin"] ChallengeWebAuthnBegin;
   at_ "POST" [Lit "challenge"; id; Lit "webauthn"; Lit "finish"] ChallengeWebAuthnFinish;
   at_ "GET" [Lit "challenges"] ListChallenges;
   at_ "GET" [Lit "identities"] ListIdentities;
   at_ "POST" [Lit "identities"] CreateIdentity;
   at_ "GET" [Lit "identities"; id] GetIdentity;
   at_ "PUT" [Lit "identities"; id] UpdateIdentity;
   at_ "DELETE" [Lit "identities"; id] DeleteIdentity;
   at_ "POST" [Lit "identities"; id; Lit "factors"; Lit "totp"; Lit "enroll"] TOTPEnroll;
   at_ "POST" [Lit "identities"; id; Lit "factors"; Lit "totp"; Lit "activate"] TOTPActivate;
   at_ "POST" [Lit "identities"; id; Lit "factors"; Lit "webauthn"; Lit "registration"; Lit "begin"] WebAuthnBeginRegistration;
   at_ "POST" [Lit "identities"; id; Lit "factors"; Lit "webauthn"; Lit "registration"; Wild "factor_id"; Lit "finish"]
     WebAuthnFinishRegistration;
   at_ "POST" [Lit "identities"; id; Lit "factors"; Lit "webauthn"; Lit "verification"; Lit "begin"] WebAuthnBeginVerification;
   at_ "POST" [Lit "identities"; id; Lit "factors"; Lit "webauthn"; Lit "verification"; Lit "finish"] WebAuthnFinishVerification;
   at_ "POST" [Lit "devices"] CreateDevice;
   at_ "GET" [Lit "devices"] ListDevices;
   at_ "GET" [Lit "devices"; id] GetDevice;
   at_ "DELETE" [Lit "devices"; id] DeleteDevice;
   at_ "POST" [Lit "devices"; id; Lit "approve-challenge"] ApproveChallenge;
   at_ "GET" [Lit "policies"] ListPolicies;
   at_ "POST" [Lit "policies"] CreatePolicy;
   at_ "POST" [Lit "policies"; Lit "test"] TestPolicy;
   at_ "GET" [Lit "policies"; id] GetPolicy;
   at_ "PUT" [Lit "policies"; id] UpdatePolicy;
   at_ "DELETE" [Lit "policies"; id] DeletePolicy;
   at_ "GET" [Lit "adapters"] ListAdapters;
   at_ "POST" [Lit "adapters"] CreateAdapter;
   at_ "GET" [Lit "adapters"; id] GetAdapter;
   at_ "DELETE" [Lit "adapters"; id] DeleteAdapter;
   at_ "POST" [Lit "adapters"; id; Lit "rotate-token"] RotateAdapterToken;
   at_ "GET" [Lit "audit"; Lit "events"] ListAuditEvents;
   at_ "GET" [Lit "audit"; Lit "verify"] VerifyAudit;
   at_ "POST" [Lit "ad"; Lit "events"] ADEvents;
   at_ "GET" [Lit "ad"; Lit "profiles"] ADProfiles;
   at_ "POST" [Lit "ad"; Lit "inventory"; Lit "scan"] ADInventoryScan].

Definition server_routes (cfg : ServerConfig.t) : list route_entry :=
  [("GET", Exact [Lit "healthz"], Page Healthz); ("GET", Exact [Lit "readyz"], Page Readyz);
   ("GET", Exact [Lit "version"], Page Version)] ++
  (if ServerConfig.MetricsEnabled cfg then [("GET", Exact [Lit "metrics"], Page Metrics)] else []) ++
  api_routes ++
  (if ServerConfig.UIEnabled cfg then [("GET", Root, Page UI)] else []).

Definition entry_matches (r : HReq.t) (e : route_entry) : bool :=
  let '(m, p, _) := e in method_matches m (HReq.Method r) && bool_decide (is_Some (match_path p r)).

(** Literal patterns before ["/"]: the first match is the most specific one. *)
Definition mux_lookup (routes : list route_entry) (r : HReq.t) : option (target * list (string * string)) :=
  match find (entry_matches r) routes with
  | Some (_, p, t) => (fun vs => (t, vs)) <$> match_path p r
  | None => None
  end.

(** The methods some pattern would serve the path for, in order. *)
Definition allowedMethods (routes : list route_entry) (r : HReq.t) : list string :=
  base.filter (fun m => existsb (fun e => let '(pm, p, _) := e in
      method_matches pm m && bool_decide (is_Some (match_path p r))) routes = true)
    ["DELETE"; "GET"; "HEAD"; "POST"; "PUT"].

(** ** The server *)

(** [json.Encoder] on a [map[string]string] with these (sorted) keys. *)
Definition encode_strings (m : list (string * string)) : string :=
  "{" +:+ Join "," ((fun kv => json_string kv.1 +:+ ":" +:+ json_string kv.2) <$> m) +:+ "}" +:+ of_bytes [10].

Section Server.
Context {L : Lib} {E : Env}.
Context (decodeBody : forall e, Reader.t -> option (body_of e)) (encode : payload L -> string).
Context (cfg : ServerConfig.t) (h : Handler.t).

(** [writeJSON], of the server and of the API. *)
Definition write_json (w : writer) (status : Z) (body : string) : HM L unit :=
  _ ← set_header "Content-Type" "application/json";
  _ ← write_header w status;
  write body.

Definition html_page : string := "<html><body><h1>OIAF Admin UI</h1><p>Coming soon.</p></body></html>".

Definition write_page (w : writer) (type body : string) : HM L unit :=
  _ ← set_header "Content-Type" type;
  _ ← write_header w StatusOK;
  write body.

Definition serve_page (p : page) (w : writer) : HM L unit :=
  match p with
  | Healthz => write_json w StatusOK (encode_strings [("status", "ok")])
  | Readyz => write_json w StatusOK (encode_strings [("status", "ready")])
  | Version => write_json w StatusOK (encode_strings [("name", "oiaf"); ("version", "0.1.0")])
  | Metrics => write_page w "text/plain" ("# oiaf metrics placeholder" +:+ of_bytes [10])
  | UI => write_page w "text/html" html_page
  end.

(** A handler's response; the 401s of the authentication middleware go through
    [http.Error], the errors of the API through [writeJSON]. *)
Definition write_response (w : writer) (resp : Response (payload L)) : HM L unit :=
  match resp with
  | writeJSON st v => write_json w st (encode v)
  | writeError st msg =>
      if st =? StatusUnauthorized
      then http_Error w ("{" +:+ json_string "error" +:+ ":" +:+ json_string msg +:+ "}") st
      else write_json w st (encode_strings [("error", msg)])
  | WriteHeader st => write_header w st
  end.

Definition path_value (vs : list (string * string)) (k : string) : string :=
  match find (fun kv => String.eqb kv.1 k) vs with Some kv => kv.2 | None => "" end.

Definition api_request (e : endpoint) (r : HReq.t) (vs : list (string * string)) : Request.t (body_of e) :=
  Request.mk _ (HReq.Authorization r) None (path_value vs) (HReq.Query r) (decodeBody e (HReq.Body r)).

Definition serve_api (e : endpoint) (vs : list (string * string)) (w : writer) (r : HReq.t) : HM L unit :=
  resp ← lift (route h e (api_request e r vs));
  write_response w resp.

Definition mux : handlerFunc L := fun w r =>
  let routes := server_routes cfg in
  match mux_lookup routes r with
  | Some (Page p, _) => serve_page p w
  | Some (Api e, vs) => serve_api e vs w r
  | None =>
      match allowedMethods routes r with
      | [] => http_Error w "404 page not found" StatusNotFound
      | ms => _ ← set_header "Allow" (Join ", " ms); http_Error w "Method Not Allowed" 405
      end
  end.

(** [Server.Handler]: the mux, then the five layers around it. *)
Definition middlewares (handler : handlerFunc L) : handlerFunc L :=
  let handler := RequestLogger handler in
  let handler := BodyLimit 1048576 handler in
  let handler := Recover handler in
  let handler := SecurityHeaders handler in
  RequestID handler.

Definition Handler_ : handlerFunc L := middlewares mux.
End Server.

(** ** A client's request, as the server sees it *)

(** [r.Header.Get(k)]. *)
Definition header (r : HttpRequest.t) (k : string) : string :=
  match find (fun kv => String.eqb kv.1 k) (HttpRequest.Header r) with Some kv => kv.2 | None => "" end.

(** What lies between the slashes of a path. *)
Definition segments (path : string) : list string := base.filter (fun s => s <> "") (Split (ascii_of 47) path).

Definition ends_in_slash (path : string) : bool := bool_decide (last (Split (ascii_of 47) path) = Some "").

(** A request under the server's base URL whose path has no escapes, query, dot
    segment or doubled slash. *)
Definition delivered (base : string) (r : HttpRequest.t) : HReq.t :=
  let path := TrimPrefix (HttpRequest.URL r) base in
  HReq.mk (HttpRequest.Method r) (segments path) (ends_in_slash path) (header r "X-Request-ID") (header r "Authorization")
    (fun _ => "") (Reader.mk (HttpRequest.Body r) false).

(** [Start]: TLS only with both files. *)
Inductive listening := TLS (cert key : string) | Plain.
Definition Start (cfg : ServerConfig.t) : listening :=
  if negb (String.eqb (ServerConfig.TLSCertFile cfg) "") && negb (String.eqb (ServerConfig.TLSKeyFile cfg) "")
  then TLS (ServerConfig.TLSCertFile cfg) (ServerConfig.TLSKeyFile cfg) else Plain.

(** One exchange: a fresh writer, and what reaches the client. [None]: a panic
    left the handler, and the connection is dropped. *)
Definition fresh : RW.t := RW.mk ∅ None "" 0.
Definition exchange {L : Lib} (f : handlerFunc L) (r : HReq.t) (w : World L) (ls : list LogLine.t)
    : option (Z * headers * string) * World L * list LogLine.t :=
  let '(o, s) := f Conn r (mkSrv fresh w ls) in
  (match o with
   | Panicked _ => None
   | Returned _ => let '(st, hs) := default (StatusOK, RW.header (rw s)) (RW.sent (rw s)) in Some (st, hs, RW.body (rw s))
   end, world s, logs s).

(** ** Facts *)

(** What secure-defaults.md and the middleware agree on for every response, and
    the request's identifier. (They differ on the other headers: see
    [served_without_csp].) *)
Definition hardening (id : string) : list (string * string) :=
  [("X-Content-Type-Options", "nosniff"); ("X-Frame-Options", "DENY"); ("X-Request-ID", id)].

(** A digit of an identifier the server made: 0 to 9, a to f. *)
Definition lower_hex (b : Z) : Prop := 48 <= b <= 57 \/ 97 <= b <= 102.

Definition carries (hs : headers) (l : list (string * string)) : Prop := Forall (fun kv => hs !! kv.1 = Some kv.2) l.

(** The promise holds of the headers being built and of those already sent. *)
Definition kept (l : list (string * string)) (r : RW.t) : Prop :=
  carries (RW.header r) l /\ forall st hs, RW.sent r = Some (st, hs) -> carries hs l.

(** Code after which [P] still holds, whether it returns or panics. *)
Definition preserves {L : Lib} {A} (P : RW.t -> Prop) (m : HM L A) : Prop := forall s, P (rw s) -> P (rw (m s).2).

(** A header that does not disturb the promise: another one, or the same value. *)
Definition harmless (l : list (string * string)) (k v : string) : Prop := Forall (fun kv => kv.1 = k -> kv.2 = v) l.

Section HeaderFacts.
Context {L : Lib}.

Lemma preserves_bind {A B} P (m : HM L A) (f : A -> HM L B) :
  preserves P m -> (forall a, preserves P (f a)) -> preserves P (x ← m; f x).
Proof.
  intros Hm Hf s Hs. unfold mbind, hm_bind. specialize (Hm s Hs). destruct (m s) as [[a|e] s']; [by apply Hf|exact Hm].
Qed.

Lemma preserves_ret {A} P (a : A) : preserves (L := L) P (mret a).
Proof. by intros s Hs. Qed.

Lemma preserves_lift {A} P (m : M (L := L) A) : preserves P (lift m).
Proof. intros s Hs. unfold lift. by destruct (m (world s)). Qed.

Lemma preserves_get P : preserves (L := L) P get_rw.
Proof. by intros s Hs. Qed.

Lemma preserves_log P r st : preserves (L := L) P (log_request r st).
Proof. by intros s Hs. Qed.

Context (l : list (string * string)).

Lemma carries_insert hs k v : harmless l k v -> carries hs l -> carries (<[k := v]> hs) l.
Proof.
  unfold harmless, carries. rewrite !Forall_forall. intros Hh Hc kv Hin. destruct (decide (kv.1 = k)) as [He|Hne].
  - rewrite He, lookup_insert_eq. f_equal. symmetry. by apply (Hh kv).
  - rewrite lookup_insert_ne by done. by apply Hc.
Qed.

Lemma kept_set k v : harmless l k v -> preserves (L := L) (kept l) (set_header k v).
Proof. intros Hh s [Hc Hs]. split; [by apply carries_insert|exact Hs]. Qed.

Lemma kept_send st r : kept l r -> kept l (send_status st r).
Proof.
  intros [Hc Hs]. split; [done|]. cbn. destruct (RW.sent r) as [[st' hs]|]; cbn; intros st0 hs0 [= <- <-]; [by eapply Hs|done].
Qed.

Lemma kept_status w st : preserves (L := L) (kept l) (write_header w st).
Proof. intros s Hs. unfold write_header, on_rw. cbn. destruct w; by apply kept_send. Qed.

Lemma kept_write d : preserves (L := L) (kept l) (write d).
Proof. intros s Hs. apply (kept_send StatusOK) in Hs as [Hc Hs]. by split. Qed.
End HeaderFacts.

(** Run a handler through its writes. *)
Ltac keep_headers :=
  repeat first
    [ apply preserves_bind; [|intros ?] | apply kept_set; repeat constructor; try done | apply kept_status | apply kept_write
    | apply preserves_lift | apply preserves_ret | apply preserves_get | apply preserves_log ].

Section Hardened.
Context {L : Lib} {E : Env}.

Lemma http_Error_kept id w msg st : preserves (L := L) (kept (hardening id)) (http_Error w msg st).
Proof. unfold http_Error. keep_headers. Qed.

Lemma write_json_kept id w st body : preserves (L := L) (kept (hardening id)) (write_json w st body).
Proof. unfold write_json. keep_headers. Qed.

Lemma write_page_kept id w ty body : preserves (L := L) (kept (hardening id)) (write_page w ty body).
Proof. unfold write_page. keep_headers. Qed.

Lemma mux_kept decodeBody encode cfg h id w r : preserves (L := L) (kept (hardening id)) (mux decodeBody encode cfg h w r).
Proof.
  unfold mux. destruct (mux_lookup _ r) as [[[p|e] vs]|].
  - destruct p; cbn [serve_page]; [apply write_json_kept..|apply write_page_kept|apply write_page_kept].
  - unfold serve_api. apply preserves_bind; [apply preserves_lift|]. intros [st v|st msg|st]; cbn [write_response].
    + apply write_json_kept.
    + destruct (st =? StatusUnauthorized); [apply http_Error_kept|apply write_json_kept].
    + apply kept_status.
  - destruct (allowedMethods _ r); [apply http_Error_kept|]. apply preserves_bind; [|intros; apply http_Error_kept]. keep_headers.
Qed.

Lemma RequestLogger_kept id next w r : (forall w r, preserves (L := L) (kept (hardening id)) (next w r)) ->
  preserves (kept (hardening id)) (RequestLogger next w r).
Proof.
  intros Hn. unfold RequestLogger. apply preserves_bind; [by intros s [Hc Hs]|intros _]. keep_headers. apply Hn.
Qed.

Lemma Recover_kept id next w r : (forall w r, preserves (L := L) (kept (hardening id)) (next w r)) ->
  preserves (kept (hardening id)) (Recover next w r).
Proof.
  intros Hn s Hs. unfold Recover. specialize (Hn w r s Hs). destruct (next w r s) as [[a|e] s']; [done|by apply http_Error_kept].
Qed.

(** A recovered handler always returns. *)
Lemma Recover_returns (next : handlerFunc L) w r s : exists s', Recover next w r s = (Returned tt, s').
Proof. unfold Recover. destruct (next w r s) as [[[]|e] s']; [by eexists|]. by eexists. Qed.

(** The identifier of a request: the client's, or sixteen fresh bytes in hex. *)
Definition id_for (r : HReq.t) (n : nat) : string :=
  if String.eqb (HReq.RequestID r) "" then EncodeToString (match rand_Read n 16 with Ok b => b | Err _ => replicate 16 0 end)
  else HReq.RequestID r.

Definition id_world (r : HReq.t) (w : World L) : World L :=
  if String.eqb (HReq.RequestID r) "" then set_tick (S (tick w)) w else w.

(** The two outermost layers only prepare the headers. *)
Definition prepared (id : string) : RW.t :=
  RW.mk (<["Referrer-Policy" := "strict-origin-when-cross-origin"]> (<["X-XSS-Protection" := "1; mode=block"]>
    (<["X-Frame-Options" := "DENY"]> (<["X-Content-Type-Options" := "nosniff"]> (<["X-Request-ID" := id]> ∅))))) None "" 0.

Lemma outer_run (next : handlerFunc L) r w ls :
  RequestID (SecurityHeaders next) Conn r (mkSrv fresh w ls)
  = next Conn r (mkSrv (prepared (id_for r (tick w))) (id_world r w) ls).
Proof. unfold RequestID, id_for, id_world. by destruct (String.eqb _ ""). Qed.

Lemma prepared_kept id : kept (hardening id) (prepared id).
Proof. split; [|done]. unfold carries, hardening. repeat constructor. Qed.

(** The whole stack, around any handler that leaves the promised headers alone. *)
Lemma stack_hardened (next : handlerFunc L) r w ls :
  (forall wr rq, preserves (kept (hardening (id_for r (tick w)))) (next wr rq)) ->
  exists st hs body w' ls', exchange (RequestID (SecurityHeaders (Recover next))) r w ls = (Some (st, hs, body), w', ls') /\
  carries hs (hardening (id_for r (tick w))).
Proof.
  intros Hn. unfold exchange. rewrite outer_run. set (s0 := mkSrv _ _ _).
  pose proof (Recover_kept _ next Conn r Hn s0 (prepared_kept _)) as [Hc Hs].
  destruct (Recover_returns next Conn r s0) as [s' Hr]. rewrite Hr in *. cbn [snd] in Hc, Hs.
  destruct (RW.sent (rw s')) as [[st hs]|]; cbn [default].
  - do 5 eexists. split; [reflexivity|]. by eapply Hs.
  - do 5 eexists. split; [reflexivity|]. exact Hc.
Qed.

Lemma hex_text l : Forall is_byte l -> Forall lower_hex (bytes (EncodeToString l)).
Proof.
  intros Hl. rewrite bytes_hex by done. apply Forall_concat, Forall_fmap. eapply Forall_impl; [exact Hl|]. intros b Hb.
  destruct (nibbles b Hb) as (H1 & H2 & _). unfold hex_byte, lower_hex, hex_digit.
  apply Forall_cons_2; [destruct (Z.ltb_spec (Z.shiftr b 4) 10); lia|].
  apply Forall_cons_2; [destruct (Z.ltb_spec (Z.land b 15) 10); lia|constructor].
Qed.

Lemma id_for_fresh `{!EnvOk E} r n : HReq.RequestID r = "" ->
  String.length (id_for r n) = 32%nat /\ Forall lower_hex (bytes (id_for r n)).
Proof.
  intros He. unfold id_for. rewrite He. cbn [String.eqb]. rewrite bytes_of_hex_length.
  destruct (rand_Read n 16) as [b|] eqn:Hb.
  - rewrite (rand_Read_length _ _ _ Hb). split; [done|]. apply hex_text. by eapply rand_Read_bytes.
  - split; [done|]. apply hex_text. apply Forall_replicate. done.
Qed.

(** ** The world behind the stack *)

(** Code that leaves the world alone, whatever its outcome. *)
Definition silent {A} (m : HM L A) : Prop := forall s, world (m s).2 = world s.

Lemma silent_bind {A B} (m : HM L A) (f : A -> HM L B) : silent m -> (forall a, silent (f a)) -> silent (x ← m; f x).
Proof.
  intros Hm Hf s. unfold mbind, hm_bind. specialize (Hm s). destruct (m s) as [[a|e] s']; [|exact Hm].
  by rewrite Hf.
Qed.

Lemma silent_header k v : silent (set_header k v). Proof. done. Qed.
Lemma silent_status w st : silent (write_header w st). Proof. done. Qed.
Lemma silent_write d : silent (write d). Proof. done. Qed.

Lemma silent_Error w msg st : silent (http_Error w msg st).
Proof. unfold http_Error. repeat (apply silent_bind; [done|intros _]). done. Qed.

Lemma silent_json w st b : silent (write_json w st b).
Proof. unfold write_json. repeat (apply silent_bind; [done|intros _]). done. Qed.

Lemma silent_page w ty b : silent (write_page w ty b).
Proof. unfold write_page. repeat (apply silent_bind; [done|intros _]). done. Qed.

Lemma silent_response encode w resp : silent (write_response encode w resp).
Proof.
  destruct resp as [st v|st msg|st]; cbn [write_response]; [apply silent_json| |apply silent_status].
  destruct (st =? StatusUnauthorized); [apply silent_Error|apply silent_json].
Qed.

Lemma silent_Recover (next : handlerFunc L) w r s : world (Recover next w r s).2 = world (next w r s).2.
Proof. unfold Recover. destruct (next w r s) as [[a|e] s']; [done|]. apply silent_Error. Qed.

Section World.
Context (decodeBody : forall e, Reader.t -> option (body_of e)) (encode : payload L -> string).
Context (cfg : ServerConfig.t) (h : Handler.t).

(** What a request does to the world: the routed handler's work, or nothing. *)
Definition served (r : HReq.t) (w : World L) : World L :=
  match mux_lookup (server_routes cfg) r with
  | Some (Api e, vs) => (route h e (api_request decodeBody e r vs) w).2
  | _ => w
  end.

Lemma mux_world w r s : world (mux decodeBody encode cfg h w r s).2 = served r (world s).
Proof.
  unfold mux, served. destruct (mux_lookup _ r) as [[[p|e] vs]|].
  - destruct p; cbn [serve_page]; [apply silent_json..|apply silent_page|apply silent_page].
  - unfold serve_api, mbind, hm_bind, lift. destruct (route _ _ _ (world s)) as [resp w']. cbn [snd].
    exact (silent_response encode w resp (mkSrv (rw s) w' (logs s))).
  - destruct (allowedMethods _ r); [apply silent_Error|]. apply silent_bind; [done|]. intros _. apply silent_Error.
Qed.

Lemma RequestLogger_world (next : handlerFunc L) w r s :
  world (RequestLogger next w r s).2
  = world (next statusRecorder r (mkSrv (RW.mk (RW.header (rw s)) (RW.sent (rw s)) (RW.body (rw s)) StatusOK) (world s) (logs s))).2.
Proof.
  unfold RequestLogger, mbind, hm_bind, on_rw.
  destruct (next statusRecorder r _) as [[a|e] s']; reflexivity.
Qed.

Definition limited (r : HReq.t) : HReq.t := HReq.set_Body (MaxBytesReader 1048576 (HReq.Body r)) r.

Lemma exchange_world r w ls :
  (exchange (Handler_ decodeBody encode cfg h) r w ls).1.2 = served (limited r) (id_world r w).
Proof.
  unfold exchange, Handler_, middlewares. rewrite outer_run. set (s0 := mkSrv _ _ _).
  destruct (Recover _ Conn r s0) as [o s'] eqn:Hr. cbn [fst snd].
  apply (f_equal snd) in Hr. cbn [snd] in Hr. rewrite <- Hr, silent_Recover. unfold BodyLimit.
  rewrite RequestLogger_world, mux_world. reflexivity.
Qed.
End World.
End Hardened.

(** ** The mux's choice *)

#[global] Instance seg_eq_dec : EqDecision seg. Proof. solve_decision. Defined.
#[global] Instance pattern_eq_dec : EqDecision pattern. Proof. solve_decision. Defined.
#[global] Instance endpoint_eq_dec : EqDecision endpoint. Proof. solve_decision. Defined.
#[global] Instance page_eq_dec : EqDecision page. Proof. solve_decision. Defined.
#[global] Instance target_eq_dec : EqDecision target. Proof. solve_decision. Defined.

(** Two patterns some path could match. *)
Fixpoint compat (p q : list seg) : bool :=
  match p, q with
  | [], [] => true
  | Lit s :: p', Lit t :: q' => String.eqb s t && compat p' q'
  | _ :: p', _ :: q' => compat p' q'
  | _, _ => false
  end.

Definition get_like (m : string) : bool := String.eqb m "GET" || String.eqb m "HEAD".
Definition method_overlap (a b : string) : bool := String.eqb a b || (get_like a && get_like b).

(** The first entry would take requests meant for the second. *)
Definition shadows (a b : route_entry) : bool :=
  let '(m1, p1, _) := a in
  let '(m2, p2, _) := b in
  method_overlap m1 m2 && match p1, p2 with Exact x, Exact y => compat x y | Root, _ => true | Exact _, Root => false end.

Fixpoint unambiguous (l : list route_entry) : bool :=
  match l with
  | [] => true
  | e :: l' => forallb (fun x => negb (shadows e x)) l' && unambiguous l'
  end.

Lemma compat_match p q path : is_Some (match_segs p path) -> is_Some (match_segs q path) -> compat p q = true.
Proof.
  revert q path. induction p as [|a p IH]; intros q path.
  { destruct path; [|by intros [? ?]]. destruct q as [|[|] q]; [done|by intros _ [? ?]..]. }
  destruct path as [|x path]; [by destruct a; intros [? ?]|]. destruct q as [|b q]; [by intros _ [? ?]|].
  destruct a as [s|n], b as [t|n']; cbn.
  - destruct (String.eqb_spec s x) as [->|]; [|by intros [? ?]]. destruct (String.eqb_spec t x) as [->|]; [|by intros _ [? ?]].
    rewrite String.eqb_refl. apply IH.
  - destruct (String.eqb_spec s x) as [->|]; [|by intros [? ?]]. rewrite fmap_is_Some. apply IH.
  - destruct (String.eqb_spec t x) as [->|]; [|by intros _ [? ?]]. rewrite fmap_is_Some. apply IH.
  - rewrite !fmap_is_Some. apply IH.
Qed.

Lemma overlap_matches a b m : method_matches a m = true -> method_matches b m = true -> method_overlap a b = true.
Proof.
  unfold method_matches, method_overlap, get_like. rewrite !orb_true_iff, !andb_true_iff, !orb_true_iff, !String.eqb_eq.
  intros [->|[-> ->]] [->|[-> ?]]; auto.
Qed.

Lemma shadows_match r a m segs t : entry_matches r a = true -> entry_matches r (m, Exact segs, t) = true ->
  shadows a (m, Exact segs, t) = true.
Proof.
  destruct a as [[m1 p1] t1]. unfold entry_matches, shadows. rewrite !andb_true_iff, !bool_decide_eq_true.
  intros [Hm1 Hp1] [Hm Hp]. split; [by eapply overlap_matches|]. destruct p1 as [x|]; [|done].
  cbn in Hp1, Hp. destruct (HReq.Trailing r); [by destruct Hp|]. by eapply compat_match.
Qed.

(** With no entry shadowing a later one, an exact entry that matches is chosen. *)
Lemma find_exact r l m segs t : unambiguous l = true -> (m, Exact segs, t) ∈ l -> entry_matches r (m, Exact segs, t) = true ->
  find (entry_matches r) l = Some (m, Exact segs, t).
Proof.
  induction l as [|a l IH]; [by intros _ H%elem_of_nil|]. cbn [unambiguous find]. rewrite andb_true_iff, forallb_forall.
  intros [Hno Hu] [<-|Hin]%elem_of_cons Hm; [by rewrite Hm|]. destruct (entry_matches r a) eqn:Ha; [|by apply IH].
  pose proof (shadows_match r a m segs t Ha Hm) as Hs. specialize (Hno (m, Exact segs, t)). rewrite Hs in Hno.
  discriminate Hno. by apply list_elem_of_In.
Qed.

Lemma server_routes_unambiguous cfg : unambiguous (server_routes cfg) = true.
Proof. unfold server_routes. destruct (ServerConfig.MetricsEnabled cfg), (ServerConfig.UIEnabled cfg); vm_compute; reflexivity. Qed.

Lemma api_routes_exact m p t : (m, p, t) ∈ api_routes -> exists segs, p = Exact segs.
Proof.
  assert (H : forallb (fun e => let '(_, p, _) := e in match p with Exact _ => true | Root => false end) api_routes = true) by reflexivity.
  rewrite forallb_forall in H. intros Hin%list_elem_of_In. apply H in Hin. destruct p; [by eexists|done].
Qed.

Lemma server_routes_api cfg m p e : (m, p, Api e) ∈ server_routes cfg <-> (m, p, Api e) ∈ api_routes.
Proof.
  unfold server_routes. rewrite !elem_of_app. split; [|by auto].
  intros [H|[H|[H|H]]]; [| |done|].
  - rewrite !elem_of_cons, elem_of_nil in H. by destruct H as [?|[?|[?|[]]]].
  - destruct (ServerConfig.MetricsEnabled cfg); [|by apply elem_of_nil in H]. rewrite elem_of_cons, elem_of_nil in H. by destruct H as [?|[]].
  - destruct (ServerConfig.UIEnabled cfg); [|by apply elem_of_nil in H]. rewrite elem_of_cons, elem_of_nil in H. by destruct H as [?|[]].
Qed.

Lemma api_targets : NoDup (snd <$> api_routes) /\ forall e, Api e ∈ snd <$> api_routes.
Proof.
  split.
  - apply (bool_decide_unpack _). vm_compute. exact I.
  - intros e. apply (bool_decide_unpack _). destruct e; vm_compute; exact I.
Qed.

(** ** Guards *)

Section Guards.
Context {L : Lib} {E : Env} `{!EnvOk E}.

Lemma rejected_later (w : World L) s k : (tick w <= k)%nat -> rejected_by_all w s -> rejected_by_all (set_tick k w) s.
Proof.
  intros Hk Hr id tok Hid. destruct (Hr id tok Hid) as [?|[?|(t & Ht & Hx)]]; [by auto..|].
  right. right. exists t. split; [done|]. intros n Hn. apply Hx. cbn in Hn. lia.
Qed.

Lemma id_world_later r (w : World L) : exists k, (tick w <= k)%nat /\ id_world r w = set_tick k w.
Proof.
  unfold id_world. destruct (String.eqb _ ""); [exists (S (tick w)); split; [lia|done]|exists (tick w); split; [lia|by destruct w]].
Qed.

Lemma route_rejected h e (r : Request.t (body_of e)) (w : World L) :
  rejected_by_all w (TrimPrefix (Request.Authorization r) "Bearer ") -> exists k, (route h e r w).2 = set_tick k w.
Proof.
  intros Hr. unfold route. destruct (Middleware_cases (handler_of h e) r w) as [(k & msg & ->)|(tok & k & _ & Hacc & _)]; [by eexists|].
  destruct Hacc as ([id Hid] & Hv & Hb & He). destruct (Hr id tok Hid) as [?|[?|(t & Ht & Hx)]]; [congruence..|].
  destruct (He t Ht) as (n & Hn & Hf). rewrite Hx in Hf by done. done.
Qed.

Lemma append_only_tick (w : World L) k : append_only w (set_tick k w).
Proof. split; [done|by exists []; rewrite app_nil_r|done]. Qed.

Lemma served_append_only decodeBody cfg h r (w : World L) : append_only w (served decodeBody cfg h r w).
Proof.
  unfold served. destruct (mux_lookup _ r) as [[[p|e] vs]|]; [|apply (safe_route h e)|];
    reflexivity.
Qed.
End Guards.

(** ** Properties *)

Definition demo_hreq (method auth : string) (path : list string) : HReq.t :=
  HReq.mk method path false "" auth (fun _ => "") (Reader.mk "" false).
Definition demo_decode_body (e : endpoint) (b : Reader.t) : option (body_of e) := None.
Definition demo_encode (v : payload demo_lib) : string := "{}".
Definition demo_stack : handlerFunc demo_lib := Handler_ demo_decode_body demo_encode (Config.Server Default) demo_handler.

(** A handler that leaves the promised headers alone, whether it returns or
    panics. *)
Definition respectful {L : Lib} (next : handlerFunc L) : Prop :=
  forall id wr rq, preserves (kept (hardening id)) (next wr rq).

(** A handler that panics on a request, with nothing of the answer sent. *)
Definition panics_on {L : Lib} (next : handlerFunc L) (rq : HReq.t) : Prop :=
  forall s, exists msg s1, next statusRecorder rq s = (Panicked msg, s1) /\
    RW.sent (rw s1) = RW.sent (rw s) /\ RW.body (rw s1) = RW.body (rw s).

(** The layers turn a panic into the generic answer. *)
Lemma panic_answer {L : Lib} {E : Env} (next : handlerFunc L) r w ls : panics_on next (limited r) ->
  exists hs w' ls', exchange (middlewares next) r w ls = (Some (500, hs, internal_error +:+ of_bytes [10]), w', ls').
Proof.
  intros Hp. unfold exchange, middlewares. rewrite outer_run. unfold Recover, BodyLimit, RequestLogger, mbind, hm_bind, on_rw.
  cbn [rw world logs RW.header RW.sent RW.body RW.status prepared]. fold (limited r).
  destruct (Hp (mkSrv (RW.mk (RW.header (prepared (id_for r (tick w)))) None "" StatusOK) (id_world r w) ls)) as (msg & s1 & Hn & Hs & Hb).
  cbn [prepared RW.header] in Hn. rewrite Hn. unfold http_Error, set_header, write_header, write, on_rw, mbind, hm_bind.
  cbn in Hs, Hb |- *. rewrite Hs, Hb. cbn. do 3 eexists. reflexivity.
Qed.

(** C27: the layers around the mux answer every request, also when the code behind
    them panics. The server's handler is the mux inside the layers, and the mux
    leaves the promised headers alone; and for any handler that does, whatever it
    answers and wherever it panics, the client gets a response, never a dropped
    connection, with [X-Content-Type-Options: nosniff], [X-Frame-Options: DENY] and
    the request's identifier: the client's own when it sent one, thirty-two
    lower-case hex digits otherwise. When the handler panics before anything is
    sent, that response is a 500 whose body is the generic error and nothing of the
    panic. *)
Theorem responses_hardened {L : Lib} {E : Env} `{!EnvOk E} decodeBody encode cfg h :
  Handler_ (L := L) decodeBody encode cfg h = middlewares (mux decodeBody encode cfg h) /\
  respectful (mux (L := L) decodeBody encode cfg h) /\
  forall (next : handlerFunc L) r w ls, respectful next ->
  exists st hs body w' ls' id,
    exchange (middlewares next) r w ls = (Some (st, hs, body), w', ls') /\
    carries hs (hardening id) /\
    (if String.eqb (HReq.RequestID r) "" then String.length id = 32%nat /\ Forall lower_hex (bytes id) else id = HReq.RequestID r) /\
    (panics_on next (limited r) -> st = 500 /\ body = internal_error +:+ of_bytes [10]).
Proof.
  split; [reflexivity|]. split; [by intros id wr rq; apply mux_kept|]. intros next r w ls Hn.
  destruct (stack_hardened (BodyLimit 1048576 (RequestLogger next)) r w ls) as (st & hs & body & w' & ls' & Hx & Hc).
  { intros wr rq. apply RequestLogger_kept. intros. apply Hn. }
  exists st, hs, body, w', ls', (id_for r (tick w)). split; [exact Hx|]. split; [exact Hc|]. split.
  - destruct (String.eqb_spec (HReq.RequestID r) ""); [by apply id_for_fresh|].
    unfold id_for. by destruct (String.eqb_spec (HReq.RequestID r) "").
  - intros Hp. destruct (panic_answer next r w ls Hp) as (hs' & w'' & ls'' & Hx'). change (exchange (middlewares next) r w ls
      = (Some (st, hs, body), w', ls')) in Hx. rewrite Hx in Hx'. by injection Hx' as -> _ -> _ _.
Qed.

(** A handler with a nil map, and the health page. *)
Lemma responses_hardened_witness : exists hs hs' w' w'' ls' ls'' id,
  exchange (middlewares (fun _ _ s => (Panicked "nil map", s))) (demo_hreq "GET" "" ["v1"]) demo_world []
    = (Some (500, hs, internal_error +:+ of_bytes [10]), w', ls') /\ carries hs (hardening id) /\
  exchange demo_stack (demo_hreq "GET" "" ["healthz"]) demo_world []
    = (Some (200, hs', encode_strings [("status", "ok")]), w'', ls'') /\ carries hs' (hardening id).
Proof.
  destruct (responses_hardened (L := demo_lib) demo_decode_body demo_encode (Config.Server Default) demo_handler) as (Hh & Hm & Hall).
  destruct (Hall (fun _ _ s => (Panicked "nil map", s)) (demo_hreq "GET" "" ["v1"]) demo_world [])
    as (st & hs & body & w' & ls' & id & Hx & Hc & Hi & Hp); [intros ? ? ? s Hs; exact Hs|].
  destruct Hp as [-> ->]; [intros s; exists "nil map", s; repeat split|].
  destruct (Hall _ (demo_hreq "GET" "" ["healthz"]) demo_world [] Hm) as (st' & hs' & body' & w'' & ls'' & id' & Hx' & Hc' & _).
  rewrite <- Hh in Hx'. fold demo_stack in Hx'.
  assert (Hst : (fun y => (y.1.1, y.2)) <$> (exchange demo_stack (demo_hreq "GET" "" ["healthz"]) demo_world []).1.1
    = Some (200, encode_strings [("status", "ok")])) by (vm_compute; reflexivity).
  rewrite Hx' in Hst. injection Hst as -> ->.
  assert (id' = id) as ->.
  { assert (Ha : (fun y => y.1.2 !! "X-Request-ID") <$> (exchange (middlewares (fun _ _ s => (Panicked "nil map", s))) (demo_hreq "GET" "" ["v1"]) demo_world []).1.1
      = (fun y => y.1.2 !! "X-Request-ID") <$> (exchange demo_stack (demo_hreq "GET" "" ["healthz"]) demo_world []).1.1) by (vm_compute; reflexivity).
    rewrite Hx, Hx' in Ha. injection Ha as Ha. unfold carries, hardening in Hc, Hc'. rewrite !Forall_cons in Hc, Hc'.
    destruct Hc as (_ & _ & Hc & _), Hc' as (_ & _ & Hc' & _). cbn in Hc, Hc'. congruence. }
  by exists hs, hs', w', w'', ls', ls'', id.
Defined.

(** the mux sends a request to an endpoint of the API exactly when the path
    and method fit the pattern registered for it, with the pattern's wildcards as
    path values: no pattern shadows another, no page of the server hides an
    endpoint, and every endpoint has exactly one pattern. *)
Theorem mux_exact cfg r e vs :
  (mux_lookup (server_routes cfg) r = Some (Api e, vs) <->
   exists m segs, (m, Exact segs, Api e) ∈ api_routes /\ method_matches m (HReq.Method r) = true /\
     HReq.Trailing r = false /\ match_segs segs (HReq.Path r) = Some vs) /\
  exists m p, (m, p, Api e) ∈ api_routes /\ forall m' p', (m', p', Api e) ∈ api_routes -> m' = m /\ p' = p.
Proof.
  split.
  - split.
    + unfold mux_lookup. destruct (find _ _) as [[[m p] t]|] eqn:Hf; [|done]. apply find_some in Hf as [Hin Hm].
      intros (vs' & Hvs & [= <- <-])%fmap_Some. apply list_elem_of_In, server_routes_api in Hin.
      destruct (api_routes_exact _ _ _ Hin) as [segs ->]. exists m, segs. cbn in Hm, Hvs.
      apply andb_true_iff in Hm as [Hm _]. destruct (HReq.Trailing r); [done|]. done.
    + intros (m & segs & Hin & Hm & Ht & Hvs). unfold mux_lookup.
      assert (Hp : match_path (Exact segs) r = Some vs) by (cbn; by rewrite Ht).
      rewrite (find_exact r _ m segs (Api e)); [by rewrite Hp|apply server_routes_unambiguous|by apply server_routes_api|].
      unfold entry_matches. rewrite Hm, Hp. cbn [andb]. apply bool_decide_eq_true. by eexists.
  - destruct api_targets as [Hnd Hall]. specialize (Hall e). apply list_elem_of_fmap in Hall as ([[m p] t] & He & Hin).
    cbn in He. subst t. exists m, p. split; [done|]. intros m' p' Hin'.
    apply list_elem_of_lookup in Hin as [i Hi]. apply list_elem_of_lookup in Hin' as [j Hj].
    assert (i = j) as <-.
    { eapply (NoDup_lookup (snd <$> api_routes) i j (Api e)); [done| |]; rewrite list_lookup_fmap; [by rewrite Hi|by rewrite Hj]. }
    rewrite Hi in Hj. by injection Hj.
Qed.

(** C6: without a token there is nothing to do over HTTP: a request whose bearer
    token matches no stored, unrevoked, unexpired token leaves the whole process
    as it was, whatever its method, path, query and body. *)
Theorem unauthenticated_inert {L : Lib} {E : Env} `{!EnvOk E} decodeBody encode cfg h r (w : World L) ls :
  rejected_by_all w (TrimPrefix (HReq.Authorization r) "Bearer ") ->
  exists k, (exchange (Handler_ decodeBody encode cfg h) r w ls).1.2 = set_tick k w.
Proof.
  intros Hr. rewrite exchange_world. destruct (id_world_later r w) as (k & Hk & ->). apply (rejected_later w _ k Hk) in Hr.
  unfold served. destruct (mux_lookup _ (limited r)) as [[[p|e] vs]|]; [by eexists| |by eexists].
  destruct (route_rejected h e (api_request decodeBody e (limited r) vs) (set_tick k w) Hr) as [k' ->]. by exists k'.
Qed.

Lemma unauthenticated_inert_witness :
  exists k, (exchange demo_stack (demo_hreq "DELETE" "Bearer guess" ["v1"; "policies"; "p1"]) demo_token_world []).1.2
    = set_tick k demo_token_world.
Proof.
  apply (unauthenticated_inert demo_decode_body demo_encode (Config.Server Default) demo_handler
    (demo_hreq "DELETE" "Bearer guess" ["v1"; "policies"; "p1"]) demo_token_world []).
  assert (Hall : map_Forall (fun _ tok => bcrypt_CompareHashAndPassword (AuthToken.TokenHash tok) "guess" = false)
    (MemoryStore.authTokens (store demo_token_world))) by (apply (bool_decide_unpack _); vm_compute; exact I).
  intros id tok Hid. right. left. exact (Hall id tok Hid).
Defined.

(** ** What modelling showed *)

(** No response of the server carries a content security policy; the layer that
    would set one is wired in nowhere. *)
Theorem served_without_csp {L : Lib} {E : Env} (next : handlerFunc L) r w ls :
  (forall wr rq s, RW.header (rw (next wr rq s).2) !! "Content-Security-Policy" = RW.header (rw s) !! "Content-Security-Policy") ->
  RW.header (rw (RequestID (SecurityHeaders next) Conn r (mkSrv fresh w ls)).2) !! "Content-Security-Policy" = None /\
  RW.header (rw (Spare.SecurityHeaders (fun _ _ => mret tt) Conn r (mkSrv fresh w ls)).2) !! "Content-Security-Policy" <> None.
Proof. intros Hn. split; [|done]. rewrite outer_run, Hn. reflexivity. Qed.

(** A request whose handler panicked leaves no line in the request log. *)
Theorem panic_unlogged {L : Lib} {E : Env} (next : handlerFunc L) msg r s :
  next statusRecorder r (mkSrv (RW.mk (RW.header (rw s)) (RW.sent (rw s)) (RW.body (rw s)) StatusOK) (world s) (logs s)) = (Panicked msg, s) ->
  logs (Recover (RequestLogger next) Conn r s).2 = logs s.
Proof. intros Hp. unfold Recover, RequestLogger, mbind, hm_bind, on_rw. by rewrite Hp. Qed.

(** A certificate without its key is served in clear text. *)
Theorem half_tls_plaintext addr cert : Start (ServerConfig.mk addr "info" "json" true true cert "" "") = Plain.
Proof. unfold Start. cbn. by rewrite andb_false_r. Qed.

(** An unknown path under the API is the admin page, with status 200. *)
Theorem unknown_path_is_ui :
  (fun resp => (resp.1.1, resp.2)) <$> (exchange demo_stack (demo_hreq "GET" "" ["v1"; "nope"]) demo_world []).1.1 = Some (200, html_page).
Proof. vm_compute. reflexivity. Qed.
