(* ===== verification/Daemon.v ===== *)
(** * core/cmd/oiafd: the daemon, from its start to its requests (main.go)

    [main] up to the listening server, as state-passing code: configuration,
    tokens, services. [logging.Setup] chooses the logger. Files, the environment
    and YAML are parameters. A running daemon is a sequence of exchanges with the
    stack of [Server]; the wait for a signal and the shutdown are not modelled. *)

From S2P Require Import Prelude GoStrings GoTime GoFloat GoCrypto GoJson GoHttp Types World Instances Storage AuditLog Bus Auth Mfa Orchestrator Discovery Risk Policy Inventory Api Pam Config Server.

(** ** Logging (logging.go) *)

Inductive Level := LevelDebug | LevelInfo | LevelWarn | LevelError.
Inductive LogFormat := TextHandler | JSONHandler.

Definition Setup {E : Env} (level format : string) : Level * LogFormat :=
  let l := ToLower level in
  (if String.eqb l "debug" then LevelDebug else if String.eqb l "warn" then LevelWarn
   else if String.eqb l "error" then LevelError else LevelInfo,
   if String.eqb (ToLower format) "text" then TextHandler else JSONHandler).

(** ** The start *)

Definition set_env (k v : string) (env : environ) : environ := fun x => if String.eqb x k then Some v else env x.

Section Main.
Context {L : Lib} {E : Env}.
Context (os_MkdirAll : nat -> string -> result unit) (os_WriteFile : nat -> string -> string -> result unit)
        (os_Setenv : nat -> string -> string -> result unit).
Context (os_Stat : string -> bool) (readFile : string -> result string) (yaml_Unmarshal : string -> Config.t -> result Config.t).

Definition generateToken : M (result string) :=
  buf ← ask (fun n => rand_Read n 32);
  mret (match buf with Err e => Err e | Ok b => Ok (EncodeToString b) end).

(** The environment afterwards. *)
Definition ensureToken (env : environ) (current envKey fileName : string) : M (result environ) :=
  if negb (String.eqb current "") then mret (Ok env)
  else
    token ←? generateToken;
    _ ←? ask (fun n => os_MkdirAll n ".oiaf");
    _ ←? ask (fun n => os_WriteFile n (".oiaf/" +:+ fileName) token);
    _ ←? ask (fun n => os_Setenv n envKey token);
    mret (Ok (set_env envKey token env)).

Definition newBus (cfg : Config.t) (flagValue : string) : option Emitter.t :=
  let urls := if String.eqb flagValue "" then ServerConfig.Webhooks (Config.Server cfg) else flagValue in
  if String.eqb urls "" then None
  else match split_list urls with
       | [] => None
       | trimmed => Some (Bus.New "oiaf" trimmed)
       end.

(** The WebAuthn factor: on when it is configured and its settings are valid. *)
Definition newWebAuthn (cfg : Config.t) : M bool :=
  if WebAuthnEnabled cfg then
    let wa := Config.WebAuthn cfg in
    r ← WebAuthn.NewWebAuthnService (WebAuthn.WebAuthnSettings.mk (WebAuthnConfig.RPID wa) (WebAuthnConfig.RPDisplayName wa)
          (WebAuthnOrigins cfg) (WebAuthnConfig.RequireUserVerification wa));
    mret (match r with Ok _ => true | Err _ => false end)
  else mret false.

Definition newScanner (cfg : Config.t) : option Inventory.Config.t :=
  let ad := Config.AD cfg in
  if String.eqb (ADConfig.LDAPURL ad) "" then None
  else Some (Inventory.Config.mk (ADConfig.LDAPURL ad) (ADConfig.BindDN ad) (ADConfig.BindPassword ad) (ADConfig.BaseDN ad)
               (ADConfig.InsecureSkipVerify ad)).

(** The services of [main], as the API's handler holds them. *)
Definition services (cfg : Config.t) (webauthn : bool) : Handler.t :=
  let sec := Config.Security cfg in
  Handler.mk (Config.Risk cfg)
    (Orchestrator.New (SecurityConfig.ChallengeTTLSeconds sec) (SecurityConfig.TOTPMaxAttempts sec)
       (SecurityConfig.PushTimestampSkewSeconds sec) webauthn)
    DefaultWeights webauthn (newScanner cfg).

Definition boot (env : environ) (configPath webhooks : string) : M (result (environ * Config.t * Handler.t)) :=
  match Load env os_Stat readFile yaml_Unmarshal configPath with
  | Err e => mret (Err e)
  | Ok cfg =>
      _ ← modify (set_store NewMemoryStore);
      env ←? ensureToken env (AdminToken env) "OIAF_ADMIN_TOKEN" "admin-token";
      env ←? ensureToken env (AdapterToken env) "OIAF_ADAPTER_TOKEN" "adapter-token";
      webauthn ← newWebAuthn cfg;
      _ ←? RegisterToken (AdminToken env) "admin" RoleAdmin;
      _ ←? RegisterToken (AdapterToken env) "adapter" RoleAdapter;
      _ ← modify (set_bus (newBus cfg webhooks));
      mret (Ok (env, cfg, services cfg webauthn))
  end.
End Main.

(** ** The running daemon *)

(** The requests of a run, one after the other. *)
Fixpoint serve_all {L : Lib} (f : handlerFunc L) (rs : list HReq.t) (w : World L) (ls : list LogLine.t) : World L * list LogLine.t :=
  match rs with
  | [] => (w, ls)
  | r :: rs' => let '(_, w', ls') := exchange f r w ls in serve_all f rs' w' ls'
  end.

(** ** Facts *)

(** A token as [main] registers it. *)
Record boot_token {L : Lib} (plain : string) (role : Role) (tok : AuthToken.t) : Prop := {
  bt_role : AuthToken.Role_ tok = role;
  bt_live : AuthToken.Revoked tok = false /\ AuthToken.ExpiresAt tok = None;
  bt_hash : bcrypt_CompareHashAndPassword (AuthToken.TokenHash tok) plain = true
}.

(** The tokens of a store are these two. *)
Definition two_tokens (ta tb : AuthToken.t) (s : MemoryStore.t) : Prop :=
  AuthToken.ID ta <> AuthToken.ID tb /\
  MemoryStore.authTokens s = <[AuthToken.ID tb := tb]> (<[AuthToken.ID ta := ta]> ∅).

Lemma Getenv_set k v env x : Getenv (set_env k v env) x = if String.eqb x k then v else Getenv env x.
Proof. unfold Getenv, set_env. by destruct (String.eqb x k). Qed.

Section Facts.
Context {L : Lib} {E : Env} `{!EnvOk E}.
Context (os_MkdirAll : nat -> string -> result unit) (os_WriteFile : nat -> string -> string -> result unit)
        (os_Setenv : nat -> string -> string -> result unit).

Lemma EncodeToString_nonempty n b : rand_Read n 32 = Ok b -> EncodeToString b <> "".
Proof.
  intros Hb He. pose proof (bytes_of_hex_length b) as Hl. rewrite He, (rand_Read_length _ _ _ Hb) in Hl. done.
Qed.

Lemma ensureToken_run env key file w env' w' :
  ensureToken os_MkdirAll os_WriteFile os_Setenv env (Getenv env key) key file w = (Ok env', w') ->
  store w' = store w /\ Getenv env' key <> "" /\ forall x, x <> key -> Getenv env' x = Getenv env x.
Proof.
  unfold ensureToken. destruct (String.eqb_spec (Getenv env key) "") as [He|Hne]; cbn [negb].
  - unfold generateToken. m_run. destruct (rand_Read (tick w) 32) as [b|] eqn:Hb; [|done].
    destruct (os_MkdirAll _ _); [|done]. destruct (os_WriteFile _ _ _); [|done]. destruct (os_Setenv _ _ _); [|done].
    intros [= <- <-]. split; [done|]. rewrite Getenv_set, String.eqb_refl. split; [by eapply EncodeToString_nonempty|].
    intros x Hx. rewrite Getenv_set. by destruct (String.eqb_spec x key).
  - intros [= <- <-]. done.
Qed.

Lemma newWebAuthn_store cfg (w : World L) : store (newWebAuthn cfg w).2 = store w.
Proof.
  unfold newWebAuthn, WebAuthn.NewWebAuthnService. destruct (WebAuthnEnabled cfg); [|done]. m_run. by destruct (wa_New _ _ _ _).
Qed.

Context `{!LibOk L}.

Lemma RegisterToken_ok plain name role (w w' : World L) tok : RegisterToken plain name role w = (Ok tok, w') ->
  boot_token plain role tok /\ AuthToken.ID tok = uuid_New (S (tick w)) /\ (tick w < tick w')%nat /\
  store w' = set_tbl (<[AuthToken.ID tok := tok]> (MemoryStore.authTokens (store w))) (store w).
Proof.
  intros Hr. destruct (RegisterToken_run plain name role w) as [(h & Hb & Hrun)|(e & k & Hrun)]; rewrite Hrun in Hr; [|done].
  injection Hr as <- <-. split; [|done || (cbn; split_and!; [done|lia|done])].
  split; [done|done|]. by eapply bcrypt_match.
Qed.

Context (os_Stat : string -> bool) (readFile : string -> result string) (yaml_Unmarshal : string -> Config.t -> result Config.t).

Lemma boot_run env configPath webhooks w env' cfg h w' :
  boot os_MkdirAll os_WriteFile os_Setenv os_Stat readFile yaml_Unmarshal env configPath webhooks w = (Ok (env', cfg, h), w') ->
  AdminToken env' <> "" /\ AdapterToken env' <> "" /\
  exists ta tb, boot_token (AdminToken env') RoleAdmin ta /\ boot_token (AdapterToken env') RoleAdapter tb /\
    two_tokens ta tb (store w') /\ MemoryStore.auditEvents (store w') = [] /\ MemoryStore.auditLastHash (store w') = "".
Proof.
  unfold boot. destruct (Load _ _ _ _ _) as [cfg0|]; [|done]. unfold modify. st_unfold.
  destruct (ensureToken _ _ _ env _ _ _ _) as [[env1|] w1] eqn:H1; [|done]. apply ensureToken_run in H1 as (Hs1 & Hne1 & _).
  destruct (ensureToken _ _ _ env1 _ _ _ _) as [[env2|] w2] eqn:H2; [|done]. apply ensureToken_run in H2 as (Hs2 & Hne2 & Hfr2).
  destruct (newWebAuthn cfg0 w2) as [wa w3] eqn:H3. apply (f_equal (fun x => store x.2)) in H3. rewrite newWebAuthn_store in H3. cbn in H3.
  destruct (RegisterToken _ "admin" _ w3) as [[ta|] w4] eqn:H4; [|done]. apply RegisterToken_ok in H4 as (Ha & Hia & Ht4 & Hs4).
  destruct (RegisterToken _ "adapter" _ w4) as [[tb|] w5] eqn:H5; [|done]. apply RegisterToken_ok in H5 as (Hb & Hib & Ht5 & Hs5).
  intros [= <- <- <- <-]. unfold AdminToken, AdapterToken in *. rewrite Hfr2 in * by done. split_and!; [done..|].
  exists ta, tb. split_and!; [done..| | |].
  - split.
    + rewrite Hia, Hib. intros Heq%uuid_inj. lia.
    + cbn. rewrite Hs5. cbn. rewrite Hs4. cbn. rewrite <- H3, Hs2, Hs1. done.
  - cbn. rewrite Hs5. cbn. rewrite Hs4. cbn. rewrite <- H3, Hs2, Hs1. done.
  - cbn. rewrite Hs5. cbn. rewrite Hs4. cbn. rewrite <- H3, Hs2, Hs1. done.
Qed.
End Facts.

Section Runs.
Context {L : Lib} {E : Env} `{!EnvOk E}.

Lemma exchange_append_only decodeBody encode cfg h r (w : World L) ls :
  append_only w (exchange (Handler_ decodeBody encode cfg h) r w ls).1.2.
Proof.
  rewrite exchange_world. destruct (id_world_later r w) as (k & _ & ->).
  etrans; [apply (append_only_tick w k)|apply served_append_only].
Qed.

Lemma serve_all_append_only decodeBody encode cfg h rs (w : World L) ls :
  append_only w (serve_all (Handler_ decodeBody encode cfg h) rs w ls).1.
Proof.
  revert w ls. induction rs as [|r rs IH]; intros w ls; cbn [serve_all]; [reflexivity|].
  pose proof (exchange_append_only decodeBody encode cfg h r w ls) as Hx.
  destruct (exchange _ r w ls) as [[resp w'] ls']. etrans; [exact Hx|apply IH].
Qed.

Lemma two_tokens_stored ta tb (w : World L) tok : two_tokens ta tb (store w) ->
  (exists id, MemoryStore.authTokens (store w) !! id = Some tok) <-> tok = ta \/ tok = tb.
Proof.
  intros [Hne ->]. split.
  - intros [id Hid]. apply lookup_insert_Some in Hid as [[_ <-]|[_ Hid]]; [by right|].
    apply lookup_insert_Some in Hid as [[_ <-]|[_ Hid]]; [by left|by rewrite lookup_empty in Hid].
  - intros [-> | ->]; [exists (AuthToken.ID ta)|exists (AuthToken.ID tb)]; [|by rewrite lookup_insert_eq].
    by rewrite lookup_insert_ne, lookup_insert_eq by done.
Qed.

(** A live stored token makes its plain text validate. *)
Lemma Validate_live plain role tok (w : World L) : boot_token plain role tok ->
  (exists id, MemoryStore.authTokens (store w) !! id = Some tok) -> exists tok' w', Validate plain w = (Ok tok', w').
Proof.
  intros [_ [Hr He] Hb] Hin. rewrite Validate_run. by eapply validate_loop_complete; [apply listed_token| | |].
Qed.

(** A bearer token that validates lets the wrapped handler run. *)
Lemma Middleware_bearer {B P} (next : handler B P) r plain (w : World L) :
  Request.Authorization r = "Bearer " +:+ plain -> (exists tok w', Validate plain w = (Ok tok, w')) ->
  exists tok k, (exists id, MemoryStore.authTokens (store w) !! id = Some tok) /\
    Middleware next r w = next (Request.set_token tok r) (set_tick k w).
Proof.
  intros Ha (tok & w' & Hv). unfold Middleware. rewrite Ha.
  assert (Ht : TrimPrefix ("Bearer " +:+ plain) "Bearer " = plain) by (by destruct plain).
  destruct (String.eqb_spec ("Bearer " +:+ plain) "") as [He|_]; [done|]. rewrite Ht.
  destruct (String.eqb_spec plain ("Bearer " +:+ plain)) as [He|_].
  { apply (f_equal String.length) in He. rewrite str_length_app in He. cbn in He. lia. }
  destruct (Validate_sound_run plain w) as (res & k & Hrun & Hacc). st_unfold. rewrite Hrun.
  rewrite Hv in Hrun. injection Hrun as <- _. exists tok, k. split; [|done]. apply (Hacc tok eq_refl).
Qed.
End Runs.

(** ** Properties *)

Definition demo_boot_environ : environ := fun k => if String.eqb k "OIAF_ADMIN_TOKEN" then Some "s3cret" else None.

Definition demo_boot : result (environ * Config.t * Handler.t) * World demo_lib :=
  boot (fun _ _ => Ok tt) (fun _ _ _ => Ok tt) (fun _ _ _ => Ok tt) (fun _ => false) (fun _ => Err "no file") (fun _ c => Ok c)
    demo_boot_environ "" "" demo_world.

(** C2: the daemon's own tokens last: after a start that succeeded, in any
    environment and with any file, and after any sequence of HTTP requests
    whatsoever, the administrator's and the adapter's token (the configured ones,
    or those just generated) are not empty, are stored unrevoked and without an
    expiry under the administrator's and the adapter's role, and are accepted; and
    the audit log is a valid hash chain. So no request can lock the administrator
    out, or turn the adapter's token into an administrator's. *)
Theorem boot_tokens_last {L : Lib} {E : Env} `{!EnvOk E} `{!LibOk L} mkdir writef setenv stat readFile yaml
    env path hooks (w : World L) env' cfg h w' decodeBody encode rs ls :
  boot mkdir writef setenv stat readFile yaml env path hooks w = (Ok (env', cfg, h), w') ->
  let w'' := (serve_all (Handler_ decodeBody encode (Config.Server cfg) h) rs w' ls).1 in
  audit_ok (store w'') /\ AdminToken env' <> "" /\ AdapterToken env' <> "" /\
  (exists tok v, Validate (AdminToken env') w'' = (Ok tok, v)) /\
  (exists tok v, Validate (AdapterToken env') w'' = (Ok tok, v)) /\
  exists ta tb, boot_token (AdminToken env') RoleAdmin ta /\ boot_token (AdapterToken env') RoleAdapter tb /\
    MemoryStore.authTokens (store w'') !! AuthToken.ID ta = Some ta /\
    MemoryStore.authTokens (store w'') !! AuthToken.ID tb = Some tb.
Proof.
  intros Hb. apply boot_run in Hb as (Hna & Hnb & ta & tb & Ha & Hb & Htwo & Hlog & Hhash); [|done..]. cbv zeta.
  destruct (serve_all_append_only decodeBody encode (Config.Server cfg) h rs w' ls) as [Hau _ Htok].
  set (w'' := (serve_all _ _ _ _).1) in *. clearbody w''.
  assert (Htwo'' : two_tokens ta tb (store w'')) by (destruct Htwo as [Hne Heq]; split; [done|by rewrite Htok]).
  split_and!; [|done|done| | |].
  - apply Hau. unfold audit_ok. by rewrite Hlog, Hhash.
  - eapply Validate_live; [exact Ha|]. apply (two_tokens_stored ta tb); [done|by left].
  - eapply Validate_live; [exact Hb|]. apply (two_tokens_stored ta tb); [done|by right].
  - exists ta, tb. destruct Htwo'' as [Hne ->]. split_and!; [done..| |by rewrite lookup_insert_eq].
    by rewrite lookup_insert_ne, lookup_insert_eq by done.
Qed.

Lemma boot_tokens_last_witness : exists env' cfg h w',
  demo_boot = (Ok (env', cfg, h), w') /\ AdminToken env' = "s3cret" /\ AdapterToken env' <> "" /\
  exists tok v, Validate "s3cret" (serve_all (Handler_ demo_decode_body demo_encode (Config.Server cfg) h)
    [demo_hreq "GET" "" ["healthz"]; demo_hreq "GET" "Bearer s3cret" ["v1"; "policies"]] w' []).1 = (Ok tok, v).
Proof.
  do 4 eexists. split; [cbv [demo_boot]; reflexivity|].
  edestruct (boot_tokens_last (fun _ _ => Ok tt) (fun _ _ _ => Ok tt) (fun _ _ _ => Ok tt) (fun _ => false) (fun _ => Err "no file")
    (fun _ c => Ok c) demo_boot_environ "" "" demo_world) as (_ & _ & Hne & Hv & _); [reflexivity|].
  split; [vm_compute; reflexivity|]. split; [exact Hne|exact Hv].
Defined.

(** C10: the daemon does what its administrator asks: after a start and any
    sequence of requests, a request that bears the administrator's token and fits
    a pattern of the API is carried out by that endpoint's handler, with a token of
    the daemon in its context, whatever else was requested before. *)
Theorem admin_request_served {L : Lib} {E : Env} `{!EnvOk E} `{!LibOk L} mkdir writef setenv stat readFile yaml
    env path hooks (w : World L) env' cfg h w' decodeBody encode rs ls r e vs :
  boot mkdir writef setenv stat readFile yaml env path hooks w = (Ok (env', cfg, h), w') ->
  HReq.Authorization r = "Bearer " +:+ AdminToken env' ->
  mux_lookup (server_routes (Config.Server cfg)) r = Some (Api e, vs) ->
  let stack := Handler_ decodeBody encode (Config.Server cfg) h in
  let w'' := (serve_all stack rs w' ls).1 in
  exists tok k, AuthToken.Role_ tok ∈ [RoleAdmin; RoleAdapter] /\
  forall ls', (exchange stack r w'' ls').1.2
    = (handler_of h e (Request.set_token tok (api_request decodeBody e (limited r) vs)) (set_tick k w'')).2.
Proof.
  intros Hb Hauth Hmux. apply boot_run in Hb as (Hna & _ & ta & tb & Ha & Hb & Htwo & _); [|done..]. cbv zeta.
  destruct (serve_all_append_only decodeBody encode (Config.Server cfg) h rs w' ls) as [_ _ Htok].
  set (w'' := (serve_all _ _ _ _).1) in *. clearbody w''.
  destruct (id_world_later r w'') as (k0 & _ & Hid).
  assert (Htwo'' : two_tokens ta tb (store (set_tick k0 w''))) by (destruct Htwo as [Hne Heq]; split; [done|by cbn; rewrite Htok]).
  destruct (Middleware_bearer (handler_of h e) (api_request decodeBody e (limited r) vs) (AdminToken env') (set_tick k0 w''))
    as (tok & k & Hst & Hrun); [exact Hauth| |].
  { eapply Validate_live; [exact Ha|]. apply (two_tokens_stored ta tb); [done|by left]. }
  exists tok, k. split.
  { apply (two_tokens_stored ta tb _ _ Htwo'') in Hst as [-> | ->];
    [rewrite (bt_role _ _ _ Ha)|rewrite (bt_role _ _ _ Hb)]; set_solver. }
  intros ls'. rewrite exchange_world, Hid. unfold served. change (mux_lookup _ (limited r)) with (mux_lookup (server_routes (Config.Server cfg)) r).
  rewrite Hmux. unfold route. by rewrite Hrun.
Qed.

Definition demo_daemon : environ * Config.t * Handler.t :=
  match demo_boot.1 with Ok d => d | Err _ => (demo_boot_environ, Default, demo_handler) end.

Lemma admin_request_served_witness :
  let '(env, cfg, h) := demo_daemon in
  let stack := Handler_ demo_decode_body demo_encode (Config.Server cfg) h in
  let r := demo_hreq "GET" "Bearer s3cret" ["v1"; "policies"] in
  exists tok k, AuthToken.Role_ tok ∈ [RoleAdmin; RoleAdapter] /\
  (exchange stack r demo_boot.2 []).1.2
  = (handler_of h ListPolicies (Request.set_token tok (api_request demo_decode_body ListPolicies (limited r) [])) (set_tick k demo_boot.2)).2.
Proof.
  destruct (admin_request_served (fun _ _ => Ok tt) (fun _ _ _ => Ok tt) (fun _ _ _ => Ok tt) (fun _ => false) (fun _ => Err "no file")
    (fun _ c => Ok c) demo_boot_environ "" "" demo_world demo_daemon.1.1 demo_daemon.1.2 demo_daemon.2 demo_boot.2
    demo_decode_body demo_encode [] [] (demo_hreq "GET" "Bearer s3cret" ["v1"; "policies"]) ListPolicies []) as (tok & k & Hr & Hx);
    [reflexivity..|]. exists tok, k. split; [exact Hr|exact (Hx [])].
Defined.

(** ** What modelling showed *)

(** Against docs/architecture/adapters.md, the token an adapter gets when it is
    registered opens nothing: whatever was requested since the start, a text is
    accepted only as one of the two tokens the daemon registered for itself. *)
Theorem only_boot_tokens {L : Lib} {E : Env} `{!EnvOk E} `{!LibOk L} mkdir writef setenv stat readFile yaml
    env path hooks (w : World L) env' cfg h w' decodeBody encode rs ls s tok v :
  boot mkdir writef setenv stat readFile yaml env path hooks w = (Ok (env', cfg, h), w') ->
  let w'' := (serve_all (Handler_ decodeBody encode (Config.Server cfg) h) rs w' ls).1 in
  Validate s w'' = (Ok tok, v) -> boot_token (AdminToken env') RoleAdmin tok \/ boot_token (AdapterToken env') RoleAdapter tok.
Proof.
  intros Hb. apply boot_run in Hb as (_ & _ & ta & tb & Ha & Hb & Htwo & _ & _); [|done..]. cbv zeta.
  destruct (serve_all_append_only decodeBody encode (Config.Server cfg) h rs w' ls) as [_ _ Htok].
  set (w'' := (serve_all _ _ _ _).1) in *. clearbody w''.
  assert (Htwo'' : two_tokens ta tb (store w'')) by (destruct Htwo as [Hne Heq]; split; [done|by rewrite Htok]).
  intros Hv. destruct (Validate_sound_run s w'') as (r & k & Hrun & Hacc). rewrite Hv in Hrun. injection Hrun as <- _.
  destruct (Hacc tok eq_refl) as (Hst & _). apply (two_tokens_stored ta tb w'') in Hst as [-> | ->]; [by left|by right|done].
Qed.
