(* ===== verification/EndToEnd.v ===== *)
(** * From a client's request to its effect

    The evaluation endpoint on the wire: how a request body is decoded into an
    [AccessRequest] (types.go, [decodeJSON] of api.go), how a decision is encoded
    ([writeJSON]) and how a client reads it, and, put together with the HTTP stack
    (Server), the SDK (Sdk) and the PAM helper (Pam), what a login at a host comes
    to: a request is carried over as the text it is. *)

From S2P Require Import Prelude GoStrings GoTime GoFloat GoCrypto GoRunes GoJson GoHttp GoParse GoOs GoJsonRead GoFloatRead Types World GoTimeRead Instances Storage AuditLog Bus Auth Mfa Orchestrator Discovery Risk Policy Inventory Api Okta OktaState OktaPoller OktaRedact Sdk Pam Config Server Daemon.

(** ** Requests (types.go) *)

Definition zero_AccessIdentity : AccessIdentity.t := AccessIdentity.mk "" [] "" false "" 0 false false false.
Definition zero_AccessRequest : AccessRequest.t :=
  AccessRequest.mk zero_AccessIdentity (AccessResource.mk "" "" "") (AccessProtocol.mk "") (AccessSource.mk "" "" "")
    (AccessDevice.mk false false) (AccessContext.mk false false false).

Definition AccessIdentity_fields : list (GoJsonRead.field AccessIdentity.t) :=
  [at_field "username" AccessIdentity.Username (fun x '(AccessIdentity.mk _ b c d e f g h i) => AccessIdentity.mk x b c d e f g h i) d_string;
   at_field "groups" AccessIdentity.Groups (fun x '(AccessIdentity.mk a _ c d e f g h i) => AccessIdentity.mk a x c d e f g h i) (d_slice "" d_string);
   at_field "type" AccessIdentity.Type_ (fun x '(AccessIdentity.mk a b _ d e f g h i) => AccessIdentity.mk a b x d e f g h i) d_string;
   at_field "privileged" AccessIdentity.Privileged (fun x '(AccessIdentity.mk a b c _ e f g h i) => AccessIdentity.mk a b c x e f g h i) d_bool;
   at_field "usual_geo" AccessIdentity.UsualGeo (fun x '(AccessIdentity.mk a b c d _ f g h i) => AccessIdentity.mk a b c d x f g h i) d_string;
   at_field "last_logon_days" AccessIdentity.LastLogonDays (fun x '(AccessIdentity.mk a b c d e _ g h i) => AccessIdentity.mk a b c d e x g h i) d_int;
   at_field "password_never_expires" AccessIdentity.PasswordNeverExpires
     (fun x '(AccessIdentity.mk a b c d e f _ h i) => AccessIdentity.mk a b c d e f x h i) d_bool;
   at_field "has_spn" AccessIdentity.HasSPN (fun x '(AccessIdentity.mk a b c d e f g _ i) => AccessIdentity.mk a b c d e f g x i) d_bool;
   at_field "is_gmsa" AccessIdentity.IsGMSA (fun x '(AccessIdentity.mk a b c d e f g h _) => AccessIdentity.mk a b c d e f g h x) d_bool].

Definition AccessResource_fields : list (GoJsonRead.field AccessResource.t) :=
  [at_field "type" AccessResource.Type_ (fun x '(AccessResource.mk _ b c) => AccessResource.mk x b c) d_string;
   at_field "name" AccessResource.Name (fun x '(AccessResource.mk a _ c) => AccessResource.mk a x c) d_string;
   at_field "sensitivity" AccessResource.Sensitivity_ (fun x '(AccessResource.mk a b _) => AccessResource.mk a b x) d_string].

Definition AccessProtocol_fields : list (GoJsonRead.field AccessProtocol.t) :=
  [at_field "name" AccessProtocol.Name (fun x _ => AccessProtocol.mk x) d_string].

Definition AccessSource_fields : list (GoJsonRead.field AccessSource.t) :=
  [at_field "ip" AccessSource.IP (fun x '(AccessSource.mk _ b c) => AccessSource.mk x b c) d_string;
   at_field "geo" AccessSource.Geo (fun x '(AccessSource.mk a _ c) => AccessSource.mk a x c) d_string;
   at_field "reputation" AccessSource.Reputation (fun x '(AccessSource.mk a b _) => AccessSource.mk a b x) d_string].

Definition AccessDevice_fields : list (GoJsonRead.field AccessDevice.t) :=
  [at_field "managed" AccessDevice.Managed (fun x '(AccessDevice.mk _ b) => AccessDevice.mk x b) d_bool;
   at_field "compliant" AccessDevice.Compliant (fun x '(AccessDevice.mk a _) => AccessDevice.mk a x) d_bool].

Definition AccessContext_fields : list (GoJsonRead.field AccessContext.t) :=
  [at_field "mfa_recent" AccessContext.MFARecent (fun x '(AccessContext.mk _ b c) => AccessContext.mk x b c) d_bool;
   at_field "interactive" AccessContext.Interactive (fun x '(AccessContext.mk a _ c) => AccessContext.mk a x c) d_bool;
   at_field "baseline_deviation" AccessContext.BaselineDeviation (fun x '(AccessContext.mk a b _) => AccessContext.mk a b x) d_bool].

Definition AccessRequest_fields : list (GoJsonRead.field AccessRequest.t) :=
  [at_field "identity" AccessRequest.Identity (fun x '(AccessRequest.mk _ b c d e f) => AccessRequest.mk x b c d e f) (d_struct AccessIdentity_fields);
   at_field "resource" AccessRequest.Resource (fun x '(AccessRequest.mk a _ c d e f) => AccessRequest.mk a x c d e f) (d_struct AccessResource_fields);
   at_field "protocol" AccessRequest.Protocol (fun x '(AccessRequest.mk a b _ d e f) => AccessRequest.mk a b x d e f) (d_struct AccessProtocol_fields);
   at_field "source" AccessRequest.Source (fun x '(AccessRequest.mk a b c _ e f) => AccessRequest.mk a b c x e f) (d_struct AccessSource_fields);
   at_field "device" AccessRequest.Device (fun x '(AccessRequest.mk a b c d _ f) => AccessRequest.mk a b c d x f) (d_struct AccessDevice_fields);
   at_field "context" AccessRequest.Context_ (fun x '(AccessRequest.mk a b c d e _) => AccessRequest.mk a b c d e x) (d_struct AccessContext_fields)].

Definition d_AccessRequest : decoder AccessRequest.t := d_struct AccessRequest_fields.

(** [decodeJSON(r, &req)]: the first value of the body. *)
Definition decode_access (b : Reader.t) : option AccessRequest.t :=
  t_Decode (t_of d_AccessRequest) (Reader.data b) zero_AccessRequest.

(** Bodies of the other endpoints are decoded by [other]. *)
Definition decode_body (other : forall e, Reader.t -> option (body_of e)) : forall e, Reader.t -> option (body_of e) :=
  fun e => match e as e return Reader.t -> option (body_of e) with AccessEvaluate => decode_access | e => other e end.

(** ** Decisions *)

(** [json.NewEncoder(w).Encode(v)] of an [AccessDecision]; a value that does not
    encode leaves the body empty. The handler's reasons are never a nil slice. *)
Definition m_ChallengeInfo (c : ChallengeInfo.t) : result jval :=
  expires ← m_time (ChallengeInfo.ExpiresAt c);
  Ok (e_members [("id", e_string (ChallengeInfo.ID c)); ("methods", e_strings (ChallengeInfo.Methods c)); ("expires_at", expires)]).

Definition m_AccessDecision (d : AccessDecision.t) : result jval :=
  ch ← match AccessDecision.Challenge d with
       | Some c => v ← m_ChallengeInfo c; Ok [("challenge", v)]
       | None => Ok []
       end;
  Ok (e_members ([("request_id", e_string (AccessDecision.RequestID d)); ("decision", e_string (AccessDecision.Decision_ d));
                  ("risk_score", e_int (AccessDecision.RiskScore d)); ("reasons", e_strings (AccessDecision.Reasons d))] ++ ch)).

Definition encode_decision (d : AccessDecision.t) : string :=
  match m_AccessDecision d with Ok v => compact v +:+ of_bytes [10] | Err _ => "" end.

Definition encode_payload {L : Lib} (other : payload L -> string) (p : payload L) : string :=
  match p with PDecision d => encode_decision d | p => other p end.

(** ** The client's side *)

(** [json.Unmarshal] into a [map[string]interface{}]. *)
Fixpoint any_of (v : jval) : option any :=
  match v with
  | VNull => Some ANil
  | VBool b => Some (ABool b)
  | VNum lit => AFloat <$> ParseFloat (of_bytes lit)
  | VStr raw => Some (AStr (unquote raw))
  | VArr l =>
      AArr <$> (fix go l := match l with [] => Some [] | v :: l' => x ← any_of v; r ← go l'; Some (x :: r) end) l
  | VObj m =>
      AObj <$> (fix go m acc := match m with [] => Some acc | kv :: m' => x ← any_of kv.2; go m' (put (unquote kv.1) x acc) end) m []
  end.

Definition json_map (s : string) : result (list (string * any)) :=
  match scan (bytes s) with
  | Some VNull => Ok []
  | Some v => match any_of v with Some (AObj m) => Ok m | _ => Err "json: cannot unmarshal" end
  | None => Err "invalid JSON"
  end.

(** What the client gets from the handler [f] in the world [w]. *)
Definition answer {L : Lib} (base : string) (f : handlerFunc L) (w : World L) (r : HttpRequest.t) : result HttpResponse.t :=
  match (exchange f (delivered base r) w []).1.1 with
  | Some (st, hs, body) => Ok (HttpResponse.mk st (fun k => default "" (hs !! k)) body)
  | None => Err "EOF"
  end.

(** ** Specification *)

(** The request the helper means. *)
Definition pam_request (cfg : PamConfig.t) : AccessRequest.t :=
  AccessRequest.mk (AccessIdentity.mk (PamConfig.user cfg) (PamConfig.groups cfg) "person" false "" 0 false false false)
    (AccessResource.mk (PamConfig.service cfg) (PamConfig.service cfg) (if String.eqb (PamConfig.service cfg) "sudo" then "high" else "medium"))
    (AccessProtocol.mk "pam") (AccessSource.mk "" "" "") (AccessDevice.mk false true) (AccessContext.mk false true false).

(** The request the Okta adapter means by a signal. *)
Definition okta_request (sig : Signal.t) (s : State.t) : AccessRequest.t :=
  let known := State.Identities s !! Signal.Login sig in
  AccessRequest.mk
    (AccessIdentity.mk (Signal.Login sig) [] "person" (match known with Some id => IdentityState.Admin id | None => false end)
       (match known with Some id => IdentityState.LastGeo id | None => "" end) 0 false false false)
    (AccessResource.mk "okta_signin" ("okta:" +:+ Signal.Type_ sig)
       (if bool_decide (Signal.Type_ sig ∈ [SignalAdminAction; SignalMFAFail; SignalMFADeny; SignalMFAFatigue;
                                            SignalImpossibleTravel; SignalNewDevice; SignalLegacyAuth]) then "high" else "medium"))
    (AccessProtocol.mk "okta_sso") (AccessSource.mk (Signal.IP sig) (Signal.Geo_ sig) "")
    (AccessDevice.mk false (String.eqb (Signal.Type_ sig) SignalAuthFailure)) (AccessContext.mk false true false).

(** ** Facts: decoding *)

Lemma no_ws : forall d : nat, ws_only ((fun _ => []) d).
Proof. constructor. Qed.

(** A document and a newline, as the encoder writes it. *)
Lemma scan_line v : doc_ok maxNestingDepth v -> scan (bytes (compact v +:+ of_bytes [10])) = Some v.
Proof.
  intros Hok. unfold compact. rewrite bytes_app, !bytes_of_bytes; [|by repeat constructor|eapply print_bytes; [exact no_ws|constructor|exact Hok]].
  unfold scan. rewrite (value_print (fun _ => []) [] no_ws (Forall_nil_2 _) _ v 0%nat [10] Hok); [done|by repeat split].
Qed.

(** Not to be unfolded when terms are compared. *)
#[local] Opaque scan raw_value maxNestingDepth.

Lemma d_cons {A} (fs : list (GoJsonRead.field A)) k v d rest (a a' : A) :
  find_field fs (ToValidUTF8 k) = Some d -> d v a = Some a' ->
  d_members (d_field fs) (member_texts ((k, v) :: rest)) a = d_members (d_field fs) (member_texts rest) a'.
Proof. intros Hf Hd. by apply (d_omit fs false k v d rest a a' Hf). Qed.

(** What [Marshal] writes, [decodeJSON] reads as the same document. *)
Lemma decode_Marshal {A} (d : decoder A) n v s zero : any_ok n v -> Z.of_nat n <= 10000 -> Marshal v = Ok s ->
  t_Decode (t_of d) s zero = d (any_doc v) zero.
Proof.
  intros Hv Hn. destruct (Marshal_doc n v Hv) as [-> Hd]. intros [= <-].
  pose proof (depth_ok n _ Hd Hn) as Hok. unfold t_Decode, compact.
  rewrite bytes_of_bytes by (eapply print_bytes; [exact no_ws|constructor|exact Hok]).
  pose proof (raw_value_print (fun _ => []) [] no_ws (Forall_nil_2 _) [] 0 (any_doc v) [] (Forall_nil_2 _) Hok I) as Hr.
  cbn [app] in Hr. rewrite app_nil_r in Hr. rewrite Hr. unfold t_of. by rewrite (scan_print (fun _ => []) [] no_ws (Forall_nil_2 _) 0 _ Hok).
Qed.

(** A member of a struct. *)
Lemma d_named {A B} (fs : list (GoJsonRead.field A)) name (get : A -> B) set (d : decoder B) v rest a x :
  find (fun f => String.eqb f.1 name) fs = Some (at_field name get set d) -> valid_utf8 name -> d v (get a) = Some x ->
  d_members (d_field fs) (member_texts ((name, v) :: rest)) a = d_members (d_field fs) (member_texts rest) (set x a).
Proof.
  intros Hf Hn Hd. eapply d_cons; [rewrite Hn; unfold find_field; by rewrite Hf|]. cbn. by rewrite Hd.
Qed.

Lemma d_string_valid s old : valid_utf8 s -> d_string (e_string s) old = Some s.
Proof. intros Hs. by rewrite d_string_e_string, Hs. Qed.

(** Reads the members of a struct in the order they are written. *)
Ltac read_members :=
  unfold d_struct at 1, e_members at 1;
  repeat (erewrite d_named; [|reflexivity|vm_compute; reflexivity|
    lazymatch goal with
    | |- d_struct _ _ _ = _ => read_members
    | |- d_string _ _ = _ => apply d_string_valid; first [eassumption|vm_compute; reflexivity]
    | |- d_slice _ _ _ _ = _ => apply d_strings_e_strings; eassumption
    | |- _ => reflexivity
    end]);
  reflexivity.

Lemma buildRequest_ok cfg : any_ok 3 (buildRequest cfg).
Proof. unfold buildRequest. destruct (PamConfig.groups cfg); repeat constructor. Qed.

Lemma pam_request_read cfg : valid_utf8 (PamConfig.user cfg) -> valid_utf8 (PamConfig.service cfg) -> Forall valid_utf8 (PamConfig.groups cfg) ->
  d_AccessRequest (any_doc (buildRequest cfg)) zero_AccessRequest = Some (pam_request cfg).
Proof.
  intros Hu Hs Hg.
  assert (Hsens : valid_utf8 (if String.eqb (PamConfig.service cfg) "sudo" then "high" else "medium")) by (destruct (String.eqb _ _); vm_compute; reflexivity).
  transitivity (d_AccessRequest (e_members [("context", e_members [("interactive", VBool true); ("mfa_recent", VBool false)]);
      ("device", e_members [("compliant", VBool true); ("managed", VBool false)]);
      ("identity", e_members (match PamConfig.groups cfg with [] => [] | gs => [("groups", e_strings gs)] end ++
                              [("type", e_string "person"); ("username", e_string (PamConfig.user cfg))]));
      ("protocol", e_members [("name", e_string "pam")]);
      ("resource", e_members [("name", e_string (PamConfig.service cfg));
         ("sensitivity", e_string (if String.eqb (PamConfig.service cfg) "sudo" then "high" else "medium")); ("type", e_string (PamConfig.service cfg))]);
      ("source", e_members [])]) zero_AccessRequest); unfold buildRequest, pam_request; destruct (PamConfig.groups cfg) as [|g gs]; [reflexivity..| |].
  all: unfold d_AccessRequest; cbn [app]; read_members.
Qed.

Lemma okta_request_ok sig s : any_ok 2 (AObj (signalToAccessRequest sig s)).
Proof.
  unfold signalToAccessRequest. destruct (State.Identities s !! Signal.Login sig) as [id|]; [destruct (String.eqb (IdentityState.LastGeo id) "")|];
    destruct (String.eqb (Signal.IP sig) ""), (String.eqb (Signal.Geo_ sig) ""); repeat constructor.
Qed.

(** Every text of a signal, and what the memory adds to it. *)
Definition signal_valid (sig : Signal.t) (s : State.t) : Prop :=
  valid_utf8 (Signal.Login sig) /\ valid_utf8 ("okta:" +:+ Signal.Type_ sig) /\ valid_utf8 (Signal.IP sig) /\ valid_utf8 (Signal.Geo_ sig) /\
  forall id, State.Identities s !! Signal.Login sig = Some id -> valid_utf8 (IdentityState.LastGeo id).

Lemma okta_source_read ip geo : valid_utf8 ip -> valid_utf8 geo ->
  d_struct AccessSource_fields (e_members ((if String.eqb geo "" then [] else [("geo", e_string geo)]) ++ (if String.eqb ip "" then [] else [("ip", e_string ip)])))
    (AccessSource.mk "" "" "") = Some (AccessSource.mk ip geo "").
Proof.
  intros Hi Hg. destruct (String.eqb_spec geo "") as [->|], (String.eqb_spec ip "") as [->|]; cbn [app]; read_members.
Qed.

Lemma okta_identity_read login priv geo : valid_utf8 login -> valid_utf8 geo ->
  d_struct AccessIdentity_fields (e_members ([("privileged", VBool priv); ("type", e_string "person"); ("username", e_string login)] ++
    (if String.eqb geo "" then [] else [("usual_geo", e_string geo)]))) zero_AccessIdentity
  = Some (AccessIdentity.mk login [] "person" priv geo 0 false false false).
Proof. intros Hl Hg. destruct (String.eqb_spec geo "") as [->|]; cbn [app]; read_members. Qed.

Lemma okta_request_read sig s : signal_valid sig s ->
  d_AccessRequest (any_doc (AObj (signalToAccessRequest sig s))) zero_AccessRequest = Some (okta_request sig s).
Proof.
  intros (Hl & Ht & Hi & Hg & Hk). unfold okta_request.
  set (high := bool_decide (Signal.Type_ sig ∈ _)). set (sens := if high then "high" else "medium").
  assert (Hsens : valid_utf8 sens) by (unfold sens; destruct high; vm_compute; reflexivity).
  set (priv := match State.Identities s !! Signal.Login sig with Some id => IdentityState.Admin id | None => false end).
  set (usual := match State.Identities s !! Signal.Login sig with Some id => IdentityState.LastGeo id | None => "" end).
  assert (Hu : valid_utf8 usual) by (unfold usual; destruct (State.Identities s !! Signal.Login sig) as [id|]; [by apply Hk|vm_compute; reflexivity]).
  transitivity (d_AccessRequest (e_members [("context", e_members [("interactive", VBool true); ("mfa_recent", VBool false)]);
      ("device", e_members [("compliant", VBool (String.eqb (Signal.Type_ sig) SignalAuthFailure)); ("managed", VBool false)]);
      ("identity", e_members ([("privileged", VBool priv); ("type", e_string "person"); ("username", e_string (Signal.Login sig))] ++
                              (if String.eqb usual "" then [] else [("usual_geo", e_string usual)])));
      ("protocol", e_members [("name", e_string "okta_sso")]);
      ("resource", e_members [("name", e_string ("okta:" +:+ Signal.Type_ sig)); ("sensitivity", e_string sens); ("type", e_string "okta_signin")]);
      ("source", e_members ((if String.eqb (Signal.Geo_ sig) "" then [] else [("geo", e_string (Signal.Geo_ sig))]) ++
                            (if String.eqb (Signal.IP sig) "" then [] else [("ip", e_string (Signal.IP sig))])))]) zero_AccessRequest).
  - f_equal. unfold signalToAccessRequest. fold high sens priv. unfold usual. clear -sens.
    destruct (State.Identities s !! Signal.Login sig) as [id|]; [destruct (String.eqb (IdentityState.LastGeo id) "")|];
      destruct (String.eqb (Signal.IP sig) ""), (String.eqb (Signal.Geo_ sig) ""); reflexivity.
  - pose proof (okta_source_read _ _ Hi Hg) as Hsrc. pose proof (okta_identity_read _ priv _ Hl Hu) as Hid.
    unfold d_AccessRequest, d_struct at 1, e_members at 1.
    erewrite d_named; [|reflexivity|vm_compute; reflexivity|read_members].
    erewrite d_named; [|reflexivity|vm_compute; reflexivity|read_members].
    erewrite d_named; [|reflexivity|vm_compute; reflexivity|exact Hid].
    erewrite d_named; [|reflexivity|vm_compute; reflexivity|read_members].
    erewrite d_named; [|reflexivity|vm_compute; reflexivity|read_members].
    erewrite d_named; [|reflexivity|vm_compute; reflexivity|exact Hsrc]. reflexivity.
Qed.

(** ** Facts: reading a decision *)

(** The scores the engine gives are numbers a client reads. *)
Lemma score_reads z : 0 <= z <= 100 -> exists f, any_of (e_int z) = Some (AFloat f).
Proof.
  intros Hz. assert (H : forallb (fun n => if any_of (e_int (Z.of_nat n)) is Some (AFloat _) then true else false) (seq 0 101) = true) by (vm_compute; reflexivity).
  rewrite forallb_forall in H. specialize (H (Z.to_nat z)). rewrite Z2Nat.id in H by lia.
  destruct (any_of (e_int z)) as [[]|]; try (by discriminate H; apply in_seq; lia). by eexists.
Qed.

(** The two loops of [any_of], by their own equations. *)
Fixpoint any_items (l : list jval) : option (list any) :=
  match l with [] => Some [] | v :: l' => x ← any_of v; r ← any_items l'; Some (x :: r) end.
Fixpoint any_members (m : list (list Z * jval)) (acc : list (string * any)) : option (list (string * any)) :=
  match m with [] => Some acc | kv :: m' => x ← any_of kv.2; any_members m' (put (unquote kv.1) x acc) end.

Lemma any_of_VArr l : any_of (VArr l) = AArr <$> any_items l.
Proof. reflexivity. Qed.
Lemma any_of_VObj m : any_of (VObj m) = AObj <$> any_members m [].
Proof. reflexivity. Qed.

Lemma any_of_string s : any_of (e_string s) = Some (AStr (ToValidUTF8 s)).
Proof. unfold e_string. cbn [any_of]. by rewrite unquote_escaped. Qed.

Lemma any_of_strings l : any_of (e_strings l) = Some (AArr ((fun s => AStr (ToValidUTF8 s)) <$> l)).
Proof.
  unfold e_strings. rewrite any_of_VArr. enough (any_items (e_string <$> l) = Some ((fun s => AStr (ToValidUTF8 s)) <$> l)) as -> by done.
  induction l as [|s l IH]; [done|]. cbn [fmap list_fmap any_items]. rewrite any_of_string. cbn [mbind option_bind]. by rewrite IH.
Qed.

(** A member with a plain name. *)
Lemma any_member k v x rest acc : valid_utf8 k -> any_of v = Some x ->
  any_members (member_texts ((k, v) :: rest)) acc = any_members (member_texts rest) (put k x acc).
Proof. intros Hk Hv. cbn [member_texts fmap list_fmap any_members fst snd]. by rewrite Hv, unquote_escaped, Hk. Qed.

(** A decision without a challenge, as the client sees it. *)
Lemma decision_read d : AccessDecision.Challenge d = None -> 0 <= AccessDecision.RiskScore d <= 100 -> exists m,
  json_map (encode_decision d) = Ok m /\ Pam.member m "decision" = AStr (ToValidUTF8 (AccessDecision.Decision_ d)).
Proof.
  intros Hc Hs. destruct (score_reads _ Hs) as [f Hf]. unfold encode_decision, m_AccessDecision. rewrite Hc. cbn [mbind result_bind app].
  unfold json_map. rewrite scan_line.
  - unfold e_members. rewrite any_of_VObj.
    rewrite (any_member "request_id" _ _ _ _ eq_refl (any_of_string _)), (any_member "decision" _ _ _ _ eq_refl (any_of_string _)).
    rewrite (any_member "risk_score" _ _ _ _ eq_refl Hf), (any_member "reasons" _ _ _ _ eq_refl (any_of_strings _)).
    cbn [member_texts fmap list_fmap any_members option_fmap option_map]. eexists. split; reflexivity.
  - apply (depth_ok 2); [|lia]. apply e_members_ok. repeat (apply Forall_cons_2; [first [apply e_string_ok|apply e_strings_ok|constructor; apply num_ok_int]|]). constructor.
Qed.

(** ** Facts: one exchange *)

Section Exchange.
Context {L : Lib} {E : Env}.
Context (decodeBody : forall e, Reader.t -> option (body_of e)) (encode : payload L -> string).

(** The stack passes on what the handler of an endpoint answers. *)
Lemma exchange_api cfg h r (w : World L) ls e vs st p w' :
  mux_lookup (server_routes cfg) r = Some (Server.Api e, vs) ->
  route h e (api_request decodeBody e (limited r) vs) (id_world r w) = (writeJSON st p, w') ->
  exists hs ls', exchange (Handler_ decodeBody encode cfg h) r w ls = (Some (st, hs, encode p), w', ls').
Proof.
  intros Hm Hr. unfold exchange, Handler_, middlewares. rewrite outer_run. unfold Recover, BodyLimit. fold (limited r).
  unfold RequestLogger, mbind, hm_bind, on_rw, mux. change (mux_lookup _ (limited r)) with (mux_lookup (server_routes cfg) r). rewrite Hm.
  unfold serve_api, mbind, hm_bind, lift. cbn [rw world logs]. rewrite Hr. cbn. eexists _, _. reflexivity.
Qed.

(** And so it does with an error other than a 401. *)
Lemma exchange_api_error cfg h r (w : World L) ls e vs st msg w' :
  mux_lookup (server_routes cfg) r = Some (Server.Api e, vs) -> st <> StatusUnauthorized ->
  route h e (api_request decodeBody e (limited r) vs) (id_world r w) = (writeError st msg, w') ->
  exists hs ls', exchange (Handler_ decodeBody encode cfg h) r w ls = (Some (st, hs, encode_strings [("error", msg)]), w', ls').
Proof.
  intros Hm Hst Hr. unfold exchange, Handler_, middlewares. rewrite outer_run. unfold Recover, BodyLimit. fold (limited r).
  unfold RequestLogger, mbind, hm_bind, on_rw, mux. change (mux_lookup _ (limited r)) with (mux_lookup (server_routes cfg) r). rewrite Hm.
  unfold serve_api, mbind, hm_bind, lift. cbn [rw world logs]. rewrite Hr. cbn [write_response].
  destruct (Z.eqb_spec st StatusUnauthorized); [done|]. cbn. eexists _, _. reflexivity.
Qed.
End Exchange.

Lemma score_range t req rr : Score t req = Ok rr -> 0 <= RiskResult.Score rr <= 100.
Proof. rewrite Score_eq. intros [= <-]. cbn [RiskResult.Score]. pose proof (total_nonneg _ (fired_points req)). lia. Qed.

(** ** Facts: a login *)

Section Login.
Context {L : Lib} {E : Env} `{!EnvOk E}.
Context (other_decode : forall e, Reader.t -> option (body_of e)) (other_encode : payload L -> string).
Context (scfg : ServerConfig.t) (h : Handler.t).
Notation stack := (Handler_ (decode_body other_decode) (encode_payload other_encode) scfg h).

(** The token is one the daemon accepts. *)
Definition accepts (w : World L) (token : string) : Prop := forall k, exists tok w', Validate token (set_tick k w) = (Ok tok, w').

(** What came of an evaluation: a challenge that could not be created, or the
    decision, made and logged. *)
Definition outcome_of (req : AccessRequest.t) (rr : RiskResult.t) (pd : PolicyDecision.t) (w w' : World L) (st : Z) (text : string) : Prop :=
  (final_decision (RiskResult.Level rr) (PolicyDecision.Effect pd) = DecisionChallenge /\
   st = StatusInternalServerError /\ text = encode_strings [("error", "failed to create challenge")]) \/
  exists dec, st = StatusOK /\ text = encode_decision dec /\ evaluated h req rr pd w w' dec.

(** An evaluation request of a client, through the stack. *)
Lemma evaluate_served c body req (w : World L) : SdkClient.token c <> "" -> accepts w (SdkClient.token c) ->
  Z.of_nat (String.length body) <= 1048576 -> decode_access (Reader.mk body false) = Some req ->
  let r := delivered (SdkClient.baseURL c) (sdk_request c "POST" "/v1/access/evaluate" (Some body)) in
  exists rr pd k st hs text w' ls, Score (Handler.risk h) req = Ok rr /\ (Evaluate req (set_tick k w)).1 = Ok pd /\
    exchange stack r w [] = (Some (st, hs, text), w', ls) /\ outcome_of req rr pd (set_tick k w) w' st text.
Proof.
  intros Hne Hacc Hlen Hdec. cbv zeta. unfold delivered, sdk_request. cbn [HttpRequest.Method HttpRequest.URL HttpRequest.Header HttpRequest.Body].
  destruct (String.eqb_spec (SdkClient.token c) "") as [|_]; [done|]. rewrite TrimPrefix_app.
  set (r := HReq.mk _ _ _ _ _ _ _).
  assert (Hr : r = HReq.mk "POST" ["v1"; "access"; "evaluate"] false "" ("Bearer " +:+ SdkClient.token c) (fun _ => "") (Reader.mk body false)) by reflexivity.
  clearbody r. subst r. set (r := HReq.mk _ _ _ _ _ _ _).
  assert (Hm : mux_lookup (server_routes scfg) r = Some (Server.Api AccessEvaluate, [])) by (unfold server_routes; by destruct (ServerConfig.MetricsEnabled scfg)).
  assert (Hlim : limited r = r).
  { unfold limited, MaxBytesReader. cbn [HReq.Body r Reader.data]. destruct (Z.leb_spec (Z.of_nat (String.length body)) 1048576); [done|lia]. }
  set (q := api_request (decode_body other_decode) AccessEvaluate r []).
  assert (Hq : Request.Body q = Some req) by (cbn; exact Hdec).
  destruct (id_world_later r w) as (k0 & _ & Hid).
  destruct (Middleware_bearer (handler_of h AccessEvaluate) q (SdkClient.token c) (set_tick k0 w) eq_refl (Hacc k0)) as (tok & k & _ & Hmid).
  pose proof (Score_eq (Handler.risk h) req) as Hs. cbv zeta in Hs.
  destruct (evaluate_run h (Request.set_token tok q) req _ (set_tick k (set_tick k0 w)) Hq Hs) as (pd & resp & w' & Hev & Hrun & Hres).
  assert (Hroute : route h AccessEvaluate (api_request (decode_body other_decode) AccessEvaluate (limited r) []) (id_world r w) = (resp, w'))
    by (rewrite Hlim, Hid; unfold route; fold q; rewrite Hmid; exact Hrun).
  destruct Hres as [[-> Hc]|(dec & -> & Hev')].
  - destruct (exchange_api_error (decode_body other_decode) (encode_payload other_encode) scfg h r w [] _ _ StatusInternalServerError _ _ Hm ltac:(done) Hroute) as (hs & ls & Hx).
    eexists _, pd, k, _, hs, _, w', ls. split; [exact Hs|]. split; [exact Hev|]. split; [exact Hx|]. by left.
  - destruct (exchange_api (decode_body other_decode) (encode_payload other_encode) scfg h r w [] _ _ _ _ _ Hm Hroute) as (hs & ls & Hx).
    eexists _, pd, k, _, hs, _, w', ls. split; [exact Hs|]. split; [exact Hev|]. split; [exact Hx|]. right. by exists dec.
Qed.

Context {N : Net}.

(** The answer as the client reads it. *)
Lemma evaluate_call {S} c body (w : World L) st hs text w' ls (s : Proc S) :
  http_NewRequest (SdkClient.baseURL c +:+ "/v1/access/evaluate") = true ->
  (forall r, http_Do (ptick s) r = answer (SdkClient.baseURL c) stack w r) ->
  exchange stack (delivered (SdkClient.baseURL c) (sdk_request c "POST" "/v1/access/evaluate" (Some body))) w [] = (Some (st, hs, text), w', ls) ->
  (EvaluateAccess c body s).1 = readResponse (HttpResponse.mk st (fun k => default "" (hs !! k)) text).
Proof.
  intros Hurl Hnet Hex. unfold EvaluateAccess, doRequest. rewrite Hurl. st_unfold. unfold send.
  rewrite Hnet. unfold answer. rewrite Hex. reflexivity.
Qed.

(** What the helper makes of an answer without a challenge. *)
Definition login_code (d : string) : option Z :=
  if bool_decide (d ∈ [DecisionAllow; DecisionAlert]) then Some exitSuccess
  else if String.eqb d DecisionDeny then Some exitAuthErr else None.

Lemma run_answered env cfg (s : Proc unit) body r : Getenv env "PAM_TYPE" ∉ skipPAMTypes -> PamConfig.token cfg <> "" ->
  Marshal (buildRequest cfg) = Ok body -> (EvaluateAccess (client cfg) body s).1 = r ->
  match r with
  | Err _ => (run json_map env cfg s).1 = fail (PamConfig.failOpen cfg)
  | Ok text => forall m d code, json_map text = Ok m -> Pam.member m "decision" = AStr d -> login_code d = Some code -> (run json_map env cfg s).1 = code
  end.
Proof.
  intros Hty Htok Hbody <-. unfold run. rewrite bool_decide_eq_false_2 by done. destruct (String.eqb_spec (PamConfig.token cfg) "") as [|_]; [done|].
  unfold evaluate. rewrite Hbody. st_unfold. destruct (EvaluateAccess (client cfg) body s) as [[text|e] s1]; cbn [fst]; [|done].
  intros m d code -> Hmd Hc. unfold mret, st_ret. cbn [fst snd]. rewrite Hmd. cbn [as_string]. revert Hc. unfold login_code.
  case_bool_decide as Hd; [|destruct (String.eqb_spec d DecisionDeny) as [->|]; [by intros [= <-]|done]].
  intros [= <-]. rewrite !elem_of_cons, elem_of_nil in Hd. by destruct Hd as [->|[->|[]]].
Qed.
End Login.

(** ** Properties *)

(** What a login tells the control plane: who, with which groups, and what for. *)
Definition login_request (cfg : PamConfig.t) (req : AccessRequest.t) : Prop :=
  AccessIdentity.Username (AccessRequest.Identity req) = PamConfig.user cfg /\
  AccessIdentity.Groups (AccessRequest.Identity req) = PamConfig.groups cfg /\
  AccessIdentity.Type_ (AccessRequest.Identity req) = "person" /\
  AccessRequest.Resource req = AccessResource.mk (PamConfig.service cfg) (PamConfig.service cfg)
    (if String.eqb (PamConfig.service cfg) "sudo" then "high" else "medium") /\
  AccessProtocol.Name (AccessRequest.Protocol req) = "pam".

(** C3: a login ends as the control plane decides. For a user, service and groups in
    UTF-8, a token the daemon accepts and a request within the body limit, the
    helper's request reaches the evaluation handler with the user, the groups, the
    service and its sensitivity, and is scored and put to the policies. Either the
    decision is a challenge that could not be created: the answer is a 500 and the
    helper ends as its fail mode says. Or the answer is the decision, which the
    handler made by risk and policy and logged; and when it is allow or alert, the
    helper ends with success, when it is deny, with an authentication error, as long
    as the answer fits the client's limit and whether the helper is set to fail open
    or not. (A challenge that was created is the helper's dialogue with the user.) *)
Theorem login_follows_decision {L : Lib} {E : Env} `{!EnvOk E} {N : Net} other_decode other_encode scfg h env cfg (w : World L) (s : Proc unit) :
  let stack := Handler_ (decode_body other_decode) (encode_payload other_encode) scfg h in
  let base := SdkClient.baseURL (client cfg) in
  Getenv env "PAM_TYPE" ∉ skipPAMTypes -> PamConfig.token cfg <> "" -> accepts w (PamConfig.token cfg) ->
  valid_utf8 (PamConfig.user cfg) -> valid_utf8 (PamConfig.service cfg) -> Forall valid_utf8 (PamConfig.groups cfg) ->
  Z.of_nat (String.length (compact (any_doc (buildRequest cfg)))) <= 1048576 ->
  http_NewRequest (base +:+ "/v1/access/evaluate") = true ->
  (forall r, http_Do (ptick s) r = answer base stack w r) ->
  exists body req rr pd k st hs text w' ls,
    Marshal (buildRequest cfg) = Ok body /\ decode_access (Reader.mk body false) = Some req /\ login_request cfg req /\
    Score (Handler.risk h) req = Ok rr /\ (Evaluate req (set_tick k w)).1 = Ok pd /\
    exchange stack (delivered base (sdk_request (client cfg) "POST" "/v1/access/evaluate" (Some body))) w [] = (Some (st, hs, text), w', ls) /\
    let d := final_decision (RiskResult.Level rr) (PolicyDecision.Effect pd) in
    ((d = DecisionChallenge /\ st = StatusInternalServerError /\ (run json_map env cfg s).1 = fail (PamConfig.failOpen cfg)) \/
     exists dec, st = StatusOK /\ text = encode_decision dec /\ evaluated h req rr pd (set_tick k w) w' dec /\
       (Z.of_nat (String.length text) <= maxRespBodyBytes ->
        (d = DecisionAllow \/ d = DecisionAlert -> (run json_map env cfg s).1 = exitSuccess) /\
        (d = DecisionDeny -> (run json_map env cfg s).1 = exitAuthErr))).
Proof.
  intros stack base Hty Htok Hacc Hu Hs Hg Hlen Hurl Hnet. destruct (Marshal_doc 3 _ (buildRequest_ok cfg)) as [Hbody _].
  set (body := compact (any_doc (buildRequest cfg))) in *.
  assert (Hdec : decode_access (Reader.mk body false) = Some (pam_request cfg)).
  { unfold decode_access. cbn [Reader.data]. rewrite (decode_Marshal _ 3 _ _ _ (buildRequest_ok cfg) ltac:(lia) Hbody). by apply pam_request_read. }
  destruct (evaluate_served other_decode other_encode scfg h (client cfg) body _ w Htok Hacc Hlen Hdec)
    as (rr & pd & k & st & hs & text & w' & ls & Hsc & Hev & Hex & Hout).
  exists body, (pam_request cfg), rr, pd, k, st, hs, text, w', ls. split_and!; [done..|]. intros d.
  pose proof (evaluate_call other_decode other_encode scfg h (client cfg) body w st hs text w' ls s Hurl Hnet Hex) as Hcall.
  pose proof (run_answered env cfg s body _ Hty Htok Hbody Hcall) as Hrun.
  destruct Hout as [(Hd & -> & ->)|(dec & -> & -> & Hdec')]; [left; by split_and!|right].
  exists dec. split_and!; [done..|]. intros Hfit. destruct Hdec' as (Hdd & Hrs & Hch & _). fold d in Hdd.
  unfold readResponse in Hrun. cbn [HttpResponse.StatusCode HttpResponse.Body isNotSuccess] in Hrun. rewrite limit_bytes_fits in Hrun by done.
  assert (Hread : forall code, d <> DecisionChallenge -> login_code (ToValidUTF8 d) = Some code -> (run json_map env cfg s).1 = code).
  { intros code Hnc Hcode. destruct (decision_read dec) as (m & Hm & Hmd); [|rewrite Hrs; by eapply score_range|].
    - destruct (AccessDecision.Challenge dec); [|done]. destruct Hch as [Hch _]. congruence.
    - rewrite Hdd in Hmd. exact (Hrun m _ code Hm Hmd Hcode). }
  clear -Hread. split; [intros [Hd|Hd]|intros Hd]; rewrite Hd in Hread; (apply Hread; [done|vm_compute; reflexivity]).
Qed.

(** a signal of the Okta adapter is scored: one whose texts are UTF-8 (those of the
    live source are) is decoded by the server to the request it means, decided and
    logged, and the sink reports success, unless the decision is a challenge that
    could not be created. *)
Theorem signal_scored {L : Lib} {E : Env} `{!EnvOk E} {N : Net} other_decode other_encode scfg h c sig st (w : World L) n :
  let stack := Handler_ (decode_body other_decode) (encode_payload other_encode) scfg h in
  let base := SdkClient.baseURL c in
  let req := okta_request sig st in
  SdkClient.token c <> "" -> accepts w (SdkClient.token c) -> signal_valid sig st ->
  Z.of_nat (String.length (compact (any_doc (AObj (signalToAccessRequest sig st))))) <= 1048576 ->
  http_NewRequest (base +:+ "/v1/access/evaluate") = true -> (forall r, http_Do n r = answer base stack w r) ->
  exists rr pd k, Score (Handler.risk h) req = Ok rr /\ (Evaluate req (set_tick k w)).1 = Ok pd /\
  (final_decision (RiskResult.Level rr) (PolicyDecision.Effect pd) <> DecisionChallenge ->
   EvaluateSink_Emit (fun n body => (EvaluateAccess c body (mkProc tt n [])).1) n st sig = Ok tt /\
   exists r dec w' hs ls, exchange stack r w [] = (Some (StatusOK, hs, encode_decision dec), w', ls) /\ evaluated h req rr pd (set_tick k w) w' dec).
Proof.
  intros stack base req Htok Hacc Hval Hlen Hurl Hnet. destruct (Marshal_doc 2 _ (okta_request_ok sig st)) as [Hbody _].
  assert (Hdec : decode_access (Reader.mk (compact (any_doc (AObj (signalToAccessRequest sig st)))) false) = Some req).
  { unfold decode_access. cbn [Reader.data]. rewrite (decode_Marshal _ 2 _ _ _ (okta_request_ok sig st) ltac:(lia) Hbody). by apply okta_request_read. }
  destruct (evaluate_served other_decode other_encode scfg h c _ req w Htok Hacc Hlen Hdec) as (rr & pd & k & rst & hs & text & w' & ls & Hsc & Hev & Hex & Hout).
  exists rr, pd, k. split; [done|]. split; [done|]. intros Hnc. destruct Hout as [[? _]|(dec & -> & -> & Hev')]; [done|]. split.
  - unfold EvaluateSink_Emit. rewrite Hbody.
    by rewrite (evaluate_call other_decode other_encode scfg h c _ w _ hs _ w' ls (mkProc tt n []) Hurl Hnet Hex).
  - by eexists _, dec, w', hs, ls.
Qed.

(** ** Concrete data *)

Definition demo_pam_cfg : PamConfig.t := PamConfig.mk "http://core" "s3cret" 0 true "" "bob" ["staff"] "sudo" "" "".

Definition demo_wired (w : World demo_lib) : Net := {|
  http_Do := fun _ => answer "http://core" (Handler_ (decode_body demo_decode_body) (encode_payload demo_encode) (Config.Server demo_daemon.1.2) demo_daemon.2) w;
  url_Parse := fun _ => Err ""; net_ParseIP := fun _ => None; http_ParseTime := fun _ => None; ctx_Err := fun _ => None;
  rand_Float64 := fun _ => of_int 0; os_ReadFile := fun _ _ => Err ""; tty_ReadLine := fun _ _ => None; stdin_Scan := fun _ => Ok None |}.

Lemma demo_accepts : accepts demo_boot.2 "s3cret".
Proof. intros k. eexists _, _. vm_compute. reflexivity. Qed.

(** Of an answer: status and text. *)
Definition status_text (x : option (Z * headers * string)) : option (Z * string) := (fun y => (y.1.1, y.2)) <$> x.

(** Sudo without a policy is denied, also by a helper that fails open. *)
Lemma login_follows_decision_witness : exists text,
  (run (N := demo_wired demo_boot.2) json_map (fun _ => None) demo_pam_cfg (mkProc tt 0 [])).1 = exitAuthErr /\
  status_text (exchange (Handler_ (decode_body demo_decode_body) (encode_payload demo_encode) (Config.Server demo_daemon.1.2) demo_daemon.2)
    (delivered "http://core" (sdk_request (client demo_pam_cfg) "POST" "/v1/access/evaluate" (Some (compact (any_doc (buildRequest demo_pam_cfg))))))
    demo_boot.2 []).1.1 = Some (StatusOK, text).
Proof.
  destruct (login_follows_decision (N := demo_wired demo_boot.2) demo_decode_body demo_encode (Config.Server demo_daemon.1.2) demo_daemon.2
    (fun _ => None) demo_pam_cfg demo_boot.2 (mkProc tt 0 []))
    as (body & req & rr & pd & k & st & hs & text & w' & ls & Hb & Hreq & _ & Hs & He & Hx & Hd).
  - cbv [Getenv]. unfold skipPAMTypes. rewrite !elem_of_cons, elem_of_nil. intros H. repeat (destruct H as [H|H]; [discriminate|]). exact H.
  - discriminate.
  - exact demo_accepts.
  - vm_compute. reflexivity.
  - vm_compute. reflexivity.
  - constructor; [vm_compute; reflexivity|constructor].
  - vm_compute. discriminate.
  - vm_compute. reflexivity.
  - reflexivity.
  - assert (Hbody : body = compact (any_doc (buildRequest demo_pam_cfg))) by (vm_compute in Hb |- *; congruence). subst body.
    vm_compute in Hreq. injection Hreq as <-. vm_compute in Hs. injection Hs as <-. vm_compute in He. injection He as <-.
    destruct Hd as [[Hd _]|(dec & -> & _ & _ & Hrun)]; [vm_compute in Hd; discriminate Hd|]. clear Hb k dec. exists text.
    assert (Hst : status_text (exchange (Handler_ (decode_body demo_decode_body) (encode_payload demo_encode) (Config.Server demo_daemon.1.2) demo_daemon.2)
      (delivered "http://core" (sdk_request (client demo_pam_cfg) "POST" "/v1/access/evaluate" (Some (compact (any_doc (buildRequest demo_pam_cfg))))))
      demo_boot.2 []).1.1 = Some (StatusOK, text)) by exact (f_equal (fun x => status_text x.1.1) Hx).
    split; [|exact Hst]. apply Hrun; [|vm_compute; reflexivity]. clear -Hst. vm_compute in Hst. injection Hst as <-. vm_compute. discriminate.
Defined.
