(* ===== verification/Cli.v ===== *)
(** * cli/oiafctl: the command line client (main.go)

    One run of the command: arguments, environment and files in, requests out, an
    exit code back. The state is what was written to standard output, as values
    ([item]): how Go prints a map with ["%v"] is not modelled, and neither are the
    messages on standard error. Decoding JSON is an answer of [encoding/json]; a
    JSON [null], and an empty answer, leave the decoded map or slice nil ([None]). *)

From S2P Require Import Prelude GoStrings GoTime GoFloat GoCrypto GoRunes GoJson GoHttp GoParse Types World Instances Api Config Server OktaRedact Sdk Pam.

Module globalOpts.
Record t := mk { server : string; token : string; output : string }.
End globalOpts.

(** What reaches standard output: a line, a value as indented JSON, a map's
    entries on a line, or a list of items under its label. *)
Inductive item :=
| Line (s : string)
| Json (v : any)
| Entries (m : list (string * any))
| Items (label : string) (l : list any).

Notation CM A := (PM (list item) A).

(** ** Global options *)

Fixpoint global_opts (o : globalOpts.t) (args : list string) : globalOpts.t * list string :=
  match args with
  | [] => (o, [])
  | a :: rest =>
      let set v := if String.eqb a "--server" then globalOpts.mk v (globalOpts.token o) (globalOpts.output o)
                   else if String.eqb a "--token" then globalOpts.mk (globalOpts.server o) v (globalOpts.output o)
                   else globalOpts.mk (globalOpts.server o) (globalOpts.token o) v in
      if String.eqb a "--server" || String.eqb a "--token" || String.eqb a "--output" then
        match rest with
        | v :: rest' => global_opts (set v) rest'
        | [] => (o, [])
        end
      else (o, args)
  end.

(** A map or a slice as [encoding/json] writes it: a nil one is [null]. *)
Definition map_value (m : option (list (string * any))) : any := match m with Some m => AObj m | None => ANil end.
Definition slice_value (l : option (list any)) : any := match l with Some l => AArr l | None => ANil end.

Definition or_else (a b : string) : string := if String.eqb a "" then b else a.

Section Commands.
Context {E : Env} {L : Lib} {N : Net}.
Context (json_map : string -> result (option (list (string * any)))) (json_list : string -> result (option (list any)))
        (json_strings : string -> result (list (string * string))).
Context (stdin_ReadAll : nat -> result string) (exec_Run : nat -> result unit).

(** The options with their defaults: environment, then the token file. *)
Definition resolve (env : environ) (o : globalOpts.t) : CM globalOpts.t :=
  let server := or_else (or_else (globalOpts.server o) (Getenv env "OIAF_SERVER")) "http://127.0.0.1:8080" in
  let token := or_else (globalOpts.token o) (Getenv env "OIAF_ADMIN_TOKEN") in
  token ← (if String.eqb token ""
           then data ← pask (fun n => os_ReadFile n ".oiaf/admin-token");
                mret (match data with Ok d => TrimSpace d | Err _ => token end)
           else mret token);
  mret (globalOpts.mk server token (or_else (globalOpts.output o) "text")).

Section Opts.
Context (opts : globalOpts.t).

(** ** Talking to the server *)

Definition cli_request (method path : string) (body : option string) : HttpRequest.t :=
  HttpRequest.mk method (TrimRight_slash (globalOpts.server opts) +:+ path)
    ((if String.eqb (globalOpts.token opts) "" then [] else [("Authorization", "Bearer " +:+ globalOpts.token opts)])
       ++ [("Content-Type", "application/json")])
    (default "" body).

Definition server_error (resp : HttpResponse.t) : string :=
  let prefix := "server error (" +:+ pretty (HttpResponse.StatusCode resp) +:+ "): " in
  match json_strings (HttpResponse.Body resp) with
  | Ok m => match find (fun kv => String.eqb kv.1 "error") m with
            | Some kv => prefix +:+ kv.2
            | None => prefix +:+ HttpResponse.Body resp
            end
  | Err _ => prefix +:+ HttpResponse.Body resp
  end.

(** [apiDo]; [zero] is the result left untouched by an empty body. *)
Definition apiDo {A} (method path : string) (body : option string) (dec : string -> result A) (zero : A) : CM (result A) :=
  let url := TrimRight_slash (globalOpts.server opts) +:+ path in
  if negb (http_NewRequest url) then mret (Err "failed to create request")
  else
    resp ← send (cli_request method path body);
    mret (match resp with
          | Err e => Err ("request failed: " +:+ e)
          | Ok resp =>
              if isNotSuccess (HttpResponse.StatusCode resp) then Err (server_error resp)
              else if String.eqb (HttpResponse.Body resp) "" then Ok zero
              else match dec (HttpResponse.Body resp) with
                   | Err e => Err ("failed to parse response: " +:+ e)
                   | Ok v => Ok v
                   end
          end).

Definition apiCall {A} (method path : string) (body : option any) (dec : string -> result A) (zero : A) : CM (result A) :=
  match body with
  | None => apiDo method path None dec zero
  | Some b => match Marshal b with
              | Err e => mret (Err ("failed to marshal request: " +:+ e))
              | Ok data => apiDo method path (Some data) dec zero
              end
  end.

Definition apiCallRaw {A} (method path raw : string) (dec : string -> result A) (zero : A) : CM (result A) :=
  apiDo method path (Some raw) dec zero.

(** ** Output *)

Definition emit (i : item) : CM unit := out ← pget; pput (out ++ [i]).

(** [output]: as JSON, or the text's form. *)
Definition output_ (json : any) (text : item) : CM Z :=
  if String.eqb (globalOpts.output opts) "json" then
    match Marshal json with
    | Err _ => mret 1
    | Ok _ => _ ← emit (Json json); mret 0
    end
  else _ ← emit text; mret 0.

Definition outputList (items : option (list any)) (label : string) : CM Z :=
  if String.eqb (globalOpts.output opts) "json" then
    match Marshal (slice_value items) with
    | Err _ => mret 1
    | Ok _ => _ ← emit (Json (slice_value items)); mret 0
    end
  else match default [] items with
       | [] => _ ← emit (Line ("no " +:+ label +:+ " found")); mret 0
       | items => _ ← emit (Items label items); mret 0
       end.

(** The endings of most commands: a failed call exits with 1. *)
Definition show_map (text : list (string * any) -> item) (m : CM (result (option (list (string * any))))) : CM Z :=
  r ← m;
  match r with
  | Err _ => mret 1
  | Ok resp => output_ (map_value resp) (text (default [] resp))
  end.

Definition show_list (label : string) (m : CM (result (option (list any)))) : CM Z :=
  r ← m;
  match r with
  | Err _ => mret 1
  | Ok items => outputList items label
  end.

Definition post (path : string) (body : option any) : CM (result (option (list (string * any)))) :=
  apiCall "POST" path body json_map None.
Definition post_raw (path raw : string) : CM (result (option (list (string * any)))) := apiCallRaw "POST" path raw json_map None.
Definition get_map (path : string) : CM (result (option (list (string * any)))) := apiCall "GET" path None json_map None.
Definition get_list (path : string) : CM (result (option (list any))) := apiCall "GET" path None json_list None.

(** [readBodyFile]. *)
Definition readBodyFile (path : string) : CM (result string) :=
  if String.eqb path "" then mret (Err "--file is required (use - for stdin)")
  else if String.eqb path "-" then
    data ← pask stdin_ReadAll;
    mret (match data with Ok d => Ok d | Err e => Err ("failed to read stdin: " +:+ e) end)
  else
    data ← pask (fun n => os_ReadFile n path);
    mret (match data with Ok d => Ok d | Err e => Err ("failed to read file: " +:+ e) end).

(** ** Commands *)

Definition cmdVersion : CM Z :=
  output_ (AObj [("name", AStr "oiafctl"); ("version", AStr "0.1.0")]) (Line "oiafctl version 0.1.0").

Definition cmdServer : CM Z :=
  r ← pask exec_Run;
  mret (match r with Ok _ => 0 | Err _ => 1 end).

Definition seed_identity : any :=
  AObj [("username", AStr "demo-user"); ("display_name", AStr "Demo User"); ("type", AStr "person");
        ("groups", AStrs (Some ["engineering"; "admin"])); ("email", AStr "demo@example.com");
        ("privileged", ABool false); ("usual_geo", AStr "US")].

Definition seed_policy : any :=
  AObj [("description", AStr "Demo policy: challenge non-admin access to critical resources"); ("enabled", ABool true);
        ("priority", AInt 100); ("effect", AStr "challenge");
        ("conditions", AObj [("resource_sensitivity", AStrs (Some ["critical"])); ("identity_groups", AStrs (Some ["engineering"]))]);
        ("challenge", AObj [("methods", AStrs (Some ["totp"]))])].

Definition seed_adapter : any :=
  AObj [("name", AStr "demo-adapter"); ("type", AStr "generic"); ("enabled", ABool true)].

Definition cmdSeed (args : list string) : CM Z :=
  match parse_flags [("dev", FBool)] [] args with
  | None => mret 1
  | Some set =>
      if negb (default false (ParseBool (flag_value set "dev" "false"))) then mret 1
      else
        r ← post "/v1/identities" (Some seed_identity);
        match r with
        | Err _ => mret 1
        | Ok _ =>
            _ ← emit (Line "created demo identity: demo-user");
            r ← post "/v1/policies" (Some seed_policy);
            match r with
            | Err _ => mret 1
            | Ok _ =>
                _ ← emit (Line "created demo policy");
                r ← post "/v1/adapters" (Some seed_adapter);
                match r with
                | Err _ => mret 1
                | Ok resp =>
                    _ ← emit (Line "created demo adapter: demo-adapter");
                    _ ← match member (default [] resp) "token" with
                        | AStr token => emit (Line ("adapter token: " +:+ token))
                        | _ => mret tt
                        end;
                    mret 0
                end
            end
        end
  end.

Definition cmdIdentity (args : list string) : CM Z :=
  match args with
  | [] => mret 1
  | sub :: rest =>
  if String.eqb sub "create" then
      match parse_flags [("username", FString); ("type", FString); ("groups", FString)] [] rest with
      | None => mret 1
      | Some set =>
          let username := flag_value set "username" "" in
          let groups := flag_value set "groups" "" in
          if String.eqb username "" then mret 1
          else
            let body := AObj ([("username", AStr username); ("type", AStr (flag_value set "type" "person"))] ++
              (if String.eqb groups "" then [] else [("groups", AStrs (Some (Split (ascii_of 44) groups)))])) in
            show_map (fun _ => Line ("created identity: " +:+ username)) (post "/v1/identities" (Some body))
      end
  else if String.eqb sub "list" then show_list "identities" (get_list "/v1/identities")
  else if String.eqb sub "get" then
    match rest with
    | id :: _ => show_map Entries (get_map ("/v1/identities/" +:+ id))
    | [] => mret 1
    end
  else mret 1
  end.

Definition cmdAdapter (args : list string) : CM Z :=
  match args with
  | [] => mret 1
  | sub :: rest =>
  if String.eqb sub "create" then
      match parse_flags [("name", FString); ("type", FString)] [] rest with
      | None => mret 1
      | Some set =>
          let name := flag_value set "name" "" in
          let atype := flag_value set "type" "" in
          if String.eqb name "" || String.eqb atype "" then mret 1
          else show_map Entries (post "/v1/adapters" (Some (AObj [("name", AStr name); ("type", AStr atype); ("enabled", ABool true)])))
      end
  else if String.eqb sub "list" then show_list "adapters" (get_list "/v1/adapters")
  else mret 1
  end.

(** A JSON object from a file, sent as it was read. *)
Definition post_file (path file : string) (text : list (string * any) -> item) : CM Z :=
  data ← pask (fun n => os_ReadFile n file);
  match data with
  | Err _ => mret 1
  | Ok data => match json_map data with
               | Err _ => mret 1
               | Ok v => show_map text (post path (Some (map_value v)))
               end
  end.

Definition cmdPolicy (args : list string) : CM Z :=
  match args with
  | [] => mret 1
  | sub :: rest =>
      if String.eqb sub "apply" then
        match rest with
        | file :: _ => post_file "/v1/policies" file (fun _ => Line "policy applied")
        | [] => mret 1
        end
      else if String.eqb sub "list" then show_list "policies" (get_list "/v1/policies")
      else mret 1
  end.

Definition cmdEvaluate (args : list string) : CM Z :=
  match parse_flags [("file", FString)] [] args with
  | None => mret 1
  | Some set =>
      let file := flag_value set "file" "" in
      if String.eqb file "" then mret 1 else post_file "/v1/access/evaluate" file Entries
  end.

(** A raw body from [--file], posted verbatim. *)
Definition finish (path : string) (args : list string) : CM Z :=
  match parse_flags [("file", FString)] [] args with
  | None => mret 1
  | Some set =>
      body ← readBodyFile (flag_value set "file" "");
      match body with
      | Err _ => mret 1
      | Ok body => show_map Entries (post_raw path body)
      end
  end.

Definition cmdChallengeWebAuthn (args : list string) : CM Z :=
  match args with
  | sub :: id :: rest =>
      if String.eqb sub "begin" then show_map Entries (post ("/v1/challenge/" +:+ id +:+ "/webauthn/begin") None)
      else if String.eqb sub "finish" then finish ("/v1/challenge/" +:+ id +:+ "/webauthn/finish") rest
      else mret 1
  | _ => mret 1
  end.

Definition cmdChallenge (args : list string) : CM Z :=
  match args with
  | [] => mret 1
  | sub :: rest0 =>
  if String.eqb sub "verify" then
    match rest0 with
    | [] => mret 1
    | id :: rest =>
      match parse_flags [("method", FString); ("code", FString)] [] rest with
      | None => mret 1
      | Some set =>
          let body := AObj [("method", AStr (flag_value set "method" "totp")); ("code", AStr (flag_value set "code" ""))] in
          show_map Entries (post ("/v1/challenge/" +:+ id +:+ "/verify") (Some body))
      end
    end
  else if String.eqb sub "webauthn" then cmdChallengeWebAuthn rest0
  else mret 1
  end.

Definition cmdTOTP (args : list string) : CM Z :=
  match args with
  | [] => mret 1
  | sub :: rest =>
  if String.eqb sub "generate-secret" then
      key ← pask (fun n => totp_Generate n "OIAF" "oiaf-user");
      match key with
      | Err _ => mret 1
      | Ok (secret, url) =>
          output_ (AObj [("otpauth_uri", AStr url); ("secret", AStr secret)])
            (Line ("secret: " +:+ secret +:+ of_bytes [10] +:+ "otpauth_uri: " +:+ url))
      end
  else if String.eqb sub "code" then
      match parse_flags [("secret", FString)] [] rest with
      | None => mret 1
      | Some set =>
          let secret := flag_value set "secret" "" in
          if String.eqb secret "" then mret 1
          else
            now ← pask clock;
            match totp_GenerateCode secret now with
            | Err _ => mret 1
            | Ok code => output_ (AObj [("code", AStr code)]) (Line ("code: " +:+ code))
            end
      end
  else mret 1
  end.

(** The two "begin" ceremonies print the options for the browser. *)
Definition begin_ (path : string) (with_factor : bool) : CM Z :=
  r ← post path (Some (AObj []));
  match r with
  | Err _ => mret 1
  | Ok resp =>
      if String.eqb (globalOpts.output opts) "json" then output_ (map_value resp) (Line "")
      else match find (fun kv => String.eqb kv.1 "publicKey") (default [] resp) with
           | None => mret 0
           | Some kv =>
               _ ← (if with_factor then emit (Entries [("factor_id", member (default [] resp) "factor_id")]) else mret tt);
               _ ← emit (Entries [("publicKey", kv.2)]);
               mret 0
           end
  end.

Definition cmdWebAuthn (args : list string) : CM Z :=
  let at_ id rest := "/v1/identities/" +:+ id +:+ "/factors/webauthn/" +:+ rest in
  match args with
  | sub :: id :: rest =>
      if String.eqb sub "register-begin" then begin_ (at_ id "registration/begin") true
      else if String.eqb sub "register-finish" then
        match rest with
        | factor :: rest' => finish (at_ id ("registration/" +:+ factor +:+ "/finish")) rest'
        | [] => mret 1
        end
      else if String.eqb sub "verify-begin" then begin_ (at_ id "verification/begin") false
      else if String.eqb sub "verify-finish" then finish (at_ id "verification/finish") rest
      else mret 1
  | _ => mret 1
  end.

Definition cmdAudit (args : list string) : CM Z :=
  match args with
  | [] => mret 1
  | sub :: _ =>
      if String.eqb sub "list" then show_list "audit events" (get_list "/v1/audit/events")
      else if String.eqb sub "verify" then show_map Entries (get_map "/v1/audit/verify")
      else mret 1
  end.

Definition command (cmd : string) (args : list string) : CM Z :=
  if String.eqb cmd "version" then cmdVersion
  else if String.eqb cmd "server" then cmdServer
  else if String.eqb cmd "seed" then cmdSeed args
  else if String.eqb cmd "identity" then cmdIdentity args
  else if String.eqb cmd "adapter" then cmdAdapter args
  else if String.eqb cmd "policy" then cmdPolicy args
  else if String.eqb cmd "evaluate" then cmdEvaluate args
  else if String.eqb cmd "challenge" then cmdChallenge args
  else if String.eqb cmd "totp" then cmdTOTP args
  else if String.eqb cmd "webauthn" then cmdWebAuthn args
  else if String.eqb cmd "audit" then cmdAudit args
  else mret 1.
End Opts.

Definition run (env : environ) (args : list string) : CM Z :=
  let '(o, remaining) := global_opts (globalOpts.mk "" "" "") args in
  opts ← resolve env o;
  match remaining with
  | [] => mret 1
  | cmd :: cmdArgs => command opts cmd cmdArgs
  end.
End Commands.

(** ** Facts *)

(** The path of a pattern with its wildcards filled in. *)
Fixpoint fill (p : list seg) (vals : list string) : list string :=
  match p, vals with
  | [], _ => []
  | Lit s :: p', _ => s :: fill p' vals
  | Wild _ :: p', v :: vals' => v :: fill p' vals'
  | Wild _ :: p', [] => "" :: fill p' []
  end.

Fixpoint path_text (segs : list string) : string :=
  match segs with [] => "" | s :: segs' => "/" +:+ s +:+ path_text segs' end.

(** *** What the commands are for *)

(** The usage text as a table: the words of a command, how many arguments that
    name something in the path follow them, and the endpoints it is for. *)
Definition usage : list (list string * nat * list endpoint) :=
  [(["version"], 0%nat, []); (["server"], 0%nat, []);
   (["seed"], 0%nat, [CreateIdentity; CreatePolicy; CreateAdapter]);
   (["identity"; "create"], 0%nat, [CreateIdentity]); (["identity"; "list"], 0%nat, [ListIdentities]);
   (["identity"; "get"], 1%nat, [GetIdentity]);
   (["adapter"; "create"], 0%nat, [CreateAdapter]); (["adapter"; "list"], 0%nat, [ListAdapters]);
   (["policy"; "apply"], 0%nat, [CreatePolicy]); (["policy"; "list"], 0%nat, [ListPolicies]);
   (["evaluate"], 0%nat, [AccessEvaluate]);
   (["challenge"; "verify"], 1%nat, [ChallengeVerify]);
   (["challenge"; "webauthn"; "begin"], 1%nat, [ChallengeWebAuthnBegin]);
   (["challenge"; "webauthn"; "finish"], 1%nat, [ChallengeWebAuthnFinish]);
   (["totp"; "generate-secret"], 0%nat, []); (["totp"; "code"], 0%nat, []);
   (["webauthn"; "register-begin"], 1%nat, [WebAuthnBeginRegistration]);
   (["webauthn"; "register-finish"], 2%nat, [WebAuthnFinishRegistration]);
   (["webauthn"; "verify-begin"], 1%nat, [WebAuthnBeginVerification]);
   (["webauthn"; "verify-finish"], 1%nat, [WebAuthnFinishVerification]);
   (["audit"; "list"], 0%nat, [ListAuditEvents]); (["audit"; "verify"], 0%nat, [VerifyAudit])].

Fixpoint begins_with (ws words : list string) : bool :=
  match ws, words with
  | [], _ => true
  | w :: ws', x :: words' => String.eqb w x && begins_with ws' words'
  | _ :: _, [] => false
  end.

(** The endpoints a command line is for, each with the values of its wildcards. *)
Definition intended (words : list string) : list (endpoint * list string) :=
  match find (fun row => begins_with row.1.1 words) usage with
  | Some (ws, n, es) => (fun e => (e, take n (drop (length ws) words))) <$> es
  | None => []
  end.

Definition wilds (segs : list seg) : list string := omap (fun s => match s with Wild n => Some n | Lit _ => None end) segs.

(** A request for an endpoint: the method and pattern of the server's table, every
    wildcard filled in, on the configured server and with the configured token. *)
Definition asks (opts : globalOpts.t) (want : endpoint * list string) (r : HttpRequest.t) : Prop := exists m segs body,
  (m, Exact segs, Server.Api want.1) ∈ api_routes /\ length want.2 = length (wilds segs) /\
  r = cli_request opts m (path_text (fill segs want.2)) body.

(** An answer to the request was a 2xx. *)
Definition carried_out {N : Net} (r : HttpRequest.t) : Prop := exists n resp,
  http_Do n r = Ok resp /\ 200 <= HttpResponse.StatusCode resp < 300.

Lemma success_range st : isNotSuccess st = false -> 200 <= st < 300.
Proof. unfold isNotSuccess. intros [H1 H2]%orb_false_iff. lia. Qed.

(** A text that is one segment of a path, written as it is. *)
Definition path_segment (v : string) : Prop :=
  v <> "" /\ v <> "." /\ v <> ".." /\ Forall (fun c => c ∉ ascii_of <$> [35; 37; 47; 63]) (String.list_ascii_of_string v).

(** *** Paths *)

(** Filling a pattern in gives a path it matches, with the values filled in. *)
Lemma fill_matches p vals : length vals = length (wilds p) -> exists vs, match_segs p (fill p vals) = Some vs /\ vs.*2 = vals.
Proof.
  revert vals. induction p as [|[s|n] p IH]; intros vals Hl.
  - destruct vals; [|done]. by exists [].
  - cbn in *. rewrite String.eqb_refl. by apply IH.
  - destruct vals as [|v vals]; [done|]. cbn in *. injection Hl as Hl. destruct (IH vals Hl) as (vs & -> & Hvs).
    exists ((n, v) :: vs). cbn. by rewrite Hvs.
Qed.

Definition no_slash (s : string) : Prop := s <> "" /\ ascii_of 47 ∉ String.list_ascii_of_string s.

Lemma segment_no_slash v : path_segment v -> no_slash v.
Proof.
  intros (Hne & _ & _ & Hc). split; [done|]. intros Hin. rewrite Forall_forall in Hc. apply (Hc _ Hin).
  apply list_elem_of_In. cbn. auto.
Qed.

Lemma fill_no_slash p vals : Forall (fun s => match s with Lit l => no_slash l | Wild _ => True end) p ->
  length vals = length (wilds p) -> Forall no_slash vals -> Forall no_slash (fill p vals).
Proof.
  intros Hp. revert vals. induction Hp as [|[s|n] p Hs _ IH]; intros vals Hl Hv; cbn in *; [done| |].
  - constructor; [done|]. by apply IH.
  - destruct vals as [|v vals]; [done|]. apply Forall_cons_1 in Hv as [Hv Hvs]. constructor; [done|]. apply IH; [by injection Hl|done].
Qed.

Lemma Split_path_text segs : segs <> [] -> Forall no_slash segs -> Split (ascii_of 47) (path_text segs) = "" :: segs.
Proof.
  intros Hne Hs. destruct segs as [|s segs]; [done|]. clear Hne. cbn [path_text].
  change ("/" +:+ s +:+ path_text segs) with (String (ascii_of 47) (s +:+ path_text segs)). cbn [Split].
  rewrite Ascii.eqb_refl. f_equal. revert s Hs. induction segs as [|t segs IH]; intros s Hs; apply Forall_cons_1 in Hs as [[Hn Hc] Hs].
  - cbn [path_text]. by rewrite str_app_empty, Split_whole.
  - cbn [path_text]. change ("/" +:+ t +:+ path_text segs) with (String (ascii_of 47) (t +:+ path_text segs)).
    rewrite Split_app by done. f_equal. by apply IH.
Qed.

Lemma segments_path_text segs : segs <> [] -> Forall no_slash segs ->
  segments (path_text segs) = segs /\ ends_in_slash (path_text segs) = false.
Proof.
  intros Hne Hs. unfold segments, ends_in_slash. rewrite (Split_path_text _ Hne Hs). split.
  - rewrite filter_cons_False by (intros Hc; by apply Hc). clear Hne. induction Hs as [|x l [Hx _] Hs IH]; [done|]. by rewrite filter_cons_True, IH.
  - apply bool_decide_eq_false. intros Hl. destruct segs as [|s segs] using rev_ind; [done|].
    rewrite app_comm_cons, last_snoc in Hl. injection Hl as ->. apply Forall_app in Hs as [_ Hs].
    apply Forall_cons_1 in Hs as [[Hs _] _]. done.
Qed.

Lemma api_literals m segs e : (m, Exact segs, Server.Api e) ∈ api_routes ->
  segs <> [] /\ Forall (fun s => match s with Lit l => no_slash l | Wild _ => True end) segs.
Proof.
  assert (H : forallb (fun e => match e.1.2 with
                                | Exact segs => negb (bool_decide (segs = [])) && forallb (fun s => match s with
                                    | Lit l => bool_decide (l <> "") && bool_decide (ascii_of 47 ∉ String.list_ascii_of_string l)
                                    | Wild _ => true end) segs
                                | Root => false end) api_routes = true) by (vm_compute; reflexivity).
  rewrite forallb_forall in H. intros Hin%list_elem_of_In. apply H in Hin. cbn in Hin. apply andb_true_iff in Hin as [Hne Hall].
  split; [intros ->; by rewrite bool_decide_eq_true_2 in Hne|]. rewrite forallb_forall in Hall. apply Forall_forall.
  intros [l|] Hl; [|done]. apply list_elem_of_In, Hall, andb_true_iff in Hl as [H1 H2]. by rewrite bool_decide_eq_true in H1, H2.
Qed.

(** Such a request finds the endpoint. *)
Lemma asks_routed cfg opts e vals r : asks opts (e, vals) r -> Forall path_segment vals ->
  exists vs, mux_lookup (server_routes cfg) (delivered (TrimRight_slash (globalOpts.server opts)) r) = Some (Server.Api e, vs) /\ vs.*2 = vals.
Proof.
  intros (m & segs & body & Hin & Hl & ->) Hv. cbn [fst snd] in *. destruct (api_literals _ _ _ Hin) as [Hne Hlit].
  assert (Hfill : Forall no_slash (fill segs vals)).
  { apply fill_no_slash; [done|done|]. eapply Forall_impl; [exact Hv|]. apply segment_no_slash. }
  assert (Hfne : fill segs vals <> []) by (destruct segs as [|[|] segs]; [done..|by destruct vals]).
  destruct (segments_path_text _ Hfne Hfill) as [Hs Ht]. destruct (fill_matches segs vals Hl) as (vs & Hvs & Hvals).
  exists vs. split; [|done]. apply mux_exact. exists m, segs. unfold delivered, cli_request. cbn [HReq.Method HReq.Trailing HReq.Path HttpRequest.Method HttpRequest.URL].
  rewrite TrimPrefix_app, Hs, Ht. split; [done|]. unfold method_matches. by rewrite String.eqb_refl.
Qed.

(** *** Commands and what they are for *)

Section Facts.
Context {E : Env} {L : Lib} {N : Net} (opts : globalOpts.t).

(** Code whose requests are, in order, the first ones of [es], and all of them and
    carried out when it ends [good]. *)
Definition talks {A} (es : list (endpoint * list string)) (good : A -> Prop) (m : CM A) : Prop := forall s a s', m s = (a, s') ->
  exists rs done_ rest, reqs s' = reqs s ++ rs /\ es = done_ ++ rest /\ Forall2 (asks opts) done_ rs /\
    (good a -> rest = [] /\ Forall carried_out rs).

Definition ok {A} (r : result A) : Prop := exists v, r = Ok v.
Definition exit_ok (z : Z) : Prop := z = 0.

(** Code that sends nothing. *)
Definition quiet {A} (m : CM A) : Prop := forall s, reqs (m s).2 = reqs s.

Lemma talks_quiet {A} (good : A -> Prop) (m : CM A) : quiet m -> talks [] good m.
Proof.
  intros Hq s a s' Hm. specialize (Hq s). rewrite Hm in Hq. exists [], [], []. rewrite app_nil_r. by split_and!.
Qed.

(** A failure may come before any request. *)
Lemma talks_exit es : talks es exit_ok (mret 1).
Proof. intros s a s' [= <- <-]. exists [], [], es. rewrite app_nil_r. by split_and!. Qed.

Lemma talks_done : talks [] exit_ok (mret 0).
Proof. by apply talks_quiet. Qed.

Lemma quiet_ask {A} (f : nat -> A) : quiet (pask f). Proof. done. Qed.
Lemma quiet_emit i : quiet (emit i). Proof. done. Qed.
Lemma quiet_ret {A} (a : A) : quiet (mret a). Proof. done. Qed.
Lemma quiet_bind {A B} (m : CM A) (f : A -> CM B) : quiet m -> (forall a, quiet (f a)) -> quiet (x ← m; f x).
Proof. intros Hm Hf s. st_unfold. specialize (Hm s). destruct (m s) as [a s1]. rewrite Hf. exact Hm. Qed.

Lemma talks_bind {A B} es (good : B -> Prop) (m : CM A) (f : A -> CM B) :
  quiet m -> (forall a, talks es good (f a)) -> talks es good (x ← m; f x).
Proof.
  intros Hm Hf s b s'. st_unfold. specialize (Hm s). destruct (m s) as [a s1]. cbn in Hm. rewrite <- Hm. apply Hf.
Qed.

(** A call whose failure ends the command with exit code 1. *)
Lemma talks_call {A} es es' (m : CM (result A)) (f : result A -> CM Z) :
  talks es ok m -> (forall v, talks es' exit_ok (f (Ok v))) -> (forall e, f (Err e) = mret 1) -> talks (es ++ es') exit_ok (x ← m; f x).
Proof.
  intros Hm Hf He s b s'. st_unfold. destruct (m s) as [[v|e] s1] eqn:H1; intros H2;
    destruct (Hm s _ s1 H1) as (r1 & d1 & t1 & Hq1 & -> & Ha1 & Hc1).
  - destruct Hc1 as [-> Hc1]; [by eexists|]. destruct (Hf v s1 b s' H2) as (r2 & d2 & t2 & Hq2 & -> & Ha2 & Hc2).
    exists (r1 ++ r2), (d1 ++ d2), t2. rewrite Hq2, Hq1, app_nil_r, !app_assoc. split_and!; [done..|by apply Forall2_app|].
    intros Hg. destruct (Hc2 Hg) as [-> Hc]. split; [done|]. by apply Forall_app.
  - rewrite He in H2. injection H2 as <- <-. exists r1, d1, (t1 ++ es'). rewrite app_assoc. by split_and!.
Qed.

Lemma talks_last {A} es (m : CM (result A)) (f : result A -> CM Z) :
  talks es ok m -> (forall v, talks [] exit_ok (f (Ok v))) -> (forall e, f (Err e) = mret 1) -> talks es exit_ok (x ← m; f x).
Proof. intros Hm Hf He. rewrite <- (app_nil_r es). by apply talks_call. Qed.

Context (json_map : string -> result (option (list (string * any)))) (json_list : string -> result (option (list any)))
        (json_strings : string -> result (list (string * string))).

(** An entry of the server's table, with as many values as it has wildcards. *)
Definition listed (m : string) (segs : list seg) (e : endpoint) (vals : list string) : bool :=
  bool_decide ((m, Exact segs, Server.Api e) ∈ api_routes) && Nat.eqb (length vals) (length (wilds segs)).

Lemma talks_apiDo {A} segs e vals m path body (dec : string -> result A) zero : listed m segs e vals = true ->
  path = path_text (fill segs vals) -> talks [(e, vals)] ok (apiDo json_strings opts m path body dec zero).
Proof.
  intros [Hin%bool_decide_eq_true Hl%Nat.eqb_eq]%andb_true_iff -> s a s'. unfold apiDo. destruct (http_NewRequest _); cbn [negb].
  2:{ intros [= <- <-]. exists [], [], [(e, vals)]. rewrite app_nil_r. split_and!; [done..|]. by intros [? ?]. }
  st_unfold. unfold send. intros [= Ha <-]. cbn [reqs].
  exists [cli_request opts m (path_text (fill segs vals)) body], [(e, vals)], []. split_and!; [done..|repeat constructor; by exists m, segs, body|].
  intros [v Hv]. subst a. split; [done|]. repeat constructor. exists (ptick s).
  destruct (http_Do _ _) as [resp|]; [|done]. exists resp. split; [done|].
  destruct (isNotSuccess (HttpResponse.StatusCode resp)) eqn:Hs; [done|]. by apply success_range.
Qed.

Lemma talks_at {A} segs e vals m path body (dec : string -> result A) zero : listed m segs e vals = true ->
  path = path_text (fill segs vals) -> talks [(e, vals)] ok (apiCall json_strings opts m path body dec zero).
Proof.
  intros Hl Hp. unfold apiCall. destruct body as [b|]; [|by eapply talks_apiDo].
  destruct (Marshal b); [by eapply talks_apiDo|]. intros s a s' [= <- <-]. exists [], [], [(e, vals)].
  rewrite app_nil_r. split_and!; [done..|]. by intros [? ?].
Qed.

Lemma quiet_output json text : quiet (output_ opts json text).
Proof. unfold output_. destruct (String.eqb _ _); [by destruct (Marshal json)|done]. Qed.

Lemma quiet_outputList items label : quiet (outputList opts items label).
Proof. unfold outputList. destruct (String.eqb _ _); [by destruct (Marshal _)|by destruct (default [] items)]. Qed.

Lemma talks_show_map es text m : talks es ok m -> talks es exit_ok (show_map opts text m).
Proof. intros Hm. apply talks_last; [done| |done]. intros v. apply talks_quiet, quiet_output. Qed.

Lemma talks_show_list es label m : talks es ok m -> talks es exit_ok (show_list opts label m).
Proof. intros Hm. apply talks_last; [done| |done]. intros v. apply talks_quiet, quiet_outputList. Qed.

Lemma quiet_read stdin path : quiet (readBodyFile stdin path).
Proof. unfold readBodyFile. destruct (String.eqb path ""); [done|]. by destruct (String.eqb path "-"). Qed.

Lemma talks_post_file segs e path file text : listed "POST" segs e [] = true -> path = path_text (fill segs []) ->
  talks [(e, [])] exit_ok (post_file json_map json_strings opts path file text).
Proof.
  intros Hl Hp. unfold post_file. apply talks_bind; [apply quiet_ask|]. intros [data|]; [|apply talks_exit].
  destruct (json_map data); [|apply talks_exit]. by eapply talks_show_map, talks_at.
Qed.

Lemma talks_finish segs e vals stdin path args : listed "POST" segs e vals = true -> path = path_text (fill segs vals) ->
  talks [(e, vals)] exit_ok (finish json_map json_strings stdin opts path args).
Proof.
  intros Hl Hp. unfold finish. destruct (parse_flags _ _ _); [|apply talks_exit].
  apply talks_bind; [apply quiet_read|]. intros [body|]; [|apply talks_exit]. by eapply talks_show_map, talks_apiDo.
Qed.

Lemma talks_begin segs e vals path b : listed "POST" segs e vals = true -> path = path_text (fill segs vals) ->
  talks [(e, vals)] exit_ok (begin_ json_map json_strings opts path b).
Proof.
  intros Hl Hp. unfold begin_. apply talks_last; [by eapply talks_at| |done]. intros resp.
  destruct (String.eqb _ _); [apply talks_quiet, quiet_output|]. destruct (find _ _); [|apply talks_done].
  apply talks_quiet. apply quiet_bind; [by destruct b|]. intros _. by apply quiet_bind.
Qed.

Context (stdin_ReadAll : nat -> result string) (exec_Run : nat -> result unit).
Definition v1 (l : list seg) : list seg := Lit "v1" :: l.
Definition id_ : seg := Wild "id".

(** Split a command into its branches, a word being the one compared with where
    they agree; those that exit at once need no request. *)
Ltac branches :=
  repeat (match goal with
          | |- talks _ _ (if String.eqb ?a ?b then _ else _) => destruct (String.eqb_spec a b) as [->|_]
          | |- talks _ _ (if ?b then _ else _) => destruct b
          | |- talks _ _ (match ?x with _ => _ end) => destruct x
          end; try apply talks_exit).

Lemma talks_seed args : talks (intended ("seed" :: args)) exit_ok (cmdSeed json_map json_strings opts args).
Proof.
  unfold cmdSeed. branches.
  apply (talks_call [_] [_; _]); [by eapply (talks_at (v1 [Lit "identities"]) CreateIdentity [])| |done]. intros _.
  apply talks_bind; [apply quiet_emit|intros _].
  apply (talks_call [_] [_]); [by eapply (talks_at (v1 [Lit "policies"]) CreatePolicy [])| |done]. intros _.
  apply talks_bind; [apply quiet_emit|intros _].
  apply talks_last; [by eapply (talks_at (v1 [Lit "adapters"]) CreateAdapter [])| |done]. intros resp.
  apply talks_quiet. apply quiet_bind; [done|]. intros _. apply quiet_bind; [|done]. by destruct (member _ "token").
Qed.

Lemma talks_identity args : talks (intended ("identity" :: args)) exit_ok (cmdIdentity json_map json_list json_strings opts args).
Proof.
  unfold cmdIdentity. branches.
  - by eapply talks_show_map, (talks_at (v1 [Lit "identities"]) CreateIdentity []).
  - by eapply talks_show_list, (talks_at (v1 [Lit "identities"]) ListIdentities []).
  - eapply talks_show_map, (talks_at (v1 [Lit "identities"; id_]) GetIdentity [_]); [done|]. cbn. by rewrite str_app_empty.
Qed.

Lemma talks_adapter args : talks (intended ("adapter" :: args)) exit_ok (cmdAdapter json_map json_list json_strings opts args).
Proof.
  unfold cmdAdapter. branches.
  - by eapply talks_show_map, (talks_at (v1 [Lit "adapters"]) CreateAdapter []).
  - by eapply talks_show_list, (talks_at (v1 [Lit "adapters"]) ListAdapters []).
Qed.

Lemma talks_policy args : talks (intended ("policy" :: args)) exit_ok (cmdPolicy json_map json_list json_strings opts args).
Proof.
  unfold cmdPolicy. branches.
  - by eapply (talks_post_file (v1 [Lit "policies"]) CreatePolicy).
  - by eapply talks_show_list, (talks_at (v1 [Lit "policies"]) ListPolicies []).
Qed.

Lemma talks_evaluate args : talks (intended ("evaluate" :: args)) exit_ok (cmdEvaluate json_map json_strings opts args).
Proof. unfold cmdEvaluate. branches. by eapply (talks_post_file (v1 [Lit "access"; Lit "evaluate"]) AccessEvaluate). Qed.

Lemma talks_challenge args : talks (intended ("challenge" :: args)) exit_ok (cmdChallenge json_map json_strings stdin_ReadAll opts args).
Proof.
  unfold cmdChallenge, cmdChallengeWebAuthn. branches.
  - by eapply talks_show_map, (talks_at (v1 [Lit "challenge"; id_; Lit "verify"]) ChallengeVerify [_]).
  - by eapply talks_show_map, (talks_at (v1 [Lit "challenge"; id_; Lit "webauthn"; Lit "begin"]) ChallengeWebAuthnBegin [_]).
  - by eapply (talks_finish (v1 [Lit "challenge"; id_; Lit "webauthn"; Lit "finish"]) ChallengeWebAuthnFinish [_]).
Qed.

Lemma quiet_totp args : quiet (cmdTOTP opts args).
Proof.
  unfold cmdTOTP. destruct args as [|sub rest]; [done|]. destruct (String.eqb sub _); [|destruct (String.eqb sub _); [|done]].
  - apply quiet_bind; [done|]. intros [[secret url]|]; [apply quiet_output|done].
  - destruct (parse_flags _ _ _); [|done]. cbv zeta. destruct (String.eqb _ ""); [done|]. apply quiet_bind; [done|]. intros now.
    destruct (totp_GenerateCode _ _); [apply quiet_output|done].
Qed.

(** The words that follow a command decide which row it is. *)
Lemma intended_totp args : intended ("totp" :: args) = [].
Proof.
  unfold intended.
  replace (find (fun row => begins_with row.1.1 ("totp" :: args)) usage)
    with (find (fun row => begins_with row.1.1 ("totp" :: args)) [(["totp"; "generate-secret"], 0%nat, [] : list endpoint); (["totp"; "code"], 0%nat, [])]).
  - cbn [find]. by repeat (destruct (begins_with _ _); [done|]).
  - cbn -[String.eqb]. by repeat (destruct (match args with [] => _ | _ => _ end); [done|]).
Qed.

Lemma talks_webauthn args : talks (intended ("webauthn" :: args)) exit_ok (cmdWebAuthn json_map json_strings stdin_ReadAll opts args).
Proof.
  unfold cmdWebAuthn. cbv zeta. branches.
  - by eapply (talks_begin (v1 [Lit "identities"; id_; Lit "factors"; Lit "webauthn"; Lit "registration"; Lit "begin"])
      WebAuthnBeginRegistration [_]).
  - by eapply (talks_finish (v1 [Lit "identities"; id_; Lit "factors"; Lit "webauthn"; Lit "registration"; Wild "factor_id"; Lit "finish"])
      WebAuthnFinishRegistration [_; _]).
  - by eapply (talks_begin (v1 [Lit "identities"; id_; Lit "factors"; Lit "webauthn"; Lit "verification"; Lit "begin"])
      WebAuthnBeginVerification [_]).
  - by eapply (talks_finish (v1 [Lit "identities"; id_; Lit "factors"; Lit "webauthn"; Lit "verification"; Lit "finish"])
      WebAuthnFinishVerification [_]).
Qed.

Lemma talks_audit args : talks (intended ("audit" :: args)) exit_ok (cmdAudit json_map json_list json_strings opts args).
Proof.
  unfold cmdAudit. branches.
  - by eapply talks_show_list, (talks_at (v1 [Lit "audit"; Lit "events"]) ListAuditEvents []).
  - by eapply talks_show_map, (talks_at (v1 [Lit "audit"; Lit "verify"]) VerifyAudit []).
Qed.

Lemma talks_command cmd args :
  talks (intended (cmd :: args)) exit_ok (command json_map json_list json_strings stdin_ReadAll exec_Run opts cmd args).
Proof.
  unfold command. branches.
  - apply talks_quiet, quiet_output.
  - by apply talks_quiet.
  - apply talks_seed.
  - apply talks_identity.
  - apply talks_adapter.
  - apply talks_policy.
  - apply talks_evaluate.
  - apply talks_challenge.
  - rewrite intended_totp. apply talks_quiet, quiet_totp.
  - apply talks_webauthn.
  - apply talks_audit.
Qed.
End Facts.

Lemma resolve_quiet {N : Net} env o s : exists opts k, resolve env o s = (opts, mkProc (ps s) k (reqs s)).
Proof.
  unfold resolve, pask. st_unfold. destruct (String.eqb (or_else _ _) ""); [by eexists _, _|].
  destruct s. by eexists _, _.
Qed.

(** ** Properties *)

Definition demo_cli_net (status : Z) : Net := {|
  http_Do := fun _ _ => Ok (HttpResponse.mk status (fun _ => "") "{}");
  url_Parse := fun _ => Err ""; net_ParseIP := fun _ => None; http_ParseTime := fun _ => None;
  ctx_Err := fun _ => None; rand_Float64 := fun _ => of_int 0; os_ReadFile := fun _ _ => Ok "tok";
  tty_ReadLine := fun _ _ => None; stdin_Scan := fun _ => Ok None
|}.

Definition demo_cli (status : Z) (args : list string) : Z * Proc (list item) :=
  run (N := demo_cli_net status) (fun _ => Ok None) (fun _ => Ok None) (fun _ => Ok []) (fun _ => Err "") (fun _ => Err "") (fun _ => None) args
    (mkProc [] 0 []).

Example cli_ex : let r := demo_cli 200 ["--server"; "http://core/"; "challenge"; "verify"; "ch-1"; "--code"; "123456"] in
  (r.1, HttpRequest.URL <$> reqs r.2, HttpRequest.Header <$> reqs r.2)
  = (0, ["http://core/v1/challenge/ch-1/verify"], [[("Authorization", "Bearer tok"); ("Content-Type", "application/json")]]).
Proof. vm_compute. reflexivity. Qed.



(** ** What modelling showed *)

(** Reporting an audit event through the adapter SDK posts to a path the server
    only serves for GET: it is answered with 405. *)
Theorem ReportEvent_unroutable cfg r :
  HReq.Method r = "POST" -> HReq.Path r = ["v1"; "audit"; "events"] -> mux_lookup (server_routes cfg) r = None.
Proof.
  intros Hm Hp. unfold mux_lookup.
  replace (find (entry_matches r) (server_routes cfg)) with (None : option route_entry); [done|].
  symmetry. unfold server_routes, entry_matches, method_matches, match_path. rewrite Hm, Hp.
  destruct (ServerConfig.MetricsEnabled cfg), (ServerConfig.UIEnabled cfg), (HReq.Trailing r); vm_compute; reflexivity.
Qed.
