(* ===== verification/Simulator.v ===== *)
(** * tools/simulator: a test client (main.go)

    As [Cli]: a run of the process, with its requests and its standard output. *)

From S2P Require Import Prelude GoStrings GoTime GoFloat GoCrypto GoRunes GoJson GoHttp GoParse Types World Instances Api Config Server OktaRedact Sdk Pam Cli.

Section Simulator.
Context {E : Env} {L : Lib} {N : Net}.
Context (json_map : string -> result (list (string * any))).

Definition sim_request (server token method path : string) (body : option string) : HttpRequest.t :=
  HttpRequest.mk method (TrimRight_slash server +:+ path)
    [("Authorization", "Bearer " +:+ token); ("Content-Type", "application/json")] (default "" body).

(** [apiCall]; every caller passes a body. *)
Definition sim_call (server token method path : string) (body : any) : CM (result (list (string * any))) :=
  match Marshal body with
  | Err e => mret (Err ("failed to marshal request: " +:+ e))
  | Ok data =>
      if negb (http_NewRequest (TrimRight_slash server +:+ path)) then mret (Err "failed to create request")
      else
        resp ← send (sim_request server token method path (Some data));
        mret (match resp with
              | Err e => Err ("request failed: " +:+ e)
              | Ok resp =>
                  if isNotSuccess (HttpResponse.StatusCode resp)
                  then Err ("server error (" +:+ pretty (HttpResponse.StatusCode resp) +:+ "): " +:+ HttpResponse.Body resp)
                  else if String.eqb (HttpResponse.Body resp) "" then Ok []
                  else match json_map (HttpResponse.Body resp) with
                       | Err e => Err ("failed to parse response: " +:+ e)
                       | Ok m => Ok m
                       end
              end)
  end.

Definition report (m : CM (result (list (string * any)))) : CM Z :=
  r ← m;
  match r with
  | Err _ => mret 1
  | Ok resp => _ ← emit (Json (AObj resp)); mret 0
  end.

(** The flags of a command, and whether one that is required is empty. *)
Definition strings (names : list string) : list (string * flag_kind) := (fun n => (n, FString)) <$> names.
Definition missing (set : list (string * string)) (names : list string) : bool :=
  existsb (fun n => String.eqb (flag_value set n "") "") names.

Definition cmdAccessRequest (args : list string) : CM Z :=
  let names := ["server"; "token"; "file"] in
  match parse_flags (strings names) [] args with
  | None => mret 1
  | Some set =>
      if missing set names then mret 1
      else
        data ← pask (fun n => os_ReadFile n (flag_value set "file" ""));
        match data with
        | Err _ => mret 1
        | Ok data => match json_map data with
                     | Err _ => mret 1
                     | Ok req => report (sim_call (flag_value set "server" "") (flag_value set "token" "") "POST" "/v1/access/evaluate" (AObj req))
                     end
        end
  end.

Definition cmdTOTPCode (args : list string) : CM Z :=
  match parse_flags (strings ["secret"]) [] args with
  | None => mret 1
  | Some set =>
      if missing set ["secret"] then mret 1
      else
        now ← pask clock;
        match totp_GenerateCode (flag_value set "secret" "") now with
        | Err _ => mret 1
        | Ok code => _ ← emit (Line code); mret 0
        end
  end.

Definition enroll_path (id : string) : string := "/v1/identities/" +:+ id +:+ "/factors/push/enroll".

Definition cmdDeviceRegister (args : list string) : CM Z :=
  let names := ["server"; "token"; "identity-id"; "name"] in
  match parse_flags (strings names) [] args with
  | None => mret 1
  | Some set =>
      if missing set names then mret 1
      else report (sim_call (flag_value set "server" "") (flag_value set "token" "") "POST" (enroll_path (flag_value set "identity-id" ""))
                     (AObj [("name", AStr (flag_value set "name" "")); ("type", AStr "push")]))
  end.

Definition push_body (set : list (string * string)) : any :=
  AObj [("method", AStr "push"); ("device_id", AStr (flag_value set "device-id" "")); ("secret", AStr (flag_value set "secret" ""));
        ("number", AInt (default 0 (ParseInt0 (flag_value set "number" "0"))))].

Definition cmdApprovePush (args : list string) : CM Z :=
  let names := ["server"; "token"; "challenge-id"; "device-id"; "secret"] in
  match parse_flags (strings names ++ [("number", FInt)]) [] args with
  | None => mret 1
  | Some set =>
      if missing set names then mret 1
      else report (sim_call (flag_value set "server" "") (flag_value set "token" "") "POST"
                     ("/v1/challenge/" +:+ flag_value set "challenge-id" "" +:+ "/verify") (push_body set))
  end.

Definition run (args : list string) : CM Z :=
  match args with
  | [] => mret 1
  | cmd :: cmdArgs =>
      if String.eqb cmd "access-request" then cmdAccessRequest cmdArgs
      else if String.eqb cmd "totp-code" then cmdTOTPCode cmdArgs
      else if String.eqb cmd "device-register" then cmdDeviceRegister cmdArgs
      else if String.eqb cmd "approve-push" then cmdApprovePush cmdArgs
      else mret 1
  end.
End Simulator.

(** ** Facts *)

(** A run sends at most one request, and reports success only for a 2xx. *)
Definition honest {E : Env} {N : Net} (m : CM Z) : Prop := forall s code s', m s = (code, s') ->
  exists rs, reqs s' = reqs s ++ rs /\ (length rs <= 1)%nat /\ (code = 0 -> Forall carried_out rs).

Section Facts.
Context {E : Env} {L : Lib} {N : Net} (json_map : string -> result (list (string * any))).

Lemma honest_quiet m : (forall s, reqs (m s).2 = reqs s) -> honest m.
Proof. intros Hq s code s' Hm. specialize (Hq s). rewrite Hm in Hq. exists []. rewrite app_nil_r. split_and!; [done|cbn; lia|constructor]. Qed.

Lemma honest_ret z : honest (mret z).
Proof. by apply honest_quiet. Qed.

Lemma honest_ask {A} (f : nat -> A) k : (forall a, honest (k a)) -> honest (x ← pask f; k x).
Proof. intros Hk s code s'. unfold pask. st_unfold. intros Hr. apply Hk in Hr. exact Hr. Qed.

Lemma honest_report server token method path body : honest (report (sim_call json_map server token method path body)).
Proof.
  intros s code s'. unfold report, sim_call. destruct (Marshal body) as [data|]; st_unfold.
  2:{ intros [= <- <-]. exists []. rewrite app_nil_r. split_and!; [done|cbn; lia|done]. }
  destruct (http_NewRequest _); cbn [negb]; [|st_unfold; intros [= <- <-]; exists []; rewrite app_nil_r; split_and!; [done|cbn; lia|done]].
  unfold send, emit, pget, pput. st_unfold. intros Hr. exists [sim_request server token method path (Some data)].
  destruct (http_Do (ptick s) _) as [resp|] eqn:Hd; [|injection Hr as <- <-; split_and!; [done|cbn; lia|done]].
  destruct (isNotSuccess _) eqn:Hn; [injection Hr as <- <-; split_and!; [done|cbn; lia|done]|].
  assert (Hc : carried_out (sim_request server token method path (Some data))) by (exists (ptick s), resp; split; [done|by apply success_range]).
  destruct (String.eqb _ ""); [|destruct (json_map _)]; injection Hr as <- <-; split_and!; cbn; try done; try lia; by repeat constructor.
Qed.
End Facts.

(** ** Properties *)

(** the simulator does not claim what was not done: whatever its arguments
    and files, a run sends at most one request, and when it exits with 0 the
    server answered that request with a 2xx. *)
Theorem simulator_honest {E : Env} {L : Lib} {N : Net} json_map args (s : Proc (list item)) code s' :
  run json_map args s = (code, s') ->
  exists rs, reqs s' = reqs s ++ rs /\ (length rs <= 1)%nat /\ (code = 0 -> Forall carried_out rs).
Proof.
  revert s code s'. change (honest (run json_map args)). unfold run. destruct args as [|cmd args]; [apply honest_ret|].
  destruct (String.eqb cmd "access-request"); [|destruct (String.eqb cmd "totp-code"); [|destruct (String.eqb cmd "device-register");
    [|destruct (String.eqb cmd "approve-push"); [|apply honest_ret]]]].
  - unfold cmdAccessRequest. destruct (parse_flags _ _ _); [|apply honest_ret]. destruct (missing _ _); [apply honest_ret|].
    apply honest_ask. intros [data|]; [|apply honest_ret]. destruct (json_map data); [apply honest_report|apply honest_ret].
  - unfold cmdTOTPCode. destruct (parse_flags _ _ _); [|apply honest_ret]. destruct (missing _ _); [apply honest_ret|].
    apply honest_ask. intros now. destruct (totp_GenerateCode _ _); [by apply honest_quiet|apply honest_ret].
  - unfold cmdDeviceRegister. destruct (parse_flags _ _ _); [|apply honest_ret]. destruct (missing _ _); [apply honest_ret|apply honest_report].
  - unfold cmdApprovePush. destruct (parse_flags _ _ _); [|apply honest_ret]. destruct (missing _ _); [apply honest_ret|apply honest_report].
Qed.

Definition demo_sim : list string :=
  ["approve-push"; "--server"; "http://core"; "--token"; "t"; "--challenge-id"; "c"; "--device-id"; "d"; "--secret"; "s"; "--number"; "0x10"].

Lemma simulator_honest_witness : exists rs,
  reqs (run (N := demo_cli_net 302) (fun _ => Ok []) demo_sim (mkProc [] 0 [])).2 = rs /\ (length rs <= 1)%nat /\
  (run (N := demo_cli_net 302) (fun _ => Ok []) demo_sim (mkProc [] 0 [])).1 = 1.
Proof.
  destruct (simulator_honest (N := demo_cli_net 302) (fun _ => Ok []) demo_sim (mkProc [] 0 [])
    (run (N := demo_cli_net 302) (fun _ => Ok []) demo_sim (mkProc [] 0 [])).1
    (run (N := demo_cli_net 302) (fun _ => Ok []) demo_sim (mkProc [] 0 [])).2) as (rs & Hq & Hl & _); [vm_compute; reflexivity|].
  exists rs. split; [exact Hq|]. split; [exact Hl|vm_compute; reflexivity].
Defined.

(** ** What modelling showed *)

(** "device-register" posts to a path no pattern of the server has. *)
Theorem device_register_unroutable cfg id r :
  HReq.Method r = "POST" -> HReq.Path r = ["v1"; "identities"; id; "factors"; "push"; "enroll"] ->
  mux_lookup (server_routes cfg) r = None.
Proof.
  intros Hm Hp. unfold mux_lookup.
  replace (find (entry_matches r) (server_routes cfg)) with (None : option route_entry); [done|].
  symmetry. unfold server_routes, entry_matches, method_matches, match_path. rewrite Hm, Hp.
  destruct (ServerConfig.MetricsEnabled cfg), (ServerConfig.UIEnabled cfg), (HReq.Trailing r); reflexivity.
Qed.
